(** * Destruction core of game.js: a shallow embedding

    The development follows src/game.js.  JavaScript numbers are modelled as
    exact rationals [Q] (equality of numbers is [==]); [Math.random()] and
    [Date.now()] are inputs of the functions that call them; calls that only
    spawn cosmetic fragments are recorded in an effect log. *)

From Stdlib Require Import QArith Qminmax Qround Qabs ZArith List Lia Lqa Bool.
From Stdlib Require Import Sorting.Sorted Sorting.Permutation.
Import ListNotations.
Open Scope Q_scope.

(** ** Numbers *)

(** [a < b] as a boolean test. *)
Definition Qlt_bool (a b : Q) : bool := negb (Qle_bool b a).

(** [Math.pow(x, n)] for the literal exponents 2 and 3 the code uses. *)
Fixpoint Math_pow (x : Q) (n : nat) : Q :=
  match n with
  | O => 1
  | S k => x * Math_pow x k
  end.

(** [Math.min], [Math.max] and [Math.floor]. *)
Definition Math_min (a b : Q) : Q := Qmin a b.
Definition Math_max (a b : Q) : Q := Qmax a b.
Definition Math_floor (a : Q) : Z := Qfloor a.

(** A natural number read as a JavaScript number. *)
Definition num (n : nat) : Q := inject_Z (Z.of_nat n).

(** game.js 893-894 (exponent 3) and 5219-5220, 5483-5484 (exponent 2):
    [Math.pow(1 - Math.min(1, distance / maxDistance), p)]. *)
Definition falloff (p : nat) (distance maxDistance : Q) : Q :=
  let normalizedDist := Math_min 1 (distance / maxDistance) in
  Math_pow (1 - normalizedDist) p.

(** game.js 3029-3030, 3413-3414 (exponent 3) and 3584-3585, 6344-6345
    (exponent 2): the call sites that test [distance < damageRadius] first and
    so leave the [Math.min] out. *)
Definition falloffNear (p : nat) (distance damageRadius : Q) : Q :=
  let normalizedDist := distance / damageRadius in
  Math_pow (1 - normalizedDist) p.

(** [Math.sqrt] is not rational; the functions that call it take it as an
    argument, and the properties below are all that is used of it. *)
Record SqrtOk (sqrt : Q -> Q) : Prop := mkSqrtOk
  { sqrt_compat : forall a b, a == b -> sqrt a == sqrt b;
    sqrt_zero : sqrt 0 == 0;
    sqrt_nonneg : forall a, 0 <= sqrt a }.

(** A square root to six decimals, exact on the squares of integers, to run
    the functions on concrete inputs. *)
Definition sqrt6 (a : Q) : Q :=
  let r := Qred a in
  Z.sqrt (Qnum r * Zpos (Qden r) * 1000000000000) # (Qden r * 1000000).

(** [Math.sqrt(Math.pow(px - qx, 2) + Math.pow(py - qy, 2))]. *)
Definition distanceBetween (sqrt : Q -> Q) (px py qx qy : Q) : Q :=
  sqrt (Math_pow (px - qx) 2 + Math_pow (py - qy) 2).

(** [null] read as a number is 0. *)
Definition nullToZero (o : option Q) : Q :=
  match o with Some v => v | None => 0 end.

(** The elements of an array with their positions. *)
Definition indexed {A : Type} (l : list A) : list (nat * A) :=
  combine (seq 0 (length l)) l.

(** The element at position [i] of an array replaced by [f] of it; nothing
    happens when there is no such element. *)
Fixpoint updateAt {A : Type} (i : nat) (f : A -> A) (l : list A) : list A :=
  match l, i with
  | [], _ => []
  | a :: rest, O => f a :: rest
  | a :: rest, S k => a :: updateAt k f rest
  end.

(** A JavaScript [Map] from building indices to numbers, in insertion
    order. *)
Definition NumMap : Type := list (nat * Q).

Definition mapHas (k : nat) (m : NumMap) : bool :=
  existsb (fun e => (fst e =? k)%nat) m.

(** [m.get(k)], with 0 when the key is absent ([m.get(k) || 0]). *)
Fixpoint mapGet (k : nat) (m : NumMap) : Q :=
  match m with
  | [] => 0
  | (k1, v1) :: rest => if (k1 =? k)%nat then v1 else mapGet k rest
  end.

(** [m.set(k, v)]: an existing key keeps its place. *)
Fixpoint mapSet (k : nat) (v : Q) (m : NumMap) : NumMap :=
  match m with
  | [] => [(k, v)]
  | (k1, v1) :: rest =>
      if (k1 =? k)%nat then (k, v) :: rest else (k1, v1) :: mapSet k v rest
  end.

(** Side effects on the global arrays, one constructor per callee: the call is
    recorded with the arguments it reads; how many fragments the callee then
    pushes is bounded by the cap it tests before each push. *)
Inductive Effect : Type :=
| SpawnMicroDebrisBurst (oid : nat) (stage : nat)
| SpawnDustCloud (oid : nat) (stage : nat)
| SpawnDustPuff (oid : nat) (impactDistance : Q)
| DetachStickyBombs (oid : nat)
| SpawnCollapseDebrisBurst (oid : nat) (progress : Q)
| SpawnFinalCollapseDebris (oid : nat)
| SpawnLooseDebris (oid : nat)
| PushFireEmitter (fx fy : Q)
| PushExplosion (ex ey radius : Q)
| SpawnBridgeChunks (segmentIndex : Z) (debrisCount : Z).

(** ** Building (game.js 536-1839) *)

Module Building.

Inductive State : Type := Alive | Collapsing | Collapsed.

Definition State_eqb (s t : State) : bool :=
  match s, t with
  | Alive, Alive | Collapsing, Collapsing | Collapsed, Collapsed => true
  | _, _ => false
  end.

Record Scar : Type := mkScar
  { scar_x : Q; scar_y : Q; scar_radius : Q; scar_opacity : Q }.

(** The fields of [class Building] that damage and collapse read or write.
    [oid] stands for the identity of the object (what [===] compares);
    [crackCache] and [impactScarCache] hold [true] for a cached canvas and
    [false] for [null]. *)
Record t : Type := mk
  { oid : nat;
    x : Q; y : Q; width : Q; height : Q;
    maxHealth : Q; health : Q; materialResistance : Q;
    state : State; destroyed : bool; collapsing : bool;
    collapseStartTime : option Q; collapseDuration : Q;
    lastDebrisSpawn : Q; debrisSpawnInterval : Q;
    shakeX : Q; shakeY : Q; shakeDecay : Q;
    collapseTilt : Q; collapseSink : Q;
    damageStage : nat; previousDamageStage : nat;
    crackCache : bool; impactScars : list Scar; impactScarCache : bool;
    lastHitTime : Q }.

(** game.js 537-563: the constructor, with the three random draws it makes for
    [maxHealth], [materialResistance], [collapseDuration] and the one for
    [debrisSpawnInterval]. *)
Definition new (o : nat) (bx by_ w h : Q) (r1 r2 r3 r4 : Q) : t :=
  let mh := 300 + r1 * 200 in
  {| oid := o; x := bx; y := by_; width := w; height := h;
     maxHealth := mh; health := mh; materialResistance := 0.7 + r2 * 0.6;
     state := Alive; destroyed := false; collapsing := false;
     collapseStartTime := None; collapseDuration := 900 + r3 * 700;
     lastDebrisSpawn := 0; debrisSpawnInterval := 100 + r4 * 80;
     shakeX := 0; shakeY := 0; shakeDecay := 0.9;
     collapseTilt := 0; collapseSink := 0;
     damageStage := 0; previousDamageStage := 0;
     crackCache := false; impactScars := []; impactScarCache := false;
     lastHitTime := 0 |}.

(** game.js 861-867. *)
Definition getCenterX (b : t) : Q := x b + width b / 2.
Definition getCenterY (b : t) : Q := y b + height b / 2.

(** The random draws of one [takeDamage] call: two for the impact point
    (932-933), two for [applyShake] (1581-1582), one for the initial tilt of
    [startCollapse] (1314). *)
Record Draws : Type := mkDraws
  { rImpactX : Q; rImpactY : Q; rShakeX : Q; rShakeY : Q; rTilt : Q }.

(** game.js 954-964. *)
Definition addImpactScar (localX localY radius : Q) (b : t) : t :=
  {| oid := oid b; x := x b; y := y b; width := width b; height := height b;
     maxHealth := maxHealth b; health := health b;
     materialResistance := materialResistance b;
     state := state b; destroyed := destroyed b; collapsing := collapsing b;
     collapseStartTime := collapseStartTime b;
     collapseDuration := collapseDuration b;
     lastDebrisSpawn := lastDebrisSpawn b;
     debrisSpawnInterval := debrisSpawnInterval b;
     shakeX := shakeX b; shakeY := shakeY b; shakeDecay := shakeDecay b;
     collapseTilt := collapseTilt b; collapseSink := collapseSink b;
     damageStage := damageStage b;
     previousDamageStage := previousDamageStage b;
     crackCache := crackCache b;
     impactScars := impactScars b ++ [mkScar localX localY radius 0.6];
     impactScarCache := false;
     lastHitTime := lastHitTime b |}.

(** game.js 1580-1583. *)
Definition applyShake (r1 r2 : Q) (intensity : Q) (b : t) : t :=
  {| oid := oid b; x := x b; y := y b; width := width b; height := height b;
     maxHealth := maxHealth b; health := health b;
     materialResistance := materialResistance b;
     state := state b; destroyed := destroyed b; collapsing := collapsing b;
     collapseStartTime := collapseStartTime b;
     collapseDuration := collapseDuration b;
     lastDebrisSpawn := lastDebrisSpawn b;
     debrisSpawnInterval := debrisSpawnInterval b;
     shakeX := (r1 - 0.5) * intensity; shakeY := (r2 - 0.5) * intensity;
     shakeDecay := shakeDecay b;
     collapseTilt := collapseTilt b; collapseSink := collapseSink b;
     damageStage := damageStage b;
     previousDamageStage := previousDamageStage b;
     crackCache := crackCache b; impactScars := impactScars b;
     impactScarCache := impactScarCache b;
     lastHitTime := lastHitTime b |}.

(** game.js 1307-1325.  The loop over [stickyBombs] is the effect
    [DetachStickyBombs]. *)
Definition startCollapse (rTilt_ : Q) (now : Q) (b : t) : t * list Effect :=
  if negb (State_eqb (state b) Alive) then (b, [])
  else
    ({| oid := oid b; x := x b; y := y b; width := width b;
        height := height b;
        maxHealth := maxHealth b; health := health b;
        materialResistance := materialResistance b;
        state := Collapsing; destroyed := destroyed b;
        collapsing := collapsing b;
        collapseStartTime := Some now;
        collapseDuration := collapseDuration b;
        lastDebrisSpawn := now;
        debrisSpawnInterval := debrisSpawnInterval b;
        shakeX := shakeX b; shakeY := shakeY b; shakeDecay := shakeDecay b;
        collapseTilt := (rTilt_ - 0.5) * 0.1; collapseSink := 0;
        damageStage := damageStage b;
        previousDamageStage := previousDamageStage b;
        crackCache := crackCache b; impactScars := impactScars b;
        impactScarCache := impactScarCache b;
        lastHitTime := lastHitTime b |},
     [DetachStickyBombs (oid b)]).

(** game.js 904-914: the stage of a health fraction. *)
Definition stageOf (healthPercent : Q) : nat :=
  if Qle_bool healthPercent 0 then 3%nat
  else if Qle_bool healthPercent 0.20 then 3%nat
  else if Qle_bool healthPercent 0.50 then 2%nat
  else if Qle_bool healthPercent 0.75 then 1%nat
  else 0%nat.

(** game.js 887-896: resistance, then the cubed falloff when a distance is
    given. *)
Definition finalDamage (b : t) (damage distance maxDistance : Q) : Q :=
  let adjustedDamage := damage * materialResistance b in
  if Qlt_bool 0 distance && Qlt_bool 0 maxDistance
  then adjustedDamage * falloff 3 distance maxDistance
  else adjustedDamage.

(** Health before the clamp at 0 (game.js 898). *)
Definition rawHealth (b : t) (damage distance maxDistance : Q) : Q :=
  health b - finalDamage b damage distance maxDistance.

(** game.js 898-927: the health drops, the stage is recomputed and a crossing
    into a higher stage spawns the burst, the dust cloud and drops the
    caches. *)
Definition applyDamage (damage distance maxDistance : Q) (b : t)
  : t * list Effect :=
  let health1 := rawHealth b damage distance maxDistance in
  let healthPercent := health1 / maxHealth b in
  let previous := damageStage b in
  let stage := stageOf healthPercent in
  let crossed := (previous <? stage)%nat && (0 <? stage)%nat in
  ({| oid := oid b; x := x b; y := y b; width := width b;
      height := height b;
      maxHealth := maxHealth b; health := health1;
      materialResistance := materialResistance b;
      state := state b; destroyed := destroyed b;
      collapsing := collapsing b;
      collapseStartTime := collapseStartTime b;
      collapseDuration := collapseDuration b;
      lastDebrisSpawn := lastDebrisSpawn b;
      debrisSpawnInterval := debrisSpawnInterval b;
      shakeX := shakeX b; shakeY := shakeY b; shakeDecay := shakeDecay b;
      collapseTilt := collapseTilt b; collapseSink := collapseSink b;
      damageStage := stage; previousDamageStage := previous;
      crackCache := if crossed then false else crackCache b;
      impactScars := impactScars b;
      impactScarCache := if crossed then false else impactScarCache b;
      lastHitTime := lastHitTime b |},
   if crossed
   then SpawnMicroDebrisBurst (oid b) stage ::
        (if (2 <=? stage)%nat then [SpawnDustCloud (oid b) stage] else [])
   else []).

(** game.js 929-935: the impact scar of a hit strictly inside the radius. *)
Definition scarOnHit (rs : Draws) (distance maxDistance : Q) (b : t) : t :=
  if Qlt_bool 0 distance && Qlt_bool distance maxDistance
  then
    let impactX := x b + width b / 2 + (rImpactX rs - 0.5) * width b * 0.3 in
    let impactY := y b + height b * 0.3
                   + (rImpactY rs - 0.5) * height b * 0.4 in
    addImpactScar (impactX - x b) (impactY - y b)
                  (Math_min 15 (maxDistance * 0.1)) b
  else b.

(** [this.lastHitTime = currentTime] (game.js 942). *)
Definition setLastHitTime (v : Q) (b : t) : t :=
  {| oid := oid b; x := x b; y := y b; width := width b; height := height b;
     maxHealth := maxHealth b; health := health b;
     materialResistance := materialResistance b;
     state := state b; destroyed := destroyed b; collapsing := collapsing b;
     collapseStartTime := collapseStartTime b;
     collapseDuration := collapseDuration b;
     lastDebrisSpawn := lastDebrisSpawn b;
     debrisSpawnInterval := debrisSpawnInterval b;
     shakeX := shakeX b; shakeY := shakeY b; shakeDecay := shakeDecay b;
     collapseTilt := collapseTilt b; collapseSink := collapseSink b;
     damageStage := damageStage b;
     previousDamageStage := previousDamageStage b;
     crackCache := crackCache b; impactScars := impactScars b;
     impactScarCache := impactScarCache b;
     lastHitTime := v |}.

(** [this.health = 0] (game.js 946). *)
Definition setHealth (v : Q) (b : t) : t :=
  {| oid := oid b; x := x b; y := y b; width := width b; height := height b;
     maxHealth := maxHealth b; health := v;
     materialResistance := materialResistance b;
     state := state b; destroyed := destroyed b; collapsing := collapsing b;
     collapseStartTime := collapseStartTime b;
     collapseDuration := collapseDuration b;
     lastDebrisSpawn := lastDebrisSpawn b;
     debrisSpawnInterval := debrisSpawnInterval b;
     shakeX := shakeX b; shakeY := shakeY b; shakeDecay := shakeDecay b;
     collapseTilt := collapseTilt b; collapseSink := collapseSink b;
     damageStage := damageStage b;
     previousDamageStage := previousDamageStage b;
     crackCache := crackCache b; impactScars := impactScars b;
     impactScarCache := impactScarCache b;
     lastHitTime := lastHitTime b |}.

(** game.js 937-943: wobble and dust puff, at most once per 100 ms. *)
Definition wobbleOnHit (rs : Draws) (now distance : Q) (b : t)
  : t * list Effect :=
  if Qlt_bool 100 (now - lastHitTime b)
  then
    (setLastHitTime now
       (applyShake (rShakeX rs) (rShakeY rs)
                   (2 + num (damageStage b) * 1.5) b),
     [SpawnDustPuff (oid b)
        (if Qlt_bool 0 distance then distance else width b / 2)])
  else (b, []).

(** game.js 945-951: the clamp at 0 and the start of the collapse. *)
Definition collapseAtZero (rs : Draws) (now : Q) (b : t) : t * list Effect :=
  if Qle_bool (health b) 0
  then
    let b1 := setHealth 0 b in
    if State_eqb (state b1) Alive
    then startCollapse (rTilt rs) now b1
    else (b1, [])
  else (b, []).

(** game.js 884-952.  The default arguments are [distance = 0] and
    [maxDistance = 150]. *)
Definition takeDamage (rs : Draws) (now : Q)
    (damage distance maxDistance : Q) (b : t) : t * list Effect :=
  if destroyed b then (b, [])
  else
    let '(b1, e1) := applyDamage damage distance maxDistance b in
    let b2 := scarOnHit rs distance maxDistance b1 in
    let '(b3, e3) := wobbleOnHit rs now distance b2 in
    let '(b4, e4) := collapseAtZero rs now b3 in
    (b4, e1 ++ e3 ++ e4).

(** game.js 1327-1364, with its three random draws (tilt wobble, shakeX,
    shakeY). *)
Definition updateCollapse (r1 r2 r3 : Q) (now : Q) (b : t)
  : t * list Effect :=
  if negb (State_eqb (state b) Collapsing) then (b, [])
  else
    let elapsed := now - nullToZero (collapseStartTime b) in
    let progress := Math_min 1 (elapsed / collapseDuration b) in
    let tilt := collapseTilt b + (r1 - 0.5) * 0.02 * progress in
    let lowStage := (damageStage b <? 3)%nat in
    let spawn := Qle_bool (debrisSpawnInterval b) (now - lastDebrisSpawn b) in
    let finished := Qle_bool 1 progress in
    ({| oid := oid b; x := x b; y := y b; width := width b;
        height := height b;
        maxHealth := maxHealth b; health := health b;
        materialResistance := materialResistance b;
        state := if finished then Collapsed else state b;
        destroyed := if finished then true else destroyed b;
        collapsing := if finished then false else collapsing b;
        collapseStartTime := collapseStartTime b;
        collapseDuration := collapseDuration b;
        lastDebrisSpawn := if spawn then now else lastDebrisSpawn b;
        debrisSpawnInterval := debrisSpawnInterval b;
        shakeX := (r2 - 0.5) * 3 * (1 - progress);
        shakeY := (r3 - 0.5) * 3 * (1 - progress);
        shakeDecay := shakeDecay b;
        collapseTilt := Math_max (-0.3) (Math_min 0.3 tilt);
        collapseSink := progress * height b * 0.15;
        damageStage := if lowStage then 3%nat else damageStage b;
        previousDamageStage := previousDamageStage b;
        crackCache := if lowStage then false else crackCache b;
        impactScars := impactScars b;
        impactScarCache := impactScarCache b;
        lastHitTime := lastHitTime b |},
     (if spawn then [SpawnCollapseDebrisBurst (oid b) progress] else [])
     ++ (if finished then [SpawnFinalCollapseDebris (oid b)] else [])).

(** game.js 1586-1629; [r1] is the draw compared with 0.02, the other three go
    to [updateCollapse]. *)
Definition update (r1 r2 r3 r4 : Q) (now : Q) (b : t) : t * list Effect :=
  if State_eqb (state b) Collapsing then updateCollapse r2 r3 r4 now b
  else
    ({| oid := oid b; x := x b; y := y b; width := width b;
        height := height b;
        maxHealth := maxHealth b; health := health b;
        materialResistance := materialResistance b;
        state := state b; destroyed := destroyed b;
        collapsing := collapsing b;
        collapseStartTime := collapseStartTime b;
        collapseDuration := collapseDuration b;
        lastDebrisSpawn := lastDebrisSpawn b;
        debrisSpawnInterval := debrisSpawnInterval b;
        shakeX := shakeX b * shakeDecay b; shakeY := shakeY b * shakeDecay b;
        shakeDecay := shakeDecay b;
        collapseTilt := collapseTilt b; collapseSink := collapseSink b;
        damageStage := damageStage b;
        previousDamageStage := previousDamageStage b;
        crackCache := crackCache b; impactScars := impactScars b;
        impactScarCache := impactScarCache b;
        lastHitTime := lastHitTime b |},
     if (2 <=? damageStage b)%nat && Qlt_bool r1 0.02
     then [SpawnLooseDebris (oid b)] else []).

(** The fields that the claims read. *)
Definition core (b : t) :=
  (health b, damageStage b, state b, destroyed b, maxHealth b,
   materialResistance b, oid b, previousDamageStage b).

(** What the constructor establishes and every method keeps. *)
Record Inv (b : t) : Prop := mkInv
  { inv_maxHealth : 0 < maxHealth b;
    inv_health : 0 <= health b /\ health b <= maxHealth b;
    inv_resistance : 0.7 <= materialResistance b /\
                     materialResistance b <= 1.3;
    inv_destroyed : destroyed b = true <-> state b = Collapsed;
    inv_stage : damageStage b = stageOf (health b / maxHealth b);
    inv_dead : state b <> Alive -> health b == 0 }.

(** The calls a building receives during play. *)
Inductive Op : Type :=
| CallTakeDamage (rs : Draws) (now damage distance maxDistance : Q)
| CallUpdate (r1 r2 r3 r4 : Q) (now : Q).

Definition step (op : Op) (b : t) : t * list Effect :=
  match op with
  | CallTakeDamage rs now damage distance maxDistance =>
      takeDamage rs now damage distance maxDistance b
  | CallUpdate r1 r2 r3 r4 now => update r1 r2 r3 r4 now b
  end.

(** Every weapon passes a damage that is not negative. *)
Definition okOp (op : Op) : Prop :=
  match op with
  | CallTakeDamage _ _ damage _ _ => 0 <= damage
  | CallUpdate _ _ _ _ _ => True
  end.

Fixpoint run (ops : list Op) (b : t) : t * list Effect :=
  match ops with
  | [] => (b, [])
  | op :: rest =>
      let '(b1, e1) := step op b in
      let '(b2, e2) := run rest b1 in
      (b2, e1 ++ e2)
  end.

(** Number of steps of [ops] at which the stage rises. *)
Fixpoint crossings (ops : list Op) (b : t) : nat :=
  match ops with
  | [] => 0%nat
  | op :: rest =>
      let b1 := fst (step op b) in
      ((if (damageStage b <? damageStage b1)%nat then 1 else 0)
       + crossings rest b1)%nat
  end.

(** Number of steps of [ops] at which the stage rises to 2 or 3. *)
Fixpoint heavyCrossings (ops : list Op) (b : t) : nat :=
  match ops with
  | [] => 0%nat
  | op :: rest =>
      let b1 := fst (step op b) in
      ((if (damageStage b <? damageStage b1)%nat
            && (2 <=? damageStage b1)%nat then 1 else 0)
       + heavyCrossings rest b1)%nat
  end.

Definition isBurst (e : Effect) : bool :=
  match e with SpawnMicroDebrisBurst _ _ => true | _ => false end.

Definition isDustCloud (e : Effect) : bool :=
  match e with SpawnDustCloud _ _ => true | _ => false end.

Definition bursts (log : list Effect) : nat := length (filter isBurst log).
Definition dustClouds (log : list Effect) : nat :=
  length (filter isDustCloud log).

(** game.js 869-873. *)
Definition contains (px py : Q) (b : t) : bool :=
  Qle_bool (x b) px && Qle_bool px (x b + width b)
  && Qle_bool (y b) py && Qle_bool py (y b + height b).

(** game.js 875-881. *)
Definition intersects (rectX rectY rectW rectH : Q) (b : t) : bool :=
  Qlt_bool rectX (x b + width b) && Qlt_bool (x b) (rectX + rectW)
  && Qlt_bool rectY (y b + height b) && Qlt_bool (y b) (rectY + rectH).

(** The place of a state in ['alive' | 'collapsing' | 'collapsed']. *)
(** The rectangle of a building. *)
Definition box (b : t) : Q * Q * Q * Q := (x b, y b, width b, height b).

Definition rank (s : State) : nat :=
  match s with Alive => 0 | Collapsing => 1 | Collapsed => 2 end.

(** A building of 60 by 200 with [maxHealth = 400] and
    [materialResistance = 1.0], and draws that are all 0.5. *)
Definition sample : t := new 1 100 300 60 200 0.5 0.5 0.5 0.5.
Definition calm : Draws := mkDraws 0.5 0.5 0.5 0.5 0.5.

(** The sample after a lethal hit at time 1000 and an update at time 3000,
    when its collapse has run to the end. *)
Definition wreck : t :=
  fst (run [CallTakeDamage calm 1000 500 0 150;
            CallUpdate 0.5 0.5 0.5 0.5 3000] sample).

(** Two hits of 120, an update, and a hit of 300. *)
Definition firstHit : list Op := [CallTakeDamage calm 1000 120 0 150].
Definition laterHits : list Op :=
  [CallTakeDamage calm 2000 120 0 150;
   CallUpdate 0.5 0.5 0.5 0.5 2016;
   CallTakeDamage calm 3000 300 0 150].

End Building.

(** ** BridgeSegment (game.js 5738-5949) *)

Module BridgeSegment.

Inductive State : Type := Intact | Damaged | Broken | Dynamic.

Definition State_eqb (s t : State) : bool :=
  match s, t with
  | Intact, Intact | Damaged, Damaged | Broken, Broken
  | Dynamic, Dynamic => true
  | _, _ => false
  end.

(** A joint object [{segment, broken}]: the neighbour is the segment next to
    this one, so only the flag is kept; [None] is [null].  The cable
    attachments are positions in the [hangers] of the bridge. *)
Record t : Type := mk
  { baseX : Q; baseY : Q; x : Q; y : Q; w : Q; h : Q; index : nat;
    maxHealth : Q; health : Q; state : State;
    isKinematic : bool;
    velocityX : Q; velocityY : Q; rotation : Q; angularVelocity : Q;
    mass : Q;
    leftJoint : option bool; rightJoint : option bool;
    cableAttachments : list nat; cableBreakForce : Q }.

(** game.js 5739-5774, with the draws for [maxHealth] and
    [cableBreakForce]. *)
Definition new (sx sy sw sh : Q) (i : nat) (r1 r2 : Q) : t :=
  {| baseX := sx; baseY := sy; x := sx; y := sy; w := sw; h := sh;
     index := i;
     maxHealth := 80 + r1 * 40; health := 80 + r1 * 40; state := Intact;
     isKinematic := true;
     velocityX := 0; velocityY := 0; rotation := 0; angularVelocity := 0;
     mass := 1.0 + inject_Z (Z.of_nat i mod 3) * 0.3;
     leftJoint := None; rightJoint := None;
     cableAttachments := []; cableBreakForce := 50 + r2 * 30 |}.

(** [this.health = v; this.state = st]. *)
Definition setHealthState (v : Q) (st : State) (s : t) : t :=
  {| baseX := baseX s; baseY := baseY s; x := x s; y := y s; w := w s;
     h := h s; index := index s;
     maxHealth := maxHealth s; health := v; state := st;
     isKinematic := isKinematic s;
     velocityX := velocityX s; velocityY := velocityY s;
     rotation := rotation s; angularVelocity := angularVelocity s;
     mass := mass s;
     leftJoint := leftJoint s; rightJoint := rightJoint s;
     cableAttachments := cableAttachments s;
     cableBreakForce := cableBreakForce s |}.

(** game.js 5776-5786 without the call at 5782: the segment after the hit,
    and whether [this.bridgeRef.onSegmentBroken(this)] is to be called. *)
Definition takeDamage (damage : Q) (s : t) : t * bool :=
  if State_eqb (state s) Broken || State_eqb (state s) Dynamic
  then (s, false)
  else
    let health1 := health s - damage in
    if Qle_bool health1 0
    then (setHealthState 0 Broken s, true)
    else if Qlt_bool health1 (maxHealth s * 0.5)
         then (setHealthState health1 Damaged s, false)
         else (setHealthState health1 (state s) s, false).

(** game.js 5940-5948. *)
Definition makeDynamic (impulseX impulseY torque : Q) (s : t) : t :=
  if isKinematic s
  then
    {| baseX := baseX s; baseY := baseY s; x := x s; y := y s; w := w s;
       h := h s; index := index s;
       maxHealth := maxHealth s; health := health s; state := Dynamic;
       isKinematic := false;
       velocityX := velocityX s + impulseX / mass s;
       velocityY := velocityY s + impulseY / mass s;
       rotation := rotation s;
       angularVelocity := angularVelocity s + torque / mass s;
       mass := mass s;
       leftJoint := leftJoint s; rightJoint := rightJoint s;
       cableAttachments := cableAttachments s;
       cableBreakForce := cableBreakForce s |}
  else s.

Inductive Side : Type := Left | Right.

(** game.js 5930-5937. *)
Definition breakJoint (side : Side) (s : t) : t :=
  {| baseX := baseX s; baseY := baseY s; x := x s; y := y s; w := w s;
     h := h s; index := index s;
     maxHealth := maxHealth s; health := health s; state := state s;
     isKinematic := isKinematic s;
     velocityX := velocityX s; velocityY := velocityY s;
     rotation := rotation s; angularVelocity := angularVelocity s;
     mass := mass s;
     leftJoint :=
       match side, leftJoint s with
       | Left, Some _ => Some true
       | _, j => j
       end;
     rightJoint :=
       match side, rightJoint s with
       | Right, Some _ => Some true
       | _, j => j
       end;
     cableAttachments := cableAttachments s;
     cableBreakForce := cableBreakForce s |}.

(** game.js 6106-6111: [if (segment.leftJoint) segment.breakJoint('left')]
    and the same on the right. *)
Definition breakJoints (s : t) : t :=
  let s1 := match leftJoint s with
            | Some _ => breakJoint Left s
            | None => s
            end in
  match rightJoint s1 with
  | Some _ => breakJoint Right s1
  | None => s1
  end.

End BridgeSegment.

(** ** Bridge (game.js 5951-6563) *)

Module Bridge.

Record Hanger : Type := mkHanger
  { hangerX : Q; anchorX : Q; anchorY : Q; broken : bool; hangerBreakTime : Q;
    stiffness : Q; restLength : Q; breakForce : Q }.

(** An entry [{segment, breakTime}] of [destructionSequence]; the segment is
    named by its position in [segments]. *)
Record Scheduled : Type := mkScheduled { target : nat; breakTime : Q }.

Record t : Type := mk
  { x : Q; y : Q; width : Q; height : Q;
    segments : list BridgeSegment.t;
    towerWidth : Q; towerHeight : Q; leftTowerX : Q; rightTowerX : Q;
    leftTowerHealth : Q; rightTowerHealth : Q;
    swayOffset : Q; swayVelocity : Q; swayFrequency : Q; swayDamping : Q;
    baseDamping : Q; swayAmplitude : Q; swayActive : bool;
    swayStartTime : Q; swayDuration : Q;
    hangers : list Hanger;
    cableBreakSequence : list (nat * Q);
    destructionSequence : list Scheduled }.

(** The readings of [Math.random()] and [Date.now()] during one call of
    [onSegmentBroken]: [now] is read at 6090 and [clock i] at 6210 in round
    [i] of the scheduling loop. *)
Record Env : Type := mkEnv
  { rAmplitude : Q; rVelocity : Q; rImpulse : Q; rTorque : Q;
    rDelay : Q; rCount : Q; rChunks : Q;
    now : Q; clock : nat -> Q }.

Definition setSegments (l : list BridgeSegment.t) (br : t) : t :=
  {| x := x br; y := y br; width := width br; height := height br;
     segments := l;
     towerWidth := towerWidth br; towerHeight := towerHeight br;
     leftTowerX := leftTowerX br; rightTowerX := rightTowerX br;
     leftTowerHealth := leftTowerHealth br;
     rightTowerHealth := rightTowerHealth br;
     swayOffset := swayOffset br; swayVelocity := swayVelocity br;
     swayFrequency := swayFrequency br; swayDamping := swayDamping br;
     baseDamping := baseDamping br; swayAmplitude := swayAmplitude br;
     swayActive := swayActive br;
     swayStartTime := swayStartTime br; swayDuration := swayDuration br;
     hangers := hangers br;
     cableBreakSequence := cableBreakSequence br;
     destructionSequence := destructionSequence br |}.

Definition setDestructionSequence (l : list Scheduled) (br : t) : t :=
  {| x := x br; y := y br; width := width br; height := height br;
     segments := segments br;
     towerWidth := towerWidth br; towerHeight := towerHeight br;
     leftTowerX := leftTowerX br; rightTowerX := rightTowerX br;
     leftTowerHealth := leftTowerHealth br;
     rightTowerHealth := rightTowerHealth br;
     swayOffset := swayOffset br; swayVelocity := swayVelocity br;
     swayFrequency := swayFrequency br; swayDamping := swayDamping br;
     baseDamping := baseDamping br; swayAmplitude := swayAmplitude br;
     swayActive := swayActive br;
     swayStartTime := swayStartTime br; swayDuration := swayDuration br;
     hangers := hangers br;
     cableBreakSequence := cableBreakSequence br;
     destructionSequence := l |}.

Definition setTowerHealth (l r : Q) (br : t) : t :=
  {| x := x br; y := y br; width := width br; height := height br;
     segments := segments br;
     towerWidth := towerWidth br; towerHeight := towerHeight br;
     leftTowerX := leftTowerX br; rightTowerX := rightTowerX br;
     leftTowerHealth := l; rightTowerHealth := r;
     swayOffset := swayOffset br; swayVelocity := swayVelocity br;
     swayFrequency := swayFrequency br; swayDamping := swayDamping br;
     baseDamping := baseDamping br; swayAmplitude := swayAmplitude br;
     swayActive := swayActive br;
     swayStartTime := swayStartTime br; swayDuration := swayDuration br;
     hangers := hangers br;
     cableBreakSequence := cableBreakSequence br;
     destructionSequence := destructionSequence br |}.

(** game.js 6089-6095. *)
Definition startSway (e : Env) (br : t) : t :=
  {| x := x br; y := y br; width := width br; height := height br;
     segments := segments br;
     towerWidth := towerWidth br; towerHeight := towerHeight br;
     leftTowerX := leftTowerX br; rightTowerX := rightTowerX br;
     leftTowerHealth := leftTowerHealth br;
     rightTowerHealth := rightTowerHealth br;
     swayOffset := swayOffset br;
     swayVelocity := (rVelocity e - 0.5) * 1.5;
     swayFrequency := swayFrequency br; swayDamping := 0.75;
     baseDamping := baseDamping br;
     swayAmplitude := 2 + rAmplitude e * 2;
     swayActive := true;
     swayStartTime := now e; swayDuration := swayDuration br;
     hangers := hangers br;
     cableBreakSequence := cableBreakSequence br;
     destructionSequence := destructionSequence br |}.

Definition onSegment (i : nat) (f : BridgeSegment.t -> BridgeSegment.t)
    (br : t) : t :=
  setSegments (updateAt i f (segments br)) br.

(** [Math.floor(this.segments.length / 2)]. *)
Definition middleIndex (br : t) : Z :=
  Math_floor (num (length (segments br)) / 2).

(** [Math.abs(index - middleIndex) <= 1] (game.js 6085 and 6191). *)
Definition isMiddle (br : t) (i : Z) : bool :=
  (Z.abs (i - middleIndex br) <=? 1)%Z.

(** [3 + Math.floor(Math.random() * 4)] (game.js 6197). *)
Definition breakCount (e : Env) : Z := 3 + Math_floor (rCount e * 4).

(** [200 + Math.random() * 400] (game.js 6196). *)
Definition breakDelay (e : Env) : Q := 200 + rDelay e * 400.

(** Round [i] of the loop at game.js 6200-6214: the entry it pushes, if
    any. *)
Definition scheduleRound (e : Env) (triggerIndex : Z) (br : t) (i : nat)
  : list Scheduled :=
  let offset := (Z.of_nat i - Math_floor (inject_Z (breakCount e) / 2))%Z in
  let targetIndex := (triggerIndex + offset)%Z in
  if (0 <=? targetIndex)%Z
     && (targetIndex <? Z.of_nat (length (segments br)))%Z
  then
    match nth_error (segments br) (Z.to_nat targetIndex) with
    | Some segment =>
        if negb (BridgeSegment.State_eqb (BridgeSegment.state segment)
                   BridgeSegment.Broken)
           && negb (BridgeSegment.State_eqb (BridgeSegment.state segment)
                      BridgeSegment.Dynamic)
        then
          let delay := breakDelay e + num i * 100 in
          [mkScheduled (Z.to_nat targetIndex) (clock e i + delay)]
        else []
    | None => []
    end
  else [].

(** game.js 6189-6215. *)
Definition scheduleProgressiveDestruction (e : Env) (triggerIndex : Z)
    (br : t) : t :=
  if negb (isMiddle br triggerIndex) then br
  else
    setDestructionSequence
      (destructionSequence br
       ++ flat_map (scheduleRound e triggerIndex br)
            (seq 0 (Z.to_nat (breakCount e))))
      br.

(** game.js 6081-6138 for [segment = this.segments[i]]; the chunks pushed on
    [bridgeDebris] are the effect. *)
Definition onSegmentBroken (e : Env) (i : nat) (br : t) : t * list Effect :=
  let segmentIndex := Z.of_nat i in
  let br1 :=
    if isMiddle br segmentIndex && negb (swayActive br)
    then startSway e br else br in
  let br2 :=
    onSegment i
      (BridgeSegment.makeDynamic ((rImpulse e - 0.5) * 0.5) (-0.3)
                                 ((rTorque e - 0.5) * 0.1))
      br1 in
  let br3 := onSegment i BridgeSegment.breakJoints br2 in
  let br4 := scheduleProgressiveDestruction e segmentIndex br3 in
  (br4, [SpawnBridgeChunks segmentIndex (8 + Math_floor (rChunks e * 8))]).

(** [this.segments[i].takeDamage(damage)]: game.js 5776-5786 including the
    call of [onSegmentBroken] at 5782. *)
Definition damageSegment (e : Env) (i : nat) (damage : Q) (br : t)
  : t * list Effect :=
  match nth_error (segments br) i with
  | None => (br, [])
  | Some s =>
      let '(s1, notify) := BridgeSegment.takeDamage damage s in
      let br1 := onSegment i (fun _ => s1) br in
      if notify then onSegmentBroken e i br1 else (br1, [])
  end.

(** One item of the filter at game.js 6257-6271; [r1], [r2] are the draws at
    6263 and 6265.  [kept] collects the items for which the callback returns
    [true]. *)
Definition forceBreak (currentTime : Q) (e : Env) (r1 r2 : Q)
    (item : Scheduled) (acc : t * list Scheduled * list Effect)
  : t * list Scheduled * list Effect :=
  let '(br, kept, log) := acc in
  match nth_error (segments br) (target item) with
  | Some segment =>
      if Qle_bool (breakTime item) currentTime
         && negb (BridgeSegment.State_eqb (BridgeSegment.state segment)
                    BridgeSegment.Broken)
      then
        let br1 :=
          onSegment (target item)
            (fun s =>
               BridgeSegment.makeDynamic ((r1 - 0.5) * 0.4) (-0.2)
                 ((r2 - 0.5) * 0.08)
                 (BridgeSegment.setHealthState 0 BridgeSegment.Broken s))
            br in
        let '(br2, e2) := onSegmentBroken e (target item) br1 in
        (br2, kept, log ++ e2)
      else (br, kept ++ [item], log)
  | None => (br, kept ++ [item], log)
  end.

Fixpoint forceBreaks (currentTime : Q) (envs : nat -> Env * Q * Q)
    (k : nat) (items : list Scheduled)
    (acc : t * list Scheduled * list Effect)
  : t * list Scheduled * list Effect :=
  match items with
  | [] => acc
  | item :: rest =>
      let '(e, r1, r2) := envs k in
      forceBreaks currentTime envs (S k) rest
        (forceBreak currentTime e r1 r2 item acc)
  end.

(** game.js 6256-6271 of [update].  [filter] visits the items the array held
    when it was called, and the assignment replaces the array, with whatever
    [onSegmentBroken] pushed on it meanwhile, by the kept items. *)
Definition processDestructionSequence (currentTime : Q)
    (envs : nat -> Env * Q * Q) (br : t) : t * list Effect :=
  let '(br1, kept, log) :=
    forceBreaks currentTime envs 0 (destructionSequence br) (br, [], []) in
  (setDestructionSequence kept br1, log).

(** One round of the loop at game.js 6334-6348. *)
Definition damageRound (sqrt : Q -> Q) (envs : nat -> Env)
    (intensity damageX damageY damageRadius : Q)
    (acc : t * list Effect) (i : nat) : t * list Effect :=
  let '(br, log) := acc in
  match nth_error (segments br) i with
  | None => acc
  | Some segment =>
      if BridgeSegment.State_eqb (BridgeSegment.state segment)
           BridgeSegment.Broken
      then acc
      else
        let segCenterX := BridgeSegment.x segment + BridgeSegment.w segment / 2 in
        let segCenterY := BridgeSegment.y segment + BridgeSegment.h segment / 2 in
        let distance :=
          distanceBetween sqrt segCenterX segCenterY damageX damageY in
        if Qlt_bool distance damageRadius
        then
          let '(br1, e1) :=
            damageSegment (envs i) i
              (intensity * falloffNear 2 distance damageRadius) br in
          (br1, log ++ e1)
        else acc
  end.

(** game.js 6332-6373. *)
Definition takeDamage (sqrt : Q -> Q) (envs : nat -> Env)
    (intensity damageX damageY damageRadius : Q) (br : t)
  : t * list Effect :=
  let '(br1, log) :=
    fold_left (damageRound sqrt envs intensity damageX damageY damageRadius)
      (seq 0 (length (segments br))) (br, []) in
  let leftTowerCenterX := leftTowerX br1 + towerWidth br1 / 2 in
  let rightTowerCenterX := rightTowerX br1 + towerWidth br1 / 2 in
  let towerCenterY := y br1 + height br1 - towerHeight br1 / 2 in
  let leftDist :=
    distanceBetween sqrt leftTowerCenterX towerCenterY damageX damageY in
  let rightDist :=
    distanceBetween sqrt rightTowerCenterX towerCenterY damageX damageY in
  let l :=
    if Qlt_bool leftDist damageRadius
    then leftTowerHealth br1
         - intensity * falloffNear 2 leftDist damageRadius * 0.1
    else leftTowerHealth br1 in
  let r :=
    if Qlt_bool rightDist damageRadius
    then rightTowerHealth br1
         - intensity * falloffNear 2 rightDist damageRadius * 0.1
    else rightTowerHealth br1 in
  (setTowerHealth l r br1, log).

(** What a hit of [damage] makes of a segment: [takeDamage] and, when the
    segment breaks, the physics activation and the joint breaks of
    [onSegmentBroken] (game.js 5776-5786, 6098-6111). *)
Definition hitSegment (e : Env) (damage : Q) (s : BridgeSegment.t)
  : BridgeSegment.t :=
  let '(s1, notify) := BridgeSegment.takeDamage damage s in
  if notify
  then BridgeSegment.breakJoints
         (BridgeSegment.makeDynamic ((rImpulse e - 0.5) * 0.5) (-0.3)
            ((rTorque e - 0.5) * 0.1) s1)
  else s1.

(** The parts of a bridge that a hit on a segment leaves alone. *)
Definition frame (br : t) :=
  (x br, y br, width br, height br, towerWidth br, towerHeight br,
   leftTowerX br, rightTowerX br, leftTowerHealth br, rightTowerHealth br,
   hangers br, cableBreakSequence br).

(** The rectangle and the fixed data of a segment. *)
Definition segmentBox (s : BridgeSegment.t) :=
  (BridgeSegment.baseX s, BridgeSegment.baseY s, BridgeSegment.x s,
   BridgeSegment.y s, BridgeSegment.w s, BridgeSegment.h s,
   BridgeSegment.index s, BridgeSegment.maxHealth s, BridgeSegment.mass s).

(** The distance of the centre of a segment from a point (game.js
    6338-6342). *)
Definition segmentDistance (sqrt : Q -> Q) (damageX damageY : Q)
    (s : BridgeSegment.t) : Q :=
  distanceBetween sqrt
    (BridgeSegment.x s + BridgeSegment.w s / 2)
    (BridgeSegment.y s + BridgeSegment.h s / 2) damageX damageY.

(** What [Bridge.takeDamage] makes of the segment at position [j]
    (game.js 6334-6348). *)
Definition struck (sqrt : Q -> Q) (envs : nat -> Env)
    (intensity damageX damageY damageRadius : Q) (j : nat)
    (s : BridgeSegment.t) : BridgeSegment.t :=
  let distance := segmentDistance sqrt damageX damageY s in
  if negb (BridgeSegment.State_eqb (BridgeSegment.state s)
             BridgeSegment.Broken)
     && Qlt_bool distance damageRadius
  then hitSegment (envs j)
         (intensity * falloffNear 2 distance damageRadius) s
  else s.

(** [state === 'broken' || state === 'dynamic']. *)
Definition down (s : BridgeSegment.t) : bool :=
  BridgeSegment.State_eqb (BridgeSegment.state s) BridgeSegment.Broken
  || BridgeSegment.State_eqb (BridgeSegment.state s) BridgeSegment.Dynamic.

(** [currentTime >= item.breakTime]. *)
Definition due (currentTime : Q) (item : Scheduled) : bool :=
  Qle_bool (breakTime item) currentTime.

(** The items of [l] whose flag is set, in order. *)
Definition pick {A : Type} (flags : list bool) (l : list A) : list A :=
  map snd (filter fst (combine flags l)).

(** What every step of [update] keeps of a segment: its rectangle, that it
    is down once it is, and all of it once it is broken. *)
Definition keeps (s s' : BridgeSegment.t) : Prop :=
  segmentBox s' = segmentBox s /\
  (down s = true -> down s' = true) /\
  (BridgeSegment.state s = BridgeSegment.Broken -> s' = s).

(** Why an item stays in the destruction sequence: it is not due, or it
    names no segment, or its segment is broken. *)
Definition stays (currentTime : Q) (br : t) (item : Scheduled) : Prop :=
  due currentTime item = false \/
  nth_error (segments br) (target item) = None \/
  exists s, nth_error (segments br) (target item) = Some s /\
            BridgeSegment.state s = BridgeSegment.Broken.

Definition setCableBreakSequence (l : list (nat * Q)) (br : t) : t :=
  {| x := x br; y := y br; width := width br; height := height br;
     segments := segments br;
     towerWidth := towerWidth br; towerHeight := towerHeight br;
     leftTowerX := leftTowerX br; rightTowerX := rightTowerX br;
     leftTowerHealth := leftTowerHealth br;
     rightTowerHealth := rightTowerHealth br;
     swayOffset := swayOffset br; swayVelocity := swayVelocity br;
     swayFrequency := swayFrequency br; swayDamping := swayDamping br;
     baseDamping := baseDamping br; swayAmplitude := swayAmplitude br;
     swayActive := swayActive br;
     swayStartTime := swayStartTime br; swayDuration := swayDuration br;
     hangers := hangers br;
     cableBreakSequence := l;
     destructionSequence := destructionSequence br |}.

Definition setHangers (l : list Hanger) (br : t) : t :=
  {| x := x br; y := y br; width := width br; height := height br;
     segments := segments br;
     towerWidth := towerWidth br; towerHeight := towerHeight br;
     leftTowerX := leftTowerX br; rightTowerX := rightTowerX br;
     leftTowerHealth := leftTowerHealth br;
     rightTowerHealth := rightTowerHealth br;
     swayOffset := swayOffset br; swayVelocity := swayVelocity br;
     swayFrequency := swayFrequency br; swayDamping := swayDamping br;
     baseDamping := baseDamping br; swayAmplitude := swayAmplitude br;
     swayActive := swayActive br;
     swayStartTime := swayStartTime br; swayDuration := swayDuration br;
     hangers := l;
     cableBreakSequence := cableBreakSequence br;
     destructionSequence := destructionSequence br |}.

(** game.js 6143-6149. *)
Definition startCableSway (e : Env) (br : t) : t :=
  {| x := x br; y := y br; width := width br; height := height br;
     segments := segments br;
     towerWidth := towerWidth br; towerHeight := towerHeight br;
     leftTowerX := leftTowerX br; rightTowerX := rightTowerX br;
     leftTowerHealth := leftTowerHealth br;
     rightTowerHealth := rightTowerHealth br;
     swayOffset := swayOffset br;
     swayVelocity := (rVelocity e - 0.5) * 1;
     swayFrequency := swayFrequency br; swayDamping := 0.78;
     baseDamping := baseDamping br;
     swayAmplitude := 1.5 + rAmplitude e * 1.5;
     swayActive := true;
     swayStartTime := now e; swayDuration := swayDuration br;
     hangers := hangers br;
     cableBreakSequence := cableBreakSequence br;
     destructionSequence := destructionSequence br |}.

(** [Math.abs(i - triggerIndex)] on array positions. *)
Definition apart (i j : nat) : nat := ((i - j) + (j - i))%nat.

(** Round [i] of the loop at game.js 6174-6185: the entry it pushes, if any.
    A hanger is named by its position in [hangers]; [clock e i] is the
    reading of [Date.now()] in that round. *)
Definition cableRound (e : Env) (triggerIndex : nat) (br : t) (i : nat)
  : list (nat * Q) :=
  match nth_error (hangers br) i with
  | Some hanger =>
      if negb (broken hanger) && negb (i =? triggerIndex)%nat
      then
        let delay := breakDelay e + num (apart i triggerIndex) * 100 in
        [(i, clock e i + delay)]
      else []
  | None => []
  end.

(** game.js 6166-6186.  [indexOf] finds the cable when its position is one
    of [hangers]; the break radius is drawn like [breakCount]. *)
Definition scheduleCableBreakSequence (e : Env) (triggerCable : nat) (br : t)
  : t :=
  if (length (hangers br) <=? triggerCable)%nat then br
  else
    let triggerIndex := Z.of_nat triggerCable in
    let breakRadius := breakCount e in
    let first := Z.max 0 (triggerIndex - breakRadius) in
    let last :=
      Z.min (Z.of_nat (length (hangers br)) - 1) (triggerIndex + breakRadius)
    in
    setCableBreakSequence
      (cableBreakSequence br
       ++ flat_map (cableRound e triggerCable br)
            (seq (Z.to_nat first) (Z.to_nat (last + 1 - first))))
      br.

(** game.js 6157-6162: the impulse on the segment of the cable. *)
Definition nudge (e : Env) (s : BridgeSegment.t) : BridgeSegment.t :=
  if negb (BridgeSegment.isKinematic s)
  then
    let impulseX := (rImpulse e - 0.5) * 0.3 in
    let impulseY := -0.2 in
    let torque := (rTorque e - 0.5) * 0.08 in
    {| BridgeSegment.baseX := BridgeSegment.baseX s;
       BridgeSegment.baseY := BridgeSegment.baseY s;
       BridgeSegment.x := BridgeSegment.x s;
       BridgeSegment.y := BridgeSegment.y s;
       BridgeSegment.w := BridgeSegment.w s;
       BridgeSegment.h := BridgeSegment.h s;
       BridgeSegment.index := BridgeSegment.index s;
       BridgeSegment.maxHealth := BridgeSegment.maxHealth s;
       BridgeSegment.health := BridgeSegment.health s;
       BridgeSegment.state := BridgeSegment.state s;
       BridgeSegment.isKinematic := BridgeSegment.isKinematic s;
       BridgeSegment.velocityX :=
         BridgeSegment.velocityX s + impulseX / BridgeSegment.mass s;
       BridgeSegment.velocityY :=
         BridgeSegment.velocityY s + impulseY / BridgeSegment.mass s;
       BridgeSegment.rotation := BridgeSegment.rotation s;
       BridgeSegment.angularVelocity :=
         BridgeSegment.angularVelocity s + torque / BridgeSegment.mass s;
       BridgeSegment.mass := BridgeSegment.mass s;
       BridgeSegment.leftJoint := BridgeSegment.leftJoint s;
       BridgeSegment.rightJoint := BridgeSegment.rightJoint s;
       BridgeSegment.cableAttachments := BridgeSegment.cableAttachments s;
       BridgeSegment.cableBreakForce := BridgeSegment.cableBreakForce s |}
  else s.

(** game.js 6141-6163 for the cable at position [cable] of [hangers] and the
    segment at position [segment] of [segments] ([None] is a missing
    segment). *)
Definition onCableBroken (e : Env) (cable : nat) (segment : option nat)
    (br : t) : t :=
  let br1 := if negb (swayActive br) then startCableSway e br else br in
  let br2 := scheduleCableBreakSequence e cable br1 in
  match segment with
  | Some i => onSegment i (nudge e) br2
  | None => br2
  end.

(** game.js 6308-6328: the wear of the towers at the end of [update]. *)
Definition quarterDown (br : t) (part : Q) : bool :=
  match nth_error (segments br)
          (Z.to_nat (Math_floor (num (length (segments br)) * part))) with
  | Some segment =>
      BridgeSegment.State_eqb (BridgeSegment.state segment)
        BridgeSegment.Broken
      || BridgeSegment.State_eqb (BridgeSegment.state segment)
           BridgeSegment.Dynamic
  | None => false
  end.

Definition worn (health : Q) : Q :=
  let h1 := health - 0.1 in
  if Qle_bool h1 0 then 0 else h1.

Definition wearTowers (br : t) : t :=
  setTowerHealth
    (if quarterDown br 0.25 then worn (leftTowerHealth br)
     else leftTowerHealth br)
    (if quarterDown br 0.75 then worn (rightTowerHealth br)
     else rightTowerHealth br)
    br.

Fixpoint wearFrames (n : nat) (br : t) : t :=
  match n with
  | O => br
  | S k => wearTowers (wearFrames k br)
  end.

(** The subtraction at game.js 6315-6318, [n] times, on a health [h] of
    either sign. *)
Fixpoint wornBy (n : nat) (h : Q) : Q :=
  match n with
  | O => h
  | S k => worn (wornBy k h)
  end.

(** game.js 5952-6058 for a given number of segments, every draw being [r];
    the hangers are not built. *)
Definition new (bx by_ w h : Q) (segmentCount : nat) (r : Q) : t :=
  let segmentWidth := w / num segmentCount in
  {| x := bx; y := by_; width := w; height := h;
     segments :=
       map (fun i =>
              let s := BridgeSegment.new (bx + num i * segmentWidth) by_
                         segmentWidth h i r r in
              {| BridgeSegment.baseX := BridgeSegment.baseX s;
                 BridgeSegment.baseY := BridgeSegment.baseY s;
                 BridgeSegment.x := BridgeSegment.x s;
                 BridgeSegment.y := BridgeSegment.y s;
                 BridgeSegment.w := BridgeSegment.w s;
                 BridgeSegment.h := BridgeSegment.h s;
                 BridgeSegment.index := BridgeSegment.index s;
                 BridgeSegment.maxHealth := BridgeSegment.maxHealth s;
                 BridgeSegment.health := BridgeSegment.health s;
                 BridgeSegment.state := BridgeSegment.state s;
                 BridgeSegment.isKinematic := BridgeSegment.isKinematic s;
                 BridgeSegment.velocityX := BridgeSegment.velocityX s;
                 BridgeSegment.velocityY := BridgeSegment.velocityY s;
                 BridgeSegment.rotation := BridgeSegment.rotation s;
                 BridgeSegment.angularVelocity :=
                   BridgeSegment.angularVelocity s;
                 BridgeSegment.mass := BridgeSegment.mass s;
                 BridgeSegment.leftJoint :=
                   if (0 <? i)%nat then Some false else None;
                 BridgeSegment.rightJoint :=
                   if (S i <? segmentCount)%nat then Some false else None;
                 BridgeSegment.cableAttachments := [];
                 BridgeSegment.cableBreakForce :=
                   BridgeSegment.cableBreakForce s |})
           (seq 0 segmentCount);
     towerWidth := 20; towerHeight := 120;
     leftTowerX := bx + w * 0.25 - 20 / 2;
     rightTowerX := bx + w * 0.75 - 20 / 2;
     leftTowerHealth := 500; rightTowerHealth := 500;
     swayOffset := 0; swayVelocity := 0; swayFrequency := 0.8 + r * 0.8;
     swayDamping := 0.92; baseDamping := 0.92; swayAmplitude := 0;
     swayActive := false; swayStartTime := 0;
     swayDuration := 2000 + r * 2000;
     hangers := []; cableBreakSequence := []; destructionSequence := [] |}.

(** A bridge of eight segments of health 100. *)
Definition sample : t := new 300 700 400 12 8 0.5.

(** Readings that are all 0.5, at time 1000. *)
Definition calm : Env :=
  mkEnv 0.5 0.5 0.5 0.5 0.5 0.5 0.5 1000 (fun _ => 1000).

(** The sample bridge with twelve unbroken cables. *)
Definition cabled : t :=
  setHangers
    (map (fun i => mkHanger (300 + num i * 32) (300 + num i * 32) 600 false 0
                     0.1 100 50)
       (seq 0 12))
    sample.

End Bridge.

(** ** StickyBomb (game.js 3218-3383) *)

Module StickyBomb.

(** [attachedBuildingRef] holds the [oid] of the building. *)
Record t : Type := mk
  { x : Q; y : Q; radius : Q;
    attachedTo : option nat; attachedBuildingRef : option nat;
    offsetX : Q; offsetY : Q;
    isArmed : bool; placedAt : Q;
    velocityY : Q; gravity : Q; onGround : bool; groundY : option Q;
    active : bool }.

(** game.js 3219-3234. *)
Definition new (bx by_ : Q) (buildingIndex : option nat) (ox oy : Q)
    (buildingRef : option nat) (now : Q) : t :=
  {| x := bx; y := by_; radius := 6;
     attachedTo := buildingIndex; attachedBuildingRef := buildingRef;
     offsetX := ox; offsetY := oy;
     isArmed := true; placedAt := now;
     velocityY := 0; gravity := 0.5; onGround := false; groundY := None;
     active := true |}.

(** [bomb.active = true] (game.js 3400). *)
Definition activate (b : t) : t :=
  {| x := x b; y := y b; radius := radius b;
     attachedTo := attachedTo b;
     attachedBuildingRef := attachedBuildingRef b;
     offsetX := offsetX b; offsetY := offsetY b;
     isArmed := isArmed b; placedAt := placedAt b;
     velocityY := velocityY b; gravity := gravity b;
     onGround := onGround b; groundY := groundY b;
     active := true |}.

(** [bomb.isArmed = false] (game.js 3442). *)
Definition disarm (b : t) : t :=
  {| x := x b; y := y b; radius := radius b;
     attachedTo := attachedTo b;
     attachedBuildingRef := attachedBuildingRef b;
     offsetX := offsetX b; offsetY := offsetY b;
     isArmed := false; placedAt := placedAt b;
     velocityY := velocityY b; gravity := gravity b;
     onGround := onGround b; groundY := groundY b;
     active := active b |}.

(** game.js 1318-1324, the body of the loop of [startCollapse] for the
    building [o]. *)
Definition detach (o : nat) (b : t) : t :=
  match attachedBuildingRef b with
  | Some r =>
      if (r =? o)%nat
      then
        {| x := x b; y := y b; radius := radius b;
           attachedTo := None; attachedBuildingRef := None;
           offsetX := offsetX b; offsetY := offsetY b;
           isArmed := isArmed b; placedAt := placedAt b;
           velocityY := 0; gravity := gravity b;
           onGround := onGround b; groundY := groundY b;
           active := active b |}
      else b
  | None => b
  end.

(** [buildings.includes(building)] for the object with identity [o], and
    that object. *)
Definition lookupRef (o : nat) (buildings : list Building.t)
  : option Building.t :=
  find (fun building => (Building.oid building =? o)%nat) buildings.

(** game.js 3250-3252 and 3264-3267: the bomb follows its building. *)
Definition follow (building : Building.t) (b : t) : t :=
  {| x := Building.x building + offsetX b;
     y := Building.y building + offsetY b; radius := radius b;
     attachedTo := attachedTo b;
     attachedBuildingRef := Some (Building.oid building);
     offsetX := offsetX b; offsetY := offsetY b;
     isArmed := isArmed b; placedAt := placedAt b;
     velocityY := velocityY b; gravity := gravity b;
     onGround := false; groundY := groundY b;
     active := active b |}.

(** game.js 3255-3257 and 3269-3270: the bomb lets go. *)
Definition release (b : t) : t :=
  {| x := x b; y := y b; radius := radius b;
     attachedTo := None; attachedBuildingRef := None;
     offsetX := offsetX b; offsetY := offsetY b;
     isArmed := isArmed b; placedAt := placedAt b;
     velocityY := 0; gravity := gravity b;
     onGround := onGround b; groundY := groundY b;
     active := active b |}.

Definition alive (building : Building.t) : bool :=
  negb (Building.State_eqb (Building.state building) Building.Collapsed).

(** game.js 3244-3272. *)
Definition resolve (buildings : list Building.t) (b : t) : t :=
  match attachedBuildingRef b with
  | Some o =>
      match lookupRef o buildings with
      | Some building => if alive building then follow building b
                         else release b
      | None => release b
      end
  | None =>
      match attachedTo b with
      | Some i =>
          if (i <? length buildings)%nat
          then
            match nth_error buildings i with
            | Some building => if alive building then follow building b
                               else release b
            | None => release b
            end
          else b
      | None => b
      end
  end.

(** game.js 3274-3286, for the ground line [ground]. *)
Definition settle (ground : Q) (b : t) : t :=
  match attachedTo b with
  | Some _ => b
  | None =>
      let v := velocityY b + gravity b in
      let y1 := y b + v in
      let landed := Qle_bool ground (y1 + radius b) in
      {| x := x b; y := if landed then ground - radius b else y1;
         radius := radius b;
         attachedTo := attachedTo b;
         attachedBuildingRef := attachedBuildingRef b;
         offsetX := offsetX b; offsetY := offsetY b;
         isArmed := isArmed b; placedAt := placedAt b;
         velocityY := if landed then 0 else v; gravity := gravity b;
         onGround := if landed then true else onGround b;
         groundY := if landed then Some ground else groundY b;
         active := active b |}
  end.

(** game.js 3288-3291. *)
Definition boundary (width height : Q) (b : t) : t :=
  if Qlt_bool (x b) (-50) || Qlt_bool (width + 50) (x b)
     || Qlt_bool (height + 50) (y b)
  then disarm b else b.

(** game.js 3236-3292, in a window of [width] by [height]. *)
Definition update (width height : Q) (buildings : list Building.t) (b : t)
  : t :=
  if negb (active b) then b
  else boundary width height (settle (height * 0.85) (resolve buildings b)).

(** [bomb.active = false] (game.js 3496). *)
Definition deactivate (b : t) : t :=
  {| x := x b; y := y b; radius := radius b;
     attachedTo := attachedTo b;
     attachedBuildingRef := attachedBuildingRef b;
     offsetX := offsetX b; offsetY := offsetY b;
     isArmed := isArmed b; placedAt := placedAt b;
     velocityY := velocityY b; gravity := gravity b;
     onGround := onGround b; groundY := groundY b;
     active := false |}.

Definition MAX_STICKY_BOMBS_ACTIVE : nat := 200.

(** [[...stickyBombs].sort((a, b) => a.placedAt - b.placedAt)] (game.js
    3492) on bombs that carry their position in [stickyBombs]: a stable
    sort. *)
Fixpoint insertByAge (a : nat * t) (l : list (nat * t)) : list (nat * t) :=
  match l with
  | [] => [a]
  | b :: rest =>
      if Qle_bool (placedAt (snd a)) (placedAt (snd b))
      then a :: b :: rest
      else b :: insertByAge a rest
  end.

Definition sortByPlacedAt (l : list (nat * t)) : list (nat * t) :=
  fold_right insertByAge [] l.

(** The order of the comparator. *)
Definition older (a b : nat * t) : Prop :=
  placedAt (snd a) <= placedAt (snd b).

(** game.js 3493-3499: the loop over [sortedBombs]; its elements are the
    objects of [stickyBombs], so [bomb.active = false] is an update of
    [stickyBombs] at the position the element carries. *)
Fixpoint retireLoop (quota inactiveCount : nat) (sortedBombs : list (nat * t))
    (bombs : list t) : list t :=
  match sortedBombs with
  | [] => bombs
  | (j, bomb) :: rest =>
      if active bomb && (inactiveCount <? quota)%nat
      then retireLoop quota (S inactiveCount) rest
             (updateAt j deactivate bombs)
      else retireLoop quota inactiveCount rest bombs
  end.

(** game.js 3488-3500. *)
Definition retire (bombs : list t) : list t :=
  let activeBombs := length (filter active bombs) in
  if (MAX_STICKY_BOMBS_ACTIVE <=? activeBombs)%nat
  then retireLoop (activeBombs - MAX_STICKY_BOMBS_ACTIVE + 1) 0
         (sortByPlacedAt (indexed bombs)) bombs
  else bombs.

(** game.js 3508-3519: the first building that is not collapsed and contains
    the click, with its index. *)
Fixpoint clicked (px py : Q) (i : nat) (buildings : list Building.t)
  : option (nat * Building.t) :=
  match buildings with
  | [] => None
  | building :: rest =>
      if alive building && Building.contains px py building
      then Some (i, building)
      else clicked px py (S i) rest
  end.

(** game.js 3483-3530 ([updateDetonateButton] only writes to the page). *)
Definition placeStickyBomb (now height px py : Q)
    (buildings : list Building.t) (bombs : list t) : list t :=
  let ground := height * 0.85 in
  let bombs1 := retire bombs in
  match clicked px py 0 buildings with
  | Some (i, building) =>
      bombs1 ++ [new px py (Some i) (px - Building.x building)
                   (py - Building.y building)
                   (Some (Building.oid building)) now]
  | None => bombs1 ++ [new px (Math_min py ground) None 0 0 None now]
  end.

(** game.js 8674-8680: the step of the game loop. *)
Definition updateStickyBombs (width height : Q)
    (buildings : list Building.t) (bombs : list t) : list t :=
  filter isArmed (map (update width height buildings) bombs).

End StickyBomb.

(** ** The globals the weapons work on *)

Inductive Structure : Type :=
| ABridge (br : Bridge.t)
| ABillboard (bx by_ : Q).

Record World : Type := mkWorld
  { innerWidth : Q; innerHeight : Q; currentCityId : Z;
    buildings : list Building.t;
    stickyBombs : list StickyBomb.t;
    staticStructures : list Structure;
    screenShakeIntensity : Q;
    screenFlashActive : bool; screenFlashIntensity : Q;
    log : list Effect }.

(** What the [startCollapse] calls recorded in [effs] do to [stickyBombs]. *)
Fixpoint detachAll (effs : list Effect) (bombs : list StickyBomb.t)
  : list StickyBomb.t :=
  match effs with
  | [] => bombs
  | DetachStickyBombs o :: rest =>
      detachAll rest (map (StickyBomb.detach o) bombs)
  | _ :: rest => detachAll rest bombs
  end.

(** [buildings.forEach((building, index) => ...)] for a callback that changes
    only its building. *)
Fixpoint forEachBuilding
    (f : nat -> Building.t -> Building.t * list Effect)
    (index : nat) (bs : list Building.t) : list Building.t * list Effect :=
  match bs with
  | [] => ([], [])
  | b :: rest =>
      let '(b1, e1) := f index b in
      let '(rest1, e2) := forEachBuilding f (S index) rest in
      (b1 :: rest1, e1 ++ e2)
  end.

(** [staticStructures.forEach(structure => { if (structure instanceof Bridge)
    structure.takeDamage(...) })]. *)
Fixpoint forEachBridge
    (f : nat -> Bridge.t -> Bridge.t * list Effect)
    (index : nat) (l : list Structure) : list Structure * list Effect :=
  match l with
  | [] => ([], [])
  | ABridge br :: rest =>
      let '(br1, e1) := f index br in
      let '(rest1, e2) := forEachBridge f (S index) rest in
      (ABridge br1 :: rest1, e1 ++ e2)
  | other :: rest =>
      let '(rest1, e2) := forEachBridge f (S index) rest in
      (other :: rest1, e2)
  end.

(** ** NuclearBomb (game.js 2964-3082) *)

Module NuclearBomb.

Record t : Type := mk
  { x : Q; y : Q; velocityY : Q; gravity : Q; radius : Q; exploded : bool }.

(** The draws of the callback at game.js 3019-3045 for one building. *)
Record Draws : Type := mkDraws
  { hit : Building.Draws; rShakeX : Q; rShakeY : Q;
    rFire : Q; rFireX : Q; rFireY : Q }.

Definition damageRadius : Q := 200.
Definition baseDamage : Q := 120.

(** game.js 3019-3045: the callback of [buildings.forEach]. *)
Definition hitBuilding (sqrt : Q -> Q) (bombX explosionY now : Q)
    (d : Draws) (building : Building.t) : Building.t * list Effect :=
  if Building.State_eqb (Building.state building) Building.Collapsed
  then (building, [])
  else
    let centerX := Building.getCenterX building in
    let centerY := Building.getCenterY building in
    let distance := distanceBetween sqrt centerX centerY bombX explosionY in
    if Qlt_bool distance damageRadius
    then
      let falloff := falloffNear 3 distance damageRadius in
      let damage := baseDamage * falloff in
      let '(b1, e1) :=
        Building.takeDamage (hit d) now damage distance damageRadius
          building in
      let shakeIntensity := falloff * 15 in
      let b2 := Building.applyShake (rShakeX d) (rShakeY d) shakeIntensity b1 in
      (b2,
       e1 ++
       if Qlt_bool (Building.health b2 / Building.maxHealth b2) 0.3
          && Qlt_bool (rFire d) 0.4
       then [PushFireEmitter
               (centerX + (rFireX d - 0.5) * Building.width b2 * 0.5)
               (Building.y b2 + rFireY d * Building.height b2 * 0.6)]
       else [])
    else (building, []).

(** game.js 3001-3065.  [fires] are the emitters pushed at 3057-3064. *)
Definition explode (sqrt : Q -> Q) (explosionY now : Q)
    (draws : nat -> Draws) (envs : nat -> nat -> Bridge.Env)
    (fires : list Effect) (bomb : t) (w : World) : t * World :=
  if exploded bomb then (bomb, w)
  else
    let '(bs, e1) :=
      forEachBuilding
        (fun i => hitBuilding sqrt (x bomb) explosionY now (draws i))
        0 (buildings w) in
    let '(ss, e2) :=
      if (currentCityId w =? 2)%Z
      then forEachBridge
             (fun i => Bridge.takeDamage sqrt (envs i) 30 (x bomb) explosionY
                         damageRadius)
             0 (staticStructures w)
      else (staticStructures w, []) in
    ({| x := x bomb; y := y bomb; velocityY := velocityY bomb;
        gravity := gravity bomb; radius := radius bomb; exploded := true |},
     {| innerWidth := innerWidth w; innerHeight := innerHeight w;
        currentCityId := currentCityId w;
        buildings := bs;
        stickyBombs := detachAll e1 (stickyBombs w);
        staticStructures := ss;
        screenShakeIntensity := Math_max (screenShakeIntensity w) 20;
        screenFlashActive := true; screenFlashIntensity := 0.3;
        log := log w ++ [PushExplosion (x bomb) explosionY 180]
               ++ e1 ++ e2 ++ fires |}).

(** game.js 2965-2972: the constructor. *)
Definition new (bombX bombY : Q) : t :=
  {| x := bombX; y := bombY; velocityY := 2; gravity := 0.8; radius := 8;
     exploded := false |}.

(** game.js 2977-2978: one frame of free fall. *)
Definition fall (bomb : t) : t :=
  let v := velocityY bomb + gravity bomb in
  {| x := x bomb; y := y bomb + v; velocityY := v; gravity := gravity bomb;
     radius := radius bomb; exploded := exploded bomb |}.

Definition groundY (w : World) : Q := innerHeight w * 0.85.

(** game.js 2991-2994: the test of the collision loop for one building. *)
Definition touches (bomb : t) (building : Building.t) : bool :=
  negb (Building.State_eqb (Building.state building) Building.Collapsed)
  && Building.contains (x bomb) (y bomb + radius bomb) building.

(** game.js 2974-2999.  The loop over the buildings explodes the bomb at its
    own height at the first building it touches, whichever that is. *)
Definition update (sqrt : Q -> Q) (now : Q)
    (draws : nat -> Draws) (envs : nat -> nat -> Bridge.Env)
    (fires : list Effect) (bomb : t) (w : World) : t * World :=
  if exploded bomb then (bomb, w)
  else
    let b1 := fall bomb in
    if Qle_bool (groundY w) (y b1 + radius b1)
    then explode sqrt (groundY w) now draws envs fires b1 w
    else if existsb (touches b1) (buildings w)
    then explode sqrt (y b1) now draws envs fires b1 w
    else (b1, w).

(** [k] frames of one bomb; frame [n] reads the clock and the draws of
    index [n]. *)
Fixpoint updates (sqrt : Q -> Q) (clock : nat -> Q)
    (draws : nat -> nat -> Draws) (envs : nat -> nat -> nat -> Bridge.Env)
    (fires : nat -> list Effect) (k : nat) (bomb : t) (w : World)
  : t * World :=
  match k with
  | O => (bomb, w)
  | S n =>
      let '(b1, w1) := updates sqrt clock draws envs fires n bomb w in
      update sqrt (clock n) (draws n) (envs n) (fires n) b1 w1
  end.

(** The height of a bomb after [k] frames of free fall. *)
Definition heightAfter (k : nat) (bomb : t) : Q :=
  y bomb + num k * velocityY bomb
  + gravity bomb * (num k * (num k + 1) / 2).

Definition MAX_BOMBS : nat := 50.

(** game.js 7748-7756: the loop of [createNukeStrike]; [rs i] is the draw of
    round [i]. *)
Fixpoint pushBombs (clickX : Q) (rs : nat -> Q) (i rounds : nat)
    (bombs : list t) : list t :=
  match rounds with
  | O => bombs
  | S n =>
      if (MAX_BOMBS <=? length bombs)%nat then bombs
      else
        let offsetX := (rs i - 0.5) * 300 in
        pushBombs clickX rs (S i) n (bombs ++ [new (clickX + offsetX) (-50)])
  end.

(** game.js 7744-7757. *)
Definition bombCount (rCount : Q) : Z := (Math_floor (rCount * 5) + 6)%Z.

Definition createNukeStrike (rCount : Q) (rs : nat -> Q) (clickX : Q)
    (bombs : list t) : list t :=
  pushBombs clickX rs 0 (Z.to_nat (bombCount rCount)) bombs.

(** game.js 8640-8643: [bombs.filter(bomb => { bomb.update(); return
    !bomb.exploded })]; bomb [i] of the array reads the draws of index [i]. *)
Fixpoint updateBombs (sqrt : Q -> Q) (now : Q)
    (draws : nat -> nat -> Draws) (envs : nat -> nat -> nat -> Bridge.Env)
    (fires : nat -> list Effect) (index : nat) (bombs : list t) (w : World)
  : list t * World :=
  match bombs with
  | [] => ([], w)
  | bomb :: rest =>
      let '(b1, w1) :=
        update sqrt now (draws index) (envs index) (fires index) bomb w in
      let '(rest1, w2) :=
        updateBombs sqrt now draws envs fires (S index) rest w1 in
      (if exploded b1 then rest1 else b1 :: rest1, w2)
  end.

(** game.js 8646-8648. *)
Definition capBombs (bombs : list t) : list t :=
  if (MAX_BOMBS <? length bombs)%nat
  then skipn (length bombs - MAX_BOMBS) bombs
  else bombs.

(** Draws that are all 0.5, and a bomb above the centre (130, 400) of
    [Building.sample]. *)
Definition calm : Draws := mkDraws Building.calm 0.5 0.5 0.5 0.5 0.5.
Definition overCentre : t :=
  {| x := 130; y := 392; velocityY := 2; gravity := 0.8; radius := 8;
     exploded := false |}.

(** A city that holds [Building.sample] alone. *)
Definition oneBuilding : World :=
  {| innerWidth := 1000; innerHeight := 800; currentCityId := 1;
     buildings := [Building.sample]; stickyBombs := [];
     staticStructures := [];
     screenShakeIntensity := 0;
     screenFlashActive := false; screenFlashIntensity := 0;
     log := [] |}.

End NuclearBomb.

(** ** Meteor (game.js 7588-7742) *)

Module Meteor.

Record TrailPoint : Type := mkTrailPoint { px : Q; py : Q; time : Q }.

Record t : Type := mk
  { startX : Q; startY : Q; targetX : Q; targetY : Q; travelTime : Q;
    startTime : Q; x : Q; y : Q; exploded : bool; trail : list TrailPoint }.

(** game.js 7589-7610; [rSide] is the draw that picks the side. *)
Definition new (sqrt : Q -> Q) (rSide now : Q) (w : World)
    (targetX0 targetY0 : Q) : t :=
  let startFromLeft := Qlt_bool 0.5 rSide in
  let startX0 := if startFromLeft then -50 else innerWidth w + 50 in
  let startY0 := -50 in
  let dx := targetX0 - startX0 in
  let dy := targetY0 - startY0 in
  let distance := sqrt (dx * dx + dy * dy) in
  {| startX := startX0; startY := startY0;
     targetX := targetX0; targetY := targetY0;
     travelTime := Math_max 400 (Math_min 900 (distance * 1.2));
     startTime := now; x := startX0; y := startY0; exploded := false;
     trail := [] |}.

(** The draws of the callback at game.js 7650-7672 for one building. *)
Record Draws : Type := mkDraws
  { hit : Building.Draws; rShakeX : Q; rShakeY : Q }.

Definition damageRadius : Q := 150.

(** game.js 7650-7672: the callback of [buildings.forEach]. *)
Definition hitBuilding (sqrt : Q -> Q) (tx ty now : Q) (d : Draws)
    (building : Building.t) : Building.t * list Effect :=
  if Building.State_eqb (Building.state building) Building.Collapsed
  then (building, [])
  else
    let centerX := Building.getCenterX building in
    let centerY := Building.getCenterY building in
    let distance := distanceBetween sqrt centerX centerY tx ty in
    if Qlt_bool distance damageRadius
    then
      let falloff := falloffNear 3 distance damageRadius in
      let baseDamage := 80 in
      let damage := baseDamage * falloff in
      let '(b1, e1) :=
        Building.takeDamage (hit d) now damage distance damageRadius
          building in
      let shakeIntensity := falloff * 10 in
      (Building.applyShake (rShakeX d) (rShakeY d) shakeIntensity b1, e1)
    else (building, []).

(** game.js 7636-7692.  [fires] are the emitters pushed at 7675-7682. *)
Definition explode (sqrt : Q -> Q) (now : Q)
    (draws : nat -> Draws) (envs : nat -> nat -> Bridge.Env)
    (fires : list Effect) (m : t) (w : World) : t * World :=
  if exploded m then (m, w)
  else
    let '(bs, e1) :=
      forEachBuilding
        (fun i => hitBuilding sqrt (targetX m) (targetY m) now (draws i))
        0 (buildings w) in
    let '(ss, e2) :=
      if (currentCityId w =? 2)%Z
      then forEachBridge
             (fun i => Bridge.takeDamage sqrt (envs i) 25 (targetX m)
                         (targetY m) damageRadius)
             0 (staticStructures w)
      else (staticStructures w, []) in
    ({| startX := startX m; startY := startY m;
        targetX := targetX m; targetY := targetY m;
        travelTime := travelTime m; startTime := startTime m;
        x := x m; y := y m; exploded := true; trail := trail m |},
     {| innerWidth := innerWidth w; innerHeight := innerHeight w;
        currentCityId := currentCityId w;
        buildings := bs;
        stickyBombs := detachAll e1 (stickyBombs w);
        staticStructures := ss;
        screenShakeIntensity := 15;
        screenFlashActive := screenFlashActive w;
        screenFlashIntensity := screenFlashIntensity w;
        log := log w ++ [PushExplosion (targetX m) (targetY m) 120]
               ++ e1 ++ fires ++ e2 |}).

(** game.js 7622-7627: the trail keeps the last 15 points. *)
Definition pushTrail (point : TrailPoint) (l : list TrailPoint)
  : list TrailPoint :=
  let l1 := l ++ [point] in
  if (15 <? length l1)%nat then tl l1 else l1.

(** game.js 7613-7634; [now] is the reading of [Date.now()] at 7616 and
    [now'] the time of the explosion.  The constructor makes [travelTime] at
    least 400, so the division is by a positive number. *)
Definition update (sqrt : Q -> Q) (now now' : Q)
    (draws : nat -> Draws) (envs : nat -> nat -> Bridge.Env)
    (fires : list Effect) (m : t) (w : World) : t * World :=
  if exploded m then (m, w)
  else
    let elapsed := now - startTime m in
    let progress := Math_min 1 (elapsed / travelTime m) in
    let x1 := startX m + (targetX m - startX m) * progress in
    let y1 := startY m + (targetY m - startY m) * progress in
    let m1 :=
      {| startX := startX m; startY := startY m;
         targetX := targetX m; targetY := targetY m;
         travelTime := travelTime m; startTime := startTime m;
         x := x1; y := y1; exploded := exploded m;
         trail := pushTrail (mkTrailPoint x1 y1 elapsed) (trail m) |} in
    if Qle_bool 1 progress
    then explode sqrt now' draws envs fires m1 w
    else (m1, w).

Definition MAX_METEORS : nat := 5.

(** game.js 7739-7742. *)
Definition createMeteorStrike (sqrt : Q -> Q) (rSide now : Q) (w : World)
    (clickX clickY : Q) (meteors : list t) : list t :=
  if (MAX_METEORS <=? length meteors)%nat then meteors
  else meteors ++ [new sqrt rSide now w clickX clickY].

End Meteor.

(** ** detonateAllStickyBombs (game.js 3385-3481) *)

Module Detonation.

(** [Math.min(width, height) * 0.25] (game.js 3393-3394). *)
Definition damageRadius (w : World) : Q :=
  Math_min (innerWidth w) (innerHeight w) * 0.25.

(** game.js 3402-3435: the callback of the inner [forEach] of the first
    pass. *)
Definition accumulate (sqrt : Q -> Q) (radius : Q) (bomb : StickyBomb.t)
    (acc : NumMap * NumMap) (entry : nat * Building.t) : NumMap * NumMap :=
  let '(buildingDamageMap, buildingShakeMap) := acc in
  let '(index, building) := entry in
  if Building.State_eqb (Building.state building) Building.Collapsed then acc
  else
    let centerX := Building.getCenterX building in
    let centerY := Building.getCenterY building in
    let distance :=
      distanceBetween sqrt centerX centerY (StickyBomb.x bomb)
        (StickyBomb.y bomb) in
    if Qlt_bool distance radius
    then
      let falloffFactor := falloffNear 3 distance radius in
      let baseDamage := 60 in
      let damage := falloffFactor * baseDamage in
      let maxDamagePerBomb := 50 in
      let cappedDamage := Math_min damage maxDamagePerBomb in
      let dm1 :=
        if negb (mapHas index buildingDamageMap)
        then mapSet index 0 buildingDamageMap else buildingDamageMap in
      let dm2 := mapSet index (mapGet index dm1 + cappedDamage) dm1 in
      let shakeIntensity := falloffFactor * 8 in
      let sm1 :=
        if negb (mapHas index buildingShakeMap)
        then mapSet index 0 buildingShakeMap else buildingShakeMap in
      let sm2 :=
        mapSet index (Math_max (mapGet index sm1) shakeIntensity) sm1 in
      (dm2, sm2)
    else acc.

(** game.js 3397-3436: the first pass; armed bombs are made active. *)
Fixpoint firstPass (sqrt : Q -> Q) (radius : Q) (bs : list Building.t)
    (bombs : list StickyBomb.t) (acc : NumMap * NumMap)
  : list StickyBomb.t * (NumMap * NumMap) :=
  match bombs with
  | [] => ([], acc)
  | bomb :: rest =>
      if negb (StickyBomb.isArmed bomb)
      then
        let '(rest1, acc1) := firstPass sqrt radius bs rest acc in
        (bomb :: rest1, acc1)
      else
        let bomb1 := StickyBomb.activate bomb in
        let acc1 := fold_left (accumulate sqrt radius bomb1) (indexed bs) acc in
        let '(rest1, acc2) := firstPass sqrt radius bs rest acc1 in
        (bomb1 :: rest1, acc2)
  end.

(** game.js 3439-3443: the second pass. *)
Fixpoint secondPass (radius : Q) (bombs : list StickyBomb.t)
  : list StickyBomb.t * list Effect :=
  match bombs with
  | [] => ([], [])
  | bomb :: rest =>
      let '(rest1, e1) := secondPass radius rest in
      if negb (StickyBomb.isArmed bomb) then (bomb :: rest1, e1)
      else
        (StickyBomb.disarm bomb :: rest1,
         PushExplosion (StickyBomb.x bomb) (StickyBomb.y bomb) radius :: e1)
  end.

(** The draws of the callback at game.js 3446-3458 for one building. *)
Record Draws : Type := mkDraws
  { hit : Building.Draws; rShakeX : Q; rShakeY : Q }.

(** game.js 3449-3456: the capped damage and the shake a building with an
    entry in the damage map receives. *)
Definition strike (now : Q) (draws : nat -> Draws) (buildingShakeMap : NumMap)
    (buildingIndex : nat) (totalDamage : Q) (building : Building.t)
  : Building.t * list Effect :=
  let maxTotalDamage := 85 in
  let finalDamage := Math_min totalDamage maxTotalDamage in
  let '(b1, e1) :=
    Building.takeDamage (hit (draws buildingIndex)) now finalDamage
      0 150 building in
  let shakeIntensity := mapGet buildingIndex buildingShakeMap in
  (Building.applyShake (rShakeX (draws buildingIndex))
     (rShakeY (draws buildingIndex)) (Math_min shakeIntensity 12) b1,
   e1).

(** game.js 3446-3458: the callback of the third pass. *)
Definition applyAccumulated (now : Q) (draws : nat -> Draws)
    (buildingShakeMap : NumMap) (acc : list Building.t * list Effect)
    (entry : nat * Q) : list Building.t * list Effect :=
  let '(bs, log1) := acc in
  let '(buildingIndex, totalDamage) := entry in
  match nth_error bs buildingIndex with
  | Some building =>
      if negb (Building.State_eqb (Building.state building)
                 Building.Collapsed)
      then
        let '(b2, e1) :=
          strike now draws buildingShakeMap buildingIndex totalDamage
            building in
        (updateAt buildingIndex (fun _ => b2) bs, log1 ++ e1)
      else acc
  | None => acc
  end.

(** game.js 3462-3469: one bomb of the bridge pass. *)
Definition bridgeRound (sqrt : Q -> Q) (radius : Q)
    (envs : nat -> nat -> nat -> Bridge.Env)
    (acc : list Structure * list Effect) (entry : nat * StickyBomb.t)
  : list Structure * list Effect :=
  let '(ss, log1) := acc in
  let '(j, bomb) := entry in
  if negb (StickyBomb.isArmed bomb) then acc
  else
    let '(ss1, e1) :=
      forEachBridge
        (fun i => Bridge.takeDamage sqrt (envs j i) 60 (StickyBomb.x bomb)
                    (StickyBomb.y bomb) radius)
        0 ss in
    (ss1, log1 ++ e1).

(** game.js 3385-3481. *)
Definition detonateAllStickyBombs (sqrt : Q -> Q) (now : Q)
    (draws : nat -> Draws) (envs : nat -> nat -> nat -> Bridge.Env)
    (w : World) : World :=
  let radius := damageRadius w in
  let '(bombs1, (buildingDamageMap, buildingShakeMap)) :=
    firstPass sqrt radius (buildings w) (stickyBombs w) ([], []) in
  let '(bombs2, e2) := secondPass radius bombs1 in
  let '(bs3, e3) :=
    fold_left (applyAccumulated now draws buildingShakeMap)
      buildingDamageMap (buildings w, []) in
  let bombs3 := detachAll e3 bombs2 in
  let '(ss4, e4) :=
    if (currentCityId w =? 2)%Z
    then fold_left (bridgeRound sqrt radius envs) (indexed bombs3)
           (staticStructures w, [])
    else (staticStructures w, []) in
  let bombCount := length (filter StickyBomb.isArmed bombs3) in
  let shakePerBomb := 6 in
  let maxTotalShake := 30 in
  {| innerWidth := innerWidth w; innerHeight := innerHeight w;
     currentCityId := currentCityId w;
     buildings := bs3;
     stickyBombs := [];
     staticStructures := ss4;
     screenShakeIntensity :=
       Math_min (screenShakeIntensity w + num bombCount * shakePerBomb)
         maxTotalShake;
     screenFlashActive := screenFlashActive w;
     screenFlashIntensity := screenFlashIntensity w;
     log := log w ++ e2 ++ e3 ++ e4 |}.

(** A bomb with [isArmed] false. *)
Definition unarmed (b : StickyBomb.t) : Prop := StickyBomb.isArmed b = false.

(** Draws that are all 0.5. *)
Definition calm : Draws := mkDraws Building.calm 0.5 0.5.

(** A building of health 300 and resistance 1.24 with five armed bombs stuck
    on its centre (130, 400), in a window of 1000 by 800. *)
Definition sturdy : Building.t := Building.new 1 100 300 60 200 0 0.9 0.5 0.5.
Definition stuck : StickyBomb.t :=
  StickyBomb.new 130 400 (Some 0%nat) 30 100 (Some 1%nat) 0.
Definition fiveBombs : World :=
  {| innerWidth := 1000; innerHeight := 800; currentCityId := 2;
     buildings := [sturdy];
     stickyBombs := [stuck; stuck; stuck; stuck; stuck];
     staticStructures := [ABridge Bridge.sample];
     screenShakeIntensity := 0;
     screenFlashActive := false; screenFlashIntensity := 0;
     log := [] |}.

End Detonation.

(** ** The caps on the fragment arrays in gameLoop (game.js 8553-8926) *)

Module Pool.

Definition MAX_PARTICLES : nat := 1500.
Definition MAX_BUILDING_DEBRIS : nat := 400.
Definition MAX_MICRO_DEBRIS : nat := 200.
Definition MAX_DUST_PARTICLES : nat := 150.

(** The lifecycle flags of a fragment ([Particle], [GlassShard], ...). *)
Record Fragment : Type := mk
  { onGround : bool; sleeping : bool; settledTime : option Q;
    doNotDraw : bool }.

(** [fragment.doNotDraw = true]. *)
Definition hide (f : Fragment) : Fragment :=
  {| onGround := onGround f; sleeping := sleeping f;
     settledTime := settledTime f; doNotDraw := true |}.

(** [p.sleeping && p.settledTime !== null] (game.js 8716). *)
Definition isSleeper (f : Fragment) : bool :=
  sleeping f && match settledTime f with Some _ => true | None => false end.

Definition timeOf (f : Fragment) : Q := nullToZero (settledTime f).

(** [sort((a, b) => a.settledTime - b.settledTime)] (game.js 8717) on
    fragments that carry their position in the array: a stable sort. *)
Fixpoint insert (a : nat * Fragment) (l : list (nat * Fragment))
  : list (nat * Fragment) :=
  match l with
  | [] => [a]
  | b :: rest =>
      if Qle_bool (timeOf (snd a)) (timeOf (snd b))
      then a :: b :: rest
      else b :: insert a rest
  end.

Definition sortBySettledTime (l : list (nat * Fragment))
  : list (nat * Fragment) :=
  fold_right insert [] l.

(** The order of the comparator. *)
Definition earlier (a b : nat * Fragment) : Prop :=
  timeOf (snd a) <= timeOf (snd b).

(** The fragments the loop at game.js 8721-8723 flags, by position. *)
Definition victims (cap : nat) (pool : list Fragment)
  : list (nat * Fragment) :=
  let sleepingParticles :=
    sortBySettledTime (filter (fun e => isSleeper (snd e)) (indexed pool)) in
  let excessCount := (length pool - cap)%nat in
  firstn (Nat.min excessCount (length sleepingParticles)) sleepingParticles.

(** Whether position [j] is among the positions of [v]. *)
Definition flagged (v : list (nat * Fragment)) (j : nat) : bool :=
  existsb (Nat.eqb j) (map fst v).

(** game.js 8714-8724 ([particles]; 8630-8637 and 8807-8815 are the same for
    [bridgeDebris] and [voxelBits]). *)
Definition capByHiding (cap : nat) (pool : list Fragment) : list Fragment :=
  if (cap <? length pool)%nat
  then fold_left (fun p e => updateAt (fst e) hide p) (victims cap pool) pool
  else pool.

(** game.js 8760-8762, 8770-8772, 8780-8782:
    [if (a.length > MAX) a.splice(0, a.length - MAX)]. *)
Definition capBySplice {A : Type} (cap : nat) (pool : list A) : list A :=
  if (cap <? length pool)%nat
  then skipn (length pool - cap) pool
  else pool.

(** The fragments that are drawn. *)
Definition liveCount (pool : list Fragment) : nat :=
  length (filter (fun f => negb (doNotDraw f)) pool).

(** A fragment in flight, and one that settled at time [t] and sleeps. *)
Definition awake : Fragment :=
  {| onGround := false; sleeping := false; settledTime := None;
     doNotDraw := false |}.
Definition asleep (t : Q) : Fragment :=
  {| onGround := true; sleeping := true; settledTime := Some t;
     doNotDraw := false |}.

End Pool.

(** ** Particle (game.js 2636-2786) and its step in gameLoop (8687-8709) *)

Module Particle.

(** The colour of a particle is only drawn and is left out. *)
Record t : Type := mk
  { x : Q; y : Q; width : Q; height : Q;
    velocityX : Q; velocityY : Q;
    gravity : Q; friction : Q; bounciness : Q;
    rotation : Q; angularVelocity : Q; onGround : bool; mass : Q;
    z : Q; vz : Q; zDamping : Q;
    sleeping : bool; settledTime : option Q; doNotDraw : bool }.

(** game.js 2637-2661; [rotation0], [spin], [z0] and [vz0] are what the
    draws of the constructor give. *)
Definition new (px py w h vx vy rotation0 spin z0 vz0 : Q) : t :=
  {| x := px; y := py; width := w; height := h;
     velocityX := vx; velocityY := vy;
     gravity := 0.6; friction := 0.85; bounciness := 0.25;
     rotation := rotation0; angularVelocity := spin; onGround := false;
     mass := w * h / 100;
     z := z0; vz := vz0; zDamping := 0.95;
     sleeping := false; settledTime := None; doNotDraw := false |}.

Definition Math_abs (a : Q) : Q := Qabs a.

(** The bridges among the static structures, and their segments, each with
    the sway offset of its bridge, in the order the loops at 2670-2693
    visit them. *)
Definition bridges (w : World) : list Bridge.t :=
  flat_map (fun st => match st with ABridge br => [br] | _ => [] end)
    (staticStructures w).

Definition decks (w : World) : list (BridgeSegment.t * Q) :=
  flat_map
    (fun br => map (fun s => (s, Bridge.swayOffset br)) (Bridge.segments br))
    (bridges w).

(** game.js 2675-2679: the tests of the inner loop. *)
Definition rests (p : t) (d : BridgeSegment.t * Q) : bool :=
  let '(segment, swayOffset) := d in
  let particleCenterX := x p + width p / 2 in
  let segmentY := BridgeSegment.y segment + swayOffset in
  negb (BridgeSegment.State_eqb (BridgeSegment.state segment)
          BridgeSegment.Broken)
  && Qle_bool (BridgeSegment.x segment) particleCenterX
  && Qle_bool particleCenterX
       (BridgeSegment.x segment + BridgeSegment.w segment)
  && Qle_bool segmentY (y p + height p)
  && Qle_bool (y p + height p) (segmentY + BridgeSegment.h segment + 5).

(** game.js 2679-2689. *)
Definition landOnSegment (p : t) (d : BridgeSegment.t * Q) : t :=
  let '(segment, swayOffset) := d in
  let segmentY := BridgeSegment.y segment + swayOffset in
  let vy1 := velocityY p * - bounciness p in
  let still := Qlt_bool (Math_abs vy1) 0.5 in
  {| x := x p; y := segmentY - height p; width := width p;
     height := height p;
     velocityX := velocityX p * 0.7;
     velocityY := if still then 0 else vy1;
     gravity := gravity p; friction := friction p;
     bounciness := bounciness p;
     rotation := rotation p; angularVelocity := angularVelocity p * 0.6;
     onGround := if still then true else onGround p; mass := mass p;
     z := z p; vz := vz p; zDamping := zDamping p;
     sleeping := sleeping p; settledTime := settledTime p;
     doNotDraw := doNotDraw p |}.

(** game.js 2696-2724: a particle on the ground. *)
Definition slide (now : Q) (p : t) : t :=
  let vx1 := velocityX p * friction p in
  let av1 := angularVelocity p * friction p in
  let vz1 := vz p * 0.95 in
  let vx2 := if Qlt_bool (Math_abs vx1) 0.1 then 0 else vx1 in
  let av2 := if Qlt_bool (Math_abs av1) 0.01 then 0 else av1 in
  let vz2 := if Qlt_bool (Math_abs vz1) 0.05 then 0 else vz1 in
  {| x := x p; y := y p; width := width p; height := height p;
     velocityX := vx2; velocityY := velocityY p;
     gravity := gravity p; friction := friction p;
     bounciness := bounciness p;
     rotation := rotation p; angularVelocity := av2;
     onGround := onGround p; mass := mass p;
     z := z p; vz := vz2; zDamping := zDamping p;
     sleeping := sleeping p;
     settledTime :=
       match settledTime p with
       | None =>
           if Qlt_bool (Math_abs vx2) 0.1 && Qlt_bool (Math_abs av2) 0.01
           then Some now else None
       | Some t0 => Some t0
       end;
     doNotDraw := doNotDraw p |}.

(** game.js 2743-2754: the height at which a particle that has reached the
    ground line lands; the first bridge under it carries it. *)
Definition carries (px py : Q) (p : t) (br : Bridge.t) : bool :=
  let particleCenterX := px + width p / 2 in
  Qle_bool (Bridge.x br) particleCenterX
  && Qle_bool particleCenterX (Bridge.x br + Bridge.width br)
  && Qle_bool (Bridge.y br) (py + height p)
  && Qle_bool (py + height p) (Bridge.y br + Bridge.height br + 5).

Definition landingY (w : World) (px py : Q) (p : t) : Q :=
  let currentGroundY := innerHeight w * 0.85 in
  if (currentCityId w =? 2)%Z
  then
    match find (carries px py p) (bridges w) with
    | Some br => Bridge.y br - height p
    | None => currentGroundY - height p
    end
  else currentGroundY - height p.

(** game.js 2726-2778: a particle in flight. *)
Definition fly (w : World) (p : t) : t :=
  let currentGroundY := innerHeight w * 0.85 in
  let vy1 := velocityY p + gravity p in
  let vz1 := vz p * zDamping p in
  let z1 := z p + vz1 in
  let x1 := x p + velocityX p in
  let y1 := y p + vy1 in
  let rotation1 := rotation p + angularVelocity p in
  if Qle_bool currentGroundY (y1 + height p)
  then
    let vy2 := vy1 * - bounciness p in
    let still := Qlt_bool (Math_abs vy2) 0.5 in
    {| x := x1; y := landingY w x1 y1 p; width := width p;
       height := height p;
       velocityX := velocityX p * 0.7;
       velocityY := if still then 0 else vy2;
       gravity := gravity p; friction := friction p;
       bounciness := bounciness p;
       rotation := rotation1; angularVelocity := angularVelocity p * 0.6;
       onGround := if still then true else onGround p; mass := mass p;
       z := z1; vz := if still then vz1 * 0.8 * 0.9 else vz1 * 0.8;
       zDamping := zDamping p;
       sleeping := sleeping p; settledTime := settledTime p;
       doNotDraw := doNotDraw p |}
  else
    {| x := x1; y := y1; width := width p; height := height p;
       velocityX := velocityX p; velocityY := vy1;
       gravity := gravity p; friction := friction p;
       bounciness := bounciness p;
       rotation := rotation1; angularVelocity := angularVelocity p;
       onGround := onGround p; mass := mass p;
       z := z1; vz := vz1; zDamping := zDamping p;
       sleeping := sleeping p; settledTime := settledTime p;
       doNotDraw := doNotDraw p |}.

(** game.js 2780-2785. *)
Definition boundary (w : World) (p : t) : t :=
  if Qlt_bool (x p) (-200) || Qlt_bool (innerWidth w + 200) (x p)
     || Qlt_bool (innerHeight w + 200) (y p)
  then
    {| x := x p; y := y p; width := width p; height := height p;
       velocityX := velocityX p; velocityY := velocityY p;
       gravity := gravity p; friction := friction p;
       bounciness := bounciness p;
       rotation := rotation p; angularVelocity := angularVelocity p;
       onGround := true; mass := mass p;
       z := z p; vz := vz p; zDamping := zDamping p;
       sleeping := true; settledTime := settledTime p;
       doNotDraw := doNotDraw p |}
  else p.

(** game.js 2664-2786; [now] is the reading of [Date.now()] at 2716. *)
Definition update (now : Q) (w : World) (p : t) : t :=
  let onward := if onGround p then slide now p else boundary w (fly w p) in
  if (currentCityId w =? 2)%Z
  then
    match find (rests p) (decks w) with
    | Some d => landOnSegment p d
    | None => onward
    end
  else onward.

Definition SLEEP_DELAY : Q := 5000.

(** game.js 8692-8709 for one particle: [now] is the reading at 8697 and
    [now'] the one inside [update]. *)
Definition tick (now now' : Q) (w : World) (p : t) : t :=
  let p1 :=
    match settledTime p with
    | Some t0 =>
        if onGround p && negb (sleeping p)
           && Qlt_bool SLEEP_DELAY (now - t0)
        then
          {| x := x p; y := y p; width := width p; height := height p;
             velocityX := velocityX p; velocityY := velocityY p;
             gravity := gravity p; friction := friction p;
             bounciness := bounciness p;
             rotation := rotation p; angularVelocity := angularVelocity p;
             onGround := onGround p; mass := mass p;
             z := z p; vz := vz p; zDamping := zDamping p;
             sleeping := true; settledTime := settledTime p;
             doNotDraw := doNotDraw p |}
        else p
    | None => p
    end in
  if negb (sleeping p1) then update now' w p1 else p1.


(** The lifecycle flags the caps of the game loop read. *)
Definition flags (p : t) : Pool.Fragment :=
  {| Pool.onGround := onGround p; Pool.sleeping := sleeping p;
     Pool.settledTime := settledTime p; Pool.doNotDraw := doNotDraw p |}.

End Particle.

(** ** buildCityLayout, city 1 (game.js 7222-7292) *)

Module City.

(** The draws of one round of a row: for the width, the height band, the
    height and the gap, and the four of the [Building] constructor. *)
Record Draws : Type := mkDraws
  { rWidth : Q; heightRoll : Q; rHeight : Q; rGap : Q;
    c1 : Q; c2 : Q; c3 : Q; c4 : Q }.

(** game.js 7246-7254 and 7276-7284. *)
Definition buildingHeight (d : Draws) : Q :=
  if Qlt_bool (heightRoll d) 0.3 then 100 + rHeight d * 100
  else if Qlt_bool (heightRoll d) 0.7 then 200 + rHeight d * 100
  else 300 + rHeight d * 150.

(** The loops at game.js 7238-7262 and 7268-7291: a row of buildings from
    [currentX] up to [limit], the last one reaching at most [slack] beyond
    it.  [draws k] holds what [Math.random()] returns in the round numbered
    [k], every round that reads [Math.random()] taking the next number, the
    round that ends at [break] included; [oid] is the identity of the next
    building.  The result is the row and the number of the first round not
    run; [fuel] bounds the number of rounds, and [None] is a loop that has
    not ended within it. *)
Fixpoint row (fuel : nat) (draws : nat -> Draws) (k oid : nat)
    (groundY limit slack currentX : Q) : option (list Building.t * nat) :=
  match fuel with
  | O => None
  | S f =>
      if Qlt_bool currentX limit
      then
        let d := draws k in
        let buildingWidth := 30 + rWidth d * 50 in
        if Qlt_bool (limit + slack) (currentX + buildingWidth)
        then Some ([], S k)
        else
          let h := buildingHeight d in
          let buildingY := groundY - h in
          let gap := 5 + rGap d * 15 in
          match row f draws (S k) (S oid) groundY limit slack
                  (currentX + buildingWidth + gap) with
          | Some (rest, next) =>
              Some (Building.new oid currentX buildingY buildingWidth h
                      (c1 d) (c2 d) (c3 d) (c4 d) :: rest, next)
          | None => None
          end
      else Some ([], k)
  end.

(** game.js 7229-7292: the branch [cityId === 1].  The rounds of the right
    row are numbered after all the rounds of the left row, so that no
    reading of [Math.random()] is used twice. *)
Definition buildCityLayout1 (fuel : nat) (draws : nat -> Draws)
    (width height : Q) : option (list Building.t) :=
  let groundY := height * 0.85 in
  match row fuel draws 0 0 groundY (width * 0.35) 0 0 with
  | Some (leftRow, next) =>
      match row fuel draws next (length leftRow) groundY width 30
              (width * 0.65)
      with
      | Some (rightRow, _) => Some (leftRow ++ rightRow)
      | None => None
      end
  | None => None
  end.

(** Two buildings side by side, the second at least 5 to the right of the
    first. *)
Definition apart (a b : Building.t) : Prop :=
  Building.x a + Building.width a + 5 <= Building.x b.

(** What a row gives each of its buildings. *)
Definition placed (groundY lo hi : Q) (b : Building.t) : Prop :=
  Building.y b + Building.height b == groundY /\
  lo <= Building.x b /\ Building.x b + Building.width b <= hi /\
  (30 <= Building.width b /\ Building.width b < 80) /\
  (100 <= Building.height b /\ Building.height b < 450) /\
  Building.Inv b.

End City.

(** ** Screen shake and flash (game.js 75, 79, 8349-8371) *)

Module Screen.

Record Shake : Type := mkShake { x : Q; y : Q; intensity : Q }.
Record Flash : Type := mkFlash { active : bool; flashIntensity : Q }.

(** game.js 8349-8361; [r1] and [r2] are the two draws. *)
Definition updateScreenShake (r1 r2 : Q) (s : Shake) : Shake :=
  if Qlt_bool 0 (intensity s)
  then
    let x1 := (r1 - 0.5) * intensity s in
    let y1 := (r2 - 0.5) * intensity s in
    let i1 := intensity s * 0.9 in
    if Qlt_bool i1 0.1 then {| x := 0; y := 0; intensity := 0 |}
    else {| x := x1; y := y1; intensity := i1 |}
  else s.

(** game.js 8363-8371. *)
Definition updateScreenFlash (f : Flash) : Flash :=
  if active f
  then
    let i1 := flashIntensity f * 0.85 in
    if Qlt_bool i1 0.01 then {| active := false; flashIntensity := 0 |}
    else {| active := active f; flashIntensity := i1 |}
  else f.

(** [n] frames of the shake; frame [k] uses the draws [r1 k] and [r2 k]. *)
Fixpoint shakeFrames (r1 r2 : nat -> Q) (n : nat) (s : Shake) : Shake :=
  match n with
  | O => s
  | S k => updateScreenShake (r1 k) (r2 k) (shakeFrames r1 r2 k s)
  end.

Fixpoint flashFrames (n : nat) (f : Flash) : Flash :=
  match n with
  | O => f
  | S k => updateScreenFlash (flashFrames k f)
  end.

(** The flash a nuclear explosion sets (game.js 3015-3016). *)
Definition nuclearFlash : Flash := {| active := true; flashIntensity := 0.3 |}.

End Screen.

(** ** WaterWaveSystem (game.js 6956-7023) *)

Module WaterWaveSystem.

Definition MAX_WATER_POINTS : Z := 140.

(** [heights] and [velocities] are arrays of [pointCount] numbers; the
    constructor makes them so and no method changes their length. *)
Record t : Type := mk
  { startX : Q; width : Q; waterY : Q; pointCount : Z;
    heights : list Q; velocities : list Q }.

(** game.js 6957-6975. *)
Definition new (startX0 width0 waterY0 : Q) : t :=
  let count := Z.min MAX_WATER_POINTS (Math_floor (width0 / 3)) in
  {| startX := startX0; width := width0; waterY := waterY0;
     pointCount := count;
     heights := repeat 0 (Z.to_nat count);
     velocities := repeat 0 (Z.to_nat count) |}.

Definition setVelocities (v : list Q) (w : t) : t :=
  {| startX := startX w; width := width w; waterY := waterY w;
     pointCount := pointCount w; heights := heights w; velocities := v |}.

(** game.js 7008-7023.  A [width] of 0 makes [localX / this.width] infinite
    or NaN, and then neither comparison of the guard holds. *)
Definition addDisturbance (px velocityImpulse : Q) (w : t) : t :=
  if Qeq_bool (width w) 0 then w
  else
    let localX := px - startX w in
    let pointIndex :=
      Math_floor (localX / width w * inject_Z (pointCount w)) in
    if (0 <=? pointIndex)%Z && (pointIndex <? pointCount w)%Z
    then
      let i := Z.to_nat pointIndex in
      let v1 := updateAt i (fun v => v + velocityImpulse) (velocities w) in
      let v2 :=
        if (0 <? pointIndex)%Z
        then updateAt (i - 1) (fun v => v + velocityImpulse * 0.5) v1
        else v1 in
      let v3 :=
        if (pointIndex <? pointCount w - 1)%Z
        then updateAt (i + 1) (fun v => v + velocityImpulse * 0.5) v2
        else v2 in
      setVelocities v3 w
    else w.

(** The sum of an array of numbers. *)
Definition total (l : list Q) : Q := fold_right Qplus 0 l.

End WaterWaveSystem.

(** ** Explosion (game.js 2869-2909) *)

Module Explosion.

Record t : Type := mk
  { x : Q; y : Q; radius : Q; maxRadius : Q; speed : Q; active : bool;
    flashIntensity : Q; isLarge : bool }.

(** game.js 2870-2879. *)
Definition new (x0 y0 radius0 flash : Q) (large : bool) : t :=
  {| x := x0; y := y0; radius := 0; maxRadius := radius0; speed := 15;
     active := true; flashIntensity := flash; isLarge := large |}.

(** game.js 2882-2886. *)
Definition grow (e : t) : t :=
  let speedMultiplier := if isLarge e then 3 else 1 in
  let radius1 := radius e + speed e * speedMultiplier in
  {| x := x e; y := y e; radius := radius1; maxRadius := maxRadius e;
     speed := speed e;
     active := if Qle_bool (maxRadius e) radius1 then false else active e;
     flashIntensity := flashIntensity e; isLarge := isLarge e |}.

(** What one update adds to the radius of an explosion of the constructor:
    [speed * speedMultiplier]. *)
Definition stepOf (large : bool) : Q := if large then 45 else 15.

(** game.js 2891-2900: whether the explosion is near the river. *)
Definition nearWater (width height : Q) (e : t) : bool :=
  let groundY := height * 0.85 in
  let waterY := groundY + 20 in
  let riverWidth := width * 0.4 in
  let riverStartX := width * 0.3 in
  Qle_bool (waterY - 50) (y e) && Qle_bool (y e) (waterY + 50)
  && Qle_bool (riverStartX - 50) (x e)
  && Qle_bool (x e) (riverStartX + riverWidth + 50).

(** game.js 2881-2909; [rand] is the draw of the ripple. *)
Definition update (rand : Q) (currentCityId : Z) (width height : Q)
    (waterWaves : option WaterWaveSystem.t) (e : t)
  : t * option WaterWaveSystem.t :=
  let e1 := grow e in
  match waterWaves with
  | Some ww =>
      if (currentCityId =? 2)%Z && Qlt_bool (radius e1) 50
         && nearWater width height e1
      then
        let baseImpulse := 2 + rand * 2 in
        let sizeMultiplier := Math_min 3 (maxRadius e1 / 50) in
        let velocityImpulse := baseImpulse * sizeMultiplier in
        (e1, Some (WaterWaveSystem.addDisturbance (x e1) velocityImpulse ww))
      else (e1, waterWaves)
  | None => (e1, None)
  end.

(** [n] calls of [update] on one explosion; call [k] uses the draw
    [rand k]. *)
Fixpoint updates (rand : nat -> Q) (currentCityId : Z) (width height : Q)
    (n : nat) (waterWaves : option WaterWaveSystem.t) (e : t)
  : t * option WaterWaveSystem.t :=
  match n with
  | O => (e, waterWaves)
  | S k =>
      let '(e1, ww1) := updates rand currentCityId width height k waterWaves e
      in update (rand k) currentCityId width height ww1 e1
  end.

End Explosion.

(** * Properties *)

(** ** Arithmetic of the embedding *)

Lemma Qlt_bool_iff (a b : Q) : Qlt_bool a b = true <-> a < b.
Proof.
  unfold Qlt_bool. rewrite negb_true_iff.
  split; intro H.
  - apply Qnot_le_lt. intro Hle. apply Qle_bool_iff in Hle. congruence.
  - destruct (Qle_bool b a) eqn:E; [|reflexivity].
    apply Qle_bool_iff in E. lra.
Qed.

Lemma Qlt_bool_false (a b : Q) : Qlt_bool a b = false <-> b <= a.
Proof.
  unfold Qlt_bool. rewrite negb_false_iff. apply Qle_bool_iff.
Qed.

Lemma Qle_bool_false (a b : Q) : Qle_bool a b = false <-> b < a.
Proof.
  split; intro H.
  - apply Qnot_le_lt. intro Hle. apply Qle_bool_iff in Hle. congruence.
  - destruct (Qle_bool a b) eqn:E; [|reflexivity].
    apply Qle_bool_iff in E. lra.
Qed.

#[export] Instance Math_pow_compat : Proper (Qeq ==> eq ==> Qeq) Math_pow.
Proof.
  intros a b Hab n m <-. induction n as [|n IH]; simpl.
  - reflexivity.
  - rewrite IH, Hab. reflexivity.
Qed.

Lemma Math_pow_nonneg (a : Q) (n : nat) : 0 <= a -> 0 <= Math_pow a n.
Proof.
  intro Ha. induction n as [|n IH]; simpl; [lra | nra].
Qed.

Lemma Math_pow_pos (a : Q) (n : nat) : 0 < a -> 0 < Math_pow a n.
Proof.
  intro Ha. induction n as [|n IH]; simpl; [lra | nra].
Qed.

Lemma Math_pow_mono (a b : Q) (n : nat) :
  0 <= a -> a <= b -> Math_pow a n <= Math_pow b n.
Proof.
  intros Ha Hab. induction n as [|n IH]; simpl; [lra|].
  pose proof (Math_pow_nonneg a n Ha). nra.
Qed.

Lemma Math_pow_le_1 (a : Q) (n : nat) : 0 <= a -> a <= 1 -> Math_pow a n <= 1.
Proof.
  intros Ha Hb. induction n as [|n IH]; simpl; [lra|].
  pose proof (Math_pow_nonneg a n Ha). nra.
Qed.

Lemma Math_pow_0 (n : nat) : (0 < n)%nat -> Math_pow 0 n == 0.
Proof.
  destruct n; [lia|]. intros _. simpl. lra.
Qed.

Lemma Math_pow_add (a : Q) (n m : nat) :
  Math_pow a (n + m) == Math_pow a n * Math_pow a m.
Proof.
  induction n as [|n IH]; simpl; [lra|]. rewrite IH. ring.
Qed.

(** The normalised distance inside [falloff], on the domain of the contract. *)
Lemma normalized_in_range (d m : Q) :
  0 < m -> 0 <= d -> d <= m -> Math_min 1 (d / m) == d / m /\
                                0 <= d / m /\ d / m <= 1.
Proof.
  intros Hm Hd Hdm.
  assert (H0 : 0 <= d / m).
  { apply Qle_shift_div_l; lra. }
  assert (H1 : d / m <= 1).
  { apply Qle_shift_div_r; lra. }
  repeat split; try assumption.
  unfold Math_min. apply Q.min_r. exact H1.
Qed.

Lemma falloff_eq (p : nat) (d m : Q) :
  0 < m -> 0 <= d -> d <= m -> falloff p d m == Math_pow (1 - d / m) p.
Proof.
  intros Hm Hd Hdm. unfold falloff.
  destruct (normalized_in_range d m Hm Hd Hdm) as (E & _ & _).
  rewrite E. reflexivity.
Qed.

Lemma Qdiv_le_mono (a b m : Q) : 0 < m -> a <= b -> a / m <= b / m.
Proof.
  intros Hm Hab. unfold Qdiv.
  apply Qmult_le_compat_r; [exact Hab|].
  apply Qlt_le_weak, Qinv_lt_0_compat, Hm.
Qed.

(** C1: on [0, maxDistance] with [maxDistance > 0] the falloff multiplier with
    exponent 2 or 3 lies in [0, 1], is 1 at distance 0 and 0 at maxDistance,
    and does not increase with the distance; [Building.takeDamage] scales the
    resisted damage by exactly this multiplier with exponent 3. *)
Theorem falloff_contract :
  forall (p : nat) (maxDistance : Q),
    (p = 2%nat \/ p = 3%nat) -> 0 < maxDistance ->
    (forall d, 0 <= d -> d <= maxDistance ->
               0 <= falloff p d maxDistance /\ falloff p d maxDistance <= 1) /\
    falloff p 0 maxDistance == 1 /\
    falloff p maxDistance maxDistance == 0 /\
    (forall d1 d2, 0 <= d1 -> d1 <= d2 -> d2 <= maxDistance ->
                   falloff p d2 maxDistance <= falloff p d1 maxDistance) /\
    (forall b damage d, 0 <= d -> d <= maxDistance ->
       Building.finalDamage b damage d maxDistance ==
       damage * Building.materialResistance b * falloff 3 d maxDistance).
Proof.
  intros p m Hp Hm.
  assert (Hp0 : (0 < p)%nat) by (destruct Hp; subst; lia).
  split; [|split; [|split; [|split]]].
  - intros d Hd Hdm.
    destruct (normalized_in_range d m Hm Hd Hdm) as (_ & H0 & H1).
    rewrite (falloff_eq p d m Hm Hd Hdm). split.
    + apply Math_pow_nonneg. lra.
    + apply Math_pow_le_1; lra.
  - rewrite (falloff_eq p 0 m Hm); [|lra|lra].
    assert (E : 1 - 0 / m == 1) by (unfold Qdiv; ring).
    rewrite E. clear E.
    destruct Hp; subst; simpl; ring.
  - rewrite (falloff_eq p m m Hm); [|lra|lra].
    assert (E : 1 - m / m == 0) by (field; lra).
    rewrite E. apply Math_pow_0. exact Hp0.
  - intros d1 d2 H1 H12 H2.
    rewrite (falloff_eq p d1 m Hm), (falloff_eq p d2 m Hm); try lra.
    destruct (normalized_in_range d2 m Hm) as (_ & _ & Hle); try lra.
    pose proof (Qdiv_le_mono d1 d2 m Hm H12).
    apply Math_pow_mono; lra.
  - intros b damage d Hd Hdm. unfold Building.finalDamage.
    destruct (Qlt_bool 0 d) eqn:E0; simpl.
    + assert (Em : Qlt_bool 0 m = true) by (apply Qlt_bool_iff; exact Hm).
      rewrite Em. reflexivity.
    + apply Qlt_bool_false in E0.
      assert (Ed : d == 0) by lra.
      assert (F : falloff 3 d m == 1).
      { rewrite (falloff_eq 3 d m Hm Hd Hdm), Ed.
        unfold Qdiv. simpl. ring. }
      rewrite F. ring.
Qed.

Lemma falloff_contract_witness :
  (forall d, 0 <= d -> d <= 150 ->
             0 <= falloff 3 d 150 /\ falloff 3 d 150 <= 1) /\
  falloff 3 0 150 == 1 /\
  falloff 3 150 150 == 0 /\
  (forall d1 d2, 0 <= d1 -> d1 <= d2 -> d2 <= 150 ->
                 falloff 3 d2 150 <= falloff 3 d1 150) /\
  (forall b damage d, 0 <= d -> d <= 150 ->
     Building.finalDamage b damage d 150 ==
     damage * Building.materialResistance b * falloff 3 d 150).
Proof.
  apply (falloff_contract 3 150).
  - right. reflexivity.
  - reflexivity.
Defined.

(** ** Building: what one call changes *)

Section BuildingFacts.
Import Building.

Lemma scarOnHit_core rs distance maxDistance b :
  core (scarOnHit rs distance maxDistance b) = core b.
Proof.
  unfold scarOnHit. destruct (_ && _); reflexivity.
Qed.

Lemma wobbleOnHit_core rs now distance b :
  core (fst (wobbleOnHit rs now distance b)) = core b.
Proof.
  unfold wobbleOnHit. destruct (Qlt_bool _ _); reflexivity.
Qed.

Lemma wobbleOnHit_log rs now distance b :
  bursts (snd (wobbleOnHit rs now distance b)) = 0%nat /\
  dustClouds (snd (wobbleOnHit rs now distance b)) = 0%nat.
Proof.
  unfold wobbleOnHit. destruct (Qlt_bool _ _); split; reflexivity.
Qed.

Lemma collapseAtZero_core rs now b :
  core (fst (collapseAtZero rs now b)) =
  (if Qle_bool (health b) 0 then 0 else health b, damageStage b,
   if Qle_bool (health b) 0 && State_eqb (state b) Alive
   then Collapsing else state b,
   destroyed b, maxHealth b, materialResistance b, oid b,
   previousDamageStage b).
Proof.
  unfold collapseAtZero, startCollapse.
  destruct (Qle_bool (health b) 0); simpl; [|reflexivity].
  destruct (State_eqb (state b) Alive); reflexivity.
Qed.

Lemma collapseAtZero_log rs now b :
  bursts (snd (collapseAtZero rs now b)) = 0%nat /\
  dustClouds (snd (collapseAtZero rs now b)) = 0%nat.
Proof.
  unfold collapseAtZero, startCollapse.
  destruct (Qle_bool (health b) 0); simpl; [|split; reflexivity].
  destruct (State_eqb (state b) Alive); split; reflexivity.
Qed.

Lemma takeDamage_destroyed_noop rs now damage distance maxDistance b :
  destroyed b = true ->
  takeDamage rs now damage distance maxDistance b = (b, []).
Proof.
  intro H. unfold takeDamage. rewrite H. reflexivity.
Qed.

(** The fields of the result of one call on a building that is not
    destroyed. *)
Lemma takeDamage_core rs now damage distance maxDistance b :
  destroyed b = false ->
  let raw := rawHealth b damage distance maxDistance in
  core (fst (takeDamage rs now damage distance maxDistance b)) =
  (if Qle_bool raw 0 then 0 else raw,
   stageOf (raw / maxHealth b),
   if Qle_bool raw 0 && State_eqb (state b) Alive
   then Collapsing else state b,
   false, maxHealth b, materialResistance b, oid b, damageStage b).
Proof.
  intros H raw. unfold takeDamage. rewrite H.
  destruct (applyDamage damage distance maxDistance b) as [b1 e1] eqn:E1.
  destruct (wobbleOnHit rs now distance (scarOnHit rs distance maxDistance b1))
    as [b3 e3] eqn:E3.
  destruct (collapseAtZero rs now b3) as [b4 e4] eqn:E4.
  simpl.
  assert (C1 : core b1 = (raw, stageOf (raw / maxHealth b), state b, false,
                          maxHealth b, materialResistance b, oid b,
                          damageStage b)).
  { unfold applyDamage in E1. inversion E1; subst. unfold core; simpl.
    rewrite H. reflexivity. }
  assert (C3 : core b3 = core b1).
  { replace b3 with (fst (wobbleOnHit rs now distance
                            (scarOnHit rs distance maxDistance b1)))
      by (rewrite E3; reflexivity).
    rewrite wobbleOnHit_core. apply scarOnHit_core. }
  replace b4 with (fst (collapseAtZero rs now b3)) by (rewrite E4; reflexivity).
  rewrite collapseAtZero_core.
  rewrite C1 in C3. unfold core in C3. inversion C3. reflexivity.
Qed.

Lemma takeDamage_health rs now damage distance maxDistance b :
  destroyed b = false ->
  health (fst (takeDamage rs now damage distance maxDistance b)) =
  if Qle_bool (rawHealth b damage distance maxDistance) 0
  then 0 else rawHealth b damage distance maxDistance.
Proof.
  intro H.
  pose proof (takeDamage_core rs now damage distance maxDistance b H) as C.
  unfold core in C. simpl in C. congruence.
Qed.

Lemma takeDamage_stage rs now damage distance maxDistance b :
  destroyed b = false ->
  damageStage (fst (takeDamage rs now damage distance maxDistance b)) =
  stageOf (rawHealth b damage distance maxDistance / maxHealth b).
Proof.
  intro H.
  pose proof (takeDamage_core rs now damage distance maxDistance b H) as C.
  unfold core in C. simpl in C. congruence.
Qed.

Lemma takeDamage_state rs now damage distance maxDistance b :
  destroyed b = false ->
  state (fst (takeDamage rs now damage distance maxDistance b)) =
  if Qle_bool (rawHealth b damage distance maxDistance) 0
     && State_eqb (state b) Alive
  then Collapsing else state b.
Proof.
  intro H.
  pose proof (takeDamage_core rs now damage distance maxDistance b H) as C.
  unfold core in C. simpl in C. congruence.
Qed.

Lemma takeDamage_frame rs now damage distance maxDistance b :
  let b' := fst (takeDamage rs now damage distance maxDistance b) in
  destroyed b' = destroyed b /\ maxHealth b' = maxHealth b /\
  materialResistance b' = materialResistance b /\ oid b' = oid b.
Proof.
  destruct (destroyed b) eqn:H.
  - simpl. rewrite (takeDamage_destroyed_noop _ _ _ _ _ _ H). simpl.
    rewrite H. repeat split; reflexivity.
  - pose proof (takeDamage_core rs now damage distance maxDistance b H) as C.
    unfold core in C. simpl in C. simpl.
    repeat split; congruence.
Qed.

Lemma takeDamage_bursts rs now damage distance maxDistance b :
  let r := takeDamage rs now damage distance maxDistance b in
  bursts (snd r) =
    (if (damageStage b <? damageStage (fst r))%nat then 1 else 0)%nat /\
  dustClouds (snd r) =
    (if (damageStage b <? damageStage (fst r))%nat
        && (2 <=? damageStage (fst r))%nat then 1 else 0)%nat.
Proof.
  destruct (destroyed b) eqn:Hd.
  - simpl. rewrite (takeDamage_destroyed_noop _ _ _ _ _ _ Hd). simpl.
    rewrite Nat.ltb_irrefl. split; reflexivity.
  - cbv zeta.
    rewrite (takeDamage_stage rs now damage distance maxDistance b Hd).
    unfold takeDamage. rewrite Hd.
    destruct (applyDamage damage distance maxDistance b) as [b1 e1] eqn:E1.
    destruct (wobbleOnHit rs now distance
                (scarOnHit rs distance maxDistance b1)) as [b3 e3] eqn:E3.
    destruct (collapseAtZero rs now b3) as [b4 e4] eqn:E4.
    pose proof (wobbleOnHit_log rs now distance
                  (scarOnHit rs distance maxDistance b1)) as [W1 W2].
    rewrite E3 in W1, W2.
    pose proof (collapseAtZero_log rs now b3) as [K1 K2].
    rewrite E4 in K1, K2.
    unfold bursts, dustClouds in *. cbn [snd] in *.
    rewrite !filter_app, !length_app, W1, W2, K1, K2, !Nat.add_0_r.
    unfold applyDamage in E1. inversion E1 as [[Hb1 He1]]. clear E1 Hb1.
    generalize (stageOf (rawHealth b damage distance maxDistance
                         / maxHealth b)).
    intros s.
    destruct (damageStage b <? s)%nat eqn:L; cbn [andb].
    + assert (Hs : (0 <? s)%nat = true).
      { apply Nat.ltb_lt in L. apply Nat.ltb_lt. lia. }
      rewrite Hs. clear Hs L.
      destruct s as [|[|s2]]; split; reflexivity.
    + split; reflexivity.
Qed.

(** *** The stage of a health fraction *)

Ltac stage_cases :=
  unfold stageOf;
  repeat match goal with
         | |- context [Qle_bool ?a ?b] =>
             let E := fresh "E" in
             destruct (Qle_bool a b) eqn:E;
             [apply Qle_bool_iff in E | apply Qle_bool_false in E]
         end.

Lemma stageOf_compat (a b : Q) : a == b -> stageOf a = stageOf b.
Proof. intro H. stage_cases; try reflexivity; lra. Qed.

Lemma stageOf_le_3 (a : Q) : (stageOf a <= 3)%nat.
Proof. stage_cases; lia. Qed.

Lemma stageOf_antimono (a b : Q) : a <= b -> (stageOf b <= stageOf a)%nat.
Proof. intro H. stage_cases; try lia; lra. Qed.

Lemma stageOf_nonpos (a : Q) : a <= 0 -> stageOf a = 3%nat.
Proof. intro H. stage_cases; try reflexivity; lra. Qed.

Lemma stageOf_bands (hp : Q) :
  (stageOf hp = 0%nat <-> 0.75 < hp) /\
  (stageOf hp = 1%nat <-> 0.50 < hp /\ hp <= 0.75) /\
  (stageOf hp = 2%nat <-> 0.20 < hp /\ hp <= 0.50) /\
  (stageOf hp = 3%nat <-> hp <= 0.20).
Proof.
  stage_cases; repeat split; intros; try discriminate; try lra;
    try reflexivity;
    repeat match goal with H : _ /\ _ |- _ => destruct H end; lra.
Qed.

(** *** The damage that reaches the health *)

Lemma falloff_nonneg (p : nat) (d m : Q) : 0 <= falloff p d m.
Proof.
  unfold falloff, Math_min. apply Math_pow_nonneg.
  pose proof (Q.le_min_l 1 (d / m)). lra.
Qed.

Lemma finalDamage_nonneg b damage distance maxDistance :
  0 <= damage -> 0 <= materialResistance b ->
  0 <= finalDamage b damage distance maxDistance.
Proof.
  intros Hd Hr. unfold finalDamage.
  pose proof (falloff_nonneg 3 distance maxDistance).
  assert (0 <= damage * materialResistance b)
    by (apply Qmult_le_0_compat; assumption).
  destruct (_ && _); [apply Qmult_le_0_compat|]; assumption.
Qed.

Lemma Qdiv_nonpos (a m : Q) : 0 < m -> a <= 0 -> a / m <= 0.
Proof.
  intros Hm Ha. apply Qle_shift_div_r; lra.
Qed.

(** *** The invariant *)

Lemma new_Inv o bx by_ w h r1 r2 r3 r4 :
  0 <= r1 -> 0 <= r2 -> r2 < 1 -> Inv (new o bx by_ w h r1 r2 r3 r4).
Proof.
  intros H1 H2 H2'. constructor; simpl.
  - lra.
  - split; lra.
  - split; lra.
  - split; discriminate.
  - assert (E : (300 + r1 * 200) / (300 + r1 * 200) == 1) by (field; lra).
    rewrite (stageOf_compat _ _ E). reflexivity.
  - intro H. congruence.
Qed.

Lemma state_not_collapsed b :
  Inv b -> destroyed b = false -> state b <> Collapsed.
Proof.
  intros I H E. apply (inv_destroyed b I) in E. congruence.
Qed.

Lemma takeDamage_Inv rs now damage distance maxDistance b :
  Inv b -> 0 <= damage ->
  Inv (fst (takeDamage rs now damage distance maxDistance b)).
Proof.
  intros I Hd.
  destruct (destroyed b) eqn:D.
  - rewrite (takeDamage_destroyed_noop _ _ _ _ _ _ D). exact I.
  - pose proof (takeDamage_core rs now damage distance maxDistance b D) as C.
    unfold core in C. cbv zeta in C.
    set (b' := fst (takeDamage rs now damage distance maxDistance b)) in *.
    set (raw := rawHealth b damage distance maxDistance) in *.
    assert (Hh : health b' = if Qle_bool raw 0 then 0 else raw) by congruence.
    assert (Hs : damageStage b' = stageOf (raw / maxHealth b)) by congruence.
    assert (Hst : state b' = if Qle_bool raw 0 && State_eqb (state b) Alive
                             then Collapsing else state b) by congruence.
    assert (Hde : destroyed b' = false) by congruence.
    assert (Hm : maxHealth b' = maxHealth b) by congruence.
    assert (Hr : materialResistance b' = materialResistance b) by congruence.
    clear C.
    destruct I as [Imh [Ih0 Ih1] [Ir0 Ir1] Ides Istage Idead].
    assert (Hfd : 0 <= finalDamage b damage distance maxDistance).
    { apply finalDamage_nonneg; lra. }
    assert (Hraw : raw <= health b) by (unfold raw, rawHealth; lra).
    pose proof (state_not_collapsed b
                  (mkInv b Imh (conj Ih0 Ih1) (conj Ir0 Ir1) Ides Istage Idead)
                  D) as Hnc.
    constructor.
    + rewrite Hm. exact Imh.
    + rewrite Hh, Hm.
      destruct (Qle_bool raw 0) eqn:E;
        [apply Qle_bool_iff in E | apply Qle_bool_false in E]; split; lra.
    + rewrite Hr. split; assumption.
    + rewrite Hde, Hst. split; [discriminate|].
      destruct (_ && _); [discriminate | contradiction].
    + rewrite Hs, Hh, Hm.
      destruct (Qle_bool raw 0) eqn:E;
        [apply Qle_bool_iff in E | reflexivity].
      rewrite (stageOf_nonpos (raw / maxHealth b));
        [|apply Qdiv_nonpos; assumption].
      rewrite (stageOf_nonpos (0 / maxHealth b));
        [reflexivity | apply Qdiv_nonpos; lra].
    + rewrite Hst, Hh.
      destruct (Qle_bool raw 0) eqn:E;
        [intros _; reflexivity | apply Qle_bool_false in E].
      simpl. intro Hna. specialize (Idead Hna). lra.
Qed.

Lemma update_Inv r1 r2 r3 r4 now b :
  Inv b ->
  Inv (fst (update r1 r2 r3 r4 now b)) /\
  damageStage (fst (update r1 r2 r3 r4 now b)) = damageStage b /\
  bursts (snd (update r1 r2 r3 r4 now b)) = 0%nat /\
  dustClouds (snd (update r1 r2 r3 r4 now b)) = 0%nat.
Proof.
  intros I. pose proof I as I0.
  destruct I as [Imh Ih Ir Ides Istage Idead].
  unfold update. destruct (state b) eqn:S; cbn [State_eqb].
  - (* alive *)
    split; [|split; [reflexivity|]].
    + constructor; simpl; assumption.
    + simpl. destruct (_ && _); split; reflexivity.
  - (* collapsing *)
    unfold updateCollapse. rewrite S. cbn [State_eqb negb].
    assert (H0 : health b == 0) by (apply Idead; discriminate).
    assert (Hs3 : damageStage b = 3%nat).
    { rewrite Istage. apply stageOf_nonpos. apply Qdiv_nonpos; lra. }
    assert (Hd : destroyed b = false).
    { destruct (destroyed b); [|reflexivity].
      destruct Ides as [Ides _]. specialize (Ides eq_refl). discriminate. }
    rewrite Hs3. cbn [Nat.ltb Nat.leb fst snd].
    split; [|split; [reflexivity|]].
    + constructor; cbn; try assumption.
      * destruct (Qle_bool 1 _); [tauto|].
        rewrite Hd. split; discriminate.
      * rewrite <- Hs3. exact Istage.
      * intros _. exact H0.
    + unfold bursts, dustClouds.
      destruct (Qle_bool (debrisSpawnInterval b) _);
        destruct (Qle_bool 1 _); split; reflexivity.
  - (* collapsed *)
    split; [|split; [reflexivity|]].
    + constructor; simpl; assumption.
    + simpl. destruct (_ && _); split; reflexivity.
Qed.

Lemma step_Inv op b : Inv b -> okOp op -> Inv (fst (step op b)).
Proof.
  intros I H. destruct op as [rs now damage distance maxDistance|r1 r2 r3 r4 now].
  - apply takeDamage_Inv; assumption.
  - apply update_Inv; assumption.
Qed.

Lemma takeDamage_stage_mono rs now damage distance maxDistance b :
  Inv b -> 0 <= damage ->
  (damageStage b <=
   damageStage (fst (takeDamage rs now damage distance maxDistance b)))%nat.
Proof.
  intros I Hd. destruct (destroyed b) eqn:D.
  - rewrite (takeDamage_destroyed_noop _ _ _ _ _ _ D). simpl. lia.
  - rewrite (takeDamage_stage _ _ _ _ _ _ D), (inv_stage b I).
    apply stageOf_antimono.
    pose proof (inv_maxHealth b I). pose proof (inv_resistance b I).
    assert (0 <= finalDamage b damage distance maxDistance)
      by (apply finalDamage_nonneg; lra).
    apply Qdiv_le_mono; [assumption|]. unfold rawHealth. lra.
Qed.

Lemma step_stage_mono op b :
  Inv b -> okOp op -> (damageStage b <= damageStage (fst (step op b)))%nat.
Proof.
  intros I H. destruct op as [rs now damage distance maxDistance|r1 r2 r3 r4 now].
  - apply takeDamage_stage_mono; assumption.
  - simpl. destruct (update_Inv r1 r2 r3 r4 now b I) as (_ & E & _).
    rewrite E. lia.
Qed.

Lemma step_bursts op b :
  Inv b ->
  bursts (snd (step op b)) =
    (if (damageStage b <? damageStage (fst (step op b)))%nat
     then 1 else 0)%nat /\
  dustClouds (snd (step op b)) =
    (if (damageStage b <? damageStage (fst (step op b)))%nat
        && (2 <=? damageStage (fst (step op b)))%nat then 1 else 0)%nat.
Proof.
  intros I. destruct op as [rs now damage distance maxDistance|r1 r2 r3 r4 now].
  - apply takeDamage_bursts.
  - simpl. destruct (update_Inv r1 r2 r3 r4 now b I) as (_ & E & B & D).
    rewrite E, B, D, Nat.ltb_irrefl. split; reflexivity.
Qed.

Lemma bursts_app l1 l2 : bursts (l1 ++ l2) = (bursts l1 + bursts l2)%nat.
Proof. unfold bursts. rewrite filter_app, length_app. reflexivity. Qed.

Lemma dustClouds_app l1 l2 :
  dustClouds (l1 ++ l2) = (dustClouds l1 + dustClouds l2)%nat.
Proof. unfold dustClouds. rewrite filter_app, length_app. reflexivity. Qed.

Lemma run_facts ops : forall b,
  Inv b -> Forall okOp ops ->
  Inv (fst (run ops b)) /\
  (damageStage b + crossings ops b <= damageStage (fst (run ops b)))%nat /\
  bursts (snd (run ops b)) = crossings ops b /\
  dustClouds (snd (run ops b)) = heavyCrossings ops b.
Proof.
  induction ops as [|op rest IH]; intros b I H.
  - simpl. split; [assumption|]. split; [lia|]. split; reflexivity.
  - inversion H as [|? ? Hop Hrest]; subst.
    pose proof (step_Inv op b I Hop) as I1.
    pose proof (step_stage_mono op b I Hop) as M1.
    pose proof (step_bursts op b I) as [B1 D1].
    cbn [run crossings heavyCrossings].
    destruct (step op b) as [b1 e1] eqn:E1. cbn [fst snd] in *.
    destruct (IH b1 I1 Hrest) as (I2 & M2 & B2 & D2).
    destruct (run rest b1) as [b2 e2] eqn:E2. cbn [fst snd] in *.
    rewrite bursts_app, dustClouds_app, B1, D1, B2, D2.
    split; [assumption|]. split; [|split; reflexivity].
    destruct (damageStage b <? damageStage b1)%nat eqn:L.
    + apply Nat.ltb_lt in L. lia.
    + lia.
Qed.

Lemma run_app ops1 ops2 b :
  run (ops1 ++ ops2) b =
  (fst (run ops2 (fst (run ops1 b))),
   snd (run ops1 b) ++ snd (run ops2 (fst (run ops1 b)))).
Proof.
  revert b. induction ops1 as [|op rest IH]; intro b; simpl.
  - destruct (run ops2 b); reflexivity.
  - destruct (step op b) as [b1 e1]. rewrite IH.
    destruct (run rest b1) as [b2 e2]. simpl.
    rewrite app_assoc. reflexivity.
Qed.

Lemma sample_Inv : Inv sample.
Proof. apply new_Inv; lra. Qed.

(** C2: a call of [takeDamage] never raises the health of a building, and on
    a collapsed building it returns the building as it was and an empty effect
    log: no field changes and no debris, dust, scar or fire is produced. *)
Theorem takeDamage_never_heals_collapsed_inert :
  forall rs now damage distance maxDistance b,
    Inv b -> 0 <= damage ->
    health (fst (takeDamage rs now damage distance maxDistance b))
      <= health b /\
    (state b = Collapsed ->
     takeDamage rs now damage distance maxDistance b = (b, [])).
Proof.
  intros rs now damage distance maxDistance b I Hd. split.
  - destruct (destroyed b) eqn:D.
    + rewrite (takeDamage_destroyed_noop _ _ _ _ _ _ D). simpl. lra.
    + rewrite (takeDamage_health _ _ _ _ _ _ D).
      pose proof (inv_health b I) as [H0 _].
      pose proof (inv_resistance b I) as [R0 _].
      assert (0 <= finalDamage b damage distance maxDistance)
        by (apply finalDamage_nonneg; lra).
      unfold rawHealth.
      destruct (Qle_bool _ 0); lra.
  - intro S. apply takeDamage_destroyed_noop.
    apply (inv_destroyed b I). exact S.
Qed.

(** C3: the stage is the band of health / maxHealth given by [stageOf]; along
    any sequence of [takeDamage] and [update] calls it never decreases; every
    call spawns the micro-debris burst once if it raises the stage and not at
    all otherwise, with the dust cloud once more when the new stage is 2 or
    3. *)
Theorem damageStage_monotone_bursts_once :
  forall ops1 ops2 b,
    Inv b -> Forall okOp (ops1 ++ ops2) ->
    let b1 := fst (run ops1 b) in
    let r := run ops2 b1 in
    (forall hp,
       (stageOf hp = 0%nat <-> 0.75 < hp) /\
       (stageOf hp = 1%nat <-> 0.50 < hp /\ hp <= 0.75) /\
       (stageOf hp = 2%nat <-> 0.20 < hp /\ hp <= 0.50) /\
       (stageOf hp = 3%nat <-> hp <= 0.20)) /\
    damageStage b1 = stageOf (health b1 / maxHealth b1) /\
    (damageStage b <= damageStage b1)%nat /\
    (damageStage b1 <= damageStage (fst r))%nat /\
    fst (run (ops1 ++ ops2) b) = fst r /\
    bursts (snd r) = crossings ops2 b1 /\
    dustClouds (snd r) = heavyCrossings ops2 b1 /\
    (damageStage b1 + bursts (snd r) <= 3)%nat /\
    (forall op,
       bursts (snd (step op b1)) =
         (if (damageStage b1 <? damageStage (fst (step op b1)))%nat
          then 1 else 0)%nat /\
       dustClouds (snd (step op b1)) =
         (if (damageStage b1 <? damageStage (fst (step op b1)))%nat
             && (2 <=? damageStage (fst (step op b1)))%nat
          then 1 else 0)%nat).
Proof.
  intros ops1 ops2 b I H b1 r.
  apply Forall_app in H. destruct H as [H1 H2].
  destruct (run_facts ops1 b I H1) as (I1 & M1 & _ & _).
  fold b1 in I1, M1.
  destruct (run_facts ops2 b1 I1 H2) as (I2 & M2 & B2 & D2).
  fold r in I2, M2, B2, D2.
  split; [exact stageOf_bands|].
  split; [exact (inv_stage b1 I1)|].
  split; [lia|]. split; [lia|].
  split; [rewrite run_app; reflexivity|].
  split; [exact B2|]. split; [exact D2|].
  split.
  - rewrite B2. pose proof (inv_stage _ I2) as E.
    pose proof (stageOf_le_3 (health (fst r) / maxHealth (fst r))). lia.
  - intro op. exact (step_bursts op b1 I1).
Qed.

Example wreck_is_collapsed :
  state wreck = Collapsed /\ destroyed wreck = true /\ health wreck == 0.
Proof. vm_compute. repeat split; reflexivity. Qed.

Lemma takeDamage_never_heals_collapsed_inert_witness :
  (health (fst (takeDamage calm 5000 50 10 150 wreck)) <= health wreck /\
   (state wreck = Collapsed ->
    takeDamage calm 5000 50 10 150 wreck = (wreck, []))) /\
  health (fst (takeDamage calm 1000 120 0 150 sample)) <= health sample.
Proof.
  split.
  - apply takeDamage_never_heals_collapsed_inert.
    + apply (run_facts _ sample sample_Inv).
      repeat (constructor; [simpl; try lra; exact I|]). constructor.
    + lra.
  - apply takeDamage_never_heals_collapsed_inert.
    + exact sample_Inv.
    + lra.
Defined.

Example laterHits_stages :
  damageStage (fst (run firstHit sample)) = 1%nat /\
  damageStage (fst (run (firstHit ++ laterHits) sample)) = 3%nat /\
  bursts (snd (run laterHits (fst (run firstHit sample)))) = 2%nat /\
  dustClouds (snd (run laterHits (fst (run firstHit sample)))) = 2%nat.
Proof. vm_compute. repeat split; reflexivity. Qed.

Lemma damageStage_monotone_bursts_once_witness :
  (damageStage sample <= damageStage (fst (run firstHit sample)))%nat /\
  (damageStage (fst (run firstHit sample)) <=
   damageStage (fst (run laterHits (fst (run firstHit sample)))))%nat /\
  bursts (snd (run laterHits (fst (run firstHit sample)))) =
  crossings laterHits (fst (run firstHit sample)).
Proof.
  assert (H : Forall okOp (firstHit ++ laterHits)).
  { simpl. repeat (constructor; [simpl; try lra; exact I|]). constructor. }
  destruct (damageStage_monotone_bursts_once firstHit laterHits sample
              sample_Inv H) as (_ & _ & M1 & M2 & _ & B & _).
  split; [exact M1|]. split; [exact M2|exact B].
Defined.

End BuildingFacts.

(** ** Nuclear strike *)

Section NuclearFacts.
Import Building.

Lemma sqrt6_ok : SqrtOk sqrt6.
Proof.
  constructor.
  - intros a b E. unfold sqrt6. rewrite (Qred_complete a b E). reflexivity.
  - reflexivity.
  - intro a. unfold sqrt6, Qle. simpl. rewrite Z.mul_1_r.
    apply Z.sqrt_nonneg.
Qed.

Variable sqrt : Q -> Q.
Hypothesis sqrt_ok : SqrtOk sqrt.

Lemma distanceBetween_same px py qx qy :
  px == qx -> py == qy -> distanceBetween sqrt px py qx qy == 0.
Proof.
  intros Ex Ey. unfold distanceBetween.
  rewrite <- (sqrt_zero sqrt sqrt_ok). apply (sqrt_compat sqrt sqrt_ok).
  simpl. rewrite Ex, Ey. ring.
Qed.

Lemma applyShake_core r1 r2 intensity b :
  core (applyShake r1 r2 intensity b) = core b.
Proof. reflexivity. Qed.

(** Inside the radius the nuclear hit is one [takeDamage] call, given a
    damage that the falloff has already scaled, followed by a shake. *)
Lemma hitBuilding_core bombX explosionY now d b :
  state b <> Collapsed ->
  let distance :=
    distanceBetween sqrt (getCenterX b) (getCenterY b) bombX explosionY in
  distance < NuclearBomb.damageRadius ->
  core (fst (NuclearBomb.hitBuilding sqrt bombX explosionY now d b)) =
  core (fst (takeDamage (NuclearBomb.hit d) now
               (NuclearBomb.baseDamage
                * falloffNear 3 distance NuclearBomb.damageRadius)
               distance NuclearBomb.damageRadius b)).
Proof.
  intros Hs distance Hd. unfold NuclearBomb.hitBuilding.
  destruct (state b) eqn:S; try contradiction; cbn [State_eqb];
    fold distance;
    (assert (L : Qlt_bool distance NuclearBomb.damageRadius = true)
       by (apply Qlt_bool_iff; exact Hd));
    rewrite L;
    destruct (takeDamage _ _ _ _ _ _) as [b1 e1]; reflexivity.
Qed.

(** The damage the nuclear strike hands to [takeDamage] is not negative. *)
Lemma nuclear_damage_nonneg distance :
  distance < NuclearBomb.damageRadius ->
  0 <= NuclearBomb.baseDamage
       * falloffNear 3 distance NuclearBomb.damageRadius.
Proof.
  unfold NuclearBomb.damageRadius, NuclearBomb.baseDamage, falloffNear.
  intro H.
  assert (distance / 200 < 1) by (apply Qlt_shift_div_r; lra).
  assert (0 <= Math_pow (1 - distance / 200) 3)
    by (apply Math_pow_nonneg; lra).
  lra.
Qed.

Lemma falloffNear_falloff p d m :
  0 < m -> 0 <= d -> d <= m -> falloffNear p d m == falloff p d m.
Proof.
  intros Hm Hd Hdm. rewrite (falloff_eq p d m Hm Hd Hdm). reflexivity.
Qed.

Lemma strike_at_centre bombX explosionY now d b :
  health b == 400 -> maxHealth b == 400 -> materialResistance b == 1 ->
  state b = Alive -> destroyed b = false -> damageStage b = 0%nat ->
  bombX == getCenterX b -> explosionY == getCenterY b ->
  let b' := fst (NuclearBomb.hitBuilding sqrt bombX explosionY now d b) in
  health b' == 280 /\
  previousDamageStage b' = 0%nat /\
  damageStage b' = 1%nat /\ state b' = Alive /\
  health b' / maxHealth b' == 0.70.
Proof.
  intros Hh Hm Hr Hs Hd Hst Ex Ey b'.
  set (distance :=
         distanceBetween sqrt (getCenterX b) (getCenterY b) bombX explosionY).
  assert (D0 : distance == 0).
  { apply distanceBetween_same; symmetry; assumption. }
  assert (Hnc : state b <> Collapsed) by (rewrite Hs; discriminate).
  assert (Hlt : distance < NuclearBomb.damageRadius).
  { rewrite D0. reflexivity. }
  pose proof (hitBuilding_core bombX explosionY now d b Hnc Hlt) as C.
  fold b' in C. fold distance in C.
  rewrite (takeDamage_core _ _ _ _ _ _ Hd) in C.
  set (damage := NuclearBomb.baseDamage
                 * falloffNear 3 distance NuclearBomb.damageRadius) in *.
  set (raw := rawHealth b damage distance NuclearBomb.damageRadius) in *.
  assert (Hdamage : damage == 120).
  { unfold damage, falloffNear, NuclearBomb.baseDamage,
      NuclearBomb.damageRadius. rewrite D0. reflexivity. }
  assert (Hraw : raw == 280).
  { unfold raw, rawHealth, finalDamage.
    assert (G : Qlt_bool 0 distance = false).
    { apply Qlt_bool_false. rewrite D0. lra. }
    rewrite G. cbn [andb]. rewrite Hh, Hdamage, Hr. reflexivity. }
  assert (Hpos : Qle_bool raw 0 = false).
  { apply Qle_bool_false. rewrite Hraw. reflexivity. }
  rewrite Hpos in C. cbn [andb] in C.
  unfold core in C.
  assert (Eh : health b' = raw) by congruence.
  assert (Es : damageStage b' = stageOf (raw / maxHealth b)) by congruence.
  assert (Est : state b' = state b) by congruence.
  assert (Em : maxHealth b' = maxHealth b) by congruence.
  assert (Ep : previousDamageStage b' = damageStage b) by congruence.
  assert (Hfrac : raw / maxHealth b == 0.70).
  { rewrite Hraw, Hm. reflexivity. }
  repeat split.
  - rewrite Eh. exact Hraw.
  - rewrite Ep. exact Hst.
  - rewrite Es, (stageOf_compat _ _ Hfrac). reflexivity.
  - congruence.
  - rewrite Eh, Em. exact Hfrac.
Qed.

(** C5: a nuclear bomb that explodes at the centre of the only building, of
    health 400, maxHealth 400 and resistance 1.0, leaves its health at 280 and
    moves its stage from 0 to 1, 280/400 = 0.70 being in the band of stage
    1. *)
Theorem nuclear_strike_at_centre :
  forall explosionY now draws envs fires bomb w b,
    buildings w = [b] -> NuclearBomb.exploded bomb = false ->
    health b == 400 -> maxHealth b == 400 -> materialResistance b == 1 ->
    state b = Alive -> destroyed b = false -> damageStage b = 0%nat ->
    NuclearBomb.x bomb == getCenterX b -> explosionY == getCenterY b ->
    exists b',
      buildings (snd (NuclearBomb.explode sqrt explosionY now draws envs
                        fires bomb w)) = [b'] /\
      health b' == 280 /\
      previousDamageStage b' = 0%nat /\ damageStage b' = 1%nat /\
      state b' = Alive /\
      0.50 < health b' / maxHealth b' /\ health b' / maxHealth b' <= 0.75.
Proof.
  intros explosionY now draws envs fires bomb w b Hw He Hh Hm Hr Hs Hd Hst
         Ex Ey.
  exists (fst (NuclearBomb.hitBuilding sqrt (NuclearBomb.x bomb) explosionY
                 now (draws 0%nat) b)).
  destruct (strike_at_centre (NuclearBomb.x bomb) explosionY now
              (draws 0%nat) b Hh Hm Hr Hs Hd Hst Ex Ey)
    as (H1 & H2 & H3 & H4 & H5).
  split.
  - unfold NuclearBomb.explode. rewrite He, Hw. cbn [forEachBuilding].
    destruct (NuclearBomb.hitBuilding sqrt (NuclearBomb.x bomb) explosionY
                now (draws 0%nat) b) as [b1 e1].
    destruct (if (currentCityId w =? 2)%Z then _ else _) as [ss e2].
    reflexivity.
  - repeat split; try assumption; rewrite H5; lra.
Qed.

(** C4, as the code has it: inside the radius the nuclear strike scales the
    damage by the cubed falloff before the call and [takeDamage] scales it by
    the cubed falloff again, so that the health drops by
    120 * (1 - d/200)^6 * materialResistance, down to 0 at most. *)
Theorem nuclear_hit_applies_falloff_twice :
  forall bombX explosionY now d b,
    state b <> Collapsed -> destroyed b = false ->
    let distance :=
      distanceBetween sqrt (getCenterX b) (getCenterY b) bombX explosionY in
    0 < distance -> distance < 200 ->
    let once := 120 * falloff 3 distance 200 * materialResistance b in
    let twice := 120 * Math_pow (1 - distance / 200) 6
                 * materialResistance b in
    health (fst (NuclearBomb.hitBuilding sqrt bombX explosionY now d b))
      == Qmax 0 (health b - twice) /\
    twice == once * falloff 3 distance 200 /\
    (0 < materialResistance b -> twice < once).
Proof.
  intros bombX explosionY now d b Hnc Hd distance H0 H200 once twice.
  pose proof (hitBuilding_core bombX explosionY now d b Hnc H200) as C.
  fold distance in C.
  rewrite (takeDamage_core _ _ _ _ _ _ Hd) in C.
  unfold core in C.
  set (b' := fst (NuclearBomb.hitBuilding sqrt bombX explosionY now d b)) in *.
  set (raw := rawHealth b _ distance NuclearBomb.damageRadius) in *.
  assert (Eh : health b' = if Qle_bool raw 0 then 0 else raw) by congruence.
  clear C.
  assert (F : falloff 3 distance 200 == Math_pow (1 - distance / 200) 3).
  { apply falloff_eq; lra. }
  assert (Hraw : raw == health b - twice).
  { unfold raw, rawHealth, finalDamage, twice.
    assert (G1 : Qlt_bool 0 distance = true) by (apply Qlt_bool_iff; exact H0).
    assert (G2 : Qlt_bool 0 NuclearBomb.damageRadius = true) by reflexivity.
    rewrite G1, G2. cbn [andb].
    unfold NuclearBomb.damageRadius, NuclearBomb.baseDamage, falloffNear.
    rewrite F. simpl. ring. }
  assert (T : twice == once * falloff 3 distance 200).
  { unfold twice, once. rewrite F. simpl. ring. }
  split; [|split].
  - rewrite Eh.
    destruct (Qle_bool raw 0) eqn:E;
      [apply Qle_bool_iff in E | apply Qle_bool_false in E].
    + rewrite Q.max_l; [reflexivity | lra].
    + rewrite Q.max_r; [exact Hraw | lra].
  - exact T.
  - intro Hr. rewrite T.
    assert (Hx : 0 < 1 - distance / 200 /\ 1 - distance / 200 < 1).
    { assert (0 < distance / 200) by (apply Qlt_shift_div_l; lra).
      assert (distance / 200 < 1) by (apply Qlt_shift_div_r; lra).
      split; lra. }
    assert (Hf : 0 < falloff 3 distance 200 /\ falloff 3 distance 200 < 1).
    { rewrite F. destruct Hx as [Ha Hb]. simpl.
      set (u := 1 - distance / 200) in *.
      assert (P2 : 0 < u * u /\ u * u < 1) by (split; nra).
      destruct P2 as [P2a P2b].
      setoid_replace (u * (u * (u * 1))) with (u * (u * u)) by ring.
      split; nra. }
    destruct Hf as [Hf0 Hf1].
    assert (Ho : 0 < once).
    { unfold once.
      assert (0 < 120 * falloff 3 distance 200) by lra.
      apply Qmult_lt_0_compat; assumption. }
    nra.
Qed.

End NuclearFacts.

Lemma nuclear_strike_at_centre_witness :
  exists b',
    buildings
      (snd (NuclearBomb.explode sqrt6 400 1000 (fun _ => NuclearBomb.calm)
              (fun _ _ => Bridge.calm) [] NuclearBomb.overCentre
              NuclearBomb.oneBuilding)) = [b'] /\
    Building.health b' == 280 /\
    Building.previousDamageStage b' = 0%nat /\
    Building.damageStage b' = 1%nat /\
    Building.state b' = Building.Alive /\
    0.50 < Building.health b' / Building.maxHealth b' /\
    Building.health b' / Building.maxHealth b' <= 0.75.
Proof.
  apply (nuclear_strike_at_centre sqrt6 sqrt6_ok 400 1000
           (fun _ => NuclearBomb.calm) (fun _ _ => Bridge.calm) []
           NuclearBomb.overCentre NuclearBomb.oneBuilding Building.sample);
    try reflexivity; vm_compute; reflexivity.
Defined.

(** The strike of C4 at distance 100 from the centre of the sample building:
    the health goes from 400 to 398.125, where one application of the falloff
    would leave 385. *)
Example nuclear_hit_at_100 :
  distanceBetween sqrt6 (Building.getCenterX Building.sample)
    (Building.getCenterY Building.sample) 30 400 == 100 /\
  Building.health
    (fst (NuclearBomb.hitBuilding sqrt6 30 400 1000 NuclearBomb.calm
            Building.sample)) == 398.125 /\
  Building.health Building.sample
  - 120 * falloff 3 100 200 * Building.materialResistance Building.sample
  == 385.
Proof. vm_compute. repeat split; reflexivity. Qed.

Lemma nuclear_hit_applies_falloff_twice_witness :
  let distance :=
    distanceBetween sqrt6 (Building.getCenterX Building.sample)
      (Building.getCenterY Building.sample) 30 400 in
  Building.health
    (fst (NuclearBomb.hitBuilding sqrt6 30 400 1000 NuclearBomb.calm
            Building.sample))
  == Qmax 0 (Building.health Building.sample
             - 120 * Math_pow (1 - distance / 200) 6
               * Building.materialResistance Building.sample).
Proof.
  refine (proj1 (nuclear_hit_applies_falloff_twice sqrt6 30 400 1000
                   NuclearBomb.calm Building.sample _ _ _ _)).
  - discriminate.
  - reflexivity.
  - vm_compute. reflexivity.
  - vm_compute. reflexivity.
Defined.

(** ** Arrays *)

Lemma updateAt_length {A} i (f : A -> A) l :
  length (updateAt i f l) = length l.
Proof.
  revert i. induction l as [|a l IH]; intros [|i]; simpl; auto.
Qed.

Lemma updateAt_same {A} i (f : A -> A) l :
  nth_error (updateAt i f l) i = option_map f (nth_error l i).
Proof.
  revert i. induction l as [|a l IH]; intros [|i]; simpl; auto.
Qed.

Lemma updateAt_other {A} i j (f : A -> A) l :
  i <> j -> nth_error (updateAt i f l) j = nth_error l j.
Proof.
  revert i j. induction l as [|a l IH]; intros [|i] [|j] H; simpl; auto;
    try congruence.
Qed.

Lemma updateAt_id {A} i (f : A -> A) l a :
  nth_error l i = Some a -> f a = a -> updateAt i f l = l.
Proof.
  revert i. induction l as [|b l IH]; intros [|i] H E; simpl in *;
    try discriminate.
  - congruence.
  - f_equal. apply IH; assumption.
Qed.

(** ** Bridge: fracture of a segment *)

Section BridgeFacts.
Import Bridge.

Lemma breakJoints_frame s :
  BridgeSegment.state (BridgeSegment.breakJoints s) = BridgeSegment.state s /\
  BridgeSegment.health (BridgeSegment.breakJoints s) = BridgeSegment.health s /\
  BridgeSegment.isKinematic (BridgeSegment.breakJoints s)
  = BridgeSegment.isKinematic s.
Proof.
  unfold BridgeSegment.breakJoints.
  destruct (BridgeSegment.leftJoint s);
    match goal with
    | |- context [match BridgeSegment.rightJoint ?u with _ => _ end] =>
        destruct (BridgeSegment.rightJoint u)
    end; repeat split; reflexivity.
Qed.

Lemma isMiddle_segments br1 br2 i :
  length (segments br1) = length (segments br2) ->
  isMiddle br1 i = isMiddle br2 i.
Proof.
  intro H. unfold isMiddle, middleIndex. rewrite H. reflexivity.
Qed.

Lemma schedule_frame e trigger br :
  segments (scheduleProgressiveDestruction e trigger br) = segments br /\
  swayActive (scheduleProgressiveDestruction e trigger br) = swayActive br.
Proof.
  unfold scheduleProgressiveDestruction.
  destruct (negb (isMiddle br trigger)); split; reflexivity.
Qed.

(** What [onSegmentBroken] does to the segments, the sway flag and the
    scheduled breaks. *)
Lemma onSegmentBroken_fields e i br :
  let br' := fst (onSegmentBroken e i br) in
  let moved :=
    updateAt i BridgeSegment.breakJoints
      (updateAt i
         (BridgeSegment.makeDynamic ((rImpulse e - 0.5) * 0.5) (-0.3)
            ((rTorque e - 0.5) * 0.1))
         (segments br)) in
  segments br' = moved /\
  swayActive br' = (isMiddle br (Z.of_nat i) && negb (swayActive br))
                   || swayActive br /\
  snd (onSegmentBroken e i br) =
    [SpawnBridgeChunks (Z.of_nat i) (8 + Math_floor (rChunks e * 8))].
Proof.
  unfold onSegmentBroken. cbn [fst snd].
  set (br1 := if isMiddle br (Z.of_nat i) && negb (swayActive br)
              then startSway e br else br).
  assert (S1 : segments br1 = segments br)
    by (unfold br1; destruct (_ && _); reflexivity).
  assert (A1 : swayActive br1 =
               (isMiddle br (Z.of_nat i) && negb (swayActive br))
               || swayActive br).
  { unfold br1. destruct (isMiddle br (Z.of_nat i)); cbn [andb orb];
      [|reflexivity].
    destruct (swayActive br) eqn:E; cbn [negb orb]; [exact E | reflexivity]. }
  match goal with
  | |- context [scheduleProgressiveDestruction e ?t ?b] =>
      destruct (schedule_frame e t b) as [F1 F2]
  end.
  rewrite F1, F2. cbn. rewrite S1, A1. repeat split; reflexivity.
Qed.

Lemma damageSegment_length e i damage br :
  length (segments (fst (damageSegment e i damage br))) = length (segments br).
Proof.
  unfold damageSegment.
  destruct (nth_error (segments br) i) as [s|]; [|reflexivity].
  destruct (BridgeSegment.takeDamage damage s) as [s1 notify].
  destruct notify.
  - destruct (onSegmentBroken_fields e i (onSegment i (fun _ => s1) br))
      as (E & _). cbv zeta in E. rewrite E.
    rewrite !updateAt_length. cbn. apply updateAt_length.
  - cbn. apply updateAt_length.
Qed.

(** C7, as the code has it: a segment of health 100 is damaged at health 40
    after a hit of 60; a second hit of 60 clamps the health to 0, marks the
    segment broken and notifies the bridge, whose physics activation leaves
    the segment in state dynamic; when the segment is within one position of
    the middle the sway of the bridge is active afterwards. *)
Theorem segment_fracture :
  forall e1 e2 i br s,
    nth_error (segments br) i = Some s ->
    BridgeSegment.health s == 100 -> BridgeSegment.maxHealth s == 100 ->
    BridgeSegment.state s = BridgeSegment.Intact ->
    BridgeSegment.isKinematic s = true ->
    let r1 := damageSegment e1 i 60 br in
    let r2 := damageSegment e2 i 60 (fst r1) in
    exists s1 s2,
      nth_error (segments (fst r1)) i = Some s1 /\
      BridgeSegment.health s1 == 40 /\
      BridgeSegment.state s1 = BridgeSegment.Damaged /\
      snd r1 = [] /\
      BridgeSegment.takeDamage 60 s1 =
        (BridgeSegment.setHealthState 0 BridgeSegment.Broken s1, true) /\
      nth_error (segments (fst r2)) i = Some s2 /\
      BridgeSegment.health s2 == 0 /\
      BridgeSegment.state s2 = BridgeSegment.Dynamic /\
      BridgeSegment.isKinematic s2 = false /\
      (isMiddle br (Z.of_nat i) = true -> swayActive (fst r2) = true).
Proof.
  intros e1 e2 i br s Hn Hh Hm Hs Hk r1 r2.
  set (s1 := BridgeSegment.setHealthState (BridgeSegment.health s - 60)
               BridgeSegment.Damaged s).
  assert (T1 : BridgeSegment.takeDamage 60 s = (s1, false)).
  { unfold BridgeSegment.takeDamage. rewrite Hs. cbn [BridgeSegment.State_eqb orb].
    assert (A : Qle_bool (BridgeSegment.health s - 60) 0 = false).
    { apply Qle_bool_false. rewrite Hh. reflexivity. }
    assert (B : Qlt_bool (BridgeSegment.health s - 60)
                  (BridgeSegment.maxHealth s * 0.5) = true).
    { apply Qlt_bool_iff. rewrite Hh, Hm. reflexivity. }
    rewrite A, B. reflexivity. }
  assert (R1 : r1 = (onSegment i (fun _ => s1) br, [])).
  { unfold r1, damageSegment. rewrite Hn, T1. reflexivity. }
  assert (N1 : nth_error (segments (fst r1)) i = Some s1).
  { rewrite R1. cbn. rewrite updateAt_same, Hn. reflexivity. }
  set (s1b := BridgeSegment.setHealthState 0 BridgeSegment.Broken s1).
  assert (T2 : BridgeSegment.takeDamage 60 s1 = (s1b, true)).
  { unfold BridgeSegment.takeDamage. cbn [s1 BridgeSegment.state
      BridgeSegment.setHealthState BridgeSegment.State_eqb orb
      BridgeSegment.health].
    assert (A : Qle_bool (BridgeSegment.health s - 60 - 60) 0 = true).
    { apply Qle_bool_iff. rewrite Hh. discriminate. }
    rewrite A. reflexivity. }
  set (br1b := onSegment i (fun _ => s1b) (fst r1)).
  assert (R2 : r2 = onSegmentBroken e2 i br1b).
  { unfold r2, damageSegment. rewrite N1, T2. reflexivity. }
  destruct (onSegmentBroken_fields e2 i br1b) as (E & A & _).
  cbv zeta in E. rewrite <- R2 in E, A.
  set (s2 := BridgeSegment.breakJoints
               (BridgeSegment.makeDynamic ((rImpulse e2 - 0.5) * 0.5) (-0.3)
                  ((rTorque e2 - 0.5) * 0.1) s1b)).
  exists s1, s2.
  split; [exact N1|]. split; [cbn; rewrite Hh; reflexivity|].
  split; [reflexivity|]. split; [rewrite R1; reflexivity|].
  split; [exact T2|].
  assert (K : BridgeSegment.isKinematic s1b = true) by exact Hk.
  split; [|split; [|split; [|split]]].
  - rewrite E, !updateAt_same. unfold br1b. cbn [segments onSegment setSegments].
    rewrite updateAt_same, N1. reflexivity.
  - unfold s2. rewrite (proj1 (proj2 (breakJoints_frame _))).
    unfold BridgeSegment.makeDynamic. rewrite K. reflexivity.
  - unfold s2. rewrite (proj1 (breakJoints_frame _)).
    unfold BridgeSegment.makeDynamic. rewrite K. reflexivity.
  - unfold s2. rewrite (proj2 (proj2 (breakJoints_frame _))).
    unfold BridgeSegment.makeDynamic. rewrite K. reflexivity.
  - intro M. rewrite A.
    assert (L : length (segments br1b) = length (segments br)).
    { unfold br1b. cbn [segments onSegment setSegments].
      rewrite updateAt_length, R1. cbn. apply updateAt_length. }
    rewrite (isMiddle_segments br1b br _ L), M.
    destruct (swayActive br1b); reflexivity.
Qed.

Lemma segment_fracture_witness :
  let r1 := damageSegment calm 4 60 sample in
  let r2 := damageSegment calm 4 60 (fst r1) in
  exists s1 s2,
    nth_error (segments (fst r1)) 4 = Some s1 /\
    BridgeSegment.health s1 == 40 /\
    BridgeSegment.state s1 = BridgeSegment.Damaged /\
    snd r1 = [] /\
    BridgeSegment.takeDamage 60 s1 =
      (BridgeSegment.setHealthState 0 BridgeSegment.Broken s1, true) /\
    nth_error (segments (fst r2)) 4 = Some s2 /\
    BridgeSegment.health s2 == 0 /\
    BridgeSegment.state s2 = BridgeSegment.Dynamic /\
    BridgeSegment.isKinematic s2 = false /\
    (isMiddle sample (Z.of_nat 4) = true -> swayActive (fst r2) = true).
Proof.
  eapply (segment_fracture calm calm 4%nat sample).
  - reflexivity.
  - vm_compute. reflexivity.
  - vm_compute. reflexivity.
  - reflexivity.
  - reflexivity.
Defined.

(** The second hit of C7 on the middle segment of the sample bridge: the
    segment is not in state broken when the call returns. *)
Lemma segment_fracture_not_broken :
  let r1 := damageSegment calm 4 60 sample in
  let r2 := damageSegment calm 4 60 (fst r1) in
  option_map BridgeSegment.state (nth_error (segments (fst r2)) 4)
    = Some BridgeSegment.Dynamic /\
  option_map BridgeSegment.state (nth_error (segments (fst r2)) 4)
    <> Some BridgeSegment.Broken.
Proof.
  assert (E : option_map BridgeSegment.state
                (nth_error
                   (segments
                      (fst (damageSegment calm 4 60
                              (fst (damageSegment calm 4 60 sample))))) 4)
              = Some BridgeSegment.Dynamic) by (vm_compute; reflexivity).
  cbv zeta. rewrite E. split; [reflexivity | discriminate].
Qed.

(** *** The cascade *)

Lemma num_lt (j k : nat) : (j < k)%nat -> num j + 1 <= num k.
Proof.
  intro H. unfold num.
  assert (E : inject_Z (Z.of_nat j) + 1 == inject_Z (Z.of_nat j + 1)).
  { rewrite inject_Z_plus. reflexivity. }
  rewrite E. rewrite <- Zle_Qle. lia.
Qed.

Lemma floor_draw (r : Q) (n : Z) :
  (0 < n)%Z -> 0 <= r -> r < 1 ->
  (0 <= Math_floor (r * inject_Z n) <= n - 1)%Z.
Proof.
  intros Hn H0 H1. unfold Math_floor.
  assert (Hq : 0 < inject_Z n).
  { change 0 with (inject_Z 0). rewrite <- Zlt_Qlt. exact Hn. }
  split.
  - change 0%Z with (Qfloor 0). apply Qfloor_resp_le.
    apply Qmult_le_0_compat; lra.
  - pose proof (Qfloor_le (r * inject_Z n)) as L.
    assert (U : inject_Z (Qfloor (r * inject_Z n)) < inject_Z n) by nra.
    rewrite <- Zlt_Qlt in U. lia.
Qed.

Lemma breakCount_range e :
  0 <= rCount e -> rCount e < 1 -> (3 <= breakCount e <= 6)%Z.
Proof.
  intros H0 H1. unfold breakCount.
  pose proof (floor_draw (rCount e) 4 eq_refl H0 H1) as F.
  change (inject_Z 4) with 4 in F. lia.
Qed.

Lemma breakDelay_range e :
  0 <= rDelay e -> rDelay e < 1 -> 200 <= breakDelay e /\ breakDelay e < 600.
Proof.
  intros H0 H1. unfold breakDelay. split; lra.
Qed.

(** The entry that round [k] of the scheduling loop pushes. *)
Lemma scheduleRound_In e trigger br k item :
  In item (scheduleRound e trigger br k) ->
  breakTime item = clock e k + (breakDelay e + num k * 100) /\
  Z.of_nat (target item) =
    (trigger + (Z.of_nat k - Math_floor (inject_Z (breakCount e) / 2)))%Z /\
  exists seg,
    nth_error (segments br) (target item) = Some seg /\
    BridgeSegment.state seg <> BridgeSegment.Broken /\
    BridgeSegment.state seg <> BridgeSegment.Dynamic.
Proof.
  unfold scheduleRound.
  set (targetIndex :=
         (trigger + (Z.of_nat k - Math_floor (inject_Z (breakCount e) / 2)))%Z).
  destruct ((0 <=? targetIndex)%Z
            && (targetIndex <? Z.of_nat (length (segments br)))%Z) eqn:R;
    [|intros []].
  apply andb_prop in R. destruct R as [R0 R1]. apply Z.leb_le in R0.
  destruct (nth_error (segments br) (Z.to_nat targetIndex)) as [seg|] eqn:N;
    [|intros []].
  destruct (negb _ && negb _) eqn:G; [|intros []].
  intros [<-|[]]. cbn [breakTime target].
  split; [reflexivity|]. split; [apply Z2Nat.id; exact R0|].
  exists seg. split; [exact N|].
  apply andb_prop in G. destruct G as [G1 G2].
  apply negb_true_iff in G1, G2.
  split; intro E; rewrite E in *; discriminate.
Qed.

Lemma scheduleRound_length e trigger br k :
  (length (scheduleRound e trigger br k) <= 1)%nat.
Proof.
  unfold scheduleRound.
  destruct (_ && _); [|simpl; lia].
  destruct (nth_error _ _); [|simpl; lia].
  destruct (_ && _); simpl; lia.
Qed.

Lemma rounds_length e trigger br n a :
  (length (flat_map (scheduleRound e trigger br) (seq a n)) <= n)%nat.
Proof.
  revert a. induction n as [|n IH]; intro a; simpl; [lia|].
  rewrite length_app. pose proof (scheduleRound_length e trigger br a).
  specialize (IH (S a)). lia.
Qed.

Lemma rounds_In e trigger br n a item :
  In item (flat_map (scheduleRound e trigger br) (seq a n)) ->
  exists k, (a <= k < a + n)%nat /\ In item (scheduleRound e trigger br k).
Proof.
  intro H. apply in_flat_map in H. destruct H as (k & Hk & Hi).
  apply in_seq in Hk. exists k. split; [lia | exact Hi].
Qed.

Lemma rounds_sorted e trigger br n a :
  (forall j k, (j <= k)%nat -> clock e j <= clock e k) ->
  StronglySorted (fun p q => breakTime p < breakTime q)
    (flat_map (scheduleRound e trigger br) (seq a n)).
Proof.
  intro Mono. revert a. induction n as [|n IH]; intro a; simpl.
  - constructor.
  - pose proof (scheduleRound_length e trigger br a) as L.
    destruct (scheduleRound e trigger br a) as [|item [|]] eqn:R;
      simpl in L; try lia.
    + apply IH.
    + simpl. constructor; [apply IH|].
      apply Forall_forall. intros other Ho.
      apply rounds_In in Ho. destruct Ho as (k & Hk & Ho).
      apply scheduleRound_In in Ho. destruct Ho as (To & _).
      assert (Hi : In item (scheduleRound e trigger br a))
        by (rewrite R; left; reflexivity).
      apply scheduleRound_In in Hi. destruct Hi as (Ti & _).
      rewrite Ti, To.
      assert (a < k)%nat by lia.
      pose proof (num_lt a k H). pose proof (Mono a k ltac:(lia)). lra.
Qed.

Lemma setDestructionSequence_same br :
  setDestructionSequence (destructionSequence br) br = br.
Proof. destruct br; reflexivity. Qed.

(** Items that are not due stay in the sequence and nothing breaks. *)
Lemma forceBreaks_idle currentTime envs items : forall k br kept log,
  Forall (fun item => currentTime < breakTime item) items ->
  forceBreaks currentTime envs k items (br, kept, log) =
  (br, kept ++ items, log).
Proof.
  induction items as [|item rest IH]; intros k br kept log H;
    cbn [forceBreaks].
  - rewrite app_nil_r. reflexivity.
  - inversion H as [|? ? Hi Hr]; subst.
    destruct (envs k) as [[e r1] r2].
    assert (D : Qle_bool (breakTime item) currentTime = false)
      by (apply Qle_bool_false; exact Hi).
    assert (F : forceBreak currentTime e r1 r2 item (br, kept, log) =
                (br, kept ++ [item], log)).
    { unfold forceBreak. destruct (nth_error _ _); [|reflexivity].
      rewrite D. reflexivity. }
    lazy beta iota zeta.
    rewrite F, (IH _ _ _ _ Hr), <- app_assoc. reflexivity.
Qed.

Lemma processDestructionSequence_idle currentTime envs br :
  Forall (fun item => currentTime < breakTime item) (destructionSequence br) ->
  processDestructionSequence currentTime envs br = (br, []).
Proof.
  intro H. unfold processDestructionSequence.
  rewrite (forceBreaks_idle _ _ _ _ _ _ _ H). cbn [app].
  rewrite setDestructionSequence_same. reflexivity.
Qed.

(** The break of segment [i] by a hit, seen from the bridge. *)
Lemma damageSegment_breaks e i damage br s :
  nth_error (segments br) i = Some s ->
  BridgeSegment.state s = BridgeSegment.Intact \/
  BridgeSegment.state s = BridgeSegment.Damaged ->
  BridgeSegment.health s - damage <= 0 ->
  damageSegment e i damage br =
  onSegmentBroken e i
    (onSegment i
       (fun _ => BridgeSegment.setHealthState 0 BridgeSegment.Broken s) br).
Proof.
  intros N S H. unfold damageSegment. rewrite N.
  assert (T : BridgeSegment.takeDamage damage s =
              (BridgeSegment.setHealthState 0 BridgeSegment.Broken s, true)).
  { unfold BridgeSegment.takeDamage.
    assert (A : Qle_bool (BridgeSegment.health s - damage) 0 = true)
      by (apply Qle_bool_iff; exact H).
    destruct S as [S|S]; rewrite S; cbn [BridgeSegment.State_eqb orb];
      rewrite A; reflexivity. }
  rewrite T. reflexivity.
Qed.

Lemma scheduleRound_ext e trigger br1 br2 k :
  segments br1 = segments br2 ->
  scheduleRound e trigger br1 k = scheduleRound e trigger br2 k.
Proof.
  intro H. unfold scheduleRound. rewrite H. reflexivity.
Qed.

Lemma onSegmentBroken_schedule e i br :
  let br' := fst (onSegmentBroken e i br) in
  destructionSequence br' =
  destructionSequence br ++
  (if isMiddle br (Z.of_nat i)
   then flat_map (scheduleRound e (Z.of_nat i) br')
          (seq 0 (Z.to_nat (breakCount e)))
   else []).
Proof.
  intro br'.
  destruct (onSegmentBroken_fields e i br) as (E & _ & _).
  cbv zeta in E. fold br' in E.
  unfold br', onSegmentBroken in *. cbn [fst] in *.
  set (br1 := if isMiddle br (Z.of_nat i) && negb (swayActive br)
              then startSway e br else br) in *.
  set (br3 := onSegment i BridgeSegment.breakJoints
                (onSegment i
                   (BridgeSegment.makeDynamic ((rImpulse e - 0.5) * 0.5)
                      (-0.3) ((rTorque e - 0.5) * 0.1)) br1)) in *.
  assert (D1 : destructionSequence br3 = destructionSequence br).
  { unfold br3, br1. cbn. destruct (_ && _); reflexivity. }
  assert (L : length (segments br3) = length (segments br)).
  { unfold br3. cbn [segments onSegment setSegments].
    rewrite !updateAt_length. unfold br1. destruct (_ && _); reflexivity. }
  unfold scheduleProgressiveDestruction in *.
  rewrite (isMiddle_segments br3 br _ L) in *.
  destruct (isMiddle br (Z.of_nat i)); cbn [negb] in *.
  - cbn [destructionSequence setDestructionSequence]. rewrite D1.
    reflexivity.
  - rewrite D1, app_nil_r. reflexivity.
Qed.

(** Rounds of the scheduling loop push their entries in the order of any
    relation that holds between the entry of a round and that of a later
    round. *)
Lemma rounds_sorted_by e trigger br (R : Scheduled -> Scheduled -> Prop) :
  (forall j k p q,
     (j < k)%nat ->
     In p (scheduleRound e trigger br j) ->
     In q (scheduleRound e trigger br k) -> R p q) ->
  forall n a,
    StronglySorted R (flat_map (scheduleRound e trigger br) (seq a n)).
Proof.
  intros HR n. induction n as [|n IH]; intro a; simpl.
  - constructor.
  - pose proof (scheduleRound_length e trigger br a) as L.
    destruct (scheduleRound e trigger br a) as [|item [|]] eqn:E;
      simpl in L; try lia.
    + apply IH.
    + simpl. constructor; [apply IH|].
      apply Forall_forall. intros other Ho.
      apply rounds_In in Ho. destruct Ho as (k & Hk & Ho).
      apply (HR a k); [lia | rewrite E; left; reflexivity | exact Ho].
Qed.

(** The round of the scheduling loop that meets a segment which is neither
    broken nor dynamic pushes an entry for it. *)
Lemma scheduleRound_hit e trigger br k j seg :
  Z.of_nat j =
    (trigger + (Z.of_nat k - Math_floor (inject_Z (breakCount e) / 2)))%Z ->
  nth_error (segments br) j = Some seg ->
  BridgeSegment.state seg <> BridgeSegment.Broken ->
  BridgeSegment.state seg <> BridgeSegment.Dynamic ->
  scheduleRound e trigger br k =
  [mkScheduled j (clock e k + (breakDelay e + num k * 100))].
Proof.
  intros T N Nb Nd. unfold scheduleRound. rewrite <- T.
  assert (Lj : (j < length (segments br))%nat)
    by (apply nth_error_Some; congruence).
  assert (R0 : (0 <=? Z.of_nat j)%Z = true) by (apply Z.leb_le; lia).
  assert (R1 : (Z.of_nat j <? Z.of_nat (length (segments br)))%Z = true)
    by (apply Z.ltb_lt; lia).
  rewrite R0, R1, Nat2Z.id, N. cbn [andb].
  destruct (BridgeSegment.state seg); try congruence; reflexivity.
Qed.

(** Half a window of 3 to 6 positions is 1 to 3 positions, and the window
    reaches at least one position to either side. *)
Lemma half_window e :
  (3 <= breakCount e <= 6)%Z ->
  (1 <= Math_floor (inject_Z (breakCount e) / 2))%Z /\
  (Math_floor (inject_Z (breakCount e) / 2) + 1 < breakCount e)%Z.
Proof.
  intro H.
  assert (C : breakCount e = 3%Z \/ breakCount e = 4%Z \/
              breakCount e = 5%Z \/ breakCount e = 6%Z) by lia.
  destruct C as [C|[C|[C|C]]]; rewrite C; vm_compute; split; congruence.
Qed.

(** A segment that breaks away from the middle schedules nothing. *)
Lemma off_centre_break_schedules_nothing e i br s damage :
  nth_error (segments br) i = Some s ->
  BridgeSegment.state s = BridgeSegment.Intact \/
  BridgeSegment.state s = BridgeSegment.Damaged ->
  BridgeSegment.health s - damage <= 0 ->
  isMiddle br (Z.of_nat i) = false ->
  destructionSequence (fst (damageSegment e i damage br)) =
  destructionSequence br.
Proof.
  intros N S H M.
  rewrite (damageSegment_breaks e i damage br s N S H).
  set (br0 := onSegment i _ br).
  assert (L0 : length (segments br0) = length (segments br))
    by (unfold br0; cbn; apply updateAt_length).
  pose proof (onSegmentBroken_schedule e i br0) as Sch.
  cbv zeta in Sch.
  rewrite (isMiddle_segments br0 br _ L0), M, app_nil_r in Sch.
  exact Sch.
Qed.

(** C8, as the code has it: when [segment.takeDamage] breaks a segment
    within one position of the middle, the bridge appends to its destruction
    sequence exactly one entry for each segment of a window of 3 to 6
    positions around it that is neither broken nor dynamic, the trigger
    apart, and for no other segment; the window holds the two segments next
    to the trigger, so these are scheduled whenever they still stand.  The
    entries come in the order of the positions; the entry of round [k] is
    due 200-600 ms plus [k] times 100 ms after the clock reading of its
    round, so the due times rise strictly and lie at least 200 ms ahead.
    The call leaves the scheduled segments as they were, and an update that
    runs earlier than 200 ms after it breaks none of them.  A segment that
    breaks farther from the middle schedules nothing. *)
Theorem cascade_schedule :
  forall e i br s damage,
    nth_error (segments br) i = Some s ->
    BridgeSegment.state s = BridgeSegment.Intact \/
    BridgeSegment.state s = BridgeSegment.Damaged ->
    BridgeSegment.health s - damage <= 0 ->
    0 <= rDelay e -> rDelay e < 1 -> 0 <= rCount e -> rCount e < 1 ->
    (forall k, now e <= clock e k) ->
    (forall j k, (j <= k)%nat -> clock e j <= clock e k) ->
    let br' := fst (damageSegment e i damage br) in
    let half := Math_floor (inject_Z (breakCount e) / 2) in
    (isMiddle br (Z.of_nat i) = false ->
     destructionSequence br' = destructionSequence br) /\
    (isMiddle br (Z.of_nat i) = true ->
     exists added,
       destructionSequence br' = destructionSequence br ++ added /\
       (3 <= breakCount e <= 6)%Z /\
       200 <= breakDelay e /\ breakDelay e < 600 /\
       (length added <= Z.to_nat (breakCount e))%nat /\
       StronglySorted (fun p q => breakTime p < breakTime q) added /\
       StronglySorted (fun p q => (target p < target q)%nat) added /\
       Forall
         (fun item =>
            now e + 200 <= breakTime item /\
            target item <> i /\
            (exists k,
               (k < Z.to_nat (breakCount e))%nat /\
               Z.of_nat (target item) =
                 (Z.of_nat i + (Z.of_nat k - half))%Z /\
               breakTime item = clock e k + (breakDelay e + num k * 100)) /\
            (exists seg,
               nth_error (segments br) (target item) = Some seg /\
               nth_error (segments br') (target item) = Some seg /\
               BridgeSegment.state seg <> BridgeSegment.Broken /\
               BridgeSegment.state seg <> BridgeSegment.Dynamic))
         added /\
       (forall k j seg,
          (k < Z.to_nat (breakCount e))%nat ->
          Z.of_nat j = (Z.of_nat i + (Z.of_nat k - half))%Z ->
          j <> i ->
          nth_error (segments br) j = Some seg ->
          BridgeSegment.state seg <> BridgeSegment.Broken ->
          BridgeSegment.state seg <> BridgeSegment.Dynamic ->
          In (mkScheduled j (clock e k + (breakDelay e + num k * 100)))
            added) /\
       (forall j seg,
          S j = i \/ j = S i ->
          nth_error (segments br) j = Some seg ->
          BridgeSegment.state seg <> BridgeSegment.Broken ->
          BridgeSegment.state seg <> BridgeSegment.Dynamic ->
          exists t, In (mkScheduled j t) added) /\
       (forall currentTime envs,
          currentTime < now e + 200 ->
          Forall (fun item => currentTime < breakTime item)
            (destructionSequence br) ->
          processDestructionSequence currentTime envs br' = (br', []))).
Proof.
  intros e i br s damage N S H D0 D1 C0 C1 Fut Mono br' half.
  split;
    [intro M; exact (off_centre_break_schedules_nothing e i br s damage
                       N S H M)|].
  intro M.
  pose proof (damageSegment_breaks e i damage br s N S H) as B.
  set (sb := BridgeSegment.setHealthState 0 BridgeSegment.Broken s) in *.
  set (br0 := onSegment i (fun _ => sb) br) in *.
  assert (L0 : length (segments br0) = length (segments br))
    by (unfold br0; cbn; apply updateAt_length).
  assert (M0 : isMiddle br0 (Z.of_nat i) = true)
    by (rewrite (isMiddle_segments br0 br _ L0); exact M).
  pose proof (onSegmentBroken_schedule e i br0) as Sch.
  cbv zeta in Sch. rewrite M0 in Sch. rewrite <- B in Sch. fold br' in Sch.
  destruct (onSegmentBroken_fields e i br0) as (Seg & _ & _).
  cbv zeta in Seg. rewrite <- B in Seg. fold br' in Seg.
  set (added := flat_map (scheduleRound e (Z.of_nat i) br')
                  (seq 0 (Z.to_nat (breakCount e)))) in *.
  assert (Hat : forall j,
             nth_error (segments br') j =
             if (j =? i)%nat
             then Some (BridgeSegment.breakJoints
                          (BridgeSegment.makeDynamic
                             ((rImpulse e - 0.5) * 0.5) (-0.3)
                             ((rTorque e - 0.5) * 0.1) sb))
             else nth_error (segments br) j).
  { intro j. rewrite Seg. unfold br0. cbn [segments onSegment setSegments].
    destruct (j =? i)%nat eqn:E.
    - apply Nat.eqb_eq in E. subst j.
      rewrite !updateAt_same, N. reflexivity.
    - apply Nat.eqb_neq in E.
      rewrite !updateAt_other by congruence. reflexivity. }
  pose proof (breakDelay_range e D0 D1) as [Bd0 Bd1].
  pose proof (breakCount_range e C0 C1) as Bc.
  exists added.
  split; [exact Sch|]. split; [exact Bc|].
  split; [exact Bd0|]. split; [exact Bd1|].
  split; [apply (rounds_length e (Z.of_nat i) br' _ 0%nat)|].
  split; [apply rounds_sorted; exact Mono|].
  split.
  { apply rounds_sorted_by. intros j k p q Ljk Hp Hq.
    apply scheduleRound_In in Hp. destruct Hp as (_ & Tp & _).
    apply scheduleRound_In in Hq. destruct Hq as (_ & Tq & _).
    lia. }
  assert (Each : Forall
            (fun item =>
               now e + 200 <= breakTime item /\
               target item <> i /\
               (exists k,
                  (k < Z.to_nat (breakCount e))%nat /\
                  Z.of_nat (target item) =
                    (Z.of_nat i + (Z.of_nat k - half))%Z /\
                  breakTime item = clock e k + (breakDelay e + num k * 100)) /\
               (exists seg,
                  nth_error (segments br) (target item) = Some seg /\
                  nth_error (segments br') (target item) = Some seg /\
                  BridgeSegment.state seg <> BridgeSegment.Broken /\
                  BridgeSegment.state seg <> BridgeSegment.Dynamic))
            added).
  { apply Forall_forall. intros item Hi.
    apply rounds_In in Hi. destruct Hi as (k & Hk & Hi).
    apply scheduleRound_In in Hi.
    destruct Hi as (T & Tg & seg & Ns & Nb & Nd).
    assert (Hne : target item <> i).
    { intro E. rewrite E, Hat, Nat.eqb_refl in Ns. inversion Ns as [Es].
      rewrite <- Es, (proj1 (breakJoints_frame _)) in Nb, Nd.
      unfold BridgeSegment.makeDynamic in Nb, Nd.
      destruct (BridgeSegment.isKinematic sb);
        [apply Nd | apply Nb]; reflexivity. }
    split; [|split; [exact Hne|split]].
    - rewrite T. pose proof (Fut k).
      assert (0 <= num k).
      { unfold num. change 0 with (inject_Z 0). rewrite <- Zle_Qle. lia. }
      lra.
    - exists k. split; [lia|]. split; [exact Tg | exact T].
    - exists seg. rewrite Hat in Ns.
      destruct (target item =? i)%nat eqn:E;
        [apply Nat.eqb_eq in E; contradiction|].
      repeat split; try assumption.
      rewrite Hat, E. exact Ns. }
  split; [exact Each|].
  assert (Compl : forall k j seg,
             (k < Z.to_nat (breakCount e))%nat ->
             Z.of_nat j = (Z.of_nat i + (Z.of_nat k - half))%Z ->
             j <> i ->
             nth_error (segments br) j = Some seg ->
             BridgeSegment.state seg <> BridgeSegment.Broken ->
             BridgeSegment.state seg <> BridgeSegment.Dynamic ->
             In (mkScheduled j (clock e k + (breakDelay e + num k * 100)))
               added).
  { intros k j seg Hk Tj Hne Nj Nb Nd.
    apply in_flat_map. exists k. split; [apply in_seq; lia|].
    assert (Nj' : nth_error (segments br') j = Some seg).
    { rewrite Hat. apply Nat.eqb_neq in Hne. rewrite Hne. exact Nj. }
    rewrite (scheduleRound_hit e (Z.of_nat i) br' k j seg Tj Nj' Nb Nd).
    left. reflexivity. }
  split; [exact Compl|].
  split.
  { intros j seg Hj Nj Nb Nd.
    destruct (half_window e Bc) as [Hw1 Hw2]. fold half in Hw1, Hw2.
    destruct Hj as [Hj|Hj].
    - exists (clock e (Z.to_nat (half - 1))
              + (breakDelay e + num (Z.to_nat (half - 1)) * 100)).
      apply (Compl (Z.to_nat (half - 1)) j seg); try assumption; lia.
    - exists (clock e (Z.to_nat (half + 1))
              + (breakDelay e + num (Z.to_nat (half + 1)) * 100)).
      apply (Compl (Z.to_nat (half + 1)) j seg); try assumption; lia. }
  intros currentTime envs Hc Hold.
  apply processDestructionSequence_idle.
  rewrite Sch. apply Forall_app. split; [exact Hold|].
  eapply Forall_impl; [|exact Each].
  intros item (Hf & _). lra.
Qed.

Lemma cascade_schedule_witness :
  let br' := fst (damageSegment calm 4 200 sample) in
  exists added,
    destructionSequence br' = destructionSequence sample ++ added /\
    (length added <= Z.to_nat (breakCount calm))%nat /\
    StronglySorted (fun p q => breakTime p < breakTime q) added /\
    StronglySorted (fun p q => (target p < target q)%nat) added /\
    (exists t, In (mkScheduled 3 t) added) /\
    (exists t, In (mkScheduled 5 t) added) /\
    In (mkScheduled 6 (clock calm 4 + (breakDelay calm + num 4 * 100)))
      added /\
    (forall currentTime envs,
       currentTime < now calm + 200 ->
       Forall (fun item => currentTime < breakTime item)
         (destructionSequence sample) ->
       processDestructionSequence currentTime envs br' = (br', [])).
Proof.
  pose proof (fun s H => cascade_schedule calm 4%nat sample s 200 H) as P.
  specialize (P _ eq_refl).
  destruct P as (_ & P).
  - left. reflexivity.
  - vm_compute. discriminate.
  - vm_compute. discriminate.
  - reflexivity.
  - vm_compute. discriminate.
  - reflexivity.
  - intro k. vm_compute. discriminate.
  - intros j k _. vm_compute. discriminate.
  - destruct (P eq_refl)
      as (added & A & _ & _ & _ & B & C & T & _ & Compl & Nb & D).
    exists added.
    split; [exact A|]. split; [exact B|]. split; [exact C|].
    split; [exact T|].
    split; [eapply (Nb 3%nat); [left; reflexivity | reflexivity | |];
            vm_compute; discriminate|].
    split; [eapply (Nb 5%nat); [right; reflexivity | reflexivity | |];
            vm_compute; discriminate|].
    split; [|exact D].
    eapply (Compl 4%nat 6%nat);
      [vm_compute; reflexivity | vm_compute; reflexivity | lia | reflexivity
      | vm_compute; discriminate | vm_compute; discriminate].
Defined.

(** The sample bridge after a hit that breaks segment 4: four neighbours are
    scheduled, 400, 500, 700 and 800 ms ahead. *)
Example cascade_on_sample :
  map (fun item => (target item, Qred (breakTime item)))
    (destructionSequence (fst (damageSegment calm 4 200 sample)))
  = [(2%nat, 1400); (3%nat, 1500); (5%nat, 1700); (6%nat, 1800)].
Proof. vm_compute. reflexivity. Qed.

(** The code against the two halves of C8 as it was worded.  A hit breaks
    segment 0 of the sample bridge and nothing is scheduled.  And after four
    explosions of intensity 30 and radius 200 at (500, 706), which leave
    every segment standing and nothing scheduled, the fifth call of
    [Bridge.takeDamage] breaks segment 3 in round 3 of its loop, which
    schedules segments 1, 2, 4 and 5 while segment 4 is damaged, and breaks
    segment 4 in round 4: two breaks reported by one call, the second of a
    segment that the first had just scheduled. *)
Lemma cascade_not_as_claimed :
  let br' := fst (damageSegment calm 0 200 sample) in
  let hit br := takeDamage sqrt6 (fun _ => calm) 30 500 706 200 br in
  let before := fst (hit (fst (hit (fst (hit (fst (hit sample))))))) in
  let rounds n :=
    fst (fold_left (damageRound sqrt6 (fun _ => calm) 30 500 706 200)
           (seq 0 n) (before, [])) in
  (option_map BridgeSegment.state (nth_error (segments br') 0)
     = Some BridgeSegment.Dynamic /\
   option_map BridgeSegment.health (nth_error (segments br') 0) = Some 0 /\
   snd (damageSegment calm 0 200 sample) = [SpawnBridgeChunks 0 12] /\
   destructionSequence sample = [] /\
   destructionSequence br' = []) /\
  (map BridgeSegment.state (segments before)
   = [BridgeSegment.Intact; BridgeSegment.Intact; BridgeSegment.Intact;
      BridgeSegment.Damaged; BridgeSegment.Damaged; BridgeSegment.Intact;
      BridgeSegment.Intact; BridgeSegment.Intact] /\
   destructionSequence before = [] /\
   isMiddle before 3 = true /\
   map BridgeSegment.state (segments (rounds 4%nat))
   = [BridgeSegment.Intact; BridgeSegment.Intact; BridgeSegment.Damaged;
      BridgeSegment.Dynamic; BridgeSegment.Damaged; BridgeSegment.Intact;
      BridgeSegment.Intact; BridgeSegment.Intact] /\
   map (fun item => (target item, Qred (breakTime item)))
     (destructionSequence (rounds 4%nat))
   = [(1%nat, 1400); (2%nat, 1500); (4%nat, 1700); (5%nat, 1800)] /\
   map BridgeSegment.state (segments (fst (hit before)))
   = [BridgeSegment.Intact; BridgeSegment.Intact; BridgeSegment.Damaged;
      BridgeSegment.Dynamic; BridgeSegment.Dynamic; BridgeSegment.Damaged;
      BridgeSegment.Intact; BridgeSegment.Intact] /\
   snd (hit before) = [SpawnBridgeChunks 3 12; SpawnBridgeChunks 4 12] /\
   map (fun item => (target item, Qred (breakTime item)))
     (destructionSequence (fst (hit before)))
   = [(1%nat, 1400); (2%nat, 1500); (4%nat, 1700); (5%nat, 1800);
      (2%nat, 1400); (5%nat, 1700); (6%nat, 1800)]).
Proof. vm_compute. repeat split; reflexivity. Qed.

End BridgeFacts.

(** ** Detonation of the sticky bombs *)

Section DetonationFacts.
Import Detonation.

Variable sqrt : Q -> Q.

Lemma secondPass_disarms radius bombs :
  Forall unarmed (fst (secondPass radius bombs)).
Proof.
  induction bombs as [|bomb rest IH]; simpl; [constructor|].
  destruct (secondPass radius rest) as [rest1 e1]. simpl in IH.
  destruct (StickyBomb.isArmed bomb) eqn:A; simpl; constructor;
    try assumption; reflexivity.
Qed.

Lemma detach_armed o b :
  StickyBomb.isArmed (StickyBomb.detach o b) = StickyBomb.isArmed b.
Proof.
  unfold StickyBomb.detach.
  destruct (StickyBomb.attachedBuildingRef b) as [r|]; [|reflexivity].
  destruct (r =? o)%nat; reflexivity.
Qed.

Lemma detachAll_unarmed effs : forall bombs,
  Forall unarmed bombs -> Forall unarmed (detachAll effs bombs).
Proof.
  induction effs as [|e rest IH]; intros bombs H; simpl; [exact H|].
  destruct e; try (apply IH; exact H).
  apply IH. apply Forall_map. eapply Forall_impl; [|exact H].
  intros b Hb. unfold unarmed. rewrite detach_armed. exact Hb.
Qed.

Lemma bridge_pass_idle radius envs (l : list (nat * StickyBomb.t)) acc :
  Forall (fun entry => unarmed (snd entry)) l ->
  fold_left (bridgeRound sqrt radius envs) l acc = acc.
Proof.
  revert acc. induction l as [|[j bomb] rest IH]; intros acc H; simpl.
  - reflexivity.
  - inversion H as [|? ? Hb Hr]; subst. simpl in Hb.
    assert (E : bridgeRound sqrt radius envs acc (j, bomb) = acc).
    { unfold bridgeRound. destruct acc as [ss log1]. rewrite Hb. reflexivity. }
    rewrite E. apply IH. exact Hr.
Qed.

Lemma indexed_unarmed bombs :
  Forall unarmed bombs ->
  Forall (fun entry : nat * StickyBomb.t => unarmed (snd entry))
    (indexed bombs).
Proof.
  intro H. apply Forall_forall. intros [j b] Hin.
  apply in_combine_r in Hin. rewrite Forall_forall in H. apply H. exact Hin.
Qed.

(** C10: [detonateAllStickyBombs] leaves every static structure, and so every
    bridge with its segments and towers, as it was, because the second pass
    has disarmed every bomb before the bridge pass looks for armed ones; the
    bridge pass adds nothing to the effect log and the list of sticky bombs is
    empty on return. *)
Theorem detonation_spares_bridges :
  forall now draws envs w,
    let w' := detonateAllStickyBombs sqrt now draws envs w in
    staticStructures w' = staticStructures w /\
    stickyBombs w' = [] /\
    Forall unarmed
      (fst (secondPass (damageRadius w)
              (fst (firstPass sqrt (damageRadius w) (buildings w)
                      (stickyBombs w) ([], []))))).
Proof.
  intros now draws envs w w'.
  assert (P4 : forall bombs acc,
             Forall unarmed bombs ->
             fold_left (bridgeRound sqrt (damageRadius w) envs)
               (indexed bombs) acc = acc).
  { intros bombs acc H. apply bridge_pass_idle, indexed_unarmed, H. }
  split; [|split; [|apply secondPass_disarms]].
  - unfold w', detonateAllStickyBombs.
    destruct (firstPass sqrt (damageRadius w) (buildings w) (stickyBombs w)
                ([], [])) as [bombs1 [dm sm]].
    pose proof (secondPass_disarms (damageRadius w) bombs1) as U.
    destruct (secondPass (damageRadius w) bombs1) as [bombs2 e2].
    destruct (fold_left (applyAccumulated now draws sm) dm (buildings w, []))
      as [bs3 e3].
    cbn [fst] in U.
    rewrite (P4 _ _ (detachAll_unarmed e3 bombs2 U)).
    destruct (currentCityId w =? 2)%Z; reflexivity.
  - unfold w', detonateAllStickyBombs.
    destruct (firstPass _ _ _ _ _) as [bombs1 [dm sm]].
    destruct (secondPass _ _) as [bombs2 e2].
    destruct (fold_left (applyAccumulated _ _ _) _ _) as [bs3 e3].
    destruct (if (currentCityId w =? 2)%Z then _ else _) as [ss4 e4].
    reflexivity.
Qed.

(** The bridge of the five-bomb scene is untouched although all five bombs
    lie within the radius of its towers and deck. *)
Example fiveBombs_bridge_untouched :
  staticStructures
    (detonateAllStickyBombs sqrt6 1000 (fun _ => calm)
       (fun _ _ _ => Bridge.calm) fiveBombs)
  = [ABridge Bridge.sample].
Proof. vm_compute. reflexivity. Qed.

(** *** The cap of the third pass *)

Lemma mapSet_keys k v m :
  map fst (mapSet k v m) =
  if mapHas k m then map fst m else map fst m ++ [k].
Proof.
  induction m as [|[k1 v1] rest IH]; simpl; [reflexivity|].
  unfold mapHas in *. simpl.
  destruct (k1 =? k)%nat eqn:E; simpl.
  - apply Nat.eqb_eq in E. subst. reflexivity.
  - rewrite IH. destruct (existsb _ rest); reflexivity.
Qed.

Lemma mapHas_In k m : mapHas k m = true <-> In k (map fst m).
Proof.
  unfold mapHas. rewrite existsb_exists, in_map_iff. split.
  - intros (e & Hin & E). apply Nat.eqb_eq in E. exists e. tauto.
  - intros (e & E & Hin). exists e. split; [exact Hin|].
    apply Nat.eqb_eq. exact E.
Qed.

Lemma mapSet_NoDup k v m :
  NoDup (map fst m) -> NoDup (map fst (mapSet k v m)).
Proof.
  intro H. rewrite mapSet_keys. destruct (mapHas k m) eqn:E; [exact H|].
  apply NoDup_app; [exact H | repeat constructor; intros [] |].
  intros a Ha [<-|[]]. apply mapHas_In in Ha. congruence.
Qed.

Lemma accumulate_NoDup radius bomb acc entry :
  NoDup (map fst (fst acc)) ->
  NoDup (map fst (fst (accumulate sqrt radius bomb acc entry))).
Proof.
  intro H. unfold accumulate. destruct acc as [dm sm], entry as [index b].
  cbn [fst] in *.
  destruct (Building.State_eqb _ _); [exact H|].
  destruct (Qlt_bool _ _); [|exact H].
  cbn [fst]. apply mapSet_NoDup.
  destruct (negb _); [apply mapSet_NoDup|]; exact H.
Qed.

Lemma firstPass_NoDup radius bs bombs : forall acc,
  NoDup (map fst (fst acc)) ->
  NoDup (map fst (fst (snd (firstPass sqrt radius bs bombs acc)))).
Proof.
  induction bombs as [|bomb rest IH]; intros acc H; simpl; [exact H|].
  destruct (negb (StickyBomb.isArmed bomb)).
  - specialize (IH acc H).
    destruct (firstPass sqrt radius bs rest acc) as [rest1 acc1]. exact IH.
  - set (acc1 := fold_left (accumulate sqrt radius (StickyBomb.activate bomb))
                   (indexed bs) acc).
    assert (H1 : NoDup (map fst (fst acc1))).
    { unfold acc1. clear IH acc1. generalize (indexed bs). intro l.
      revert acc H. induction l as [|entry l IHl]; intros acc H; simpl.
      - exact H.
      - apply IHl. apply accumulate_NoDup. exact H. }
    specialize (IH acc1 H1).
    destruct (firstPass sqrt radius bs rest acc1) as [rest1 acc2]. exact IH.
Qed.

Section ThirdPass.
Variables (now : Q) (draws : nat -> Draws) (sm : NumMap).

Lemma applyAccumulated_other acc k total i :
  k <> i ->
  nth_error (fst (applyAccumulated now draws sm acc (k, total))) i =
  nth_error (fst acc) i.
Proof.
  intro H. unfold applyAccumulated. destruct acc as [bs log1].
  destruct (nth_error bs k) as [building|]; [|reflexivity].
  destruct (negb _); [|reflexivity].
  destruct (strike now draws sm k total building) as [b2 e1].
  cbn [fst]. apply updateAt_other. exact H.
Qed.

Lemma thirdPass_other es : forall acc i,
  ~ In i (map fst es) ->
  nth_error (fst (fold_left (applyAccumulated now draws sm) es acc)) i =
  nth_error (fst acc) i.
Proof.
  induction es as [|[k total] rest IH]; intros acc i H; simpl; [reflexivity|].
  simpl in H. rewrite IH by tauto.
  apply applyAccumulated_other. tauto.
Qed.

(** Each building is either left alone by the third pass or struck once. *)
Lemma thirdPass_at es : forall acc i b,
  NoDup (map fst es) ->
  nth_error (fst acc) i = Some b ->
  nth_error (fst (fold_left (applyAccumulated now draws sm) es acc)) i
    = Some b \/
  exists total,
    nth_error (fst (fold_left (applyAccumulated now draws sm) es acc)) i
    = Some (fst (strike now draws sm i total b)).
Proof.
  induction es as [|[k total] rest IH]; intros acc i b N H; simpl.
  - left. exact H.
  - simpl in N. inversion N as [|? ? Hk Hr]; subst.
    destruct (Nat.eq_dec k i) as [->|Hne].
    + rewrite thirdPass_other by exact Hk.
      unfold applyAccumulated. destruct acc as [bs log1]. cbn [fst] in *.
      rewrite H. destruct (negb _); [|left; exact H].
      right. exists total.
      destruct (strike now draws sm i total b) as [b2 e1].
      cbn [fst]. rewrite updateAt_same, H. reflexivity.
    + apply IH; [exact Hr|].
      rewrite applyAccumulated_other by exact Hne. exact H.
Qed.

Lemma strike_core i total b :
  Building.core (fst (strike now draws sm i total b)) =
  Building.core
    (fst (Building.takeDamage (hit (draws i)) now (Math_min total 85) 0 150 b)).
Proof.
  unfold strike. destruct (Building.takeDamage _ _ _ _ _ _) as [b1 e1].
  reflexivity.
Qed.

Lemma strike_health i total b :
  0 <= Building.materialResistance b ->
  Building.health b - 85 * Building.materialResistance b
  <= Building.health (fst (strike now draws sm i total b)).
Proof.
  intro Hr.
  assert (E : Building.health (fst (strike now draws sm i total b)) =
              Building.health
                (fst (Building.takeDamage (hit (draws i)) now
                        (Math_min total 85) 0 150 b))).
  { pose proof (strike_core i total b) as C. unfold Building.core in C.
    congruence. }
  rewrite E.
  assert (P : 0 <= 85 * Building.materialResistance b)
    by (apply Qmult_le_0_compat; lra).
  destruct (Building.destroyed b) eqn:D.
  - rewrite (takeDamage_destroyed_noop _ _ _ _ _ _ D). cbn [fst]. lra.
  - rewrite (takeDamage_health _ _ _ _ _ _ D).
    assert (R : Building.health b - 85 * Building.materialResistance b
                <= Building.rawHealth b (Math_min total 85) 0 150).
    { unfold Building.rawHealth, Building.finalDamage.
      change (Qlt_bool 0 0) with false. cbn [andb].
      pose proof (Q.le_min_r total 85) as M. unfold Math_min.
      assert (Qmin total 85 * Building.materialResistance b
              <= 85 * Building.materialResistance b)
        by (apply Qmult_le_compat_r; assumption).
      lra. }
    destruct (Qle_bool _ 0) eqn:Z;
      [apply Qle_bool_iff in Z | apply Qle_bool_false in Z]; lra.
Qed.

(** A struck building that keeps some health keeps its state. *)
Lemma strike_state i total b :
  0 <= Building.materialResistance b ->
  85 * Building.materialResistance b < Building.health b ->
  Building.state (fst (strike now draws sm i total b)) = Building.state b.
Proof.
  intros Hr Hh.
  assert (E : Building.state (fst (strike now draws sm i total b)) =
              Building.state
                (fst (Building.takeDamage (hit (draws i)) now
                        (Math_min total 85) 0 150 b))).
  { pose proof (strike_core i total b) as C. unfold Building.core in C.
    congruence. }
  rewrite E.
  destruct (Building.destroyed b) eqn:D.
  - rewrite (takeDamage_destroyed_noop _ _ _ _ _ _ D). reflexivity.
  - rewrite (takeDamage_state _ _ _ _ _ _ D).
    assert (R : 0 < Building.rawHealth b (Math_min total 85) 0 150).
    { unfold Building.rawHealth, Building.finalDamage.
      change (Qlt_bool 0 0) with false. cbn [andb].
      pose proof (Q.le_min_r total 85) as M. unfold Math_min.
      assert (Qmin total 85 * Building.materialResistance b
              <= 85 * Building.materialResistance b)
        by (apply Qmult_le_compat_r; assumption).
      lra. }
    apply Qle_bool_false in R. rewrite R. reflexivity.
Qed.

End ThirdPass.

(** C6, as the code has it: whatever the number and the places of the sticky
    bombs, one detonation lowers the health of a building by at most 85 times
    its material resistance, the cap of 85 being on the damage handed to
    [takeDamage]; so a building of health 300, whose resistance is at most
    1.3, keeps a health of at least 189.5 and its state. *)
Theorem sticky_batch_cap :
  forall now draws envs w i b,
    nth_error (buildings w) i = Some b ->
    0 <= Building.materialResistance b ->
    exists b',
      nth_error
        (buildings (detonateAllStickyBombs sqrt now draws envs w)) i
        = Some b' /\
      Building.health b - 85 * Building.materialResistance b
        <= Building.health b' /\
      (Building.materialResistance b <= 1.3 -> Building.health b == 300 ->
       189.5 <= Building.health b' /\ 0 < Building.health b' /\
       Building.state b' = Building.state b).
Proof.
  intros now draws envs w i b N Hr.
  unfold detonateAllStickyBombs.
  pose proof (firstPass_NoDup (damageRadius w) (buildings w) (stickyBombs w)
                ([], []) (NoDup_nil _)) as ND.
  destruct (firstPass sqrt (damageRadius w) (buildings w) (stickyBombs w)
              ([], [])) as [bombs1 [dm sm]].
  cbn [fst snd] in ND.
  destruct (secondPass (damageRadius w) bombs1) as [bombs2 e2].
  pose proof (thirdPass_at now draws sm dm (buildings w, []) i b ND N) as T.
  destruct (fold_left (applyAccumulated now draws sm) dm (buildings w, []))
    as [bs3 e3].
  cbn [fst] in T.
  destruct (if (currentCityId w =? 2)%Z then _ else _) as [ss4 e4].
  cbn [buildings].
  assert (P : 0 <= 85 * Building.materialResistance b)
    by (apply Qmult_le_0_compat; lra).
  destruct T as [T|[total T]].
  - exists b. split; [exact T|]. split; [lra|].
    intros H13 H300. repeat split; lra.
  - exists (fst (strike now draws sm i total b)).
    pose proof (strike_health now draws sm i total b Hr) as SH.
    split; [exact T|]. split; [exact SH|].
    intros H13 H300.
    assert (85 * Building.materialResistance b <= 110.5) by lra.
    split; [lra|]. split; [lra|].
    apply strike_state; [exact Hr | lra].
Qed.

End DetonationFacts.

Lemma sticky_batch_cap_witness :
  exists b',
    nth_error
      (buildings
         (Detonation.detonateAllStickyBombs sqrt6 1000
            (fun _ => Detonation.calm) (fun _ _ _ => Bridge.calm)
            Detonation.fiveBombs)) 0
      = Some b' /\
    Building.health Detonation.sturdy
    - 85 * Building.materialResistance Detonation.sturdy
      <= Building.health b' /\
    (Building.materialResistance Detonation.sturdy <= 1.3 ->
     Building.health Detonation.sturdy == 300 ->
     189.5 <= Building.health b' /\ 0 < Building.health b' /\
     Building.state b' = Building.state Detonation.sturdy).
Proof.
  apply (sticky_batch_cap sqrt6 1000 (fun _ => Detonation.calm)
           (fun _ _ _ => Bridge.calm) Detonation.fiveBombs 0%nat
           Detonation.sturdy).
  - reflexivity.
  - vm_compute. discriminate.
Defined.

(** Five bombs on the centre of a building of health 300 and resistance 1.24:
    the batch takes 85 * 1.24 = 105.4 and leaves 194.6, less than 215. *)
Lemma sticky_batch_exceeds_85 :
  exists b',
    nth_error
      (buildings
         (Detonation.detonateAllStickyBombs sqrt6 1000
            (fun _ => Detonation.calm) (fun _ _ _ => Bridge.calm)
            Detonation.fiveBombs)) 0
      = Some b' /\
    Building.health Detonation.sturdy == 300 /\
    Building.health b' == 194.6 /\
    ~ (215 <= Building.health b') /\
    ~ (Building.health Detonation.sturdy - Building.health b' <= 85).
Proof.
  eexists. split; [vm_compute; reflexivity|].
  vm_compute. repeat split; try reflexivity; intro H; apply H; reflexivity.
Qed.

(** ** The caps on the fragment arrays *)

Section PoolFacts.
Import Pool.

Lemma combine_seq_fst {A} (l : list A) a :
  map fst (combine (seq a (length l)) l) = seq a (length l).
Proof.
  revert a. induction l as [|x l IH]; intro a; simpl; [reflexivity|].
  rewrite IH. reflexivity.
Qed.

Lemma combine_seq_snd {A} (l : list A) a :
  map snd (combine (seq a (length l)) l) = l.
Proof.
  revert a. induction l as [|x l IH]; intro a; simpl; [reflexivity|].
  rewrite IH. reflexivity.
Qed.

Lemma combine_seq_In {A} (l : list A) a j f :
  In (j, f) (combine (seq a (length l)) l) <->
  (a <= j)%nat /\ nth_error l (j - a) = Some f.
Proof.
  revert a. induction l as [|x l IH]; intro a; simpl.
  - split; [intros [] | intros [_ H]]. destruct (j - a)%nat; discriminate.
  - rewrite IH. split.
    + intros [E|[H1 H2]].
      * inversion E; subst. rewrite Nat.sub_diag. split; [lia|reflexivity].
      * split; [lia|]. replace (j - a)%nat with (S (j - S a)) by lia.
        exact H2.
    + intros [H1 H2]. destruct (Nat.eq_dec a j) as [->|Hne].
      * rewrite Nat.sub_diag in H2. simpl in H2. left. congruence.
      * right. split; [lia|].
        replace (j - a)%nat with (S (j - S a)) in H2 by lia. exact H2.
Qed.

Lemma combine_seq_nth {A} (l : list A) a j :
  nth_error (combine (seq a (length l)) l) j =
  option_map (fun f => ((a + j)%nat, f)) (nth_error l j).
Proof.
  revert a j. induction l as [|x l IH]; intros a [|j]; simpl;
    try reflexivity.
  - rewrite Nat.add_0_r. reflexivity.
  - rewrite IH. replace (S a + j)%nat with (a + S j)%nat by lia. reflexivity.
Qed.

Lemma indexed_In {A} (l : list A) j f :
  In (j, f) (indexed l) <-> nth_error l j = Some f.
Proof.
  unfold indexed. rewrite combine_seq_In, Nat.sub_0_r.
  split; [tauto | intro H; split; [lia | exact H]].
Qed.

Lemma indexed_NoDup {A} (l : list A) : NoDup (map fst (indexed l)).
Proof.
  unfold indexed. rewrite combine_seq_fst. apply seq_NoDup.
Qed.

(** *** The sort *)

Lemma insert_perm a l : Permutation (insert a l) (a :: l).
Proof.
  induction l as [|b rest IH]; simpl; [reflexivity|].
  destruct (Qle_bool _ _); [reflexivity|].
  rewrite IH. apply perm_swap.
Qed.

Lemma sort_perm l : Permutation (sortBySettledTime l) l.
Proof.
  induction l as [|a rest IH]; simpl; [reflexivity|].
  rewrite insert_perm, IH. reflexivity.
Qed.

Lemma insert_sorted a l :
  StronglySorted earlier l -> StronglySorted earlier (insert a l).
Proof.
  induction l as [|b rest IH]; intro H; simpl.
  - repeat constructor.
  - inversion H as [|? ? Hs Hf]; subst.
    destruct (Qle_bool _ _) eqn:E.
    + apply Qle_bool_iff in E. constructor; [exact H|].
      constructor; [exact E|].
      eapply Forall_impl; [|exact Hf]. unfold earlier. intros c Hc. lra.
    + apply Qle_bool_false in E. constructor; [apply IH; exact Hs|].
      apply Forall_forall. intros c Hc.
      apply (Permutation_in _ (insert_perm a rest)) in Hc.
      destruct Hc as [<-|Hc].
      * unfold earlier. lra.
      * rewrite Forall_forall in Hf. apply Hf. exact Hc.
Qed.

Lemma sort_sorted l : StronglySorted earlier (sortBySettledTime l).
Proof.
  induction l as [|a rest IH]; simpl; [constructor|].
  apply insert_sorted. exact IH.
Qed.

Lemma sorted_prefix_suffix (l : list (nat * Fragment)) k a b :
  StronglySorted earlier l ->
  In a (firstn k l) -> In b (skipn k l) -> earlier a b.
Proof.
  revert k. induction l as [|x l IH]; intros k H Ha Hb.
  - rewrite firstn_nil in Ha. destruct Ha.
  - destruct k as [|k]; [destruct Ha|].
    inversion H as [|? ? Hs Hf]; subst. simpl in Ha, Hb.
    destruct Ha as [<-|Ha].
    + rewrite Forall_forall in Hf. apply Hf.
      rewrite <- (firstn_skipn k l). apply in_or_app. right. exact Hb.
    + exact (IH k Hs Ha Hb).
Qed.

(** *** The flags *)

Lemma hide_hide f : hide (hide f) = hide f.
Proof. reflexivity. Qed.

Lemma flag_all_nth v : forall pool j,
  nth_error (fold_left (fun p (e : nat * Fragment) => updateAt (fst e) hide p) v pool) j =
  if flagged v j then option_map hide (nth_error pool j)
  else nth_error pool j.
Proof.
  induction v as [|e rest IH]; intros pool j; simpl; [reflexivity|].
  rewrite IH. unfold flagged in *. simpl.
  destruct (Nat.eqb j (fst e)) eqn:E; simpl.
  - apply Nat.eqb_eq in E. subst j. rewrite updateAt_same.
    destruct (existsb _ _); [|reflexivity].
    destruct (nth_error pool (fst e)); reflexivity.
  - apply Nat.eqb_neq in E. rewrite updateAt_other by congruence.
    reflexivity.
Qed.

Lemma flag_all_length v : forall pool,
  length (fold_left (fun p (e : nat * Fragment) => updateAt (fst e) hide p) v pool)
  = length pool.
Proof.
  induction v as [|e rest IH]; intro pool; simpl; [reflexivity|].
  rewrite IH. apply updateAt_length.
Qed.

Lemma flagged_In v j : flagged v j = true <-> In j (map fst v).
Proof.
  unfold flagged. rewrite existsb_exists. split.
  - intros (k & Hk & E). apply Nat.eqb_eq in E. subst. exact Hk.
  - intro H. exists j. split; [exact H | apply Nat.eqb_refl].
Qed.

Lemma filter_length_le {A} (p q : A -> bool) l :
  (forall a, p a = true -> q a = true) ->
  (length (filter p l) <= length (filter q l))%nat.
Proof.
  intro H. induction l as [|a l IH]; simpl; [lia|].
  destruct (p a) eqn:P.
  - rewrite (H a P). simpl. lia.
  - destruct (q a); simpl; lia.
Qed.

(** Flagging the positions [v] leaves at most [length pool - length v]
    fragments drawn. *)
Lemma flag_all_live v pool :
  NoDup (map fst v) ->
  (forall j, In j (map fst v) -> (j < length pool)%nat) ->
  (liveCount (fold_left (fun p (e : nat * Fragment) => updateAt (fst e) hide p) v pool)
   + length v <= length pool)%nat.
Proof.
  intros ND Hlt.
  set (pool' := fold_left (fun p (e : nat * Fragment) =>
                              updateAt (fst e) hide p) v pool).
  assert (E : pool' =
              map (fun e => if flagged v (fst e) then hide (snd e) else snd e)
                (indexed pool)).
  { apply nth_error_ext. intro j. unfold pool'. rewrite flag_all_nth.
    rewrite nth_error_map.
    unfold indexed. rewrite combine_seq_nth.
    destruct (nth_error pool j) as [f|]; simpl;
      destruct (flagged v j); reflexivity. }
  unfold liveCount. rewrite E, filter_map_swap, length_map.
  set (free := fun e : nat * Fragment => negb (flagged v (fst e))).
  assert (L1 : (length (filter
                          (fun a => negb (doNotDraw
                             (if flagged v (fst a) then hide (snd a)
                              else snd a))) (indexed pool))
                <= length (filter free (indexed pool)))%nat).
  { apply filter_length_le. intros a Ha. unfold free.
    destruct (flagged v (fst a)); [discriminate Ha | reflexivity]. }
  assert (L2 : length (filter free (indexed pool)) =
               length (filter (fun j => negb (flagged v j))
                         (seq 0 (length pool)))).
  { rewrite <- (combine_seq_fst pool 0), filter_map_swap, length_map.
    reflexivity. }
  pose proof (filter_length (flagged v) (seq 0 (length pool))) as L3.
  rewrite length_seq in L3.
  assert (L4 : (length (map fst v)
                <= length (filter (flagged v) (seq 0 (length pool))))%nat).
  { apply NoDup_incl_length; [exact ND|].
    intros j Hj. apply filter_In. split.
    - apply in_seq. specialize (Hlt j Hj). lia.
    - apply flagged_In. exact Hj. }
  rewrite length_map in L4. lia.
Qed.

(** *** The fragments that are flagged *)

Lemma NoDup_fst_filter {A B} (p : A * B -> bool) (l : list (A * B)) :
  NoDup (map fst l) -> NoDup (map fst (filter p l)).
Proof.
  induction l as [|a l IH]; simpl; intro H; [constructor|].
  inversion H as [|? ? Hn Hr]; subst.
  destruct (p a); simpl; [|apply IH; exact Hr].
  constructor; [|apply IH; exact Hr].
  intro Hin. apply Hn. apply in_map_iff in Hin.
  destruct Hin as (e & E & He). apply filter_In in He.
  apply in_map_iff. exists e. tauto.
Qed.

Lemma NoDup_firstn {A} k (l : list A) : NoDup l -> NoDup (firstn k l).
Proof.
  intro H. rewrite <- (firstn_skipn k l) in H.
  apply NoDup_app_remove_r in H. exact H.
Qed.

Lemma In_firstn {A} k (l : list A) a : In a (firstn k l) -> In a l.
Proof.
  intro H. rewrite <- (firstn_skipn k l). apply in_or_app. left. exact H.
Qed.

Lemma sleepers_count pool :
  length (filter (fun e : nat * Fragment => isSleeper (snd e)) (indexed pool))
  = length (filter isSleeper pool).
Proof.
  rewrite <- (combine_seq_snd pool 0) at 2.
  rewrite filter_map_swap, length_map. reflexivity.
Qed.

Lemma victims_facts cap pool :
  let v := victims cap pool in
  length v = Nat.min (length pool - cap) (length (filter isSleeper pool)) /\
  NoDup (map fst v) /\
  (forall j f, In (j, f) v ->
     nth_error pool j = Some f /\ isSleeper f = true) /\
  (forall j f k u,
     In (j, f) v -> nth_error pool k = Some u -> isSleeper u = true ->
     ~ In k (map fst v) -> timeOf f <= timeOf u).
Proof.
  unfold victims.
  set (sleepers := filter (fun e : nat * Fragment => isSleeper (snd e))
                     (indexed pool)).
  set (sorted := sortBySettledTime sleepers).
  set (k := Nat.min (length pool - cap) (length sorted)).
  pose proof (sort_perm sleepers) as P. fold sorted in P.
  pose proof (sort_sorted sleepers) as S. fold sorted in S.
  assert (Ls : length sorted = length (filter isSleeper pool)).
  { rewrite (Permutation_length P). apply sleepers_count. }
  assert (In_sleepers : forall j f,
             In (j, f) sleepers <->
             nth_error pool j = Some f /\ isSleeper f = true).
  { intros j f. unfold sleepers. rewrite filter_In, indexed_In. tauto. }
  assert (NDs : NoDup (map fst sorted)).
  { apply (Permutation_NoDup (Permutation_map fst (Permutation_sym P))).
    apply NoDup_fst_filter, indexed_NoDup. }
  cbv zeta. split; [|split; [|split]].
  - rewrite length_firstn. unfold k. rewrite <- Ls. lia.
  - rewrite <- firstn_map. apply NoDup_firstn. exact NDs.
  - intros j f H. apply In_firstn in H.
    apply (Permutation_in _ P) in H. apply In_sleepers. exact H.
  - intros j f i u Hv Hn Hu Hout.
    assert (Hs : In (i, u) sorted).
    { apply (Permutation_in _ (Permutation_sym P)). apply In_sleepers.
      split; assumption. }
    rewrite <- (firstn_skipn k sorted) in Hs. apply in_app_or in Hs.
    destruct Hs as [Hs|Hs].
    + exfalso. apply Hout. apply in_map_iff. exists (i, u). split;
        [reflexivity | exact Hs].
    + exact (sorted_prefix_suffix sorted k (j, f) (i, u) S Hv Hs).
Qed.

(** C9, as the code has it.  When [particles] holds more than its cap, the
    cap step deletes nothing: with [s] the number of fragments that sleep
    and have a [settledTime], it sets [doNotDraw] on min(excess, [s]) of
    these, at distinct positions, those whose [settledTime] is earliest, and
    on no other fragment; so no fragment still awake is touched, nor one
    that sleeps without a [settledTime], and with [s = 0] the array is left
    as it is.  The number of fragments drawn is afterwards at most the
    length less the number flagged, which is within the cap when [s] is at
    least the excess.  The arrays capped by [splice] are cut down to their
    cap by dropping their first elements. *)
Theorem pool_cap_step :
  forall cap pool,
    (cap < length pool)%nat ->
    let pool' := capByHiding cap pool in
    let v := victims cap pool in
    length pool' = length pool /\
    (forall j,
       nth_error pool' j =
       if flagged v j then option_map hide (nth_error pool j)
       else nth_error pool j) /\
    length v = Nat.min (length pool - cap) (length (filter isSleeper pool)) /\
    (forall j f, In (j, f) v ->
       nth_error pool j = Some f /\ sleeping f = true /\
       settledTime f <> None) /\
    (forall j f k u,
       In (j, f) v -> nth_error pool k = Some u -> isSleeper u = true ->
       flagged v k = false -> timeOf f <= timeOf u) /\
    ((length pool - cap <= length (filter isSleeper pool))%nat ->
     (liveCount pool' <= cap)%nat) /\
    (forall (B : Type) (q : list B),
       (length (capBySplice cap q) <= cap)%nat /\
       capBySplice cap q = skipn (length q - cap) q) /\
    NoDup (map fst v) /\
    (liveCount pool' + length v <= length pool)%nat /\
    (length (filter isSleeper pool) = 0%nat -> pool' = pool).
Proof.
  intros cap pool Hc pool' v.
  pose proof (victims_facts cap pool) as VF. cbv zeta in VF.
  change (victims cap pool) with v in VF.
  destruct VF as (Lv & ND & Hin & Hord).
  assert (Ec : pool' =
               fold_left (fun p (e : nat * Fragment) =>
                            updateAt (fst e) hide p) v pool).
  { unfold pool', capByHiding.
    apply Nat.ltb_lt in Hc. rewrite Hc. reflexivity. }
  assert (Hlt : forall j, In j (map fst v) -> (j < length pool)%nat).
  { intros j Hj. apply in_map_iff in Hj. destruct Hj as ([j' f] & E & He).
    simpl in E. subst j'. destruct (Hin j f He) as [N _].
    apply nth_error_Some. congruence. }
  pose proof (flag_all_live v pool ND Hlt) as Live. rewrite <- Ec in Live.
  split; [rewrite Ec; apply flag_all_length|].
  split; [intro j; rewrite Ec; apply flag_all_nth|].
  split; [exact Lv|].
  split; [|split; [|split; [|split; [|split; [|split]]]]].
  - intros j f H. destruct (Hin j f H) as [N S]. split; [exact N|].
    unfold isSleeper in S. apply andb_prop in S. destruct S as [S1 S2].
    split; [exact S1|]. destruct (settledTime f); [discriminate | discriminate].
  - intros j f k u Hv Hn Hu Hk. apply (Hord j f k u Hv Hn Hu).
    intro H. apply flagged_In in H. congruence.
  - intro Hs. rewrite Lv in Live. lia.
  - intros B q. unfold capBySplice.
    destruct (cap <? length q)%nat eqn:E.
    + apply Nat.ltb_lt in E. rewrite length_skipn. split; [lia|reflexivity].
    + apply Nat.ltb_ge in E. split; [exact E|].
      replace (length q - cap)%nat with 0%nat by lia. reflexivity.
  - exact ND.
  - exact Live.
  - intro Z. rewrite Z, Nat.min_0_r in Lv.
    rewrite Ec. destruct v; [reflexivity | discriminate Lv].
Qed.

Lemma pool_cap_step_witness :
  let pool := [asleep 30; awake; asleep 10; asleep 20; awake] in
  capByHiding 3 pool = [asleep 30; awake; hide (asleep 10);
                        hide (asleep 20); awake] /\
  length (capByHiding 3 pool) = length pool /\
  (liveCount (capByHiding 3 pool) <= 3)%nat.
Proof.
  assert (H : (3 < length [asleep 30; awake; asleep 10; asleep 20; awake])%nat)
    by (simpl; lia).
  destruct (pool_cap_step 3 [asleep 30; awake; asleep 10; asleep 20; awake] H)
    as (L & _ & _ & _ & _ & C & _).
  split; [reflexivity|]. split; [exact L|].
  apply C. simpl. lia.
Defined.

(** A particle that flies off the right edge of a window 1000 wide is put to
    sleep by its update without a [settledTime]; 1501 fragments in that
    state all sleep, none is flagged by the cap step, and all are drawn. *)
Example sleepers_off_screen_stay_drawn :
  let f :=
    Particle.flags
      (Particle.tick 0 0 NuclearBomb.oneBuilding
         (Particle.new 1300 100 4 4 5 0 0 0 0 0)) in
  f = {| onGround := true; sleeping := true; settledTime := None;
         doNotDraw := false |} /\
  isSleeper f = false /\
  length (filter sleeping (repeat f 1501)) = 1501%nat /\
  capByHiding MAX_PARTICLES (repeat f 1501) = repeat f 1501 /\
  liveCount (capByHiding MAX_PARTICLES (repeat f 1501)) = 1501%nat.
Proof. vm_compute. repeat split; reflexivity. Qed.

(** 1501 particles in flight: the cap step flags none of them and all are
    drawn, one more than the cap of 1500.  And a [splice] cap deletes the
    element at the front of its array, whatever its state. *)
Lemma particle_cap_exceeded :
  liveCount (capByHiding MAX_PARTICLES (repeat awake 1501)) = 1501%nat /\
  ~ (liveCount (capByHiding MAX_PARTICLES (repeat awake 1501))
     <= MAX_PARTICLES)%nat /\
  capBySplice MAX_MICRO_DEBRIS (awake :: repeat (asleep 0) 200)
  = repeat (asleep 0) 200.
Proof.
  assert (E : liveCount (capByHiding MAX_PARTICLES (repeat awake 1501))
              = 1501%nat) by (vm_compute; reflexivity).
  rewrite E. split; [reflexivity|]. split.
  - unfold MAX_PARTICLES. lia.
  - vm_compute. reflexivity.
Qed.

End PoolFacts.

(** * Further properties of the code *)

(** ** Building: geometry and the collapse state machine *)

Section BuildingMore.
Import Building.

(** X1: a building of non-negative size contains its centre, and every
    rectangle of positive size that covers a point of the building
    intersects it. *)
Theorem contains_centre_and_intersects :
  forall b px py rectX rectY rectW rectH,
    0 <= width b -> 0 <= height b ->
    contains (getCenterX b) (getCenterY b) b = true /\
    (contains px py b = true ->
     rectX < px -> px < rectX + rectW -> rectY < py -> py < rectY + rectH ->
     intersects rectX rectY rectW rectH b = true).
Proof.
  intros b px py rectX rectY rectW rectH Hw Hh. split.
  - unfold contains, getCenterX, getCenterY.
    assert (0 <= width b / 2) by (apply Qle_shift_div_l; lra).
    assert (width b / 2 <= width b) by (apply Qle_shift_div_r; lra).
    assert (0 <= height b / 2) by (apply Qle_shift_div_l; lra).
    assert (height b / 2 <= height b) by (apply Qle_shift_div_r; lra).
    rewrite !andb_true_iff, !Qle_bool_iff. repeat split; lra.
  - unfold contains, intersects.
    rewrite !andb_true_iff, !Qle_bool_iff, !Qlt_bool_iff.
    intros (((A & B) & C) & D) H1 H2 H3 H4. repeat split; lra.
Qed.

Lemma contains_centre_and_intersects_witness :
  contains (getCenterX sample) (getCenterY sample) sample = true /\
  (contains 110 350 sample = true ->
   105 < 110 -> 110 < 105 + 15 -> 340 < 350 -> 350 < 340 + 20 ->
   intersects 105 340 15 20 sample = true).
Proof.
  apply (contains_centre_and_intersects sample 110 350 105 340 15 20).
  - vm_compute. discriminate.
  - vm_compute. discriminate.
Defined.

Lemma takeDamage_rank rs now damage distance maxDistance b :
  state (fst (takeDamage rs now damage distance maxDistance b)) = state b \/
  (state b = Alive /\
   state (fst (takeDamage rs now damage distance maxDistance b)) = Collapsing).
Proof.
  destruct (destroyed b) eqn:D.
  - rewrite (takeDamage_destroyed_noop _ _ _ _ _ _ D). left. reflexivity.
  - rewrite (takeDamage_state _ _ _ _ _ _ D).
    destruct (Qle_bool _ 0); cbn [andb]; [|left; reflexivity].
    destruct (state b); cbn [State_eqb]; auto.
Qed.

Lemma update_rank r1 r2 r3 r4 now b :
  state (fst (update r1 r2 r3 r4 now b)) = state b \/
  (state b = Collapsing /\
   state (fst (update r1 r2 r3 r4 now b)) = Collapsed).
Proof.
  unfold update. destruct (state b) eqn:S; cbn [State_eqb].
  - left. reflexivity.
  - unfold updateCollapse. rewrite S. cbn [State_eqb negb fst state].
    destruct (Qle_bool 1 _); [right; split; reflexivity | left; reflexivity].
  - left. reflexivity.
Qed.

Lemma step_rank op b :
  (rank (state b) <= rank (state (fst (step op b))) <= rank (state b) + 1)%nat.
Proof.
  destruct op as [rs now damage distance maxDistance|r1 r2 r3 r4 now];
    cbn [step].
  - destruct (takeDamage_rank rs now damage distance maxDistance b)
      as [E|[E1 E2]]; [rewrite E | rewrite E1, E2; simpl]; lia.
  - destruct (update_rank r1 r2 r3 r4 now b) as [E|[E1 E2]];
      [rewrite E | rewrite E1, E2; simpl]; lia.
Qed.

(** X2: the state of a building only moves forward through alive,
    collapsing, collapsed: a call never moves it back and never skips
    collapsing, only [takeDamage] leaves alive and only [update] reaches
    collapsed, whatever the arguments. *)
Theorem building_state_one_way :
  forall ops op b,
    (rank (state b) <= rank (state (fst (run ops b))))%nat /\
    (rank (state b) <= rank (state (fst (step op b)))
     <= rank (state b) + 1)%nat /\
    (forall rs now damage distance maxDistance,
       state (fst (takeDamage rs now damage distance maxDistance b))
       <> Collapsed \/ state b = Collapsed) /\
    (forall r1 r2 r3 r4 now,
       state b <> Alive \/ state (fst (update r1 r2 r3 r4 now b)) = Alive).
Proof.
  intros ops op b. split; [|split; [apply step_rank|split]].
  - revert b. induction ops as [|o rest IH]; intro b; cbn [run].
    + simpl. lia.
    + pose proof (step_rank o b) as S. destruct (step o b) as [b1 e1].
      specialize (IH b1). destruct (run rest b1) as [b2 e2].
      cbn [fst] in *. lia.
  - intros rs now damage distance maxDistance.
    destruct (takeDamage_rank rs now damage distance maxDistance b)
      as [E|[E1 E2]].
    + rewrite E. destruct (state b); auto; left; discriminate.
    + left. rewrite E2. discriminate.
  - intros r1 r2 r3 r4 now.
    destruct (update_rank r1 r2 r3 r4 now b) as [E|[E1 E2]].
    + rewrite E. destruct (state b); auto; left; discriminate.
    + left. rewrite E1. discriminate.
Qed.

Lemma scarOnHit_clock rs distance maxDistance b :
  collapseStartTime (scarOnHit rs distance maxDistance b)
  = collapseStartTime b /\
  collapseDuration (scarOnHit rs distance maxDistance b) = collapseDuration b.
Proof.
  unfold scarOnHit. destruct (_ && _); split; reflexivity.
Qed.

Lemma wobbleOnHit_clock rs now distance b :
  collapseStartTime (fst (wobbleOnHit rs now distance b))
  = collapseStartTime b /\
  collapseDuration (fst (wobbleOnHit rs now distance b)) = collapseDuration b.
Proof.
  unfold wobbleOnHit. destruct (Qlt_bool _ _); split; reflexivity.
Qed.

(** The hit that empties the health of an alive building starts the clock of
    its collapse. *)
Lemma lethal_hit_starts_clock rs now damage distance maxDistance b :
  destroyed b = false -> state b = Alive ->
  rawHealth b damage distance maxDistance <= 0 ->
  let r := takeDamage rs now damage distance maxDistance b in
  collapseStartTime (fst r) = Some now /\
  collapseDuration (fst r) = collapseDuration b /\
  In (DetachStickyBombs (oid b)) (snd r).
Proof.
  intros D S H. unfold takeDamage. rewrite D.
  destruct (applyDamage damage distance maxDistance b) as [b1 e1] eqn:E1.
  assert (C1 : core b1 = core (fst (applyDamage damage distance maxDistance b)))
    by (rewrite E1; reflexivity).
  assert (T1 : collapseDuration b1 = collapseDuration b)
    by (unfold applyDamage in E1; inversion E1; reflexivity).
  unfold applyDamage in C1. cbn [fst] in C1.
  set (b2 := scarOnHit rs distance maxDistance b1).
  destruct (wobbleOnHit rs now distance b2) as [b3 e3] eqn:E3.
  pose proof (wobbleOnHit_core rs now distance b2) as C3.
  pose proof (wobbleOnHit_clock rs now distance b2) as [_ T3].
  rewrite E3 in C3, T3. cbn [fst] in C3, T3.
  pose proof (scarOnHit_core rs distance maxDistance b1) as C2.
  pose proof (scarOnHit_clock rs distance maxDistance b1) as [_ T2].
  fold b2 in C2, T2.
  assert (C : core b3 = core b1) by congruence.
  rewrite C1 in C. unfold core in C. cbn in C.
  assert (Hh : health b3 = rawHealth b damage distance maxDistance)
    by congruence.
  assert (Hs : state b3 = Alive) by congruence.
  assert (Ho : oid b3 = oid b) by congruence.
  unfold collapseAtZero.
  assert (Z : Qle_bool (health b3) 0 = true)
    by (apply Qle_bool_iff; rewrite Hh; exact H).
  rewrite Z. cbn [state setHealth]. rewrite Hs. cbn [State_eqb].
  unfold startCollapse. cbn [state setHealth]. rewrite Hs.
  cbn [State_eqb negb fst snd collapseStartTime collapseDuration oid setHealth].
  split; [reflexivity|]. split; [congruence|].
  rewrite Ho. apply in_or_app. right. apply in_or_app. right.
  left. reflexivity.
Qed.

(** X3: a collapsing building whose collapse started at [t0] is turned to
    collapsed, with the [destroyed] flag and the final debris burst, by the
    first [update] at or after [t0 + collapseDuration], and is left
    collapsing, without that burst, by any earlier one; the hit that empties
    an alive building sets [t0] to the time of the hit. *)
Theorem collapse_ends_on_time :
  forall r1 r2 r3 r4 now t0 b,
    state b = Collapsing -> collapseStartTime b = Some t0 ->
    0 < collapseDuration b ->
    let r := update r1 r2 r3 r4 now b in
    (t0 + collapseDuration b <= now ->
     state (fst r) = Collapsed /\ destroyed (fst r) = true /\
     In (SpawnFinalCollapseDebris (oid b)) (snd r)) /\
    (now < t0 + collapseDuration b ->
     state (fst r) = Collapsing /\ destroyed (fst r) = destroyed b /\
     ~ In (SpawnFinalCollapseDebris (oid b)) (snd r)) /\
    health (fst r) = health b /\
    (forall rs hitTime damage distance maxDistance a,
       destroyed a = false -> state a = Alive ->
       rawHealth a damage distance maxDistance <= 0 ->
       collapseStartTime
         (fst (takeDamage rs hitTime damage distance maxDistance a))
       = Some hitTime).
Proof.
  intros r1 r2 r3 r4 now t0 b S T D r.
  assert (P : Qle_bool 1 (Math_min 1 ((now - t0) / collapseDuration b)) = true
              <-> t0 + collapseDuration b <= now).
  { rewrite Qle_bool_iff. unfold Math_min.
    assert (E : (now - t0) / collapseDuration b * collapseDuration b
                == now - t0) by (field; intro Z; lra).
    set (q := (now - t0) / collapseDuration b) in *.
    split; intro H.
    - apply Q.min_glb_r in H. nra.
    - apply Q.min_glb; [lra|].
      destruct (Qlt_le_dec q 1) as [L|L]; [|exact L]. nra. }
  unfold r, update. rewrite S. cbn [State_eqb].
  unfold updateCollapse. rewrite S, T.
  cbn [State_eqb negb fst snd nullToZero state destroyed health].
  split; [|split; [|split; [reflexivity|]]].
  - intro H. apply P in H. rewrite H. split; [reflexivity|].
    split; [reflexivity|]. apply in_or_app. right. left. reflexivity.
  - intro H.
    assert (E : Qle_bool 1 (Math_min 1 ((now - t0) / collapseDuration b))
                = false)
      by (apply not_true_is_false; intro E; apply P in E; lra).
    rewrite E.
    split; [reflexivity|]. split; [reflexivity|].
    intro Hin. apply in_app_or in Hin. destruct Hin as [Hin|[]].
    destruct (Qle_bool (debrisSpawnInterval b) _); [|destruct Hin].
    destruct Hin as [Hin|[]]. discriminate Hin.
  - intros rs hitTime damage distance maxDistance a Da Sa Ha.
    apply (lethal_hit_starts_clock rs hitTime damage distance maxDistance a
             Da Sa Ha).
Qed.

Lemma collapse_ends_on_time_witness :
  let b := fst (takeDamage calm 1000 500 0 150 sample) in
  let r := update 0.5 0.5 0.5 0.5 3000 b in
  state b = Collapsing /\ collapseStartTime b = Some 1000 /\
  0 < collapseDuration b /\ 1000 + collapseDuration b <= 3000 /\
  state (fst r) = Collapsed /\ destroyed (fst r) = true /\
  In (SpawnFinalCollapseDebris (oid b)) (snd r).
Proof.
  assert (D : 0 < collapseDuration (fst (takeDamage calm 1000 500 0 150 sample)))
    by (vm_compute; reflexivity).
  assert (L : 1000 + collapseDuration (fst (takeDamage calm 1000 500 0 150 sample))
              <= 3000) by (vm_compute; discriminate).
  split; [reflexivity|]. split; [reflexivity|].
  split; [exact D|]. split; [exact L|].
  exact (proj1 (collapse_ends_on_time 0.5 0.5 0.5 0.5 3000 1000
                  (fst (takeDamage calm 1000 500 0 150 sample))
                  eq_refl eq_refl D) L).
Defined.

Lemma takeDamage_health_le rs now damage distance maxDistance b :
  Inv b -> 0 <= damage ->
  health (fst (takeDamage rs now damage distance maxDistance b)) <= health b.
Proof.
  intros I Hd. destruct (destroyed b) eqn:D.
  - rewrite (takeDamage_destroyed_noop _ _ _ _ _ _ D). simpl. lra.
  - rewrite (takeDamage_health _ _ _ _ _ _ D).
    pose proof (inv_health b I) as [A _].
    pose proof (inv_resistance b I) as [B _].
    assert (0 <= finalDamage b damage distance maxDistance)
      by (apply finalDamage_nonneg; lra).
    unfold rawHealth. destruct (Qle_bool _ 0); lra.
Qed.

Lemma Inv_core a b : core a = core b -> Inv b -> Inv a.
Proof.
  unfold core. intros C I.
  inversion C as [[H1 H2 H3 H4 H5 H6 H7 H8]].
  destruct I as [I1 I2 I3 I4 I5 I6].
  split; rewrite ?H1, ?H2, ?H3, ?H4, ?H5, ?H6; assumption.
Qed.

Lemma run_maxHealth ops : forall b,
  maxHealth (fst (run ops b)) = maxHealth b /\
  materialResistance (fst (run ops b)) = materialResistance b /\
  oid (fst (run ops b)) = oid b.
Proof.
  induction ops as [|op rest IH]; intro b; cbn [run].
  - repeat split; reflexivity.
  - assert (F : maxHealth (fst (step op b)) = maxHealth b /\
                materialResistance (fst (step op b)) = materialResistance b /\
                oid (fst (step op b)) = oid b).
    { destruct op as [rs now damage distance maxDistance|r1 r2 r3 r4 now];
        cbn [step].
      - destruct (takeDamage_frame rs now damage distance maxDistance b)
          as (_ & A & B & C). repeat split; assumption.
      - unfold update, updateCollapse.
        destruct (State_eqb (state b) Collapsing); cbn [negb];
          repeat split; reflexivity. }
    destruct (step op b) as [b1 e1]. specialize (IH b1).
    destruct (run rest b1) as [b2 e2]. cbn [fst] in *.
    destruct F as (F1 & F2 & F3). destruct IH as (I1 & I2 & I3).
    repeat split; congruence.
Qed.

(** X4: along any sequence of [takeDamage] calls with non-negative damage and
    [update] calls, a building made by the constructor keeps its health
    between 0 and its unchanged [maxHealth], has the [destroyed] flag exactly
    when it is collapsed, and has health 0 whenever it is no longer alive. *)
Theorem building_health_in_range :
  forall ops b,
    Inv b -> Forall okOp ops ->
    let b' := fst (run ops b) in
    0 <= health b' /\ health b' <= maxHealth b /\ health b' <= health b /\
    maxHealth b' = maxHealth b /\
    materialResistance b' = materialResistance b /\
    (destroyed b' = true <-> state b' = Collapsed) /\
    (state b' <> Alive -> health b' == 0).
Proof.
  intros ops b I H b'.
  destruct (run_facts ops b I H) as (I' & _).
  destruct (run_maxHealth ops b) as (M & R & _). fold b' in I', M, R.
  pose proof (inv_health b' I') as [H0 H1]. rewrite M in H1.
  split; [exact H0|]. split; [exact H1|]. split.
  - clear H0 H1 I' M R. unfold b'. clear b'. revert b I H.
    induction ops as [|op rest IH]; intros b I H; cbn [run].
    + simpl. lra.
    + inversion H as [|? ? Hop Hrest]; subst.
      pose proof (step_Inv op b I Hop) as I1.
      assert (S : health (fst (step op b)) <= health b).
      { destruct op as [rs now damage distance maxDistance|r1 r2 r3 r4 now];
          cbn [step].
        - apply takeDamage_health_le; [exact I | exact Hop].
        - unfold update, updateCollapse.
          destruct (State_eqb (state b) Collapsing); cbn [negb fst health];
            lra. }
      destruct (step op b) as [b1 e1]. specialize (IH b1 I1 Hrest).
      destruct (run rest b1) as [b2 e2]. cbn [fst] in *. lra.
  - split; [exact M|]. split; [exact R|].
    split; [exact (inv_destroyed b' I') | exact (inv_dead b' I')].
Qed.

Lemma building_health_in_range_witness :
  let b' := fst (run (firstHit ++ laterHits) sample) in
  0 <= health b' /\ health b' <= maxHealth sample /\
  health b' <= health sample.
Proof.
  assert (H : Forall okOp (firstHit ++ laterHits)).
  { simpl. repeat (constructor; [simpl; try lra; exact I|]). constructor. }
  destruct (building_health_in_range (firstHit ++ laterHits) sample
              sample_Inv H) as (A & B & C & _).
  repeat split; assumption.
Defined.

End BuildingMore.

(** ** NuclearBomb: the fall, the explosion and the strike *)

Section NuclearMore.
Import Building.
Variable sqrt : Q -> Q.

Lemma takeDamage_box rs now damage distance maxDistance b :
  box (fst (takeDamage rs now damage distance maxDistance b)) = box b.
Proof.
  unfold takeDamage. destruct (destroyed b); [reflexivity|].
  destruct (applyDamage damage distance maxDistance b) as [b1 e1] eqn:E1.
  assert (B1 : box b1 = box b)
    by (unfold applyDamage in E1; inversion E1; reflexivity).
  set (b2 := scarOnHit rs distance maxDistance b1).
  assert (B2 : box b2 = box b1)
    by (unfold b2, scarOnHit; destruct (_ && _); reflexivity).
  destruct (wobbleOnHit rs now distance b2) as [b3 e3] eqn:E3.
  assert (B3 : box b3 = box b2).
  { replace b3 with (fst (wobbleOnHit rs now distance b2))
      by (rewrite E3; reflexivity).
    unfold wobbleOnHit. destruct (Qlt_bool _ _); reflexivity. }
  destruct (collapseAtZero rs now b3) as [b4 e4] eqn:E4.
  assert (B4 : box b4 = box b3).
  { replace b4 with (fst (collapseAtZero rs now b3))
      by (rewrite E4; reflexivity).
    unfold collapseAtZero, startCollapse.
    destruct (Qle_bool (health b3) 0); [|reflexivity].
    cbn [state setHealth].
    destruct (State_eqb (state b3) Alive); reflexivity. }
  cbn [fst]. congruence.
Qed.

Lemma forEachBuilding_length f : forall bs index,
  length (fst (forEachBuilding f index bs)) = length bs.
Proof.
  induction bs as [|b rest IH]; intro index; cbn [forEachBuilding].
  - reflexivity.
  - destruct (f index b) as [b1 e1]. specialize (IH (S index)).
    destruct (forEachBuilding f (S index) rest) as [rest1 e2].
    cbn [fst length] in *. rewrite IH. reflexivity.
Qed.

Lemma forEachBuilding_nth f : forall bs index i b,
  nth_error bs i = Some b ->
  nth_error (fst (forEachBuilding f index bs)) i
  = Some (fst (f (index + i)%nat b)).
Proof.
  induction bs as [|b0 rest IH]; intros index i b H.
  - destruct i; discriminate H.
  - cbn [forEachBuilding]. destruct (f index b0) as [b1 e1] eqn:E.
    specialize (IH (S index)).
    destruct (forEachBuilding f (S index) rest) as [rest1 e2].
    cbn [fst] in *. destruct i as [|i]; cbn [nth_error] in *.
    + inversion H; subst. rewrite Nat.add_0_r, E. reflexivity.
    + rewrite (IH i b H). rewrite Nat.add_succ_r. reflexivity.
Qed.

Lemma hitBuilding_idle bombX explosionY now d b :
  state b = Collapsed \/
  NuclearBomb.damageRadius
  <= distanceBetween sqrt (getCenterX b) (getCenterY b) bombX explosionY ->
  NuclearBomb.hitBuilding sqrt bombX explosionY now d b = (b, []).
Proof.
  intro H. unfold NuclearBomb.hitBuilding. destruct H as [H|H].
  - rewrite H. reflexivity.
  - apply Qlt_bool_false in H. rewrite H.
    destruct (State_eqb (state b) Collapsed); reflexivity.
Qed.

Lemma hitBuilding_facts bombX explosionY now d b :
  Inv b ->
  let b' := fst (NuclearBomb.hitBuilding sqrt bombX explosionY now d b) in
  Inv b' /\ health b' <= health b /\ box b' = box b /\ oid b' = oid b.
Proof.
  intros I b'. unfold b', NuclearBomb.hitBuilding.
  destruct (State_eqb (state b) Collapsed);
    [cbn [fst]; split; [exact I|]; split; [lra|]; split; reflexivity|].
  set (distance :=
         distanceBetween sqrt (getCenterX b) (getCenterY b) bombX explosionY).
  destruct (Qlt_bool distance NuclearBomb.damageRadius) eqn:L;
    [|cbn [fst]; split; [exact I|]; split; [lra|]; split; reflexivity].
  apply Qlt_bool_iff in L.
  pose proof (nuclear_damage_nonneg distance L) as N.
  set (damage := NuclearBomb.baseDamage
                 * falloffNear 3 distance NuclearBomb.damageRadius) in *.
  pose proof (takeDamage_Inv (NuclearBomb.hit d) now damage distance
                NuclearBomb.damageRadius b I N) as I1.
  pose proof (takeDamage_health_le (NuclearBomb.hit d) now damage distance
                NuclearBomb.damageRadius b I N) as H1.
  pose proof (takeDamage_box (NuclearBomb.hit d) now damage distance
                NuclearBomb.damageRadius b) as B1.
  destruct (takeDamage_frame (NuclearBomb.hit d) now damage distance
              NuclearBomb.damageRadius b) as (_ & _ & _ & O1).
  destruct (takeDamage (NuclearBomb.hit d) now damage distance
              NuclearBomb.damageRadius b) as [b1 e1].
  cbn [fst] in *. split; [|split; [|split]].
  - apply (Inv_core _ b1); [reflexivity | exact I1].
  - exact H1.
  - exact B1.
  - exact O1.
Qed.

(** X5: the explosion of a nuclear bomb sets [exploded], after which a second
    call changes nothing; it keeps the number, the rectangles and the
    identities of the buildings and the invariant of each, raises the health
    of none, leaves every building that is collapsed or whose centre is at
    least [damageRadius] away exactly as it was, and leaves the screen shake
    at 20 or more and never lower than before. *)
Theorem nuclear_explode_frame :
  forall explosionY now draws envs fires bomb w,
    NuclearBomb.exploded bomb = false -> Forall Inv (buildings w) ->
    let r := NuclearBomb.explode sqrt explosionY now draws envs fires bomb w in
    NuclearBomb.exploded (fst r) = true /\
    NuclearBomb.explode sqrt explosionY now draws envs fires (fst r) (snd r)
    = r /\
    length (buildings (snd r)) = length (buildings w) /\
    Forall Inv (buildings (snd r)) /\
    (forall i b,
       nth_error (buildings w) i = Some b ->
       exists b',
         nth_error (buildings (snd r)) i = Some b' /\
         box b' = box b /\ oid b' = oid b /\ health b' <= health b /\
         (state b = Collapsed \/
          NuclearBomb.damageRadius
          <= distanceBetween sqrt (getCenterX b) (getCenterY b)
               (NuclearBomb.x bomb) explosionY ->
          b' = b)) /\
    20 <= screenShakeIntensity (snd r) /\
    screenShakeIntensity w <= screenShakeIntensity (snd r).
Proof.
  intros explosionY now draws envs fires bomb w E I r.
  set (f := fun i : nat =>
              NuclearBomb.hitBuilding sqrt (NuclearBomb.x bomb) explosionY now
                (draws i)).
  assert (R : buildings (snd r) = fst (forEachBuilding f 0 (buildings w)) /\
              NuclearBomb.exploded (fst r) = true /\
              screenShakeIntensity (snd r)
              = Math_max (screenShakeIntensity w) 20).
  { unfold r, NuclearBomb.explode. rewrite E. fold f.
    destruct (forEachBuilding f 0 (buildings w)) as [bs e1].
    destruct (if (currentCityId w =? 2)%Z then _ else _) as [ss e2].
    repeat split; reflexivity. }
  destruct R as (RB & RE & RS).
  assert (N : forall i b, nth_error (buildings w) i = Some b ->
              nth_error (buildings (snd r)) i = Some (fst (f i b))).
  { intros i b H. rewrite RB.
    rewrite (forEachBuilding_nth f (buildings w) 0 i b H). reflexivity. }
  assert (Len : length (buildings (snd r)) = length (buildings w))
    by (rewrite RB; apply forEachBuilding_length).
  split; [exact RE|]. split.
  { unfold NuclearBomb.explode at 1. rewrite RE. destruct r; reflexivity. }
  split; [exact Len|]. split.
  { apply Forall_forall. intros b' Hin.
    destruct (In_nth_error _ _ Hin) as [i Hi].
    assert (Hlt : (i < length (buildings w))%nat).
    { rewrite <- Len. apply nth_error_Some. congruence. }
    destruct (nth_error (buildings w) i) as [b|] eqn:Hb;
      [|apply nth_error_None in Hb; lia].
    rewrite (N i b Hb) in Hi. inversion Hi; subst b'.
    apply hitBuilding_facts. rewrite Forall_forall in I. apply I.
    apply (nth_error_In _ _ Hb). }
  split.
  { intros i b Hb. exists (fst (f i b)). split; [exact (N i b Hb)|].
    assert (Ib : Inv b).
    { rewrite Forall_forall in I. apply I. apply (nth_error_In _ _ Hb). }
    destruct (hitBuilding_facts (NuclearBomb.x bomb) explosionY now (draws i)
                b Ib) as (_ & H1 & H2 & H3).
    split; [exact H2|]. split; [exact H3|]. split; [exact H1|].
    intro Idle. unfold f. rewrite hitBuilding_idle by exact Idle.
    reflexivity. }
  rewrite RS. unfold Math_max. split.
  - apply Q.le_max_r.
  - apply Q.le_max_l.
Qed.

Lemma num_succ (n : nat) : num (S n) == num n + 1.
Proof.
  unfold num. rewrite Nat2Z.inj_succ, <- Z.add_1_r, inject_Z_plus.
  reflexivity.
Qed.

Lemma explode_bomb explosionY now draws envs fires bomb w :
  let r := NuclearBomb.explode sqrt explosionY now draws envs fires bomb w in
  (NuclearBomb.exploded (fst r) = true /\
   NuclearBomb.x (fst r) = NuclearBomb.x bomb /\
   NuclearBomb.y (fst r) = NuclearBomb.y bomb) /\
  (NuclearBomb.gravity (fst r) = NuclearBomb.gravity bomb /\
   NuclearBomb.radius (fst r) = NuclearBomb.radius bomb) /\
  innerHeight (snd r) = innerHeight w /\
  length (buildings (snd r)) = length (buildings w).
Proof.
  unfold NuclearBomb.explode. destruct (NuclearBomb.exploded bomb) eqn:E.
  - cbn [fst snd]. repeat split; try reflexivity. exact E.
  - pose proof (forEachBuilding_length
                  (fun i => NuclearBomb.hitBuilding sqrt (NuclearBomb.x bomb)
                              explosionY now (draws i)) (buildings w) 0) as L.
    destruct (forEachBuilding _ 0 (buildings w)) as [bs e1].
    destruct (if (currentCityId w =? 2)%Z then _ else _) as [ss e2].
    cbn [fst snd NuclearBomb.exploded NuclearBomb.x NuclearBomb.y
         NuclearBomb.gravity NuclearBomb.radius innerHeight buildings] in *.
    repeat split; try reflexivity. exact L.
Qed.

Lemma update_frame now draws envs fires bomb w :
  let r := NuclearBomb.update sqrt now draws envs fires bomb w in
  NuclearBomb.x (fst r) = NuclearBomb.x bomb /\
  NuclearBomb.gravity (fst r) = NuclearBomb.gravity bomb /\
  NuclearBomb.radius (fst r) = NuclearBomb.radius bomb /\
  innerHeight (snd r) = innerHeight w /\
  length (buildings (snd r)) = length (buildings w) /\
  (NuclearBomb.exploded bomb = true -> r = (bomb, w)).
Proof.
  unfold NuclearBomb.update.
  destruct (NuclearBomb.exploded bomb) eqn:E;
    [cbn [fst snd]; repeat split; reflexivity|].
  destruct (Qle_bool _ _).
  - destruct (explode_bomb (NuclearBomb.groundY w) now draws envs fires
                (NuclearBomb.fall bomb) w)
      as ((_ & A & _) & (B & C) & D & L).
    cbv zeta in *. repeat split; try assumption. discriminate.
  - destruct (existsb _ _).
    + destruct (explode_bomb (NuclearBomb.y (NuclearBomb.fall bomb)) now draws
                  envs fires (NuclearBomb.fall bomb) w)
        as ((_ & A & _) & (B & C) & D & L).
      cbv zeta in *. repeat split; try assumption. discriminate.
    + cbn [fst snd]. repeat split; try reflexivity. discriminate.
Qed.

Lemma update_unexploded now draws envs fires bomb w :
  NuclearBomb.exploded
    (fst (NuclearBomb.update sqrt now draws envs fires bomb w)) = false ->
  NuclearBomb.update sqrt now draws envs fires bomb w
  = (NuclearBomb.fall bomb, w) /\
  NuclearBomb.exploded bomb = false /\
  NuclearBomb.y (NuclearBomb.fall bomb) + NuclearBomb.radius bomb
  < NuclearBomb.groundY w /\
  existsb (NuclearBomb.touches (NuclearBomb.fall bomb)) (buildings w) = false.
Proof.
  unfold NuclearBomb.update.
  destruct (NuclearBomb.exploded bomb) eqn:E;
    [cbn [fst]; intro H; congruence|].
  destruct (Qle_bool _ _) eqn:G.
  - destruct (explode_bomb (NuclearBomb.groundY w) now draws envs fires
                (NuclearBomb.fall bomb) w) as ((A & _) & _).
    cbv zeta in A. intro H. congruence.
  - destruct (existsb _ _) eqn:T.
    + destruct (explode_bomb (NuclearBomb.y (NuclearBomb.fall bomb)) now draws
                  envs fires (NuclearBomb.fall bomb) w) as ((A & _) & _).
      cbv zeta in A. intro H. congruence.
    + intros _. apply Qle_bool_false in G.
      repeat split; try reflexivity. exact G.
Qed.

Lemma updates_frame clock draws envs fires k bomb w :
  let r := NuclearBomb.updates sqrt clock draws envs fires k bomb w in
  NuclearBomb.x (fst r) = NuclearBomb.x bomb /\
  NuclearBomb.gravity (fst r) = NuclearBomb.gravity bomb /\
  NuclearBomb.radius (fst r) = NuclearBomb.radius bomb /\
  innerHeight (snd r) = innerHeight w /\
  length (buildings (snd r)) = length (buildings w).
Proof.
  induction k as [|n IH]; cbn [NuclearBomb.updates].
  - cbn [fst snd]. repeat split; reflexivity.
  - cbv zeta in IH.
    destruct (NuclearBomb.updates sqrt clock draws envs fires n bomb w)
      as [b1 w1].
    destruct (update_frame (clock n) (draws n) (envs n) (fires n) b1 w1)
      as (A & B & C & D & L & _).
    cbn [fst snd] in *. destruct IH as (A' & B' & C' & D' & L').
    repeat split; congruence.
Qed.

(** X6: as long as a nuclear bomb has not exploded, [k] calls of [update]
    leave the world untouched and put the bomb at the height of free fall,
    [y + k * velocityY + gravity * k (k + 1) / 2], with its bottom strictly
    above the ground line and outside every building that is not collapsed;
    so the bomb has exploded after [k] calls at the latest when that height
    plus the radius reaches the ground line.  An exploded bomb stays
    exploded, and no call moves a bomb sideways. *)
Theorem bomb_falls_until_it_explodes :
  forall clock draws envs fires k bomb w,
    let r := NuclearBomb.updates sqrt clock draws envs fires k bomb w in
    let r' := NuclearBomb.updates sqrt clock draws envs fires (S k) bomb w in
    (NuclearBomb.exploded (fst r') = false ->
     NuclearBomb.y (fst r') == NuclearBomb.heightAfter (S k) bomb /\
     NuclearBomb.velocityY (fst r')
     == NuclearBomb.velocityY bomb + num (S k) * NuclearBomb.gravity bomb /\
     snd r' = w /\
     NuclearBomb.y (fst r') + NuclearBomb.radius bomb
     < NuclearBomb.groundY w /\
     (forall building,
        In building (buildings w) -> state building <> Collapsed ->
        contains (NuclearBomb.x bomb)
          (NuclearBomb.y (fst r') + NuclearBomb.radius bomb) building
        = false)) /\
    (NuclearBomb.groundY w
     <= NuclearBomb.heightAfter (S k) bomb + NuclearBomb.radius bomb ->
     NuclearBomb.exploded (fst r') = true) /\
    (NuclearBomb.exploded (fst r) = true ->
     NuclearBomb.exploded (fst r') = true) /\
    NuclearBomb.x (fst r') = NuclearBomb.x bomb.
Proof.
  intros clock draws envs fires k bomb w r r'.
  assert (P : forall n,
            let rn := NuclearBomb.updates sqrt clock draws envs fires n bomb w
            in
            NuclearBomb.exploded (fst rn) = false ->
            NuclearBomb.y (fst rn) == NuclearBomb.heightAfter n bomb /\
            NuclearBomb.velocityY (fst rn)
            == NuclearBomb.velocityY bomb + num n * NuclearBomb.gravity bomb /\
            snd rn = w).
  { induction n as [|n IH]; cbn [NuclearBomb.updates]; cbv zeta.
    - intros _. cbn [fst snd]. unfold NuclearBomb.heightAfter.
      change (num 0) with 0. split; [field|]. split; [ring | reflexivity].
    - cbv zeta in IH.
      destruct (updates_frame clock draws envs fires n bomb w)
        as (_ & G & _).
      destruct (NuclearBomb.updates sqrt clock draws envs fires n bomb w)
        as [b1 w1].
      intro H. apply update_unexploded in H.
      destruct H as (U & E1 & _). rewrite U. cbn [fst snd] in *.
      destruct (IH E1) as (Y & V & W).
      cbn [NuclearBomb.fall NuclearBomb.y NuclearBomb.velocityY].
      rewrite Y, V, G. unfold NuclearBomb.heightAfter. rewrite num_succ.
      split; [field|]. split; [ring | exact W]. }
  assert (Q1 : NuclearBomb.exploded (fst r') = false ->
               NuclearBomb.y (fst r') + NuclearBomb.radius bomb
               < NuclearBomb.groundY w /\
               (forall building,
                  In building (buildings w) -> state building <> Collapsed ->
                  contains (NuclearBomb.x bomb)
                    (NuclearBomb.y (fst r') + NuclearBomb.radius bomb)
                    building = false)).
  { unfold r'. cbn [NuclearBomb.updates].
    pose proof (P k) as Pk. cbv zeta in Pk.
    destruct (updates_frame clock draws envs fires k bomb w)
      as (X & _ & R & _).
    destruct (NuclearBomb.updates sqrt clock draws envs fires k bomb w)
      as [b1 w1].
    intro H. apply update_unexploded in H.
    destruct H as (U & E1 & G & T). rewrite U. cbn [fst snd] in *.
    destruct (Pk E1) as (_ & _ & W). subst w1. rewrite R in G.
    split; [exact G|].
    intros building Hin Hs.
    destruct (contains _ _ building) eqn:C; [|reflexivity].
    assert (F : existsb (NuclearBomb.touches (NuclearBomb.fall b1))
                  (buildings w) = true).
    { apply existsb_exists. exists building. split; [exact Hin|].
      unfold NuclearBomb.touches.
      cbn [NuclearBomb.fall NuclearBomb.x NuclearBomb.y NuclearBomb.radius]
        in *.
      rewrite X, R, C.
      destruct (state building); try contradiction; reflexivity. }
    congruence. }
  split; [|split; [|split]].
  - intro H. destruct (P (S k) H) as (Y & V & W). destruct (Q1 H) as (G & T).
    repeat split; assumption.
  - intro H. apply not_false_is_true. intro E'.
    destruct (P (S k) E') as (Y & _). destruct (Q1 E') as (G & _).
    fold r' in Y. rewrite Y in G. lra.
  - unfold r, r'. cbn [NuclearBomb.updates].
    destruct (NuclearBomb.updates sqrt clock draws envs fires k bomb w)
      as [b1 w1].
    cbn [fst]. intro H.
    destruct (update_frame (clock k) (draws k) (envs k) (fires k) b1 w1)
      as (_ & _ & _ & _ & _ & I).
    rewrite (I H). exact H.
  - destruct (updates_frame clock draws envs fires (S k) bomb w) as (X & _).
    exact X.
Qed.

Lemma pushBombs_added clickX rs : forall rounds i bombs,
  (forall j, 0 <= rs j /\ rs j < 1) ->
  exists added,
    NuclearBomb.pushBombs clickX rs i rounds bombs = bombs ++ added /\
    length added
    = Nat.min rounds (NuclearBomb.MAX_BOMBS - length bombs) /\
    Forall (fun b => NuclearBomb.y b = -50 /\
                     NuclearBomb.exploded b = false /\
                     clickX - 150 <= NuclearBomb.x b /\
                     NuclearBomb.x b < clickX + 150) added.
Proof.
  induction rounds as [|n IH]; intros i bombs R; cbn [NuclearBomb.pushBombs].
  - exists []. rewrite app_nil_r. repeat split; constructor.
  - destruct (NuclearBomb.MAX_BOMBS <=? length bombs)%nat eqn:C.
    + apply Nat.leb_le in C. exists []. rewrite app_nil_r.
      split; [reflexivity|]. split; [cbn [length]; lia | constructor].
    + apply Nat.leb_gt in C.
      destruct (IH (S i)
                  (bombs ++ [NuclearBomb.new (clickX + (rs i - 0.5) * 300)
                               (-50)]) R) as (added & A & L & F).
      exists (NuclearBomb.new (clickX + (rs i - 0.5) * 300) (-50) :: added).
      split; [rewrite A, <- app_assoc; reflexivity|]. split.
      * cbn [length]. rewrite L, length_app. cbn [length]. lia.
      * constructor; [|exact F].
        cbn [NuclearBomb.new NuclearBomb.y NuclearBomb.x NuclearBomb.exploded].
        destruct (R i) as [R0 R1].
        split; [reflexivity|]. split; [reflexivity|]. split; lra.
Qed.

(** X7: with draws in [0, 1), [createNukeStrike] appends to [bombs] between
    6 and 10 new bombs, fewer only when [MAX_BOMBS] leaves less room and none
    when the array is full; each new bomb starts unexploded at height -50
    and less than 150 to either side of the click; the bombs that were
    there stay, in order, at the front. *)
Theorem createNukeStrike_adds_six_to_ten :
  forall rCount rs clickX bombs,
    0 <= rCount -> rCount < 1 -> (forall j, 0 <= rs j /\ rs j < 1) ->
    exists added,
      NuclearBomb.createNukeStrike rCount rs clickX bombs = bombs ++ added /\
      (length added
       = Nat.min (Z.to_nat (NuclearBomb.bombCount rCount))
           (NuclearBomb.MAX_BOMBS - length bombs))%nat /\
      (6 <= NuclearBomb.bombCount rCount <= 10)%Z /\
      (length added <= 10)%nat /\
      ((length bombs + 10 <= NuclearBomb.MAX_BOMBS)%nat ->
       (6 <= length added)%nat) /\
      ((length bombs <= NuclearBomb.MAX_BOMBS)%nat ->
       (length (bombs ++ added) <= NuclearBomb.MAX_BOMBS)%nat) /\
      Forall (fun b => NuclearBomb.y b = -50 /\
                       NuclearBomb.exploded b = false /\
                       clickX - 150 <= NuclearBomb.x b /\
                       NuclearBomb.x b < clickX + 150) added.
Proof.
  intros rCount rs clickX bombs H0 H1 R.
  assert (C : (6 <= NuclearBomb.bombCount rCount <= 10)%Z).
  { unfold NuclearBomb.bombCount.
    pose proof (floor_draw rCount 5 eq_refl H0 H1) as F.
    change (inject_Z 5) with 5 in F. lia. }
  unfold NuclearBomb.createNukeStrike.
  destruct (pushBombs_added clickX rs (Z.to_nat (NuclearBomb.bombCount rCount))
              0%nat bombs R) as (added & A & L & F).
  exists added. split; [exact A|]. split; [exact L|]. split; [exact C|].
  unfold NuclearBomb.MAX_BOMBS in *. rewrite length_app.
  repeat split; try lia. exact F.
Qed.

Lemma updateBombs_facts now draws envs fires : forall bombs index w,
  let r := NuclearBomb.updateBombs sqrt now draws envs fires index bombs w in
  (length (fst r) <= length bombs)%nat /\
  innerHeight (snd r) = innerHeight w /\
  Forall (fun b => NuclearBomb.exploded b = false /\
                   NuclearBomb.y b + NuclearBomb.radius b
                   < NuclearBomb.groundY w) (fst r).
Proof.
  induction bombs as [|bomb rest IH]; intros index w;
    cbn [NuclearBomb.updateBombs].
  - cbn [fst snd length]. repeat split; [lia | constructor].
  - pose proof (update_unexploded now (draws index) (envs index)
                  (fires index) bomb w) as U.
    destruct (update_frame now (draws index) (envs index) (fires index)
                bomb w) as (_ & _ & _ & D & _).
    destruct (NuclearBomb.update sqrt now (draws index) (envs index)
                (fires index) bomb w) as [b1 w1].
    specialize (IH (S index) w1). cbv zeta in IH.
    destruct (NuclearBomb.updateBombs sqrt now draws envs fires (S index)
                rest w1) as [rest1 w2].
    cbn [fst snd] in *. destruct IH as (L & D' & F).
    assert (G : NuclearBomb.groundY w1 = NuclearBomb.groundY w)
      by (unfold NuclearBomb.groundY; rewrite D; reflexivity).
    rewrite G in F.
    split; [|split; [congruence|]].
    + destruct (NuclearBomb.exploded b1); cbn [length]; lia.
    + destruct (NuclearBomb.exploded b1) eqn:E1; [exact F|].
      destruct (U eq_refl) as (U1 & U3 & U2 & _).
      inversion U1; subst b1 w1.
      constructor; [|exact F]. split; [exact U3 | exact U2].
Qed.

Lemma pushBombs_capped clickX rs : forall rounds i bombs,
  (length bombs <= NuclearBomb.MAX_BOMBS)%nat ->
  (length (NuclearBomb.pushBombs clickX rs i rounds bombs)
   <= NuclearBomb.MAX_BOMBS)%nat.
Proof.
  induction rounds as [|n IH]; intros i bombs H;
    cbn [NuclearBomb.pushBombs]; [exact H|].
  destruct (NuclearBomb.MAX_BOMBS <=? length bombs)%nat eqn:C; [exact H|].
  apply Nat.leb_gt in C. apply IH. rewrite length_app. cbn [length]. lia.
Qed.

(** X8: one frame of the game loop keeps of the bombs exactly those that have
    not exploded, each with its bottom strictly above the ground line, and
    never more than there were; since [createNukeStrike] does not fill the
    array past [MAX_BOMBS], the splice that caps the array after the frame
    removes nothing. *)
Theorem bombs_stay_within_cap :
  forall rCount rs clickX now draws envs fires bombs w,
    (length bombs <= NuclearBomb.MAX_BOMBS)%nat ->
    let struck := NuclearBomb.createNukeStrike rCount rs clickX bombs in
    let r := NuclearBomb.updateBombs sqrt now draws envs fires 0 struck w in
    (length struck <= NuclearBomb.MAX_BOMBS)%nat /\
    (length (fst r) <= length struck)%nat /\
    NuclearBomb.capBombs (fst r) = fst r /\
    Forall (fun b => NuclearBomb.exploded b = false /\
                     NuclearBomb.y b + NuclearBomb.radius b
                     < NuclearBomb.groundY w) (fst r).
Proof.
  intros rCount rs clickX now draws envs fires bombs w H struck r.
  assert (S : (length struck <= NuclearBomb.MAX_BOMBS)%nat).
  { unfold struck, NuclearBomb.createNukeStrike.
    apply pushBombs_capped. exact H. }
  destruct (updateBombs_facts now draws envs fires struck 0%nat w)
    as (L & _ & F).
  fold r in L, F. split; [exact S|]. split; [exact L|]. split; [|exact F].
  unfold NuclearBomb.capBombs.
  destruct (NuclearBomb.MAX_BOMBS <? length (fst r))%nat eqn:C;
    [|reflexivity].
  apply Nat.ltb_lt in C. lia.
Qed.

End NuclearMore.

(** ** StickyBomb: update and placement *)

Section StickyMore.
Import StickyBomb.

Lemma resolve_frame buildings b :
  let b1 := resolve buildings b in
  radius b1 = radius b /\ gravity b1 = gravity b /\
  isArmed b1 = isArmed b /\ placedAt b1 = placedAt b /\
  active b1 = active b /\ offsetX b1 = offsetX b /\ offsetY b1 = offsetY b.
Proof.
  unfold resolve.
  destruct (attachedBuildingRef b) as [o|].
  - destruct (lookupRef o buildings) as [building|];
      [destruct (alive building)|]; repeat split; reflexivity.
  - destruct (attachedTo b) as [i|]; [|repeat split; reflexivity].
    destruct (i <? length buildings)%nat; [|repeat split; reflexivity].
    destruct (nth_error buildings i) as [building|];
      [destruct (alive building)|]; repeat split; reflexivity.
Qed.

Lemma settle_frame ground b :
  let b1 := settle ground b in
  x b1 = x b /\ radius b1 = radius b /\ gravity b1 = gravity b /\
  isArmed b1 = isArmed b /\ placedAt b1 = placedAt b /\
  active b1 = active b /\ attachedTo b1 = attachedTo b /\
  attachedBuildingRef b1 = attachedBuildingRef b /\
  offsetX b1 = offsetX b /\ offsetY b1 = offsetY b.
Proof.
  unfold settle. destruct (attachedTo b) eqn:A; cbn;
    repeat split; try reflexivity; try exact A; symmetry; exact A.
Qed.

Lemma settle_above ground b :
  attachedTo b = None ->
  y (settle ground b) + radius b <= ground.
Proof.
  intro A. unfold settle. rewrite A. cbn [y].
  destruct (Qle_bool ground (y b + (velocityY b + gravity b) + radius b))
    eqn:L.
  - lra.
  - apply Qle_bool_false in L. lra.
Qed.

Lemma boundary_facts width height b :
  let b1 := boundary width height b in
  (x b1 = x b /\ y b1 = y b /\ radius b1 = radius b /\
   velocityY b1 = velocityY b /\ onGround b1 = onGround b) /\
  (attachedTo b1 = attachedTo b /\
   attachedBuildingRef b1 = attachedBuildingRef b /\
   placedAt b1 = placedAt b /\ active b1 = active b) /\
  (isArmed b1 = true ->
   isArmed b = true /\ -50 <= x b /\ x b <= width + 50 /\ y b <= height + 50).
Proof.
  unfold boundary.
  destruct (Qlt_bool (x b) (-50)) eqn:A;
    [cbn; repeat split; try reflexivity; discriminate|].
  destruct (Qlt_bool (width + 50) (x b)) eqn:B;
    [cbn; repeat split; try reflexivity; discriminate|].
  destruct (Qlt_bool (height + 50) (y b)) eqn:C;
    [cbn; repeat split; try reflexivity; discriminate|].
  apply Qlt_bool_false in A, B, C. cbn [orb].
  repeat split; try reflexivity; try assumption.
Qed.

(** X9: one [update] of an active sticky bomb never arms it, and leaves it
    armed only inside the window margins; whenever the bomb is not attached
    afterwards its bottom is on or above the ground line; a loose bomb that
    rests on the ground line stays exactly there; an inactive bomb is not
    touched at all. *)
Theorem sticky_update_stays_above_ground :
  forall width height buildings b,
    0 <= gravity b ->
    let b' := update width height buildings b in
    let ground := height * 0.85 in
    (active b = false -> b' = b) /\
    (active b = true -> attachedTo b' = None ->
     y b' + radius b' <= ground) /\
    (active b = true -> isArmed b' = true ->
     isArmed b = true /\ -50 <= x b' /\ x b' <= width + 50 /\
     y b' <= height + 50) /\
    (active b = true -> attachedTo b = None ->
     attachedBuildingRef b = None ->
     y b + radius b == ground -> velocityY b == 0 ->
     y b' == y b /\ velocityY b' == 0 /\ onGround b' = true /\
     x b' = x b) /\
    (radius b' = radius b /\ placedAt b' = placedAt b /\
     active b' = active b).
Proof.
  intros width height buildings b G b' ground.
  unfold b', update.
  destruct (active b) eqn:A; cbn [negb].
  2:{ split; [reflexivity|].
      split; [discriminate|]. split; [discriminate|].
      split; [discriminate|]. rewrite A. repeat split; reflexivity. }
  fold ground.
  set (b1 := resolve buildings b).
  set (b2 := settle ground b1).
  destruct (resolve_frame buildings b) as (R1 & R2 & R3 & R4 & R5 & _).
  fold b1 in R1, R2, R3, R4, R5.
  destruct (settle_frame ground b1)
    as (S0 & S1 & S2 & S3 & S4 & S5 & S6 & S7 & _).
  fold b2 in S0, S1, S2, S3, S4, S5, S6, S7.
  destruct (boundary_facts width height b2)
    as ((B1 & B2 & B3 & B4 & B5) & (B6 & B7 & B8 & B9) & B10).
  cbv zeta in *.
  split; [discriminate|]. split.
  { intros _ H. rewrite B6, S6 in H. rewrite B2, B3, S1.
    apply settle_above. exact H. }
  split.
  { intros _ H. destruct (B10 H) as (H1 & H2 & H3 & H4).
    rewrite B1, B2. split; [congruence|]. repeat split; assumption. }
  split.
  { intros _ At Ref Y V.
    assert (E1 : b1 = b) by (unfold b1, resolve; rewrite Ref, At; reflexivity).
    rewrite B1, B2, B4, B5, S0. unfold b2. rewrite E1. unfold settle.
    rewrite At. cbn [y velocityY onGround x].
    assert (L : Qle_bool ground (y b + (velocityY b + gravity b) + radius b)
                = true) by (apply Qle_bool_iff; lra).
    rewrite L. split; [lra|]. repeat split; reflexivity. }
  rewrite B3, B8, B9, S1, S4, S5, R1, R4, R5, A. repeat split; reflexivity.
Qed.

(** X10: an active bomb whose building reference is a building of the array
    that is not collapsed sits, after [update], at the building's corner plus
    its offsets and stays attached; when the referenced building is collapsed
    or no longer in the array the bomb lets go of it, keeps its [x], and is on
    or above the ground line. *)
Theorem sticky_follows_its_building :
  forall width height buildings b o i,
    active b = true -> attachedBuildingRef b = Some o ->
    attachedTo b = Some i ->
    let b' := update width height buildings b in
    match lookupRef o buildings with
    | Some building =>
        Building.oid building = o /\ In building buildings /\
        if alive building
        then x b' = Building.x building + offsetX b /\
             y b' = Building.y building + offsetY b /\
             attachedTo b' = Some i /\ attachedBuildingRef b' = Some o /\
             onGround b' = false /\ velocityY b' = velocityY b
        else attachedTo b' = None /\ attachedBuildingRef b' = None /\
             x b' = x b /\ y b' + radius b' <= height * 0.85
    | None =>
        attachedTo b' = None /\ attachedBuildingRef b' = None /\
        x b' = x b /\ y b' + radius b' <= height * 0.85
    end.
Proof.
  intros width height buildings b o i A Ref At b'.
  assert (Loose : resolve buildings b = release b ->
                  attachedTo b' = None /\ attachedBuildingRef b' = None /\
                  x b' = x b /\ y b' + radius b' <= height * 0.85).
  { intro E. unfold b', update. rewrite A. cbn [negb]. rewrite E.
    set (b2 := settle (height * 0.85) (release b)).
    destruct (settle_frame (height * 0.85) (release b))
      as (S0 & S1 & _ & _ & _ & _ & S6 & S7 & _).
    fold b2 in S0, S1, S6, S7.
    destruct (boundary_facts width height b2)
      as ((B1 & B2 & B3 & _) & (B6 & B7 & _) & _).
    cbv zeta in *. rewrite B1, B2, B3, B6, B7, S0, S1, S6, S7.
    repeat split; try reflexivity.
    apply (settle_above (height * 0.85) (release b)). reflexivity. }
  destruct (lookupRef o buildings) as [building|] eqn:L.
  - unfold lookupRef in L. destruct (find_some _ _ L) as [Hin Ho].
    apply Nat.eqb_eq in Ho. split; [exact Ho|]. split; [exact Hin|].
    destruct (alive building) eqn:Al.
    + unfold b', update. rewrite A. cbn [negb].
      assert (E : resolve buildings b = follow building b).
      { unfold resolve. rewrite Ref. unfold lookupRef. rewrite L, Al.
        reflexivity. }
      rewrite E.
      assert (E2 : settle (height * 0.85) (follow building b)
                   = follow building b)
        by (unfold settle; cbn [attachedTo follow]; rewrite At; reflexivity).
      rewrite E2.
      destruct (boundary_facts width height (follow building b))
        as ((B1 & B2 & _ & B4 & B5) & (B6 & B7 & _) & _).
      cbv zeta in *. rewrite B1, B2, B4, B5, B6, B7. cbn. rewrite Ho.
      repeat split; try reflexivity. exact At.
    + apply Loose. unfold resolve. rewrite Ref. unfold lookupRef.
      rewrite L, Al. reflexivity.
  - apply Loose. unfold resolve. rewrite Ref, L. reflexivity.
Qed.

Lemma clicked_spec px py : forall buildings i0,
  match clicked px py i0 buildings with
  | Some (i, building) =>
      (i0 <= i)%nat /\ nth_error buildings (i - i0) = Some building /\
      alive building = true /\ Building.contains px py building = true /\
      (forall j other,
         (j < i - i0)%nat -> nth_error buildings j = Some other ->
         alive other && Building.contains px py other = false)
  | None =>
      forall other, In other buildings ->
                    alive other && Building.contains px py other = false
  end.
Proof.
  intro bs. induction bs as [|b0 rest IH]; intro i0; cbn [clicked].
  - intros other [].
  - destruct (alive b0 && Building.contains px py b0) eqn:C.
    + apply andb_prop in C. destruct C as [C1 C2].
      rewrite Nat.sub_diag. repeat split; try assumption; try lia.
    + specialize (IH (S i0)).
      destruct (clicked px py (S i0) rest) as [[i building]|].
      * destruct IH as (L & N & A & B & F).
        split; [lia|].
        replace (i - i0)%nat with (S (i - S i0)) by lia.
        cbn [nth_error]. repeat split; try assumption.
        intros [|j] other Hj Hn; cbn [nth_error] in Hn.
        -- inversion Hn; subst. exact C.
        -- apply (F j other); [lia | exact Hn].
      * intros other [E|Hin]; [subst; exact C | apply IH; exact Hin].
Qed.

Lemma lookupRef_NoDup buildings building :
  NoDup (map Building.oid buildings) -> In building buildings ->
  lookupRef (Building.oid building) buildings = Some building.
Proof.
  unfold lookupRef.
  induction buildings as [|b0 rest IH]; intros ND Hin; [destruct Hin|].
  inversion ND as [|? ? Hn Hr]; subst. cbn [find].
  destruct Hin as [E|Hin].
  - subst. rewrite Nat.eqb_refl. reflexivity.
  - destruct (Building.oid b0 =? Building.oid building)%nat eqn:E.
    + apply Nat.eqb_eq in E. exfalso. apply Hn. rewrite E.
      apply in_map. exact Hin.
    + apply IH; assumption.
Qed.

(** X11: [placeStickyBomb] appends one armed, active bomb stamped with the
    current time.  A click on a building that is not collapsed attaches the
    bomb to the first such building of the array, and the next [update]
    (buildings being distinct objects) puts it exactly on the click and keeps
    it attached; any other click leaves a loose bomb at the click's [x], no
    lower than the ground line, attached to nothing. *)
Theorem placed_bomb_sits_on_the_click :
  forall now width height px py buildings bombs,
    NoDup (map Building.oid buildings) ->
    exists bomb,
      placeStickyBomb now height px py buildings bombs
      = retire bombs ++ [bomb] /\
      isArmed bomb = true /\ active bomb = true /\ placedAt bomb = now /\
      x bomb = px /\
      match clicked px py 0 buildings with
      | Some (i, building) =>
          nth_error buildings i = Some building /\
          alive building = true /\
          Building.contains px py building = true /\
          (forall j other,
             (j < i)%nat -> nth_error buildings j = Some other ->
             alive other && Building.contains px py other = false) /\
          y bomb = py /\ attachedTo bomb = Some i /\
          attachedBuildingRef bomb = Some (Building.oid building) /\
          let b' := update width height buildings bomb in
          x b' == px /\ y b' == py /\ attachedTo b' = Some i /\
          attachedBuildingRef b' = Some (Building.oid building)
      | None =>
          (forall other, In other buildings ->
             alive other && Building.contains px py other = false) /\
          y bomb = Math_min py (height * 0.85) /\
          y bomb <= height * 0.85 /\
          attachedTo bomb = None /\ attachedBuildingRef bomb = None
      end.
Proof.
  intros now width height px py buildings bombs ND.
  unfold placeStickyBomb.
  pose proof (clicked_spec px py buildings 0) as C.
  destruct (clicked px py 0 buildings) as [[i building]|].
  - destruct C as (_ & N & A & B & F). rewrite Nat.sub_0_r in N, F.
    eexists. split; [reflexivity|]. cbn [new isArmed active placedAt x y
                                         attachedTo attachedBuildingRef].
    do 4 (split; [reflexivity|]).
    split; [exact N|]. split; [exact A|]. split; [exact B|].
    split; [exact F|]. do 3 (split; [reflexivity|]).
    + set (bomb := new px py (Some i) (px - Building.x building)
                     (py - Building.y building)
                     (Some (Building.oid building)) now).
      assert (L : lookupRef (Building.oid building) buildings = Some building)
        by (apply lookupRef_NoDup;
            [exact ND | apply (nth_error_In _ _ N)]).
      assert (E : update width height buildings bomb
                  = boundary width height (follow building bomb)).
      { unfold update. cbn [active bomb new negb].
        assert (R : resolve buildings bomb = follow building bomb).
        { unfold resolve. cbn [attachedBuildingRef bomb new].
          rewrite L, A. reflexivity. }
        fold bomb. rewrite R. unfold settle.
        cbn [attachedTo follow bomb new]. reflexivity. }
      rewrite E.
      destruct (boundary_facts width height (follow building bomb))
        as ((B1 & B2 & _) & (B6 & B7 & _) & _).
      cbv zeta in *. rewrite B1, B2, B6, B7.
      cbn [follow x y attachedTo attachedBuildingRef offsetX offsetY bomb new].
      split; [ring|]. split; [ring|]. split; reflexivity.
  - eexists. split; [reflexivity|]. cbn [new isArmed active placedAt x y
                                         attachedTo attachedBuildingRef].
    repeat split; try assumption. unfold Math_min. apply Q.le_min_r.
Qed.

Lemma insertByAge_perm a l : Permutation (insertByAge a l) (a :: l).
Proof.
  induction l as [|b rest IH]; simpl; [reflexivity|].
  destruct (Qle_bool _ _); [reflexivity|].
  rewrite IH. apply perm_swap.
Qed.

Lemma sortByPlacedAt_perm l : Permutation (sortByPlacedAt l) l.
Proof.
  induction l as [|a rest IH]; simpl; [reflexivity|].
  rewrite insertByAge_perm, IH. reflexivity.
Qed.

Lemma insertByAge_sorted a l :
  StronglySorted older l -> StronglySorted older (insertByAge a l).
Proof.
  induction l as [|b rest IH]; intro H; simpl.
  - repeat constructor.
  - inversion H as [|? ? Hs Hf]; subst.
    destruct (Qle_bool _ _) eqn:E.
    + apply Qle_bool_iff in E. constructor; [exact H|].
      constructor; [exact E|].
      eapply Forall_impl; [|exact Hf]. unfold older. intros c Hc. lra.
    + apply Qle_bool_false in E. constructor; [apply IH; exact Hs|].
      apply Forall_forall. intros c Hc.
      apply (Permutation_in _ (insertByAge_perm a rest)) in Hc.
      destruct Hc as [<-|Hc].
      * unfold older. lra.
      * rewrite Forall_forall in Hf. apply Hf. exact Hc.
Qed.

Lemma sortByPlacedAt_sorted l : StronglySorted older (sortByPlacedAt l).
Proof.
  induction l as [|a rest IH]; simpl; [constructor|].
  apply insertByAge_sorted. exact IH.
Qed.

Lemma count_deactivate : forall l j a,
  nth_error l j = Some a -> active a = true ->
  (length (filter active (updateAt j deactivate l)) + 1
   = length (filter active l))%nat.
Proof.
  induction l as [|a0 rest IH]; intros [|j] a H A; cbn in H;
    try discriminate.
  - inversion H; subst. cbn [updateAt filter deactivate active]. rewrite A.
    cbn [length]. lia.
  - cbn [updateAt filter]. specialize (IH j a H A).
    destruct (active a0); cbn [length]; lia.
Qed.

Lemma retireLoop_full quota : forall sorted c bombs,
  (quota <= c)%nat -> retireLoop quota c sorted bombs = bombs.
Proof.
  induction sorted as [|[j bomb] rest IH]; intros c bombs H;
    cbn [retireLoop]; [reflexivity|].
  assert (E : (c <? quota)%nat = false) by (apply Nat.ltb_ge; exact H).
  rewrite E, andb_false_r. apply IH. exact H.
Qed.

Lemma retireLoop_other quota : forall sorted c bombs j,
  ~ In j (map fst sorted) ->
  nth_error (retireLoop quota c sorted bombs) j = nth_error bombs j.
Proof.
  induction sorted as [|[j0 bomb] rest IH]; intros c bombs j H;
    cbn [retireLoop]; [reflexivity|].
  cbn [map fst In] in H.
  destruct (active bomb && (c <? quota)%nat).
  - rewrite IH by tauto. apply updateAt_other. tauto.
  - apply IH. tauto.
Qed.

Lemma filter_perm_length {A} (p : A -> bool) (l1 l2 : list A) :
  Permutation l1 l2 -> length (filter p l1) = length (filter p l2).
Proof.
  intro P. induction P as [|a l1 l2 P IH|a b l|l1 l2 l3 P1 IH1 P2 IH2];
    cbn [filter].
  - reflexivity.
  - destruct (p a); cbn [length]; congruence.
  - destruct (p a), (p b); reflexivity.
  - congruence.
Qed.

Lemma deactivate_fixed b : active b = true -> b <> deactivate b.
Proof.
  intros A E. rewrite E in A. cbn in A. discriminate.
Qed.

Lemma retireLoop_facts quota : forall sorted c bombs,
  NoDup (map fst sorted) ->
  (forall j b, In (j, b) sorted -> nth_error bombs j = Some b) ->
  StronglySorted older sorted ->
  let bombs' := retireLoop quota c sorted bombs in
  length bombs' = length bombs /\
  (length (filter active bombs')
   + Nat.min (quota - c) (length (filter (fun e => active (snd e)) sorted))
   = length (filter active bombs))%nat /\
  (forall j b, nth_error bombs j = Some b ->
     nth_error bombs' j = Some b \/
     (nth_error bombs' j = Some (deactivate b) /\ active b = true)) /\
  (forall j b j2 b2,
     nth_error bombs j = Some b -> active b = true ->
     nth_error bombs' j = Some (deactivate b) ->
     In (j2, b2) sorted -> active b2 = true ->
     nth_error bombs' j2 = Some b2 ->
     placedAt b <= placedAt b2).
Proof.
  induction sorted as [|[j0 b0] rest IH]; intros c bombs ND Hn St;
    cbn [retireLoop]; cbv zeta.
  - cbn [filter length]. rewrite Nat.min_0_r, Nat.add_0_r.
    repeat split; try reflexivity.
    + intros j b H. left. exact H.
    + intros j b j2 b2 _ _ _ [].
  - cbn [map fst] in ND. inversion ND as [|? ? Hnot NDr]; subst.
    inversion St as [|? ? Str Hall]; subst.
    assert (H0 : nth_error bombs j0 = Some b0) by (apply Hn; left; reflexivity).
    destruct (c <? quota)%nat eqn:Q.
    2:{ apply Nat.ltb_ge in Q. rewrite andb_false_r.
        rewrite retireLoop_full by exact Q.
        replace (quota - c)%nat with 0%nat by lia. cbn [Nat.min].
        rewrite Nat.add_0_r. repeat split; try reflexivity.
        - intros j b H. left. exact H.
        - intros j b j2 b2 H A H' _ _ _. rewrite H in H'.
          inversion H' as [E]. exfalso. exact (deactivate_fixed b A E). }
    apply Nat.ltb_lt in Q. rewrite andb_true_r.
    destruct (active b0) eqn:A0.
    + assert (Hn1 : forall j b, In (j, b) rest ->
                nth_error (updateAt j0 deactivate bombs) j = Some b).
      { intros j b Hin. rewrite updateAt_other.
        - apply Hn. right. exact Hin.
        - intro E. subst j. apply Hnot.
          apply (in_map fst) in Hin. exact Hin. }
      destruct (IH (S c) (updateAt j0 deactivate bombs) NDr Hn1 Str)
        as (L & C & T & O).
      set (bombs' := retireLoop quota (S c) rest
                       (updateAt j0 deactivate bombs)) in *.
      assert (At0 : nth_error bombs' j0 = Some (deactivate b0)).
      { unfold bombs'. rewrite retireLoop_other by exact Hnot.
        rewrite updateAt_same, H0. reflexivity. }
      split; [rewrite L; apply updateAt_length|]. split.
      { pose proof (count_deactivate bombs j0 b0 H0 A0) as D.
        cbn [filter snd]. rewrite A0. cbn [length]. lia. }
      split.
      { intros j b H. destruct (Nat.eq_dec j j0) as [E|E].
        - subst j. rewrite H0 in H. inversion H; subst b.
          right. split; [exact At0 | exact A0].
        - apply T. rewrite updateAt_other by congruence. exact H. }
      intros j b j2 b2 H A H' Hin A2 H2.
      destruct Hin as [E|Hin].
      { inversion E; subst j2 b2. rewrite At0 in H2. inversion H2 as [E2].
        exfalso. apply (deactivate_fixed b0 A0). symmetry. exact E2. }
      destruct (Nat.eq_dec j j0) as [E|E].
      * subst j. rewrite H0 in H. inversion H; subst b.
        rewrite Forall_forall in Hall. apply (Hall (j2, b2) Hin).
      * apply (O j b j2 b2); try assumption.
        rewrite updateAt_other by congruence. exact H.
    + assert (Hn1 : forall j b, In (j, b) rest -> nth_error bombs j = Some b)
        by (intros j b Hin; apply Hn; right; exact Hin).
      destruct (IH c bombs NDr Hn1 Str) as (L & C & T & O).
      split; [exact L|]. split.
      { cbn [filter snd]. rewrite A0. exact C. }
      split; [exact T|].
      intros j b j2 b2 H A H' Hin A2 H2.
      destruct Hin as [E|Hin].
      { inversion E; subst j2 b2. congruence. }
      apply (O j b j2 b2); assumption.
Qed.

(** X12: the retirement step of [placeStickyBomb] changes nothing but
    [active] flags, and clears them only on bombs that were active; it leaves
    min(n, 199) bombs active when n were, and each bomb it retires was
    placed no later than each bomb it leaves active; hence after the new
    bomb is appended there are never more than [MAX_STICKY_BOMBS_ACTIVE]
    active bombs. *)
Theorem placeStickyBomb_retires_the_oldest :
  forall now height px py buildings bombs,
    let n := length (filter active bombs) in
    let kept := retire bombs in
    let placed := placeStickyBomb now height px py buildings bombs in
    length kept = length bombs /\
    length (filter active kept)
    = Nat.min n (MAX_STICKY_BOMBS_ACTIVE - 1) /\
    (forall j b, nth_error bombs j = Some b ->
       nth_error kept j = Some b \/
       (nth_error kept j = Some (deactivate b) /\ active b = true)) /\
    (forall j b j2 b2,
       nth_error bombs j = Some b -> active b = true ->
       nth_error kept j = Some (deactivate b) ->
       nth_error kept j2 = Some b2 -> active b2 = true ->
       placedAt b <= placedAt b2) /\
    length placed = S (length bombs) /\
    length (filter active placed)
    = S (Nat.min n (MAX_STICKY_BOMBS_ACTIVE - 1)) /\
    (length (filter active placed) <= MAX_STICKY_BOMBS_ACTIVE)%nat.
Proof.
  intros now height px py buildings bombs n kept placed.
  assert (K : length kept = length bombs /\
              length (filter active kept)
              = Nat.min n (MAX_STICKY_BOMBS_ACTIVE - 1) /\
              (forall j b, nth_error bombs j = Some b ->
                 nth_error kept j = Some b \/
                 (nth_error kept j = Some (deactivate b) /\
                  active b = true)) /\
              (forall j b j2 b2,
                 nth_error bombs j = Some b -> active b = true ->
                 nth_error kept j = Some (deactivate b) ->
                 nth_error kept j2 = Some b2 -> active b2 = true ->
                 placedAt b <= placedAt b2)).
  { unfold kept, retire. fold n.
    destruct (MAX_STICKY_BOMBS_ACTIVE <=? n)%nat eqn:M.
    2:{ apply Nat.leb_gt in M. split; [reflexivity|].
        split; [unfold MAX_STICKY_BOMBS_ACTIVE in *; lia|].
        split; [intros j b H; left; exact H|].
        intros j b j2 b2 H A H' _ _. rewrite H in H'.
        inversion H' as [E]. exfalso. exact (deactivate_fixed b A E). }
    apply Nat.leb_le in M.
    set (sorted := sortByPlacedAt (indexed bombs)).
    pose proof (sortByPlacedAt_perm (indexed bombs)) as P. fold sorted in P.
    assert (ND : NoDup (map fst sorted)).
    { apply (Permutation_NoDup (l := map fst (indexed bombs))).
      - apply Permutation_map. symmetry. exact P.
      - apply indexed_NoDup. }
    assert (Hn : forall j b, In (j, b) sorted -> nth_error bombs j = Some b).
    { intros j b Hin. apply indexed_In.
      apply (Permutation_in _ P). exact Hin. }
    assert (Cn : length (filter (fun e : nat * t => active (snd e)) sorted)
                 = n).
    { rewrite (filter_perm_length (fun e : nat * t => active (snd e))
                 _ _ P).
      unfold n. rewrite <- (combine_seq_snd bombs 0) at 2.
      rewrite filter_map_swap, length_map. reflexivity. }
    destruct (retireLoop_facts (n - MAX_STICKY_BOMBS_ACTIVE + 1) sorted 0
                bombs ND Hn (sortByPlacedAt_sorted (indexed bombs)))
      as (L & C & T & O).
    rewrite Cn in C. fold n in C.
    split; [exact L|].
    split; [unfold MAX_STICKY_BOMBS_ACTIVE in *; lia|].
    split; [exact T|].
    intros j b j2 b2 H A H' H2 A2.
    apply (O j b j2 b2 H A H'); [|exact A2 | exact H2].
    apply (Permutation_in _ (Permutation_sym P)). apply indexed_In.
    assert (Lt : (j2 < length bombs)%nat).
    { rewrite <- L. apply nth_error_Some. congruence. }
    destruct (nth_error bombs j2) as [b3|] eqn:H3;
      [|apply nth_error_None in H3; lia].
    destruct (T j2 b3 H3) as [E|[E _]]; rewrite E in H2;
      inversion H2; subst b2; [reflexivity|].
    cbn in A2. discriminate. }
  destruct K as (K1 & K2 & K3 & K4).
  split; [exact K1|]. split; [exact K2|]. split; [exact K3|].
  split; [exact K4|].
  assert (P : exists bomb, placed = kept ++ [bomb] /\ active bomb = true).
  { unfold placed, placeStickyBomb. fold kept.
    destruct (clicked px py 0 buildings) as [[i building]|];
      eexists; split; reflexivity. }
  destruct P as (bomb & P & A). rewrite P.
  rewrite length_app, filter_app, length_app. cbn [filter length].
  rewrite A. cbn [length]. rewrite K1, K2.
  unfold MAX_STICKY_BOMBS_ACTIVE. repeat split; lia.
Qed.

End StickyMore.

(** ** Screen shake and flash *)

Section ScreenFacts.
Import Screen.

Lemma Math_pow_antitone (a : Q) (n m : nat) :
  0 <= a -> a <= 1 -> (n <= m)%nat -> Math_pow a m <= Math_pow a n.
Proof.
  intros H0 H1 L. replace m with (n + (m - n))%nat by lia.
  rewrite Math_pow_add.
  pose proof (Math_pow_nonneg a n H0).
  pose proof (Math_pow_nonneg a (m - n) H0).
  pose proof (Math_pow_le_1 a (m - n) H0 H1). nra.
Qed.

(** What [n] frames make of the intensity of a shake. *)
Lemma shakeFrames_intensity r1 r2 s : 0 <= intensity s -> forall n,
  let s' := shakeFrames r1 r2 n s in
  intensity s' == 0 \/
  (0 < intensity s' /\ intensity s' == intensity s * Math_pow 0.9 n /\
   ((1 <= n)%nat -> 0.1 <= intensity s')).
Proof.
  intro H0. induction n as [|n IH]; cbn [shakeFrames]; cbv zeta.
  - destruct (Qlt_le_dec 0 (intensity s)) as [L|L].
    + right. split; [exact L|]. split; [simpl; ring | lia].
    + left. lra.
  - cbv zeta in IH. set (sn := shakeFrames r1 r2 n s) in *.
    unfold updateScreenShake.
    destruct (Qlt_bool 0 (intensity sn)) eqn:G.
    + apply Qlt_bool_iff in G.
      destruct IH as [Z|(P & E & _)]; [lra|].
      destruct (Qlt_bool (intensity sn * 0.9) 0.1) eqn:T.
      * left. reflexivity.
      * apply Qlt_bool_false in T. right. cbn [intensity].
        split; [lra|]. split; [|intros _; exact T].
        rewrite E. simpl. ring.
    + apply Qlt_bool_false in G.
      destruct IH as [Z|(P & _)]; [left; exact Z | lra].
Qed.

Lemma shakeFrames_le r1 r2 s n :
  0 <= intensity s ->
  0 <= intensity (shakeFrames r1 r2 n s) /\
  intensity (shakeFrames r1 r2 n s) <= intensity s.
Proof.
  intro H0.
  destruct (shakeFrames_intensity r1 r2 s H0 n) as [Z|(P & E & _)].
  - lra.
  - pose proof (Math_pow_le_1 0.9 n) as L.
    assert (Math_pow 0.9 n <= 1) by (apply L; lra).
    pose proof (Math_pow_nonneg 0.9 n).
    assert (0 <= Math_pow 0.9 n) by (apply H1; lra).
    split; [lra|]. rewrite E. nra.
Qed.

Lemma shakeFrames_offsets r1 r2 s :
  0 < intensity s ->
  (forall k, 0 <= r1 k /\ r1 k <= 1 /\ 0 <= r2 k /\ r2 k <= 1) ->
  forall n,
    let s' := shakeFrames r1 r2 (S n) s in
    (- (intensity s * 0.5) <= x s' /\ x s' <= intensity s * 0.5) /\
    (- (intensity s * 0.5) <= y s' /\ y s' <= intensity s * 0.5) /\
    (intensity s' == 0 -> x s' == 0 /\ y s' == 0).
Proof.
  intros H0 R.
  assert (Step : forall k sn,
            0 < intensity sn -> intensity sn <= intensity s ->
            let s' := updateScreenShake (r1 k) (r2 k) sn in
            (- (intensity s * 0.5) <= x s' /\ x s' <= intensity s * 0.5) /\
            (- (intensity s * 0.5) <= y s' /\ y s' <= intensity s * 0.5) /\
            (intensity s' == 0 -> x s' == 0 /\ y s' == 0)).
  { intros k sn P L. cbv zeta. unfold updateScreenShake.
    assert (G : Qlt_bool 0 (intensity sn) = true)
      by (apply Qlt_bool_iff; exact P).
    rewrite G. destruct (R k) as (A1 & A2 & A3 & A4).
    destruct (Qlt_bool (intensity sn * 0.9) 0.1) eqn:T; cbn [x y intensity].
    - split; [split; lra|]. split; [split; lra|].
      intros _. split; reflexivity.
    - apply Qlt_bool_false in T.
      split; [split; nra|]. split; [split; nra|]. intro Z. lra. }
  induction n as [|n IH].
  - cbn [shakeFrames]. apply Step; lra.
  - set (sn := shakeFrames r1 r2 (S n) s) in *.
    change (shakeFrames r1 r2 (S (S n)) s)
      with (updateScreenShake (r1 (S n)) (r2 (S n)) sn).
    destruct (Qlt_le_dec 0 (intensity sn)) as [P|P].
    + apply Step; [exact P|].
      apply (shakeFrames_le r1 r2 s (S n)). lra.
    + assert (E : updateScreenShake (r1 (S n)) (r2 (S n)) sn = sn).
      { unfold updateScreenShake.
        assert (G : Qlt_bool 0 (intensity sn) = false)
          by (apply Qlt_bool_false; exact P).
        rewrite G. reflexivity. }
      cbv zeta. rewrite E. exact IH.
Qed.

(** X13: a screen shake of non-negative intensity never grows and never goes
    negative; after [n] frames its intensity is either 0 or exactly
    [0.9 ^ n] of what it was and then at least 0.1; after the first frame of
    a positive shake both offsets are at most half the starting intensity
    in size, and they are 0 once the intensity is 0; from an intensity of at
    most 30, the highest the sticky bombs can set, the shake is over within
    55 frames. *)
Theorem screen_shake_dies_out :
  forall r1 r2 n s,
    0 <= intensity s ->
    (forall k, 0 <= r1 k /\ r1 k <= 1 /\ 0 <= r2 k /\ r2 k <= 1) ->
    let s' := shakeFrames r1 r2 n s in
    (0 <= intensity s' /\ intensity s' <= intensity s) /\
    (intensity s' == 0 \/
     (intensity s' == intensity s * Math_pow 0.9 n /\
      ((1 <= n)%nat -> 0.1 <= intensity s'))) /\
    ((1 <= n)%nat -> 0 < intensity s ->
     (- (intensity s * 0.5) <= x s' /\ x s' <= intensity s * 0.5) /\
     (- (intensity s * 0.5) <= y s' /\ y s' <= intensity s * 0.5) /\
     (intensity s' == 0 -> x s' == 0 /\ y s' == 0)) /\
    (intensity s <= 30 -> (55 <= n)%nat -> intensity s' == 0).
Proof.
  intros r1 r2 n s H0 R s'.
  split; [apply shakeFrames_le; exact H0|]. split.
  { destruct (shakeFrames_intensity r1 r2 s H0 n) as [Z|(P & E & T)];
      [left; exact Z | right; split; assumption]. }
  split.
  { intros Hn P. destruct n as [|n]; [lia|].
    apply shakeFrames_offsets; assumption. }
  intros H30 Hn.
  destruct (shakeFrames_intensity r1 r2 s H0 n) as [Z|(P & E & T)];
    [exact Z|].
  exfalso. fold s' in E, T.
  assert (T' : 0.1 <= intensity s') by (apply T; lia).
  assert (A : Math_pow 0.9 n <= Math_pow 0.9 55)
    by (apply Math_pow_antitone; [lra | lra | exact Hn]).
  assert (B : 30 * Math_pow 0.9 55 < 0.1) by (vm_compute; reflexivity).
  assert (C : 0 <= Math_pow 0.9 n) by (apply Math_pow_nonneg; lra).
  rewrite E in T'. nra.
Qed.

Lemma flashFrames_facts f : forall n,
  0 <= flashIntensity f ->
  let f' := flashFrames n f in
  (0 <= flashIntensity f' /\ flashIntensity f' <= flashIntensity f) /\
  (active f = false -> f' = f) /\
  (active f' = true ->
   active f = true /\
   flashIntensity f' == flashIntensity f * Math_pow 0.85 n /\
   ((1 <= n)%nat -> 0.01 <= flashIntensity f')) /\
  (active f = true -> active f' = false -> flashIntensity f' = 0).
Proof.
  intros n H0. induction n as [|n IH]; cbn [flashFrames]; cbv zeta.
  - split; [lra|]. split; [reflexivity|]. split.
    + intro A. split; [exact A|]. split; [simpl; ring | lia].
    + intros A B. congruence.
  - cbv zeta in IH. set (fn := flashFrames n f) in *.
    destruct IH as ((I1 & I2) & I3 & I4 & I5).
    unfold updateScreenFlash. destruct (active fn) eqn:A.
    + destruct (I4 eq_refl) as (A0 & E & _).
      destruct (Qlt_bool (flashIntensity fn * 0.85) 0.01) eqn:T;
        cbn [active flashIntensity].
      * split; [lra|]. split; [intro; congruence|].
        split; [discriminate | reflexivity].
      * apply Qlt_bool_false in T. split; [lra|].
        split; [intro; congruence|]. split; [|discriminate].
        intros _. split; [exact A0|]. split; [|intros _; exact T].
        rewrite E. simpl. ring.
    + split; [lra|]. split; [exact I3|]. split; [intro; congruence|].
      intros A0 _. apply I5; [exact A0 | reflexivity].
Qed.

(** X14: a screen flash never brightens; while it is active after [n]
    frames its intensity is exactly [0.85 ^ n] of what it was and at least
    0.01; when it goes out its intensity is set to 0, and a flash that is
    out is never touched again; the flash of a nuclear explosion (0.3) is
    still active after 20 frames and out after 21, and so is every flash of
    at most that intensity from frame 21 on. *)
Theorem screen_flash_dies_out :
  forall n f,
    0 <= flashIntensity f ->
    let f' := flashFrames n f in
    (0 <= flashIntensity f' /\ flashIntensity f' <= flashIntensity f) /\
    (active f = false -> f' = f) /\
    (active f' = true ->
     active f = true /\
     flashIntensity f' == flashIntensity f * Math_pow 0.85 n /\
     ((1 <= n)%nat -> 0.01 <= flashIntensity f')) /\
    (active f = true -> active f' = false -> flashIntensity f' = 0) /\
    (flashIntensity f <= 0.3 -> (21 <= n)%nat -> active f' = false) /\
    active (flashFrames 20 nuclearFlash) = true /\
    active (flashFrames 21 nuclearFlash) = false.
Proof.
  intros n f H0 f'.
  destruct (flashFrames_facts f n H0) as (A & B & C & D).
  split; [exact A|]. split; [exact B|]. split; [exact C|].
  split; [exact D|]. split; [|split; vm_compute; reflexivity].
  intros H3 Hn. apply not_true_is_false. intro Act.
  destruct (C Act) as (_ & E & T). fold f' in E, T.
  assert (T' : 0.01 <= flashIntensity f') by (apply T; lia).
  assert (P : Math_pow 0.85 n <= Math_pow 0.85 21)
    by (apply Math_pow_antitone; [lra | lra | exact Hn]).
  assert (Q : 0.3 * Math_pow 0.85 21 < 0.01) by (vm_compute; reflexivity).
  assert (R : 0 <= Math_pow 0.85 n) by (apply Math_pow_nonneg; lra).
  rewrite E in T'. nra.
Qed.

End ScreenFacts.

(** ** Water waves *)

Section WaterFacts.
Import WaterWaveSystem.

Lemma total_updateAt (d : Q) : forall l i,
  (i < length l)%nat ->
  total (updateAt i (fun v => v + d) l) == total l + d.
Proof.
  induction l as [|a rest IH]; intros [|i] H; cbn [length] in H;
    try lia; cbn [updateAt total fold_right].
  - ring.
  - fold (total rest). fold (total (updateAt i (fun v => v + d) rest)).
    rewrite IH by lia. ring.
Qed.

(** X15: [addDisturbance] never touches the heights, the number of points or
    the length of the arrays; a point index outside [0, pointCount) or a
    width of 0 makes it do nothing; otherwise only the point and its two
    neighbours change, and the velocities rise in total by the impulse
    plus half of it for each neighbour the point has.  A disturbance over
    the water, [startX <= x < startX + width], always has its point index
    in range. *)
Theorem addDisturbance_spreads :
  forall px velocityImpulse w,
    length (velocities w) = Z.to_nat (pointCount w) ->
    let w' := addDisturbance px velocityImpulse w in
    let pointIndex :=
      Math_floor ((px - startX w) / width w * inject_Z (pointCount w)) in
    (heights w' = heights w /\ pointCount w' = pointCount w /\
     length (velocities w') = length (velocities w)) /\
    (width w == 0 \/ (pointIndex < 0)%Z \/ (pointCount w <= pointIndex)%Z ->
     w' = w) /\
    (~ width w == 0 -> (0 <= pointIndex < pointCount w)%Z ->
     total (velocities w')
     == total (velocities w)
        + velocityImpulse
          * (1 + (if (0 <? pointIndex)%Z then 0.5 else 0)
             + (if (pointIndex <? pointCount w - 1)%Z then 0.5 else 0)) /\
     (forall j,
        (Z.of_nat j < pointIndex - 1)%Z \/ (pointIndex + 1 < Z.of_nat j)%Z ->
        nth_error (velocities w') j = nth_error (velocities w) j)) /\
    (0 < width w -> startX w <= px -> px < startX w + width w ->
     (0 < pointCount w)%Z -> (0 <= pointIndex < pointCount w)%Z).
Proof.
  intros px imp w Len w' idx.
  assert (Out : width w == 0 \/ (idx < 0)%Z \/ (pointCount w <= idx)%Z ->
                w' = w).
  { intro H. unfold w', addDisturbance. fold idx.
    destruct (Qeq_bool (width w) 0) eqn:Z; [reflexivity|].
    destruct H as [H|[H|H]].
    - apply Qeq_bool_iff in H. congruence.
    - assert (E : (0 <=? idx)%Z = false) by (apply Z.leb_gt; exact H).
      rewrite E. reflexivity.
    - assert (E : (idx <? pointCount w)%Z = false)
        by (apply Z.ltb_ge; exact H).
      rewrite E, andb_false_r. reflexivity. }
  assert (In_ : ~ width w == 0 -> (0 <= idx < pointCount w)%Z ->
                velocities w'
                = (let i := Z.to_nat idx in
                   let v1 := updateAt i (fun v => v + imp) (velocities w) in
                   let v2 := if (0 <? idx)%Z
                             then updateAt (i - 1)
                                    (fun v => v + imp * 0.5) v1
                             else v1 in
                   if (idx <? pointCount w - 1)%Z
                   then updateAt (i + 1) (fun v => v + imp * 0.5) v2
                   else v2) /\
                heights w' = heights w /\ pointCount w' = pointCount w).
  { intros Hw Hi. unfold w', addDisturbance. fold idx.
    destruct (Qeq_bool (width w) 0) eqn:Z;
      [apply Qeq_bool_iff in Z; contradiction|].
    assert (E1 : (0 <=? idx)%Z = true) by (apply Z.leb_le; lia).
    assert (E2 : (idx <? pointCount w)%Z = true) by (apply Z.ltb_lt; lia).
    rewrite E1, E2. cbn [andb]. repeat split; reflexivity. }
  split.
  { destruct (Qeq_dec (width w) 0) as [Z|Z];
      [rewrite Out by (left; exact Z); repeat split; reflexivity|].
    destruct (Z_lt_le_dec idx 0) as [N|N];
      [rewrite Out by (right; left; exact N); repeat split; reflexivity|].
    destruct (Z_lt_le_dec idx (pointCount w)) as [M|M];
      [|rewrite Out by (right; right; exact M); repeat split; reflexivity].
    destruct (In_ Z (conj N M)) as (V & H & C).
    split; [exact H|]. split; [exact C|]. rewrite V. cbv zeta.
    destruct (0 <? idx)%Z, (idx <? pointCount w - 1)%Z;
      rewrite ?updateAt_length; reflexivity. }
  split; [exact Out|]. split.
  { intros Hw Hi. destruct (In_ Hw Hi) as (V & _). rewrite V. cbv zeta.
    set (i := Z.to_nat idx).
    assert (Li : (i < length (velocities w))%nat) by (rewrite Len; lia).
    split.
    - destruct (0 <? idx)%Z eqn:A; destruct (idx <? pointCount w - 1)%Z eqn:B;
        try apply Z.ltb_lt in A; try apply Z.ltb_lt in B;
        rewrite ?total_updateAt; rewrite ?updateAt_length;
        try ring; try lia; rewrite Len; lia.
    - intros j Hj.
      assert (J0 : i <> j) by lia.
      destruct (0 <? idx)%Z eqn:A; destruct (idx <? pointCount w - 1)%Z eqn:B;
        try apply Z.ltb_lt in A; try apply Z.ltb_lt in B;
        rewrite ?updateAt_other; try reflexivity; lia. }
  intros Hw H1 H2 Hc. unfold idx, Math_floor.
  set (q := (px - startX w) / width w).
  assert (E : q * width w == px - startX w)
    by (unfold q; field; intro Z; lra).
  assert (Q0 : 0 <= q).
  { destruct (Qlt_le_dec q 0) as [L|L]; [|exact L]. nra. }
  assert (Q1 : q < 1).
  { destruct (Qlt_le_dec q 1) as [L|L]; [exact L|]. nra. }
  assert (C : 0 < inject_Z (pointCount w)).
  { change 0 with (inject_Z 0). rewrite <- Zlt_Qlt. exact Hc. }
  split.
  - change 0%Z with (Qfloor 0). apply Qfloor_resp_le.
    apply Qmult_le_0_compat; lra.
  - pose proof (Qfloor_le (q * inject_Z (pointCount w))) as F.
    assert (U : inject_Z (Qfloor (q * inject_Z (pointCount w)))
                < inject_Z (pointCount w)) by nra.
    rewrite <- Zlt_Qlt in U. exact U.
Qed.

End WaterFacts.

(** ** Explosion *)

Section ExplosionFacts.
Import Explosion.

Lemma update_fst rand city width height ww e :
  fst (update rand city width height ww e) = grow e.
Proof.
  unfold update. destruct ww as [w|]; [|reflexivity].
  destruct (_ && _); reflexivity.
Qed.

Lemma update_dry rand city width height ww e :
  50 <= radius (grow e) ->
  snd (update rand city width height ww e) = ww.
Proof.
  intro H. unfold update. destruct ww as [w|]; [|reflexivity].
  assert (E : Qlt_bool (radius (grow e)) 50 = false)
    by (apply Qlt_bool_false; exact H).
  rewrite E, andb_false_r. reflexivity.
Qed.

Lemma updates_new rand city width height ww x0 y0 r0 flash large : forall n,
  let e := fst (updates rand city width height n ww
                  (new x0 y0 r0 flash large)) in
  radius e == num n * stepOf large /\
  (active e = true <-> n = 0%nat \/ num n * stepOf large < r0) /\
  x e = x0 /\ y e = y0 /\ maxRadius e = r0 /\ speed e = 15 /\
  isLarge e = large.
Proof.
  induction n as [|n IH]; cbn [updates]; cbv zeta.
  - cbn. split; [change (num 0) with 0; ring|].
    split; [split; [left; reflexivity | reflexivity]|].
    repeat split; reflexivity.
  - cbv zeta in IH.
    destruct (updates rand city width height n ww
                (new x0 y0 r0 flash large)) as [e1 ww1].
    rewrite update_fst. cbn [fst] in IH.
    destruct IH as (R & A & X & Y & M & Sp & L).
    assert (R1 : radius (grow e1) == num (S n) * stepOf large).
    { unfold grow. cbn [radius]. rewrite R, Sp, L, num_succ.
      unfold stepOf. destruct large; ring. }
    assert (P : 0 < stepOf large) by (unfold stepOf; destruct large; lra).
    split; [exact R1|]. split.
    + unfold grow at 1. cbn [active]. fold (radius (grow e1)).
      replace (radius e1 + speed e1 * (if isLarge e1 then 3 else 1))
        with (radius (grow e1)) by reflexivity.
      rewrite M. destruct (Qle_bool r0 (radius (grow e1))) eqn:C.
      * apply Qle_bool_iff in C. split; [discriminate|].
        intros [Z|Lt]; [discriminate Z|]. rewrite R1 in C. lra.
      * apply Qle_bool_false in C. rewrite R1 in C. split.
        -- intros _. right. exact C.
        -- intros _. apply A. destruct n as [|n]; [left; reflexivity|].
           right. rewrite num_succ in C. nra.
    + unfold grow. cbn. repeat split; assumption.
Qed.

(** X16: an explosion made by the constructor has, after [n] updates, the
    radius [15 n] ([45 n] when large), and is active exactly when [n = 0]
    or that radius is still below [maxRadius]; its centre and [maxRadius]
    never change; and it can disturb the water only while its radius is
    below 50, so nothing it does after its third update (its first, when
    large) changes the water. *)
Theorem explosion_grows_then_ends :
  forall rand city width height ww x0 y0 r0 flash large n,
    let run k := updates rand city width height k ww
                   (new x0 y0 r0 flash large) in
    radius (fst (run n)) == num n * stepOf large /\
    (active (fst (run n)) = true
     <-> n = 0%nat \/ num n * stepOf large < r0) /\
    (x (fst (run n)) = x0 /\ y (fst (run n)) = y0 /\
     maxRadius (fst (run n)) = r0) /\
    snd (run (3 + n)%nat) = snd (run 3%nat) /\
    (if large then snd (run (1 + n)%nat) = snd (run 1%nat) else True).
Proof.
  intros rand city width height ww x0 y0 r0 flash large n run.
  destruct (updates_new rand city width height ww x0 y0 r0 flash large n)
    as (R & A & X & Y & M & _).
  split; [exact R|]. split; [exact A|].
  split; [repeat split; assumption|]. clear R A X Y M.
  assert (Dry : forall k, 50 <= num (S k) * stepOf large ->
                          snd (run (S k)) = snd (run k)).
  { intros k H. unfold run. cbn [updates].
    destruct (updates_new rand city width height ww x0 y0 r0 flash large k)
      as (Rk & _ & _ & _ & _ & Sk & Lk).
    destruct (updates rand city width height k ww
                (new x0 y0 r0 flash large)) as [e1 ww1].
    cbn [fst snd] in *. apply update_dry.
    unfold grow. cbn [radius]. rewrite Rk, Sk, Lk.
    rewrite num_succ in H. unfold stepOf in *. destruct large; lra. }
  assert (N : forall k, 0 <= num k).
  { intro k. unfold num. change 0 with (inject_Z 0). rewrite <- Zle_Qle.
    lia. }
  split.
  - induction n as [|n IH]; [reflexivity|].
    replace (3 + S n)%nat with (S (3 + n)) by lia.
    rewrite Dry; [exact IH|].
    pose proof (N n). replace (S (3 + n)) with (S (S (S (S n)))) by lia.
    rewrite !num_succ. unfold stepOf. destruct large; lra.
  - destruct large; [|exact I].
    induction n as [|n IH]; [reflexivity|].
    replace (1 + S n)%nat with (S (1 + n)) by lia.
    rewrite Dry; [exact IH|].
    pose proof (N n). replace (S (1 + n)) with (S (S n)) by lia.
    rewrite !num_succ. unfold stepOf. lra.
Qed.

End ExplosionFacts.

(** ** Detonation: the buildings out of range *)

Section DetonationMore.
Import Detonation.
Variable sqrt : Q -> Q.

(** The armed bombs that reach a building: those whose distance from its
    centre is below the radius. *)
Lemma accumulate_keys radius bomb acc index b k :
  In k (map fst (fst (accumulate sqrt radius bomb acc (index, b)))) ->
  In k (map fst (fst acc)) \/
  (k = index /\ Building.state b <> Building.Collapsed /\
   distanceBetween sqrt (Building.getCenterX b) (Building.getCenterY b)
     (StickyBomb.x bomb) (StickyBomb.y bomb) < radius).
Proof.
  unfold accumulate. destruct acc as [dm sm]. cbn [fst].
  destruct (Building.State_eqb (Building.state b) Building.Collapsed) eqn:C;
    [left; assumption|].
  destruct (Qlt_bool _ radius) eqn:L; [|left; assumption].
  apply Qlt_bool_iff in L. cbn [fst]. intro H.
  assert (NC : Building.state b <> Building.Collapsed)
    by (intro E; rewrite E in C; discriminate C).
  rewrite mapSet_keys in H.
  assert (K : forall m, In k (map fst (if negb (mapHas index m)
                                       then mapSet index 0 m else m)) ->
                        In k (map fst m) \/ k = index).
  { intros m Hk. destruct (mapHas index m) eqn:M; cbn [negb] in Hk;
      [left; exact Hk|].
    rewrite mapSet_keys, M in Hk. apply in_app_or in Hk.
    destruct Hk as [Hk|[Hk|[]]]; [left; exact Hk | right; congruence]. }
  destruct (mapHas index _) in H.
  - destruct (K dm H) as [Hk|Hk]; [left; exact Hk | right; tauto].
  - apply in_app_or in H. destruct H as [H|[H|[]]].
    + destruct (K dm H) as [Hk|Hk]; [left; exact Hk | right; tauto].
    + right. split; [congruence | tauto].
Qed.

Lemma accumulate_all_keys radius bomb bs : forall (l : list (nat * Building.t))
    acc k,
  (forall j b, In (j, b) l -> nth_error bs j = Some b) ->
  In k (map fst (fst (fold_left (accumulate sqrt radius bomb) l acc))) ->
  In k (map fst (fst acc)) \/
  exists b, nth_error bs k = Some b /\
            Building.state b <> Building.Collapsed /\
            distanceBetween sqrt (Building.getCenterX b)
              (Building.getCenterY b) (StickyBomb.x bomb) (StickyBomb.y bomb)
            < radius.
Proof.
  induction l as [|[j b] rest IH]; intros acc k Hl H; cbn [fold_left] in H.
  - left. exact H.
  - destruct (IH _ k (fun j0 b0 Hin => Hl j0 b0 (or_intror Hin)) H)
      as [H1|H1]; [|right; exact H1].
    destruct (accumulate_keys radius bomb acc j b k H1) as [H2|(E & NC & D)];
      [left; exact H2|].
    right. exists b. subst k. split; [apply Hl; left; reflexivity|].
    split; assumption.
Qed.

Lemma firstPass_keys radius bs : forall bombs acc k,
  In k (map fst (fst (snd (firstPass sqrt radius bs bombs acc)))) ->
  In k (map fst (fst acc)) \/
  exists bomb b,
    In bomb bombs /\ StickyBomb.isArmed bomb = true /\
    nth_error bs k = Some b /\
    Building.state b <> Building.Collapsed /\
    distanceBetween sqrt (Building.getCenterX b) (Building.getCenterY b)
      (StickyBomb.x bomb) (StickyBomb.y bomb) < radius.
Proof.
  induction bombs as [|bomb rest IH]; intros acc k H; cbn [firstPass] in H.
  - left. exact H.
  - destruct (StickyBomb.isArmed bomb) eqn:A; cbn [negb] in H.
    + set (acc1 := fold_left (accumulate sqrt radius
                                (StickyBomb.activate bomb))
                     (indexed bs) acc) in *.
      specialize (IH acc1 k).
      destruct (firstPass sqrt radius bs rest acc1) as [rest1 acc2].
      cbn [snd] in *.
      destruct (IH H) as [H1|(bomb' & b & I1 & I2 & I3)].
      * destruct (accumulate_all_keys radius (StickyBomb.activate bomb) bs
                    (indexed bs) acc k
                    (fun j b0 Hin => proj1 (indexed_In bs j b0) Hin) H1)
          as [H2|(b & N & NC & D)]; [left; exact H2|].
        right. exists bomb, b. split; [left; reflexivity|].
        split; [exact A|]. split; [exact N|]. split; [exact NC | exact D].
      * right. exists bomb', b. split; [right; exact I1|].
        split; [exact I2 | exact I3].
    + specialize (IH acc k).
      destruct (firstPass sqrt radius bs rest acc) as [rest1 acc1].
      cbn [snd] in *.
      destruct (IH H) as [H1|(bomb' & b & I1 & I2 & I3)];
        [left; exact H1|].
      right. exists bomb', b. split; [right; exact I1|].
      split; [exact I2 | exact I3].
Qed.

Lemma thirdPass_length now draws sm es : forall acc,
  length (fst (fold_left (applyAccumulated now draws sm) es acc))
  = length (fst acc).
Proof.
  induction es as [|[k total] rest IH]; intro acc; cbn [fold_left];
    [reflexivity|].
  rewrite IH. unfold applyAccumulated. destruct acc as [bs log1].
  destruct (nth_error bs k) as [building|]; [|reflexivity].
  destruct (negb _); [|reflexivity].
  destruct (strike now draws sm k total building) as [b2 e1].
  cbn [fst]. apply updateAt_length.
Qed.

(** X17: [detonateAllStickyBombs] keeps the number of buildings, empties the
    array of sticky bombs and leaves the screen shake at 30 at most; a
    building that is collapsed, or whose centre is at least the damage
    radius away from every armed bomb, comes out exactly as it went in. *)
Theorem detonation_reaches_only_buildings_in_range :
  forall now draws envs w,
    let w' := detonateAllStickyBombs sqrt now draws envs w in
    length (buildings w') = length (buildings w) /\
    stickyBombs w' = [] /\
    screenShakeIntensity w' <= 30 /\
    (forall i b,
       nth_error (buildings w) i = Some b ->
       Building.state b = Building.Collapsed \/
       (forall bomb,
          In bomb (stickyBombs w) -> StickyBomb.isArmed bomb = true ->
          damageRadius w
          <= distanceBetween sqrt (Building.getCenterX b)
               (Building.getCenterY b) (StickyBomb.x bomb)
               (StickyBomb.y bomb)) ->
       nth_error (buildings w') i = Some b).
Proof.
  intros now draws envs w w'.
  pose proof (firstPass_keys (damageRadius w) (buildings w) (stickyBombs w)
                ([], [])) as K.
  unfold w', detonateAllStickyBombs.
  destruct (firstPass sqrt (damageRadius w) (buildings w) (stickyBombs w)
              ([], [])) as [bombs1 [dm sm]].
  destruct (secondPass (damageRadius w) bombs1) as [bombs2 e2].
  pose proof (thirdPass_length now draws sm dm (buildings w, [])) as L.
  pose proof (thirdPass_other sqrt now draws sm dm (buildings w, [])) as O.
  destruct (fold_left (applyAccumulated now draws sm) dm (buildings w, []))
    as [bs3 e3].
  destruct (if (currentCityId w =? 2)%Z then _ else _) as [ss4 e4].
  cbn [buildings stickyBombs screenShakeIntensity fst snd] in *.
  split; [exact L|]. split; [reflexivity|].
  split; [unfold Math_min; apply Q.le_min_r|].
  intros i b N H. rewrite O; [exact N|].
  intro Hin. destruct (K i Hin) as [[]|(bomb & b' & I1 & I2 & I3 & I4 & I5)].
  rewrite N in I3. inversion I3; subst b'.
  destruct H as [H|H]; [contradiction|].
  specialize (H bomb I1 I2). lra.
Qed.

End DetonationMore.

(** ** Bridge: cables, towers, hits and forced breaks *)

Section BridgeMore.
Import Bridge.

Lemma cableRound_In e cable br i j t :
  In (j, t) (cableRound e cable br i) <->
  j = i /\ i <> cable /\
  (exists hanger, nth_error (hangers br) i = Some hanger /\
                  broken hanger = false) /\
  t = clock e i + (breakDelay e + num (apart i cable) * 100).
Proof.
  unfold cableRound.
  destruct (nth_error (hangers br) i) as [hanger|] eqn:N.
  - destruct (broken hanger) eqn:B; cbn [negb andb].
    + split; [intros []|].
      intros (_ & _ & (h & E & Hb) & _). congruence.
    + destruct (i =? cable)%nat eqn:C; cbn [negb].
      * apply Nat.eqb_eq in C. split; [intros []|]. intros (_ & H & _).
        contradiction.
      * apply Nat.eqb_neq in C. split.
        -- intros [E|[]]. inversion E; subst.
           repeat split; try assumption. exists hanger. split; [reflexivity|].
           exact B.
        -- intros (-> & _ & _ & ->). left. reflexivity.
  - split; [intros []|]. intros (_ & _ & (h & E & _) & _). discriminate E.
Qed.

Lemma cableRounds_NoDup e cable br : forall l,
  NoDup l -> NoDup (map fst (flat_map (cableRound e cable br) l)).
Proof.
  induction l as [|i rest IH]; intro ND; cbn [flat_map map];
    [constructor|].
  inversion ND as [|? ? Hn Hr]; subst. rewrite map_app.
  apply NoDup_app; [| apply IH; exact Hr |].
  - unfold cableRound. destruct (nth_error (hangers br) i) as [h|];
      [|constructor].
    destruct (_ && _); [|constructor]. cbn. repeat constructor. intros [].
  - intros j Hj Hj'. apply in_map_iff in Hj. destruct Hj as ([j1 t1] & E & H1).
    apply cableRound_In in H1. destruct H1 as (-> & _). cbn in E. subst j.
    apply in_map_iff in Hj'. destruct Hj' as ([j2 t2] & E & H2).
    apply in_flat_map in H2. destruct H2 as (k & Hk & H2).
    apply cableRound_In in H2. destruct H2 as (-> & _). cbn in E. subst k.
    contradiction.
Qed.

(** X18: when a cable of the bridge breaks, [onCableBroken] leaves the sway
    active and appends to the cable break sequence one entry for every
    unbroken cable other than the broken one within the break radius, which
    is between 3 and 6 positions: so every unbroken neighbour up to 3
    positions away is scheduled and none farther than 6; each entry is due
    the base delay of 200-600 ms plus 100 ms per position of distance after
    the clock reading of its round, that is between 300 and 1200 ms later;
    no cable is scheduled twice, and the hangers and the entries already in
    the sequence are left as they were. *)
Theorem cable_cascade_schedule :
  forall e cable segment br,
    0 <= rCount e -> rCount e < 1 -> 0 <= rDelay e -> rDelay e < 1 ->
    (cable < length (hangers br))%nat ->
    let br' := onCableBroken e cable segment br in
    exists added,
      cableBreakSequence br' = cableBreakSequence br ++ added /\
      hangers br' = hangers br /\ swayActive br' = true /\
      length (segments br') = length (segments br) /\
      destructionSequence br' = destructionSequence br /\
      NoDup (map fst added) /\
      (forall i t,
         In (i, t) added ->
         i <> cable /\ (apart i cable <= 6)%nat /\
         (exists hanger, nth_error (hangers br) i = Some hanger /\
                         broken hanger = false) /\
         t = clock e i + (breakDelay e + num (apart i cable) * 100) /\
         clock e i + 300 <= t /\ t < clock e i + 1200) /\
      (forall i hanger,
         nth_error (hangers br) i = Some hanger -> broken hanger = false ->
         i <> cable -> (apart i cable <= 3)%nat ->
         exists t, In (i, t) added).
Proof.
  intros e cable segment br C0 C1 D0 D1 Lt br'.
  pose proof (breakCount_range e C0 C1) as R.
  pose proof (breakDelay_range e D0 D1) as [Dl Du].
  set (br1 := if negb (swayActive br) then startCableSway e br else br).
  assert (F1 : hangers br1 = hangers br /\
               cableBreakSequence br1 = cableBreakSequence br /\
               swayActive br1 = true /\ segments br1 = segments br /\
               destructionSequence br1 = destructionSequence br).
  { unfold br1. destruct (swayActive br) eqn:S; cbn [negb];
      repeat split; try reflexivity. exact S. }
  destruct F1 as (H1 & Q1 & S1 & G1 & DS1).
  set (lo := Z.to_nat (Z.max 0 (Z.of_nat cable - breakCount e))).
  set (cnt := Z.to_nat
                (Z.min (Z.of_nat (length (hangers br)) - 1)
                   (Z.of_nat cable + breakCount e)
                 + 1 - Z.max 0 (Z.of_nat cable - breakCount e))).
  set (added := flat_map (cableRound e cable br1) (seq lo cnt)).
  assert (E2 : scheduleCableBreakSequence e cable br1
               = setCableBreakSequence (cableBreakSequence br ++ added) br1).
  { unfold scheduleCableBreakSequence. rewrite H1, Q1.
    assert (G : (length (hangers br) <=? cable)%nat = false)
      by (apply Nat.leb_gt; exact Lt).
    rewrite G. reflexivity. }
  assert (F : cableBreakSequence br' = cableBreakSequence br ++ added /\
              hangers br' = hangers br /\ swayActive br' = true /\
              length (segments br') = length (segments br) /\
              destructionSequence br' = destructionSequence br).
  { unfold br', onCableBroken. fold br1. rewrite E2.
    destruct segment as [i|]; cbn; rewrite ?updateAt_length;
      repeat split; congruence. }
  destruct F as (Fa & Fb & Fc & Fd & Fe).
  exists added. split; [exact Fa|]. split; [exact Fb|]. split; [exact Fc|].
  split; [exact Fd|]. split; [exact Fe|].
  split; [apply cableRounds_NoDup, seq_NoDup|]. split.
  - intros i t Hin. apply in_flat_map in Hin. destruct Hin as (k & Hk & Hin).
    apply cableRound_In in Hin. destruct Hin as (-> & Hne & Hh & Ht).
    rewrite H1 in Hh. apply in_seq in Hk.
    assert (A : (apart k cable <= 6)%nat) by (unfold apart, lo, cnt in *; lia).
    assert (A1 : (1 <= apart k cable)%nat) by (unfold apart; lia).
    assert (N1 : 1 <= num (apart k cable)).
    { unfold num. change 1 with (inject_Z 1). rewrite <- Zle_Qle. lia. }
    assert (N6 : num (apart k cable) <= 6).
    { unfold num. change 6 with (inject_Z 6). rewrite <- Zle_Qle. lia. }
    split; [exact Hne|]. split; [exact A|]. split; [exact Hh|].
    split; [exact Ht|]. rewrite Ht. split; lra.
  - intros i hanger N B Hne A.
    exists (clock e i + (breakDelay e + num (apart i cable) * 100)).
    apply in_flat_map. exists i. split.
    + apply in_seq.
      assert (Li : (i < length (hangers br))%nat)
        by (apply nth_error_Some; congruence).
      unfold apart, lo, cnt in *. lia.
    + apply cableRound_In. split; [reflexivity|]. split; [exact Hne|].
      split; [|reflexivity]. exists hanger. rewrite H1. split; assumption.
Qed.

Lemma worn_spec h : 0 <= worn h /\ worn h <= Qmax 0 h /\
                    worn h == Qmax 0 (h - 0.1).
Proof.
  unfold worn. destruct (Qle_bool (h - 0.1) 0) eqn:E.
  - apply Qle_bool_iff in E. split; [lra|]. split.
    + apply Q.le_max_l.
    + rewrite Q.max_l by exact E. reflexivity.
  - apply Qle_bool_false in E. split; [lra|]. split.
    + apply Q.max_le_iff. right. lra.
    + rewrite Q.max_r by lra. reflexivity.
Qed.

Lemma wearFrames_segments n br :
  segments (wearFrames n br) = segments br.
Proof.
  induction n as [|n IH]; cbn [wearFrames]; [reflexivity|].
  rewrite <- IH. reflexivity.
Qed.

Lemma quarterDown_frames n br part :
  quarterDown (wearFrames n br) part = quarterDown br part.
Proof.
  unfold quarterDown. rewrite wearFrames_segments. reflexivity.
Qed.

Lemma worn_compat a b : a == b -> worn a == worn b.
Proof.
  intro E. unfold worn.
  destruct (Qle_bool (a - 0.1) 0) eqn:A; destruct (Qle_bool (b - 0.1) 0) eqn:B;
    try reflexivity;
    try apply Qle_bool_iff in A; try apply Qle_bool_iff in B;
    try apply Qle_bool_false in A; try apply Qle_bool_false in B; lra.
Qed.

Lemma wornBy_spec n h :
  wornBy n h == (if (0 <? n)%nat then Qmax 0 (h - 0.1 * num n) else h).
Proof.
  induction n as [|n IH]; cbn [wornBy]; [reflexivity|].
  change (0 <? S n)%nat with true. cbv iota.
  rewrite (worn_compat _ _ IH).
  destruct (worn_spec (if (0 <? n)%nat then Qmax 0 (h - 0.1 * num n) else h))
    as (_ & _ & E).
  rewrite E, num_succ. destruct n as [|n].
  - change (0 <? 0)%nat with false. cbv iota. change (num 0) with 0.
    apply Q.max_compat; [reflexivity | ring].
  - change (0 <? S n)%nat with true. cbv iota.
    destruct (Qlt_le_dec (h - 0.1 * num (S n)) 0) as [N|N].
    + rewrite (Q.max_l 0 (h - 0.1 * num (S n))) by lra.
      rewrite !Q.max_l by lra. reflexivity.
    + rewrite (Q.max_r 0 (h - 0.1 * num (S n))) by exact N.
      apply Q.max_compat; [reflexivity | ring].
Qed.

Lemma wornBy_bounds n h : Qmin 0 h <= wornBy n h /\ wornBy n h <= Qmax 0 h.
Proof.
  rewrite (wornBy_spec n h).
  assert (P : 0 <= num n).
  { unfold num. change 0 with (inject_Z 0). rewrite <- Zle_Qle. lia. }
  destruct (Q.max_spec 0 h) as [[A1 A2]|[A1 A2]];
    destruct (Q.min_spec 0 h) as [[B1 B2]|[B1 B2]];
    destruct (0 <? n)%nat;
    try destruct (Q.max_spec 0 (h - 0.1 * num n)) as [[C1 C2]|[C1 C2]];
    split; lra.
Qed.

Lemma wearFrames_towers n br :
  leftTowerHealth (wearFrames n br)
  = (if quarterDown br 0.25 then wornBy n (leftTowerHealth br)
     else leftTowerHealth br) /\
  rightTowerHealth (wearFrames n br)
  = (if quarterDown br 0.75 then wornBy n (rightTowerHealth br)
     else rightTowerHealth br).
Proof.
  induction n as [|n [L R]]; cbn [wearFrames wornBy].
  - destruct (quarterDown br 0.25), (quarterDown br 0.75); split; reflexivity.
  - unfold wearTowers. cbn [setTowerHealth leftTowerHealth rightTowerHealth].
    rewrite !quarterDown_frames, L, R.
    destruct (quarterDown br 0.25), (quarterDown br 0.75); split; reflexivity.
Qed.

(** X19: the wear at the end of [update] touches nothing but the health of
    the two towers, whatever that health is ([Bridge.takeDamage] subtracts
    from it without a bound, so it can be below 0).  After [n] runs of it,
    the segments being what they are, the health of a tower whose quarter
    segment is neither broken nor dynamic is what it was, also when that is
    below 0; the health [h] of a tower whose quarter segment is broken or
    dynamic is [h] for [n = 0] and [max 0 (h - 0.1 n)] from the first run
    on, so that a health below 0 is set to 0 by the first run.  In every
    case the health stays between [min 0 h] and [max 0 h]. *)
Theorem tower_wear :
  forall n br,
    let br' := wearFrames n br in
    segments br' = segments br /\
    hangers br' = hangers br /\
    destructionSequence br' = destructionSequence br /\
    leftTowerHealth br'
    == (if quarterDown br 0.25 && (0 <? n)%nat
        then Qmax 0 (leftTowerHealth br - 0.1 * num n)
        else leftTowerHealth br) /\
    rightTowerHealth br'
    == (if quarterDown br 0.75 && (0 <? n)%nat
        then Qmax 0 (rightTowerHealth br - 0.1 * num n)
        else rightTowerHealth br) /\
    (Qmin 0 (leftTowerHealth br) <= leftTowerHealth br' /\
     leftTowerHealth br' <= Qmax 0 (leftTowerHealth br)) /\
    (Qmin 0 (rightTowerHealth br) <= rightTowerHealth br' /\
     rightTowerHealth br' <= Qmax 0 (rightTowerHealth br)).
Proof.
  intros n br. cbv zeta.
  assert (F : hangers (wearFrames n br) = hangers br /\
              destructionSequence (wearFrames n br) = destructionSequence br).
  { induction n as [|n [H D]]; cbn [wearFrames]; [split; reflexivity|].
    unfold wearTowers. cbn [setTowerHealth hangers destructionSequence].
    split; assumption. }
  destruct F as [H D]. destruct (wearFrames_towers n br) as [L R].
  split; [apply wearFrames_segments|]. split; [exact H|]. split; [exact D|].
  rewrite L, R.
  assert (Self : forall h, Qmin 0 h <= h /\ h <= Qmax 0 h).
  { intro h. split; [apply Q.le_min_r | apply Q.le_max_r]. }
  destruct (quarterDown br 0.25), (quarterDown br 0.75); cbn [andb];
    repeat split;
    try apply wornBy_spec; try apply wornBy_bounds; try apply Self;
    reflexivity.
Qed.

(** 167 explosions of intensity 30 and radius 200 at the centre of the right
    tower of the sample bridge take 3 each from its health of 500 and leave
    it at -1; the segment at three quarters of the deck is down by then, and
    the next wear step puts the health at 0. *)
Example tower_health_below_zero :
  let hit br :=
    fst (takeDamage sqrt6 (fun _ => calm) 30 600 652 200 br) in
  let br := Nat.iter 167 hit sample in
  Qred (rightTowerHealth br) = (-1 # 1) /\
  quarterDown br 0.75 = true /\
  Qred (rightTowerHealth (wearTowers br)) = 0.
Proof. vm_compute. repeat split; reflexivity. Qed.

Lemma damageSegment_nth e i damage br j :
  nth_error (segments (fst (damageSegment e i damage br))) j
  = if (j =? i)%nat
    then option_map (hitSegment e damage) (nth_error (segments br) j)
    else nth_error (segments br) j.
Proof.
  unfold damageSegment, hitSegment.
  destruct (nth_error (segments br) i) as [s|] eqn:N.
  - destruct (BridgeSegment.takeDamage damage s) as [s1 notify] eqn:T.
    destruct notify.
    + destruct (onSegmentBroken_fields e i (onSegment i (fun _ => s1) br))
        as (E & _). cbv zeta in E. rewrite E. cbn [onSegment setSegments
                                                   segments].
      destruct (j =? i)%nat eqn:J.
      * apply Nat.eqb_eq in J. subst j.
        rewrite !updateAt_same, N. cbn [option_map]. rewrite T. reflexivity.
      * apply Nat.eqb_neq in J.
        rewrite !updateAt_other by congruence. reflexivity.
    + cbn [fst onSegment setSegments segments].
      destruct (j =? i)%nat eqn:J.
      * apply Nat.eqb_eq in J. subst j.
        rewrite updateAt_same, N. cbn [option_map]. rewrite T. reflexivity.
      * apply Nat.eqb_neq in J.
        rewrite updateAt_other by congruence. reflexivity.
  - cbn [fst]. destruct (j =? i)%nat eqn:J; [|reflexivity].
    apply Nat.eqb_eq in J. subst j. rewrite N. reflexivity.
Qed.

Lemma onSegmentBroken_frame e i br :
  frame (fst (onSegmentBroken e i br)) = frame br.
Proof.
  unfold onSegmentBroken. cbn [fst].
  set (br1 := if isMiddle br (Z.of_nat i) && negb (swayActive br)
              then startSway e br else br).
  assert (F1 : frame br1 = frame br)
    by (unfold br1; destruct (_ && _); reflexivity).
  unfold scheduleProgressiveDestruction.
  destruct (negb (isMiddle _ _)); cbn; rewrite <- F1; reflexivity.
Qed.

Lemma damageSegment_frame e i damage br :
  frame (fst (damageSegment e i damage br)) = frame br.
Proof.
  unfold damageSegment.
  destruct (nth_error (segments br) i) as [s|]; [|reflexivity].
  destruct (BridgeSegment.takeDamage damage s) as [s1 notify].
  destruct notify; [|reflexivity].
  rewrite onSegmentBroken_frame. reflexivity.
Qed.

Section Hit.
Variables (sqrt : Q -> Q) (envs : nat -> Env).
Variables (intensity damageX damageY damageRadius : Q).

Lemma damageRound_nth acc i j :
  nth_error
    (segments
       (fst (damageRound sqrt envs intensity damageX damageY damageRadius
               acc i))) j
  = (if (j =? i)%nat
     then option_map
            (struck sqrt envs intensity damageX damageY damageRadius i)
            (nth_error (segments (fst acc)) j)
     else nth_error (segments (fst acc)) j) /\
  frame (fst (damageRound sqrt envs intensity damageX damageY damageRadius
                acc i))
  = frame (fst acc).
Proof.
  unfold damageRound. destruct acc as [br log]. cbn [fst].
  destruct (nth_error (segments br) i) as [segment|] eqn:N.
  - unfold struck, segmentDistance.
    destruct (BridgeSegment.State_eqb (BridgeSegment.state segment)
                BridgeSegment.Broken) eqn:B.
    + cbn [fst]. split; [|reflexivity].
      destruct (j =? i)%nat eqn:J; [|reflexivity].
      apply Nat.eqb_eq in J. subst j. rewrite N. cbn [option_map].
      rewrite B. reflexivity.
    + destruct (Qlt_bool _ damageRadius) eqn:L.
      * pose proof (damageSegment_nth (envs i) i
                      (intensity
                       * falloffNear 2
                           (distanceBetween sqrt
                              (BridgeSegment.x segment
                               + BridgeSegment.w segment / 2)
                              (BridgeSegment.y segment
                               + BridgeSegment.h segment / 2)
                              damageX damageY) damageRadius) br j) as D.
        pose proof (damageSegment_frame (envs i) i
                      (intensity
                       * falloffNear 2
                           (distanceBetween sqrt
                              (BridgeSegment.x segment
                               + BridgeSegment.w segment / 2)
                              (BridgeSegment.y segment
                               + BridgeSegment.h segment / 2)
                              damageX damageY) damageRadius) br) as F.
        destruct (damageSegment _ _ _ br) as [br1 e1].
        cbn [fst] in *. split; [|exact F]. rewrite D.
        destruct (j =? i)%nat eqn:J; [|reflexivity].
        apply Nat.eqb_eq in J. subst j. rewrite N. cbn [option_map].
        rewrite B, L. reflexivity.
      * cbn [fst]. split; [|reflexivity].
        destruct (j =? i)%nat eqn:J; [|reflexivity].
        apply Nat.eqb_eq in J. subst j. rewrite N. cbn [option_map].
        rewrite B, L. reflexivity.
  - cbn [fst]. split; [|reflexivity].
    destruct (j =? i)%nat eqn:J; [|reflexivity].
    apply Nat.eqb_eq in J. subst j. rewrite N. reflexivity.
Qed.

Lemma damageRounds_nth : forall l acc j,
  NoDup l ->
  nth_error
    (segments
       (fst (fold_left
               (damageRound sqrt envs intensity damageX damageY damageRadius)
               l acc))) j
  = (if existsb (Nat.eqb j) l
     then option_map
            (struck sqrt envs intensity damageX damageY damageRadius j)
            (nth_error (segments (fst acc)) j)
     else nth_error (segments (fst acc)) j) /\
  frame (fst (fold_left
                (damageRound sqrt envs intensity damageX damageY damageRadius)
                l acc))
  = frame (fst acc).
Proof.
  induction l as [|i rest IH]; intros acc j ND; cbn [fold_left existsb].
  - split; reflexivity.
  - inversion ND as [|? ? Hn Hr]; subst.
    destruct (IH (damageRound sqrt envs intensity damageX damageY
                    damageRadius acc i) j Hr) as (A & F).
    destruct (damageRound_nth acc i j) as (A1 & F1).
    split; [|congruence]. rewrite A, A1.
    destruct (j =? i)%nat eqn:J; cbn [orb]; [|reflexivity].
    apply Nat.eqb_eq in J. subst j.
    assert (X : existsb (Nat.eqb i) rest = false).
    { apply not_true_is_false. intro X. apply existsb_exists in X.
      destruct X as (k & Hk & E). apply Nat.eqb_eq in E. subst k.
      contradiction. }
    rewrite X. reflexivity.
Qed.

Lemma breakJoints_box s :
  segmentBox (BridgeSegment.breakJoints s) = segmentBox s.
Proof.
  unfold BridgeSegment.breakJoints.
  destruct (BridgeSegment.leftJoint s);
    match goal with
    | |- context [match BridgeSegment.rightJoint ?u with _ => _ end] =>
        destruct (BridgeSegment.rightJoint u)
    end; reflexivity.
Qed.

Lemma makeDynamic_facts a b c s :
  let s' := BridgeSegment.makeDynamic a b c s in
  segmentBox s' = segmentBox s /\
  BridgeSegment.health s' = BridgeSegment.health s /\
  (BridgeSegment.state s' = BridgeSegment.Dynamic \/
   BridgeSegment.state s' = BridgeSegment.state s).
Proof.
  unfold BridgeSegment.makeDynamic.
  destruct (BridgeSegment.isKinematic s); cbn; repeat split;
    try reflexivity; [left | right]; reflexivity.
Qed.

Lemma hitSegment_facts e damage s :
  0 <= damage ->
  let s' := hitSegment e damage s in
  segmentBox s' = segmentBox s /\
  (BridgeSegment.state s = BridgeSegment.Broken \/
   BridgeSegment.state s = BridgeSegment.Dynamic -> s' = s) /\
  (0 <= BridgeSegment.health s ->
   0 <= BridgeSegment.health s' /\
   BridgeSegment.health s' <= BridgeSegment.health s) /\
  (BridgeSegment.state s' = BridgeSegment.Intact ->
   BridgeSegment.state s = BridgeSegment.Intact).
Proof.
  intros Hd. cbv zeta. unfold hitSegment, BridgeSegment.takeDamage.
  destruct (BridgeSegment.State_eqb (BridgeSegment.state s)
              BridgeSegment.Broken
            || BridgeSegment.State_eqb (BridgeSegment.state s)
                 BridgeSegment.Dynamic) eqn:Inert.
  { split; [reflexivity|]. split; [reflexivity|].
    split; [intro; split; lra | intro H; exact H]. }
  assert (Live : ~ (BridgeSegment.state s = BridgeSegment.Broken \/
                    BridgeSegment.state s = BridgeSegment.Dynamic)).
  { intros [E|E]; rewrite E in Inert; discriminate Inert. }
  destruct (Qle_bool (BridgeSegment.health s - damage) 0) eqn:Z.
  - set (s1 := BridgeSegment.setHealthState 0 BridgeSegment.Broken s).
    destruct (makeDynamic_facts ((rImpulse e - 0.5) * 0.5) (-0.3)
                ((rTorque e - 0.5) * 0.1) s1) as (B & H & St).
    set (s2 := BridgeSegment.makeDynamic ((rImpulse e - 0.5) * 0.5) (-0.3)
                 ((rTorque e - 0.5) * 0.1) s1) in *.
    destruct (breakJoints_frame s2) as (St3 & H3 & _).
    split; [rewrite breakJoints_box, B; reflexivity|].
    split; [intro H'; contradiction|]. split.
    + intro H0. rewrite H3, H. cbn. split; lra.
    + rewrite St3. intro E. destruct St as [St|St]; rewrite St in E;
        discriminate E.
  - apply Qle_bool_false in Z.
    destruct (Qlt_bool (BridgeSegment.health s - damage)
                (BridgeSegment.maxHealth s * 0.5)); cbn.
    + split; [reflexivity|]. split; [intro H'; contradiction|].
      split; [intro; split; lra | discriminate].
    + split; [reflexivity|]. split; [intro H'; contradiction|].
      split; [intro; split; lra | intro H; exact H].
Qed.

Lemma falloffNear_square d m : 0 <= falloffNear 2 d m.
Proof.
  unfold falloffNear. cbn [Math_pow].
  set (a := 1 - d / m). nra.
Qed.

(** X20: [Bridge.takeDamage] with a non-negative intensity keeps the number
    of segments, the cables and the cable break sequence, and raises the
    health of neither tower; the segment at each position comes out as the
    hit on that segment alone makes it: untouched when it is broken or
    dynamic or its centre is at least the radius away, and otherwise with
    the same rectangle, a health that has not risen and is not negative,
    and never back in state intact. *)
Theorem bridge_hit_frame :
  forall br,
    0 <= intensity ->
    let br' :=
      fst (Bridge.takeDamage sqrt envs intensity damageX damageY damageRadius
             br) in
    length (segments br') = length (segments br) /\
    hangers br' = hangers br /\
    cableBreakSequence br' = cableBreakSequence br /\
    leftTowerHealth br' <= leftTowerHealth br /\
    rightTowerHealth br' <= rightTowerHealth br /\
    (forall j s,
       nth_error (segments br) j = Some s ->
       let s' := struck sqrt envs intensity damageX damageY damageRadius j s
       in
       nth_error (segments br') j = Some s' /\
       segmentBox s' = segmentBox s /\
       (BridgeSegment.state s = BridgeSegment.Broken \/
        BridgeSegment.state s = BridgeSegment.Dynamic \/
        damageRadius <= segmentDistance sqrt damageX damageY s ->
        s' = s) /\
       (0 <= BridgeSegment.health s ->
        0 <= BridgeSegment.health s' /\
        BridgeSegment.health s' <= BridgeSegment.health s) /\
       (BridgeSegment.state s' = BridgeSegment.Intact ->
        BridgeSegment.state s = BridgeSegment.Intact)).
Proof.
  intros br Hi. cbv zeta. unfold Bridge.takeDamage.
  destruct (damageRounds_nth (seq 0 (length (segments br))) (br, []) 0
              (seq_NoDup _ _)) as (_ & F).
  pose proof (fun j => proj1 (damageRounds_nth (seq 0 (length (segments br)))
                                (br, []) j (seq_NoDup _ _))) as N.
  destruct (fold_left
              (damageRound sqrt envs intensity damageX damageY damageRadius)
              (seq 0 (length (segments br))) (br, [])) as [br1 log].
  cbn [fst] in *.
  assert (In_ : forall j, (j < length (segments br))%nat ->
                          existsb (Nat.eqb j) (seq 0 (length (segments br)))
                          = true).
  { intros j Hj. apply existsb_exists. exists j. split.
    - apply in_seq. lia.
    - apply Nat.eqb_refl. }
  assert (Out : forall j, (length (segments br) <= j)%nat ->
                          existsb (Nat.eqb j) (seq 0 (length (segments br)))
                          = false).
  { intros j Hj. apply not_true_is_false. intro X.
    apply existsb_exists in X. destruct X as (k & Hk & E).
    apply Nat.eqb_eq in E. subst k. apply in_seq in Hk. lia. }
  unfold frame in F.
  assert (F9 : leftTowerHealth br1 = leftTowerHealth br) by congruence.
  assert (F10 : rightTowerHealth br1 = rightTowerHealth br) by congruence.
  assert (F11 : hangers br1 = hangers br) by congruence.
  assert (F12 : cableBreakSequence br1 = cableBreakSequence br)
    by congruence.
  clear F.
  cbn [setTowerHealth segments hangers cableBreakSequence leftTowerHealth
       rightTowerHealth].
  split.
  { destruct (Nat.lt_trichotomy (length (segments br1))
                (length (segments br))) as [L|[L|L]]; [|exact L|].
    - exfalso. specialize (N (length (segments br1))).
      rewrite (In_ _ L) in N.
      destruct (nth_error (segments br) (length (segments br1))) eqn:E;
        [|apply nth_error_None in E; lia].
      cbn in N. assert (X : nth_error (segments br1)
                              (length (segments br1)) = None)
        by (apply nth_error_None; lia).
      congruence.
    - exfalso. specialize (N (length (segments br))).
      rewrite (Out _ (Nat.le_refl _)) in N.
      assert (X : nth_error (segments br) (length (segments br)) = None)
        by (apply nth_error_None; lia).
      rewrite X in N. apply nth_error_None in N. lia. }
  split; [exact F11|]. split; [exact F12|].
  split.
  { rewrite F9. destruct (Qlt_bool _ damageRadius); [|lra].
    match goal with
    | |- context [falloffNear 2 ?d ?m] =>
        pose proof (falloffNear_square d m) as P
    end.
    nra. }
  split.
  { rewrite F10. destruct (Qlt_bool _ damageRadius); [|lra].
    match goal with
    | |- context [falloffNear 2 ?d ?m] =>
        pose proof (falloffNear_square d m) as P
    end.
    nra. }
  intros j s Hs.
  assert (Hj : (j < length (segments br))%nat)
    by (apply nth_error_Some; congruence).
  split.
  { rewrite N, (In_ j Hj), Hs. reflexivity. }
  unfold struck.
  destruct (BridgeSegment.State_eqb (BridgeSegment.state s)
              BridgeSegment.Broken) eqn:B; cbn [negb andb].
  { split; [reflexivity|]. split; [reflexivity|].
    split; [intro; split; lra | intro H; exact H]. }
  destruct (Qlt_bool (segmentDistance sqrt damageX damageY s) damageRadius)
    eqn:L.
  2:{ split; [reflexivity|]. split; [reflexivity|].
      split; [intro; split; lra | intro H; exact H]. }
  apply Qlt_bool_iff in L.
  assert (D : 0 <= intensity
                   * falloffNear 2 (segmentDistance sqrt damageX damageY s)
                       damageRadius).
  { pose proof (falloffNear_square
                  (segmentDistance sqrt damageX damageY s) damageRadius).
    nra. }
  destruct (hitSegment_facts (envs j) _ s D) as (H1 & H2 & H3 & H4).
  split; [exact H1|]. split; [|split; [exact H3 | exact H4]].
  intros [E|[E|E]]; [apply H2; left; exact E | apply H2; right; exact E|].
  lra.
Qed.

End Hit.

Lemma makeDynamic_loose a b c s :
  BridgeSegment.isKinematic (BridgeSegment.makeDynamic a b c s) = false.
Proof.
  unfold BridgeSegment.makeDynamic.
  destruct (BridgeSegment.isKinematic s) eqn:K; [reflexivity | exact K].
Qed.

Lemma makeDynamic_down a b c s :
  down s = true -> down (BridgeSegment.makeDynamic a b c s) = true.
Proof.
  unfold down, BridgeSegment.makeDynamic.
  destruct (BridgeSegment.isKinematic s); [|intro H; exact H].
  intros _. reflexivity.
Qed.

Lemma breakJoints_down s :
  down (BridgeSegment.breakJoints s) = down s.
Proof.
  unfold down. destruct (breakJoints_frame s) as (E & _). rewrite E.
  reflexivity.
Qed.

(** One item of the destruction sequence. *)
Lemma forceBreak_step currentTime e r1 r2 item br kept log :
  let r := forceBreak currentTime e r1 r2 item (br, kept, log) in
  let br' := fst (fst r) in
  let t := target item in
  ((snd (fst r) = kept /\ due currentTime item = true) \/
   (snd (fst r) = kept ++ [item] /\ br' = br /\
    (due currentTime item = false \/
     nth_error (segments br) t = None \/
     exists s, nth_error (segments br) t = Some s /\
               BridgeSegment.state s = BridgeSegment.Broken))) /\
  (forall j, j <> t -> nth_error (segments br') j = nth_error (segments br) j)
  /\
  (forall s, nth_error (segments br) t = Some s ->
     exists s',
       nth_error (segments br') t = Some s' /\
       segmentBox s' = segmentBox s /\
       (down s = true -> down s' = true) /\
       (BridgeSegment.state s = BridgeSegment.Broken -> s' = s) /\
       (due currentTime item = true ->
        down s' = true /\
        (BridgeSegment.state s <> BridgeSegment.Broken ->
         BridgeSegment.health s' = 0 /\
         BridgeSegment.isKinematic s' = false))) /\
  (nth_error (segments br) t = None -> nth_error (segments br') t = None).
Proof.
  cbv zeta. unfold forceBreak, due.
  destruct (nth_error (segments br) (target item)) as [segment|] eqn:N.
  2:{ cbn [fst snd]. split; [right; split; [reflexivity|]; split;
                              [reflexivity | right; left; reflexivity]|].
      split; [reflexivity|]. split; [intros s H; discriminate H|].
      intros _. exact N. }
  destruct (Qle_bool (breakTime item) currentTime) eqn:D; cbn [andb].
  2:{ cbn [fst snd]. split; [right; split; [reflexivity|]; split;
                              [reflexivity | left; reflexivity]|].
      split; [reflexivity|]. split; [|intro H; discriminate H].
      intros s H. inversion H; subst s. exists segment.
      split; [exact N|]. split; [reflexivity|]. split; [intro X; exact X|].
      split; [reflexivity | discriminate]. }
  destruct (BridgeSegment.State_eqb (BridgeSegment.state segment)
              BridgeSegment.Broken) eqn:B; cbn [negb].
  { assert (Bs : BridgeSegment.state segment = BridgeSegment.Broken)
      by (destruct (BridgeSegment.state segment); try discriminate B;
          reflexivity).
    cbn [fst snd]. split.
    - right. split; [reflexivity|]. split; [reflexivity|]. right. right.
      exists segment. split; [reflexivity | exact Bs].
    - split; [reflexivity|]. split; [|intro H; discriminate H].
      intros s H. inversion H; subst s. exists segment.
      split; [exact N|]. split; [reflexivity|].
      split; [intro X; exact X|]. split; [reflexivity|].
      intros _. split; [unfold down; rewrite B; reflexivity|].
      intro X. contradiction. }
  set (f := fun s =>
              BridgeSegment.makeDynamic ((r1 - 0.5) * 0.4) (-0.2)
                ((r2 - 0.5) * 0.08)
                (BridgeSegment.setHealthState 0 BridgeSegment.Broken s)).
  destruct (onSegmentBroken_fields e (target item)
              (onSegment (target item) f br)) as (E & _).
  cbv zeta in E.
  destruct (onSegmentBroken e (target item) (onSegment (target item) f br))
    as [br2 e2].
  cbn [fst snd] in *. cbn [onSegment setSegments segments] in E.
  split; [left; split; reflexivity|]. split.
  { intros j Hj. rewrite E, !updateAt_other by congruence. reflexivity. }
  split; [|intro H; discriminate H].
  intros s H. inversion H; subst s.
  eexists. split; [rewrite E, !updateAt_same, N; reflexivity|].
  set (s1 := f segment).
  set (s2 := BridgeSegment.makeDynamic ((rImpulse e - 0.5) * 0.5) (-0.3)
               ((rTorque e - 0.5) * 0.1) s1).
  assert (D1 : down s1 = true).
  { unfold s1, f. apply makeDynamic_down. reflexivity. }
  assert (D2 : down s2 = true) by (apply makeDynamic_down; exact D1).
  destruct (makeDynamic_facts ((r1 - 0.5) * 0.4) (-0.2) ((r2 - 0.5) * 0.08)
              (BridgeSegment.setHealthState 0 BridgeSegment.Broken segment))
    as (B1 & H1 & _).
  fold (f segment) in B1, H1. fold s1 in B1, H1.
  destruct (makeDynamic_facts ((rImpulse e - 0.5) * 0.5) (-0.3)
              ((rTorque e - 0.5) * 0.1) s1) as (B2 & H2 & _).
  fold s2 in B2, H2.
  destruct (breakJoints_frame s2) as (_ & H3 & K3).
  split; [rewrite breakJoints_box, B2, B1; reflexivity|].
  split; [intros _; rewrite breakJoints_down; exact D2|].
  split; [intro X; rewrite X in B; discriminate B|].
  intros _. split; [rewrite breakJoints_down; exact D2|].
  intros _. split.
  - rewrite H3, H2, H1. reflexivity.
  - rewrite K3. apply makeDynamic_loose.
Qed.

Lemma keeps_refl s : keeps s s.
Proof. repeat split; auto. Qed.

Lemma keeps_trans s1 s2 s3 : keeps s1 s2 -> keeps s2 s3 -> keeps s1 s3.
Proof.
  intros (B1 & D1 & K1) (B2 & D2 & K2). split; [congruence|]. split.
  - intro H. apply D2, D1, H.
  - intro H. rewrite <- (K1 H). apply K2. rewrite (K1 H). exact H.
Qed.

Lemma pick_cons {A} (f : bool) (flags : list bool) (a : A) (l : list A) :
  pick (f :: flags) (a :: l) = (if f then [a] else []) ++ pick flags l.
Proof. unfold pick. destruct f; reflexivity. Qed.

Lemma forceBreaks_facts currentTime envs : forall items k br kept log,
  let r := forceBreaks currentTime envs k items (br, kept, log) in
  let br' := fst (fst r) in
  (exists flags,
     length flags = length items /\
     snd (fst r) = kept ++ pick flags items /\
     Forall (stays currentTime br') (pick flags items)) /\
  (forall j s,
     nth_error (segments br) j = Some s ->
     exists s',
       nth_error (segments br') j = Some s' /\ keeps s s' /\
       ((forall item, In item items -> due currentTime item = true ->
                      target item <> j) -> s' = s) /\
       ((exists item, In item items /\ due currentTime item = true /\
                      target item = j) -> down s' = true)) /\
  (forall j, nth_error (segments br) j = None ->
             nth_error (segments br') j = None).
Proof.
  induction items as [|item rest IH]; intros k br kept log;
    cbn [forceBreaks]; cbv zeta.
  - cbn [fst snd]. split.
    + exists []. split; [reflexivity|]. unfold pick. cbn.
      rewrite app_nil_r. split; [reflexivity | constructor].
    + split; [|intros j H; exact H].
      intros j s H. exists s. split; [exact H|]. split; [apply keeps_refl|].
      split; [reflexivity|]. intros (item & [] & _).
  - destruct (envs k) as [[e r1] r2]. lazy beta iota zeta.
    pose proof (forceBreak_step currentTime e r1 r2 item br kept log) as St.
    cbv zeta in St.
    destruct (forceBreak currentTime e r1 r2 item (br, kept, log))
      as [[br1 kept1] log1].
    cbn [fst snd] in St. destruct St as (Kp & Oth & At & Non).
    specialize (IH (S k) br1 kept1 log1). cbv zeta in IH.
    destruct (forceBreaks currentTime envs (S k) rest (br1, kept1, log1))
      as [[br' kept'] log'].
    cbn [fst snd] in *. destruct IH as ((flags & Lf & Ek & Fs) & Seg & Nn).
    assert (Seg1 : forall j s,
               nth_error (segments br) j = Some s ->
               exists s1, nth_error (segments br1) j = Some s1 /\
                          keeps s s1 /\ (j <> target item -> s1 = s) /\
                          (due currentTime item = true -> j = target item ->
                           down s1 = true)).
    { intros j s H. destruct (Nat.eq_dec j (target item)) as [E|E].
      - subst j. destruct (At s H) as (s1 & N1 & B1 & D1 & K1 & Du).
        exists s1. split; [exact N1|]. split; [repeat split; assumption|].
        split; [intro X; contradiction|]. intros Hd _. apply Du. exact Hd.
      - exists s. rewrite (Oth j E). split; [exact H|].
        split; [apply keeps_refl|]. split; [reflexivity|].
        intros _ X. contradiction. }
    split; [|split].
    + destruct Kp as [(K1 & Hd)|(K1 & Eb & Why)].
      * exists (false :: flags). rewrite pick_cons. cbn [length app].
        split; [congruence|]. split; [congruence | exact Fs].
      * exists (true :: flags). rewrite pick_cons. cbn [length app].
        split; [congruence|]. split.
        -- rewrite Ek, K1, <- app_assoc. reflexivity.
        -- constructor; [|exact Fs]. subst br1.
           destruct Why as [W|[W|(s & W & Bs)]].
           ++ left. exact W.
           ++ right. left. apply Nn. exact W.
           ++ right. right. destruct (Seg _ s W) as (s' & N' & (_ & _ & K') & _).
              exists s'. split; [exact N'|]. rewrite (K' Bs). exact Bs.
    + intros j s H. destruct (Seg1 j s H) as (s1 & N1 & K1 & Same1 & Down1).
      destruct (Seg j s1 N1) as (s' & N' & K' & Same' & Down').
      exists s'. split; [exact N'|].
      split; [apply (keeps_trans _ _ _ K1 K')|]. split.
      * intro Hall.
        assert (E1 : s1 = s).
        { destruct (Nat.eq_dec j (target item)) as [E|E];
            [|apply Same1; exact E].
          destruct (due currentTime item) eqn:Hd.
          - exfalso. apply (Hall item (or_introl eq_refl) Hd).
            symmetry. exact E.
          - subst j. destruct Kp as [(_ & X)|(_ & Eb & _)];
              [congruence|]. subst br1. congruence. }
        rewrite <- E1. apply Same'. intros it Hin Hd.
        apply Hall; [right; exact Hin | exact Hd].
      * intros (it & [E|Hin] & Hd & Ht).
        -- subst it. destruct K' as (_ & D' & _). apply D'.
           apply Down1; [exact Hd | symmetry; exact Ht].
        -- apply Down'. exists it. repeat split; assumption.
    + intros j H. apply Nn.
      destruct (Nat.eq_dec j (target item)) as [E|E].
      * subst j. apply Non. exact H.
      * rewrite (Oth j E). exact H.
Qed.

(** X21: the destruction step of [Bridge.update] never lengthens the
    destruction sequence: what is left is what it held before, in order,
    less the items it carried out, and whatever the breaks it forced have
    scheduled meanwhile is dropped.  An item stays only when it is not due,
    or names no segment, or its segment is broken; after the step the
    segment of every due item is broken or dynamic; a segment no due item
    names is untouched, and so is every broken segment; no segment changes
    its rectangle or comes back up. *)
Theorem forced_breaks_are_carried_out :
  forall currentTime envs br,
    let br' := fst (processDestructionSequence currentTime envs br) in
    (exists flags,
       length flags = length (destructionSequence br) /\
       destructionSequence br' = pick flags (destructionSequence br) /\
       Forall (stays currentTime br') (destructionSequence br')) /\
    (length (destructionSequence br') <= length (destructionSequence br))%nat
    /\
    length (segments br') = length (segments br) /\
    (forall j s,
       nth_error (segments br) j = Some s ->
       exists s',
         nth_error (segments br') j = Some s' /\ keeps s s' /\
         ((forall item, In item (destructionSequence br) ->
                        due currentTime item = true -> target item <> j) ->
          s' = s) /\
         ((exists item, In item (destructionSequence br) /\
                        due currentTime item = true /\ target item = j) ->
          down s' = true)).
Proof.
  intros currentTime envs br. cbv zeta. unfold processDestructionSequence.
  pose proof (forceBreaks_facts currentTime envs (destructionSequence br) 0
                br [] []) as F.
  cbv zeta in F.
  destruct (forceBreaks currentTime envs 0 (destructionSequence br)
              (br, [], [])) as [[br1 kept] log].
  cbn [fst snd] in *. destruct F as ((flags & Lf & Ek & Fs) & Seg & Nn).
  cbn [app] in Ek.
  assert (S1 : segments (setDestructionSequence kept br1) = segments br1)
    by reflexivity.
  assert (Q1 : destructionSequence (setDestructionSequence kept br1) = kept)
    by reflexivity.
  rewrite S1, Q1. split; [|split; [|split]].
  - exists flags. split; [exact Lf|]. split; [exact Ek|].
    rewrite Ek. eapply Forall_impl; [|exact Fs].
    intros item H. exact H.
  - rewrite Ek. unfold pick. rewrite length_map.
    pose proof (List.filter_length_le fst
                  (combine flags (destructionSequence br))) as L.
    rewrite length_combine in L. lia.
  - destruct (Nat.lt_trichotomy (length (segments br1))
                (length (segments br))) as [L|[L|L]]; [|exact L|].
    + exfalso.
      destruct (nth_error (segments br) (length (segments br1))) eqn:E;
        [|apply nth_error_None in E; lia].
      destruct (Seg _ _ E) as (s' & N' & _).
      assert (X : nth_error (segments br1) (length (segments br1)) = None)
        by (apply nth_error_None; lia).
      congruence.
    + exfalso.
      assert (X : nth_error (segments br) (length (segments br)) = None)
        by (apply nth_error_None; lia).
      apply Nn in X. apply nth_error_None in X. lia.
  - exact Seg.
Qed.

(** The sample bridge with a break of segment 4 that is due: the forced
    break schedules the neighbours of segment 4, and the step leaves the
    sequence empty all the same. *)
Example forced_break_drops_what_it_schedules :
  let br := setDestructionSequence [mkScheduled 4 1500] sample in
  let br' := fst (processDestructionSequence 2000
                    (fun _ => (calm, 0.5, 0.5)) br) in
  destructionSequence br' = [] /\
  option_map BridgeSegment.state (nth_error (segments br') 4)
  = Some BridgeSegment.Dynamic /\
  map target (destructionSequence (fst (onSegmentBroken calm 4 br)))
  = [4%nat; 2%nat; 3%nat; 5%nat; 6%nat].
Proof. vm_compute. repeat split; reflexivity. Qed.

End BridgeMore.

(** ** Particle: the way to sleep *)

Section ParticleFacts.
Import Particle.

Lemma landOnSegment_facts p d :
  let p' := landOnSegment p d in
  (onGround p = true -> onGround p' = true) /\
  sleeping p' = sleeping p /\ settledTime p' = settledTime p /\
  doNotDraw p' = doNotDraw p /\ width p' = width p /\ height p' = height p.
Proof.
  destruct d as [segment swayOffset]. unfold landOnSegment.
  cbn [onGround sleeping settledTime doNotDraw width height].
  destruct (Qlt_bool _ _); repeat split; auto.
Qed.

Lemma slide_facts now p :
  let p' := slide now p in
  (onGround p' = onGround p /\ sleeping p' = sleeping p /\
   x p' = x p /\ y p' = y p) /\
  (doNotDraw p' = doNotDraw p /\ width p' = width p /\
   height p' = height p) /\
  (forall t0, settledTime p = Some t0 -> settledTime p' = Some t0) /\
  (settledTime p = None -> forall t0,
     settledTime p' = Some t0 ->
     t0 = now /\ velocityX p' = 0 /\ angularVelocity p' = 0).
Proof.
  unfold slide.
  cbn [onGround sleeping x y doNotDraw width height settledTime velocityX
       angularVelocity].
  split; [repeat split; reflexivity|]. split; [repeat split; reflexivity|].
  split.
  - intros t0 E. rewrite E. reflexivity.
  - intros E t0. rewrite E.
    assert (Z1 : Qlt_bool (Math_abs 0) 0.1 = true) by reflexivity.
    assert (Z2 : Qlt_bool (Math_abs 0) 0.01 = true) by reflexivity.
    destruct (Qlt_bool (Math_abs (velocityX p * friction p)) 0.1) eqn:A;
      destruct (Qlt_bool (Math_abs (angularVelocity p * friction p)) 0.01)
        eqn:B; rewrite ?Z1, ?Z2, ?A, ?B; cbn [andb];
      try discriminate.
    intro H. inversion H. repeat split; reflexivity.
Qed.

Lemma fly_facts w p :
  let p' := fly w p in
  (onGround p = true -> onGround p' = true) /\
  (sleeping p' = sleeping p /\ settledTime p' = settledTime p) /\
  (doNotDraw p' = doNotDraw p /\ width p' = width p /\
   height p' = height p) /\
  (currentCityId w <> 2%Z -> y p' + height p' <= innerHeight w * 0.85).
Proof.
  unfold fly.
  destruct (Qle_bool (innerHeight w * 0.85)
              (y p + (velocityY p + gravity p) + height p)) eqn:L;
    cbn [onGround sleeping settledTime doNotDraw width height y].
  - split; [destruct (Qlt_bool _ _); auto|].
    split; [split; reflexivity|]. split; [repeat split; reflexivity|].
    intro C. unfold landingY.
    assert (E : (currentCityId w =? 2)%Z = false)
      by (apply Z.eqb_neq; exact C).
    rewrite E. lra.
  - apply Qle_bool_false in L.
    split; [auto|]. split; [split; reflexivity|].
    split; [repeat split; reflexivity|]. intros _. lra.
Qed.

Lemma particle_boundary_facts w p :
  let p' := boundary w p in
  (onGround p = true -> onGround p' = true) /\
  (sleeping p = true -> sleeping p' = true) /\
  (sleeping p' = true -> sleeping p = false -> onGround p' = true) /\
  settledTime p' = settledTime p /\
  (doNotDraw p' = doNotDraw p /\ width p' = width p /\
   height p' = height p) /\
  (x p' = x p /\ y p' = y p).
Proof.
  unfold boundary.
  destruct (_ || _);
    cbn [onGround sleeping settledTime doNotDraw width height x y];
    repeat split; auto.
  intros H1 H2. congruence.
Qed.

(** One call of [update] on a particle. *)
Lemma particle_update_facts now w p :
  let p' := update now w p in
  (onGround p = true -> onGround p' = true) /\
  (sleeping p = true -> sleeping p' = true) /\
  (forall t0, settledTime p = Some t0 -> settledTime p' = Some t0) /\
  (settledTime p = None -> forall t0,
     settledTime p' = Some t0 ->
     t0 = now /\ onGround p = true /\ velocityX p' = 0 /\
     angularVelocity p' = 0) /\
  (doNotDraw p' = doNotDraw p /\ width p' = width p /\
   height p' = height p) /\
  (currentCityId w <> 2%Z -> onGround p = true ->
   x p' = x p /\ y p' = y p) /\
  (currentCityId w <> 2%Z -> onGround p = false ->
   y p' + height p' <= innerHeight w * 0.85).
Proof.
  cbv zeta.
  assert (On : let p' := if onGround p then slide now p
                         else boundary w (fly w p) in
               (onGround p = true -> onGround p' = true) /\
               (sleeping p = true -> sleeping p' = true) /\
               (forall t0, settledTime p = Some t0 ->
                           settledTime p' = Some t0) /\
               (settledTime p = None -> forall t0,
                  settledTime p' = Some t0 ->
                  t0 = now /\ onGround p = true /\ velocityX p' = 0 /\
                  angularVelocity p' = 0) /\
               (doNotDraw p' = doNotDraw p /\ width p' = width p /\
                height p' = height p) /\
               (onGround p = true -> x p' = x p /\ y p' = y p) /\
               (currentCityId w <> 2%Z -> onGround p = false ->
                y p' + height p' <= innerHeight w * 0.85)).
  { cbv zeta. destruct (onGround p) eqn:G.
    - destruct (slide_facts now p) as ((A1 & A2 & A3 & A4) & B & C & D).
      cbv zeta in *.
      split; [intros _; congruence|]. split; [intro; congruence|].
      split; [exact C|]. split.
      + intros E t0 H. destruct (D E t0 H) as (D1 & D2 & D3).
        repeat split; assumption.
      + split; [exact B|]. split; [intros _; split; assumption|].
        intros _ X. discriminate X.
    - destruct (fly_facts w p) as (F1 & (F2 & F3) & (F4 & F5 & F6) & F7).
      destruct (particle_boundary_facts w (fly w p))
        as (B1 & B2 & _ & B3 & (B4 & B5 & B6) & (B7 & B8)).
      cbv zeta in *.
      split; [intro X; discriminate X|].
      split; [intro X; apply B2; congruence|].
      split; [intros t0 E; congruence|]. split.
      + intros E t0 H. rewrite B3, F3, E in H. discriminate H.
      + split; [repeat split; congruence|].
        split; [intro X; discriminate X|].
        intros C _. rewrite B8, B6. apply F7. exact C. }
  cbv zeta in On. destruct On as (O1 & O2 & O3 & O4 & O5 & O6 & O7).
  unfold update.
  destruct (currentCityId w =? 2)%Z eqn:C.
  - apply Z.eqb_eq in C.
    destruct (find (rests p) (decks w)) as [d|].
    + destruct (landOnSegment_facts p d) as (L1 & L2 & L3 & L4 & L5 & L6).
      cbv zeta in *.
      split; [exact L1|]. split; [intro; congruence|].
      split; [intros t0 E; congruence|]. split.
      * intros E t0 H. rewrite L3, E in H. discriminate H.
      * split; [repeat split; assumption|].
        split; intros X; contradiction.
    + split; [exact O1|]. split; [exact O2|]. split; [exact O3|].
      split; [exact O4|]. split; [exact O5|].
      split; intros X; contradiction.
  - split; [exact O1|]. split; [exact O2|]. split; [exact O3|].
    split; [exact O4|]. split; [exact O5|].
    split; [intros _; exact O6 | exact O7].
Qed.

(** X22: one step of the game loop on a particle only moves its lifecycle
    forward: a particle on the ground stays on the ground, a sleeping one is
    not touched, a settled time once set is kept, and it is set only for a
    particle on the ground whose sideways and angular velocity have just
    been cut to 0; a particle that goes to sleep is on the ground; the step
    never changes [doNotDraw] or the size.  Where there is no bridge (any
    city but 2) a particle on the ground stays where it is and a particle in
    flight ends no lower than the ground line.  A particle on the ground
    that settled more than [SLEEP_DELAY] ago is put to sleep, and is then
    one of the sleepers the cap of the particle array looks for. *)
Theorem particle_lifecycle_only_advances :
  forall now now' w p,
    let p' := tick now now' w p in
    (onGround p = true -> onGround p' = true) /\
    (sleeping p = true -> p' = p) /\
    (sleeping p' = true -> sleeping p = false -> onGround p' = true) /\
    (forall t0, settledTime p = Some t0 -> settledTime p' = Some t0) /\
    (settledTime p = None -> forall t0,
       settledTime p' = Some t0 ->
       t0 = now' /\ onGround p = true /\ velocityX p' = 0 /\
       angularVelocity p' = 0) /\
    (doNotDraw p' = doNotDraw p /\ width p' = width p /\
     height p' = height p) /\
    (currentCityId w <> 2%Z -> onGround p = true ->
     x p' = x p /\ y p' = y p) /\
    (currentCityId w <> 2%Z -> onGround p = false -> sleeping p = false ->
     y p' + height p' <= innerHeight w * 0.85) /\
    (forall t0,
       onGround p = true -> sleeping p = false ->
       settledTime p = Some t0 -> SLEEP_DELAY < now - t0 ->
       sleeping p' = true /\ Pool.isSleeper (flags p') = true).
Proof.
  intros now now' w p. cbv zeta. unfold tick.
  destruct (particle_update_facts now' w p)
    as (U1 & U2 & U3 & U4 & U5 & U6 & U7).
  cbv zeta in *.
  assert (Fresh : sleeping (update now' w p) = true -> sleeping p = false ->
                  onGround (update now' w p) = true).
  { unfold update.
    assert (On : sleeping (if onGround p then slide now' p
                           else boundary w (fly w p)) = true ->
                 sleeping p = false ->
                 onGround (if onGround p then slide now' p
                           else boundary w (fly w p)) = true).
    { destruct (onGround p) eqn:G.
      - destruct (slide_facts now' p) as ((A1 & A2 & _) & _).
        cbv zeta in *. intros _ _. congruence.
      - destruct (particle_boundary_facts w (fly w p)) as (_ & _ & B & _).
        destruct (fly_facts w p) as (_ & (F & _) & _).
        cbv zeta in *. intros H1 H2. apply B; [exact H1 | congruence]. }
    destruct (currentCityId w =? 2)%Z; [|exact On].
    destruct (find (rests p) (decks w)) as [d|]; [|exact On].
    destruct (landOnSegment_facts p d) as (_ & L & _). cbv zeta in L.
    intros H1 H2. congruence. }
  destruct (settledTime p) as [t1|] eqn:T.
  - destruct (onGround p && negb (sleeping p)
              && Qlt_bool SLEEP_DELAY (now - t1)) eqn:C.
    + apply andb_prop in C. destruct C as [C C3].
      apply andb_prop in C. destruct C as [C1 C2].
      apply negb_true_iff in C2. apply Qlt_bool_iff in C3.
      cbn [sleeping negb onGround settledTime doNotDraw width height x y].
      split; [intro H; exact H|]. split; [intro H; congruence|].
      split; [intros _ _; exact C1|]. split; [intros t0 H; congruence|].
      split; [intro H; discriminate H|].
      split; [repeat split; reflexivity|].
      split; [intros _ _; split; reflexivity|].
      split; [intros _ H; congruence|].
      intros t0 _ _ _ _. split; [reflexivity|]. unfold Pool.isSleeper, flags.
      reflexivity.
    + destruct (sleeping p) eqn:S; cbn [negb].
      * split; [intro H; exact H|]. split; [reflexivity|].
        split; [intros _ H; discriminate H|].
        split; [intros t0 H; congruence|]. split; [intro H; discriminate H|].
        split; [repeat split; reflexivity|].
        split; [intros _ _; split; reflexivity|].
        split; [intros _ _ H; discriminate H|].
        intros t0 _ H. discriminate H.
      * split; [exact U1|]. split; [intro H; discriminate H|].
        split; [intros H _; apply Fresh; [exact H | reflexivity]|].
        split; [intros t0 H; rewrite <- H; apply U3; reflexivity|].
        split; [intro H; discriminate H|]. split; [exact U5|].
        split; [exact U6|]. split; [intros Hc H _; apply U7; assumption|].
        intros t0 G _ E L. inversion E; subst t0. rewrite G in C. cbn in C.
        apply Qlt_bool_iff in L. congruence.
  - destruct (sleeping p) eqn:S; cbn [negb].
    + split; [intro H; exact H|]. split; [reflexivity|].
      split; [intros _ H; discriminate H|].
      split; [intros t0 H; discriminate H|].
      split; [intros _ t0 H; congruence|].
      split; [repeat split; reflexivity|].
      split; [intros _ _; split; reflexivity|].
      split; [intros _ _ H; discriminate H|].
      intros t0 _ H. discriminate H.
    + split; [exact U1|]. split; [intro H; discriminate H|].
      split; [intros H _; apply Fresh; [exact H | reflexivity]|].
      split; [intros t0 H; discriminate H|].
      split; [intros _; apply U4; reflexivity|]. split; [exact U5|].
      split; [exact U6|]. split; [intros Hc H _; apply U7; assumption|].
      intros t0 _ _ H. discriminate H.
Qed.






End ParticleFacts.

(** ** Meteor: the flight *)

Section MeteorFacts.
Import Meteor.
Variable sqrt : Q -> Q.

Lemma ratio_reaches_one (a c : Q) :
  0 < c ->
  (Qle_bool 1 (Math_min 1 (a / c)) = true <-> c <= a) /\
  (c <= a -> Math_min 1 (a / c) == 1) /\
  (a < c -> Math_min 1 (a / c) == a / c).
Proof.
  intro Hc. unfold Math_min.
  assert (E : a / c * c == a) by (field; intro Z; lra).
  set (q := a / c) in *.
  assert (Ge : c <= a -> 1 <= q).
  { intro H. destruct (Qlt_le_dec q 1) as [L|L]; [nra | exact L]. }
  assert (Lt : a < c -> q < 1).
  { intro H. destruct (Qlt_le_dec q 1) as [L|L]; [exact L | nra]. }
  split; [|split].
  - rewrite Qle_bool_iff. split; intro H.
    + apply Q.min_glb_r in H. nra.
    + apply Q.min_glb; [lra | apply Ge; exact H].
  - intro H. apply Q.min_l. apply Ge. exact H.
  - intro H. apply Q.min_r. apply Qlt_le_weak. apply Lt. exact H.
Qed.

Lemma meteor_explode_facts now draws envs fires m w :
  exploded m = false ->
  let r := explode sqrt now draws envs fires m w in
  exploded (fst r) = true /\ x (fst r) = x m /\ y (fst r) = y m /\
  trail (fst r) = trail m /\
  screenShakeIntensity (snd r) = 15 /\
  In (PushExplosion (targetX m) (targetY m) 120) (log (snd r)) /\
  length (buildings (snd r)) = length (buildings w).
Proof.
  intro E. unfold explode. rewrite E.
  pose proof (forEachBuilding_length
                (fun i => hitBuilding sqrt (targetX m) (targetY m) now
                            (draws i)) (buildings w) 0) as L.
  destruct (forEachBuilding _ 0 (buildings w)) as [bs e1].
  destruct (if (currentCityId w =? 2)%Z then _ else _) as [ss e2].
  cbn [fst snd exploded x y trail screenShakeIntensity log buildings] in *.
  repeat split; try reflexivity; [|exact L].
  apply in_or_app. right. left. reflexivity.
Qed.

Lemma pushTrail_length point l :
  (length l <= 15)%nat -> (length (pushTrail point l) <= 15)%nat.
Proof.
  intro H. unfold pushTrail.
  destruct (15 <? length (l ++ [point]))%nat eqn:C.
  - destruct l as [|a rest]; cbn [app tl length] in *; [lia|].
    rewrite length_app. cbn [length]. lia.
  - apply Nat.ltb_ge in C. exact C.
Qed.

(** X24: a meteor is made with a travel time between 400 and 900 ms and
    strikes are refused once [MAX_METEORS] meteors are in flight.  One
    [update] of a meteor that has not exploded puts it on the line from its
    start to its target, at the fraction of the travel time that has
    passed, and leaves the world alone, until the travel time is up: the
    first update at or after that moment puts it on the target and explodes
    it there, with a screen shake of 15; the trail never holds more than 15
    points, and an exploded meteor is not touched. *)
Theorem meteor_flight :
  forall now now' draws envs fires m w,
    0 < travelTime m -> exploded m = false ->
    let r := update sqrt now now' draws envs fires m w in
    let elapsed := now - startTime m in
    (exploded (fst r) = true <-> travelTime m <= elapsed) /\
    (travelTime m <= elapsed ->
     x (fst r) == targetX m /\ y (fst r) == targetY m /\
     screenShakeIntensity (snd r) = 15 /\
     In (PushExplosion (targetX m) (targetY m) 120) (log (snd r)) /\
     update sqrt now now' draws envs fires (fst r) (snd r) = r) /\
    (elapsed < travelTime m ->
     snd r = w /\
     x (fst r) == startX m + (targetX m - startX m) * (elapsed / travelTime m)
     /\
     y (fst r)
     == startY m + (targetY m - startY m) * (elapsed / travelTime m)) /\
    ((length (trail m) <= 15)%nat -> (length (trail (fst r)) <= 15)%nat) /\
    (forall rSide launch tx ty meteors,
       let fresh := new sqrt rSide launch w tx ty in
       400 <= travelTime fresh /\ travelTime fresh <= 900 /\
       exploded fresh = false /\ targetX fresh = tx /\ targetY fresh = ty /\
       ((length meteors <= MAX_METEORS)%nat ->
        (length (createMeteorStrike sqrt rSide launch w tx ty meteors)
         <= MAX_METEORS)%nat)).
Proof.
  intros now now' draws envs fires m w Ht E. cbv zeta.
  destruct (ratio_reaches_one (now - startTime m) (travelTime m) Ht)
    as (R1 & R2 & R3).
  set (progress := Math_min 1 ((now - startTime m) / travelTime m)) in *.
  set (m1 := {| startX := startX m; startY := startY m;
                targetX := targetX m; targetY := targetY m;
                travelTime := travelTime m; startTime := startTime m;
                x := startX m + (targetX m - startX m) * progress;
                y := startY m + (targetY m - startY m) * progress;
                exploded := false;
                trail := pushTrail
                           (mkTrailPoint
                              (startX m + (targetX m - startX m) * progress)
                              (startY m + (targetY m - startY m) * progress)
                              (now - startTime m)) (trail m) |}).
  assert (U : update sqrt now now' draws envs fires m w
              = if Qle_bool 1 progress
                then explode sqrt now' draws envs fires m1 w else (m1, w)).
  { unfold update. rewrite E. reflexivity. }
  assert (E1 : exploded m1 = false) by reflexivity.
  destruct (meteor_explode_facts now' draws envs fires m1 w E1)
    as (X1 & X2 & X3 & X4 & X5 & X6 & _).
  cbv zeta in *. rewrite U. clear U.
  destruct (Qle_bool 1 progress) eqn:P.
  - assert (Le : travelTime m <= now - startTime m) by (apply R1; reflexivity).
    split; [split; [intros _; exact Le | intros _; exact X1]|].
    split.
    + intros _. rewrite X2, X3. cbn [x y m1].
      rewrite (R2 Le). split; [ring|]. split; [ring|].
      split; [exact X5|]. split; [exact X6|].
      unfold update. rewrite X1. destruct (explode _ _ _ _ _ _ _); reflexivity.
    + split; [intro H; lra|]. split.
      * intro H. rewrite X4. apply pushTrail_length. exact H.
      * intros rSide launch tx ty meteors. cbv zeta.
        split; [unfold new, Math_max; cbn [travelTime]; apply Q.le_max_l|].
        split.
        { unfold new, Math_max, Math_min. cbn [travelTime].
          apply Q.max_lub; [lra | apply Q.le_min_l]. }
        repeat split. intro H. unfold createMeteorStrike.
        destruct (MAX_METEORS <=? length meteors)%nat eqn:C; [exact H|].
        apply Nat.leb_gt in C. rewrite length_app. cbn [length]. lia.
  - assert (Lt : now - startTime m < travelTime m).
    { destruct (Qlt_le_dec (now - startTime m) (travelTime m)) as [L|L];
        [exact L|]. apply R1 in L. congruence. }
    cbn [fst snd].
    split; [split; [intro H; congruence | intro H; lra]|].
    split; [intro H; lra|]. split.
    + intros _. split; [reflexivity|]. cbn [x y m1]. rewrite (R3 Lt).
      split; reflexivity.
    + split.
      * intro H. cbn [trail m1]. apply pushTrail_length. exact H.
      * intros rSide launch tx ty meteors. cbv zeta.
        split; [unfold new, Math_max; cbn [travelTime]; apply Q.le_max_l|].
        split.
        { unfold new, Math_max, Math_min. cbn [travelTime].
          apply Q.max_lub; [lra | apply Q.le_min_l]. }
        repeat split. intro H. unfold createMeteorStrike.
        destruct (MAX_METEORS <=? length meteors)%nat eqn:C; [exact H|].
        apply Nat.leb_gt in C. rewrite length_app. cbn [length]. lia.
Qed.

End MeteorFacts.

(** ** The layout of city 1 *)

Section CityFacts.
Import City.

Lemma buildingHeight_range d :
  0 <= rHeight d -> rHeight d < 1 ->
  100 <= buildingHeight d /\ buildingHeight d < 450.
Proof.
  intros H0 H1. unfold buildingHeight.
  destruct (Qlt_bool (heightRoll d) 0.3); [split; lra|].
  destruct (Qlt_bool (heightRoll d) 0.7); split; lra.
Qed.

Lemma row_facts draws groundY limit slack :
  0 <= slack ->
  (forall k, (0 <= rWidth (draws k) /\ rWidth (draws k) < 1) /\
             (0 <= rHeight (draws k) /\ rHeight (draws k) < 1) /\
             (0 <= rGap (draws k) /\ rGap (draws k) < 1) /\
             0 <= c1 (draws k) /\ 0 <= c2 (draws k) /\ c2 (draws k) < 1) ->
  forall fuel k oid currentX,
    limit - currentX < 35 * num fuel ->
    exists bs next,
      row (S fuel) draws k oid groundY limit slack currentX
      = Some (bs, next) /\
      (k + length bs <= next <= k + length bs + 1)%nat /\
      Forall (placed groundY currentX (limit + slack)) bs /\
      StronglySorted apart bs /\
      map Building.oid bs = seq oid (length bs).
Proof.
  intros Hs R. induction fuel as [|f IH]; intros k oid currentX Hf.
  - change (num 0) with 0 in Hf. exists [], k. cbn [row].
    assert (L : Qlt_bool currentX limit = false)
      by (apply Qlt_bool_false; lra).
    rewrite L. cbn [length].
    split; [reflexivity|]. split; [lia|]. repeat split; constructor.
  - change (row (S (S f)) draws k oid groundY limit slack currentX)
      with (if Qlt_bool currentX limit
            then
              if Qlt_bool (limit + slack)
                   (currentX + (30 + rWidth (draws k) * 50))
              then Some ([], S k)
              else
                match row (S f) draws (S k) (S oid) groundY limit slack
                        (currentX + (30 + rWidth (draws k) * 50)
                         + (5 + rGap (draws k) * 15)) with
                | Some (rest, next) =>
                    Some (Building.new oid currentX
                            (groundY - buildingHeight (draws k))
                            (30 + rWidth (draws k) * 50)
                            (buildingHeight (draws k))
                            (c1 (draws k)) (c2 (draws k)) (c3 (draws k))
                            (c4 (draws k)) :: rest, next)
                | None => None
                end
            else Some ([], k)).
    destruct (Qlt_bool currentX limit) eqn:L.
    2:{ exists [], k. cbn [length].
        split; [reflexivity|]. split; [lia|]. repeat split; constructor. }
    apply Qlt_bool_iff in L.
    destruct (R k) as ((W0 & W1) & (H0 & H1) & (G0 & G1) & C1 & C2 & C2').
    destruct (Qlt_bool (limit + slack)
                (currentX + (30 + rWidth (draws k) * 50))) eqn:B.
    { exists [], (S k). cbn [length].
      split; [reflexivity|]. split; [lia|]. repeat split; constructor. }
    apply Qlt_bool_false in B.
    destruct (IH (S k) (S oid)
                (currentX + (30 + rWidth (draws k) * 50)
                 + (5 + rGap (draws k) * 15)))
      as (rest & next & E & Nx & P & S & O).
    { rewrite num_succ in Hf. lra. }
    rewrite E. eexists. exists next. split; [reflexivity|].
    destruct (buildingHeight_range (draws k) H0 H1) as [Hh0 Hh1].
    split; [cbn [length]; lia|].
    split; [|split].
    + constructor.
      * unfold placed. cbn [Building.new Building.x Building.y Building.width
                              Building.height].
        split; [ring|]. split; [lra|]. split; [exact B|].
        split; [split; lra|]. split; [split; assumption|].
        apply new_Inv; assumption.
      * eapply Forall_impl; [|exact P]. intros b (Q1 & Q2 & Q3 & Q4).
        split; [exact Q1|]. split; [lra|]. split; [exact Q3 | exact Q4].
    + constructor; [exact S|].
      eapply Forall_impl; [|exact P]. intros b (_ & Q2 & _).
      unfold apart. cbn [Building.new Building.x Building.width]. lra.
    + cbn [map length seq Building.new Building.oid]. rewrite O.
      reflexivity.
Qed.

Lemma sorted_nth {A} (R : A -> A -> Prop) : forall l i j a b,
  StronglySorted R l -> (i < j)%nat ->
  nth_error l i = Some a -> nth_error l j = Some b -> R a b.
Proof.
  induction l as [|c rest IH]; intros i j a b S Lt Ha Hb.
  - destruct i; discriminate Ha.
  - inversion S as [|? ? Sr Hall]; subst.
    destruct j as [|j]; [lia|]. cbn [nth_error] in Hb.
    destruct i as [|i]; cbn [nth_error] in Ha.
    + inversion Ha; subst c. rewrite Forall_forall in Hall.
      apply Hall. apply (nth_error_In _ _ Hb).
    + apply (IH i j a b Sr); [lia | exact Ha | exact Hb].
Qed.

(** X25: with draws in [0, 1) the two loops that lay out city 1 end (within
    [fuel] rounds once [0.35 width < 35 fuel]) and give a left row inside
    [0, 0.35 width] and a right row inside [0.65 width, width + 30]; every
    building stands on the ground line, is 30 to 80 wide and 100 to 450
    high, and satisfies the invariant of [Building]; from left to right
    each building begins at least 5 beyond the end of every building before
    it, so no two buildings intersect; and the buildings are distinct
    objects. *)
Theorem city1_layout :
  forall fuel draws width height,
    (forall k, (0 <= rWidth (draws k) /\ rWidth (draws k) < 1) /\
               (0 <= rHeight (draws k) /\ rHeight (draws k) < 1) /\
               (0 <= rGap (draws k) /\ rGap (draws k) < 1) /\
               0 <= c1 (draws k) /\ 0 <= c2 (draws k) /\ c2 (draws k) < 1) ->
    width * 0.35 < 35 * num fuel ->
    exists leftRow rightRow,
      buildCityLayout1 (S fuel) draws width height
      = Some (leftRow ++ rightRow) /\
      Forall (placed (height * 0.85) 0 (width * 0.35)) leftRow /\
      Forall (placed (height * 0.85) (width * 0.65) (width + 30)) rightRow /\
      StronglySorted apart (leftRow ++ rightRow) /\
      NoDup (map Building.oid (leftRow ++ rightRow)) /\
      (forall i j a b,
         (i < j)%nat ->
         nth_error (leftRow ++ rightRow) i = Some a ->
         nth_error (leftRow ++ rightRow) j = Some b ->
         Building.intersects (Building.x b) (Building.y b)
           (Building.width b) (Building.height b) a = false /\
         Building.intersects (Building.x a) (Building.y a)
           (Building.width a) (Building.height a) b = false).
Proof.
  intros fuel draws width height R F.
  assert (Z0 : 0 <= 0) by lra. assert (Z30 : 0 <= 30) by lra.
  destruct (row_facts draws (height * 0.85) (width * 0.35) 0 Z0 R fuel
              0%nat 0%nat 0)
    as (leftRow & next & E1 & _ & P1 & S1 & O1); [lra|].
  destruct (row_facts draws (height * 0.85) width 30 Z30 R fuel
              next (length leftRow) (width * 0.65))
    as (rightRow & next' & E2 & _ & P2 & S2 & O2); [lra|].
  exists leftRow, rightRow.
  assert (P1' : Forall (placed (height * 0.85) 0 (width * 0.35)) leftRow).
  { eapply Forall_impl; [|exact P1]. intros b (Q1 & Q2 & Q3 & Q4).
    split; [exact Q1|]. split; [exact Q2|]. split; [lra | exact Q4]. }
  assert (S : StronglySorted apart (leftRow ++ rightRow)).
  { clear E1 O1 E2 O2. induction leftRow as [|a rest IH]; [exact S2|].
    inversion S1 as [|? ? Sr Hall]; subst.
    inversion P1' as [|? ? Pa Pr]; subst.
    inversion P1 as [|? ? Pa0 Pr0]; subst.
    cbn [app]. constructor; [apply IH; assumption|].
    apply Forall_app. split; [exact Hall|].
    eapply Forall_impl; [|exact P2]. intros b (_ & Q2 & _).
    destruct Pa as (_ & A2 & A3 & (A4 & _) & _). unfold apart. lra. }
  split.
  { unfold buildCityLayout1. rewrite E1, E2. reflexivity. }
  split; [exact P1'|]. split; [exact P2|]. split; [exact S|]. split.
  { rewrite map_app, O1, O2, <- seq_app. apply seq_NoDup. }
  intros i j a b Lt Ha Hb.
  pose proof (sorted_nth apart _ i j a b S Lt Ha Hb) as Ap.
  unfold apart in Ap.
  assert (Wa : 30 <= Building.width a /\ 30 <= Building.width b).
  { assert (In_ : forall c, In c (leftRow ++ rightRow) ->
                            30 <= Building.width c).
    { intros c Hc. apply in_app_or in Hc. rewrite Forall_forall in P1', P2.
      destruct Hc as [Hc|Hc];
        [destruct (P1' c Hc) as (_ & _ & _ & (W & _) & _)
        |destruct (P2 c Hc) as (_ & _ & _ & (W & _) & _)]; exact W. }
    split; apply In_; eapply nth_error_In; eassumption. }
  destruct Wa as [Wa Wb]. unfold Building.intersects. split.
  - assert (X : Qlt_bool (Building.x b) (Building.x a + Building.width a)
                = false) by (apply Qlt_bool_false; lra).
    rewrite X. reflexivity.
  - assert (X : Qlt_bool (Building.x b) (Building.x a + Building.width a)
                = false) by (apply Qlt_bool_false; lra).
    rewrite X, andb_false_r. reflexivity.
Qed.

End CityFacts.

(** ** The theorems above at concrete inputs *)

Lemma nuclear_explode_frame_witness :
  let r := NuclearBomb.explode sqrt6 400 1000 (fun _ => NuclearBomb.calm)
             (fun _ _ => Bridge.calm) [] NuclearBomb.overCentre
             NuclearBomb.oneBuilding in
  NuclearBomb.exploded (fst r) = true /\
  length (buildings (snd r)) = 1%nat /\
  20 <= screenShakeIntensity (snd r).
Proof.
  assert (I : Forall Building.Inv (buildings NuclearBomb.oneBuilding))
    by (constructor; [exact sample_Inv | constructor]).
  destruct (nuclear_explode_frame sqrt6 400 1000 (fun _ => NuclearBomb.calm)
              (fun _ _ => Bridge.calm) [] NuclearBomb.overCentre
              NuclearBomb.oneBuilding eq_refl I)
    as (A & _ & B & _ & _ & C & _).
  split; [exact A|]. split; [exact B | exact C].
Defined.

Lemma bomb_falls_until_it_explodes_witness :
  let r := NuclearBomb.updates sqrt6 (fun n => num n * 16)
             (fun _ _ => NuclearBomb.calm) (fun _ _ _ => Bridge.calm)
             (fun _ => []) 40 (NuclearBomb.new 500 (-50))
             NuclearBomb.oneBuilding in
  NuclearBomb.exploded (fst r) = true /\ NuclearBomb.x (fst r) = 500.
Proof.
  destruct (bomb_falls_until_it_explodes sqrt6 (fun n => num n * 16)
              (fun _ _ => NuclearBomb.calm) (fun _ _ _ => Bridge.calm)
              (fun _ => []) 39 (NuclearBomb.new 500 (-50))
              NuclearBomb.oneBuilding) as (_ & A & _ & B).
  split; [|exact B]. apply A. vm_compute. discriminate.
Defined.

Lemma createNukeStrike_adds_six_to_ten_witness :
  exists added,
    NuclearBomb.createNukeStrike 0.5 (fun _ => 0.25) 500 [] = added /\
    length added = 8%nat.
Proof.
  destruct (createNukeStrike_adds_six_to_ten 0.5 (fun _ => 0.25) 500 [])
    as (added & A & L & _).
  - vm_compute. discriminate.
  - vm_compute. reflexivity.
  - intro j. split; [vm_compute; discriminate | vm_compute; reflexivity].
  - exists added. split; [exact A | exact L].
Defined.

Lemma bombs_stay_within_cap_witness :
  let struck := NuclearBomb.createNukeStrike 0.5 (fun _ => 0.25) 500 [] in
  (length struck <= NuclearBomb.MAX_BOMBS)%nat.
Proof.
  assert (H : (length (@nil NuclearBomb.t) <= NuclearBomb.MAX_BOMBS)%nat)
    by (unfold NuclearBomb.MAX_BOMBS; simpl; lia).
  exact (proj1 (bombs_stay_within_cap sqrt6 0.5 (fun _ => 0.25) 500 1000
                  (fun _ _ => NuclearBomb.calm) (fun _ _ _ => Bridge.calm)
                  (fun _ => []) [] NuclearBomb.oneBuilding H)).
Defined.

Lemma sticky_update_stays_above_ground_witness :
  let b := StickyBomb.new 500 674 None 0 0 None 0 in
  let b' := StickyBomb.update 1000 800 [] b in
  StickyBomb.y b' == 674 /\ StickyBomb.onGround b' = true /\
  StickyBomb.isArmed b' = true.
Proof.
  assert (G : 0 <= StickyBomb.gravity (StickyBomb.new 500 674 None 0 0 None 0))
    by (vm_compute; discriminate).
  destruct (sticky_update_stays_above_ground 1000 800 []
              (StickyBomb.new 500 674 None 0 0 None 0) G)
    as (_ & _ & _ & R & _).
  destruct (R eq_refl eq_refl eq_refl) as (Y & _ & O & _);
    [vm_compute; reflexivity | vm_compute; reflexivity |].
  split; [exact Y|]. split; [exact O | reflexivity].
Defined.

Lemma sticky_follows_its_building_witness :
  let b := StickyBomb.new 110 350 (Some 0%nat) 10 50
             (Some (Building.oid Building.sample)) 0 in
  let b' := StickyBomb.update 1000 800 [Building.sample] b in
  StickyBomb.x b' = Building.x Building.sample + 10 /\
  StickyBomb.y b' = Building.y Building.sample + 50 /\
  StickyBomb.attachedTo b' = Some 0%nat.
Proof.
  pose proof (sticky_follows_its_building 1000 800 [Building.sample]
                (StickyBomb.new 110 350 (Some 0%nat) 10 50
                   (Some (Building.oid Building.sample)) 0)
                (Building.oid Building.sample) 0%nat
                eq_refl eq_refl eq_refl) as P.
  cbv zeta in P.
  change (StickyBomb.lookupRef (Building.oid Building.sample)
            [Building.sample]) with (Some Building.sample) in P.
  destruct P as (_ & _ & P).
  change (StickyBomb.alive Building.sample) with true in P.
  destruct P as (X & Y & A & _).
  split; [exact X|]. split; [exact Y | exact A].
Defined.

Lemma placed_bomb_sits_on_the_click_witness :
  exists bomb,
    StickyBomb.placeStickyBomb 0 800 110 350 [Building.sample] []
    = StickyBomb.retire [] ++ [bomb] /\
    StickyBomb.isArmed bomb = true.
Proof.
  assert (ND : NoDup (map Building.oid [Building.sample]))
    by (repeat constructor; intros []).
  destruct (placed_bomb_sits_on_the_click 0 1000 800 110 350
              [Building.sample] [] ND) as (bomb & E & A & _).
  exists bomb. split; [exact E | exact A].
Defined.

Lemma screen_shake_dies_out_witness :
  let s := Screen.mkShake 0 0 20 in
  let s' := Screen.shakeFrames (fun _ => 0.25) (fun _ => 0.75) 60 s in
  Screen.intensity s' == 0 /\ Screen.intensity s' <= 20.
Proof.
  assert (H0 : 0 <= Screen.intensity (Screen.mkShake 0 0 20))
    by (vm_compute; discriminate).
  assert (R : forall k : nat,
            0 <= (fun _ : nat => 0.25) k /\ (fun _ : nat => 0.25) k <= 1 /\
            0 <= (fun _ : nat => 0.75) k /\ (fun _ : nat => 0.75) k <= 1)
    by (intro k; repeat split; vm_compute; discriminate).
  destruct (screen_shake_dies_out (fun _ => 0.25) (fun _ => 0.75) 60
              (Screen.mkShake 0 0 20) H0 R) as ((_ & A) & _ & _ & B).
  split; [|exact A]. apply B; [vm_compute; discriminate | lia].
Defined.

Lemma screen_flash_dies_out_witness :
  Screen.active (Screen.flashFrames 30 Screen.nuclearFlash) = false.
Proof.
  assert (H0 : 0 <= Screen.flashIntensity Screen.nuclearFlash)
    by (vm_compute; discriminate).
  destruct (screen_flash_dies_out 30 Screen.nuclearFlash H0)
    as (_ & _ & _ & _ & A & _).
  apply A; [vm_compute; discriminate | lia].
Defined.

Lemma addDisturbance_spreads_witness :
  let w := WaterWaveSystem.new 300 400 700 in
  let w' := WaterWaveSystem.addDisturbance 500 4 w in
  WaterWaveSystem.total (WaterWaveSystem.velocities w')
  == WaterWaveSystem.total (WaterWaveSystem.velocities w) + 4 * (1 + 0.5 + 0.5).
Proof.
  destruct (addDisturbance_spreads 500 4 (WaterWaveSystem.new 300 400 700)
              eq_refl) as (_ & _ & A & _).
  destruct A as (T & _).
  - vm_compute. discriminate.
  - vm_compute. split; [discriminate | reflexivity].
  - exact T.
Defined.

Lemma cable_cascade_schedule_witness :
  exists added,
    Bridge.cableBreakSequence
      (Bridge.onCableBroken Bridge.calm 5 None Bridge.cabled)
    = Bridge.cableBreakSequence Bridge.cabled ++ added /\
    NoDup (map fst added).
Proof.
  destruct (cable_cascade_schedule Bridge.calm 5 None Bridge.cabled)
    as (added & A & _ & _ & _ & _ & N & _).
  - vm_compute. discriminate.
  - vm_compute. reflexivity.
  - vm_compute. discriminate.
  - vm_compute. reflexivity.
  - vm_compute. lia.
  - exists added. split; [exact A | exact N].
Defined.

Lemma tower_wear_witness :
  let br :=
    Bridge.setTowerHealth 500 (- (16 # 25))
      (fst (Bridge.damageSegment Bridge.calm 2 200 Bridge.sample)) in
  let lowLeft := Bridge.setTowerHealth (- (16 # 25)) 500 br in
  Bridge.quarterDown br 0.25 = true /\
  Bridge.quarterDown br 0.75 = false /\
  Bridge.leftTowerHealth (Bridge.wearFrames 10 br) == 499 /\
  Bridge.rightTowerHealth (Bridge.wearFrames 10 br) == - (16 # 25) /\
  Bridge.leftTowerHealth (Bridge.wearFrames 1 lowLeft) == 0.
Proof.
  intros br lowLeft.
  assert (Q1 : Bridge.quarterDown br 0.25 = true) by (vm_compute; reflexivity).
  assert (Q2 : Bridge.quarterDown br 0.75 = false)
    by (vm_compute; reflexivity).
  assert (Q3 : Bridge.quarterDown lowLeft 0.25 = true)
    by (vm_compute; reflexivity).
  destruct (tower_wear 10 br) as (_ & _ & _ & L & R & _).
  destruct (tower_wear 1 lowLeft) as (_ & _ & _ & L' & _).
  rewrite Q1 in L. rewrite Q2 in R. rewrite Q3 in L'.
  split; [exact Q1|]. split; [exact Q2|].
  split; [rewrite L; vm_compute; reflexivity|].
  split; [rewrite R; vm_compute; reflexivity|].
  rewrite L'. vm_compute. reflexivity.
Defined.

Lemma bridge_hit_frame_witness :
  length
    (Bridge.segments
       (fst (Bridge.takeDamage sqrt6 (fun _ => Bridge.calm) 30 500 706 200
               Bridge.sample)))
  = 8%nat.
Proof.
  assert (H : 0 <= 30) by (vm_compute; discriminate).
  exact (proj1 (bridge_hit_frame sqrt6 (fun _ => Bridge.calm) 30 500 706 200
                  Bridge.sample H)).
Defined.


Lemma meteor_flight_witness :
  let m := Meteor.new sqrt6 0.7 0 NuclearBomb.oneBuilding 500 400 in
  let r := Meteor.update sqrt6 1000 1000 (fun _ => Meteor.mkDraws
                                             Building.calm 0.5 0.5)
             (fun _ _ => Bridge.calm) [] m NuclearBomb.oneBuilding in
  Meteor.x (fst r) == 500 /\ Meteor.y (fst r) == 400.
Proof.
  assert (Ht : 0 < Meteor.travelTime
                     (Meteor.new sqrt6 0.7 0 NuclearBomb.oneBuilding 500 400))
    by (vm_compute; reflexivity).
  destruct (meteor_flight sqrt6 1000 1000
              (fun _ => Meteor.mkDraws Building.calm 0.5 0.5)
              (fun _ _ => Bridge.calm) []
              (Meteor.new sqrt6 0.7 0 NuclearBomb.oneBuilding 500 400)
              NuclearBomb.oneBuilding Ht eq_refl) as (_ & A & _).
  destruct A as (X & Y & _); [vm_compute; discriminate|].
  split; [exact X | exact Y].
Defined.

Lemma city1_layout_witness :
  let draws :=
    fun k : nat =>
      City.mkDraws (num (k mod 4) * 0.25) 0.5 0.5 0.5 0.5 0.5 0.5 0.5 in
  option_map
    (map (fun b => (Building.oid b, Qred (Building.x b),
                    Qred (Building.width b))))
    (City.buildCityLayout1 21 draws 400 800)
  = Some [(0%nat, 0, 30); (1%nat, 85 # 2, 85 # 2);
          (2%nat, 260, 135 # 2); (3%nat, 340, 30);
          (4%nat, 765 # 2, 85 # 2)] /\
  exists leftRow rightRow,
    City.buildCityLayout1 21 draws 400 800 = Some (leftRow ++ rightRow) /\
    NoDup (map Building.oid (leftRow ++ rightRow)).
Proof.
  intro draws. split; [vm_compute; reflexivity|].
  destruct (city1_layout 20 draws 400 800) as (l & r & E & _ & _ & _ & N & _).
  - intro k. unfold draws.
    cbn [City.rWidth City.rHeight City.rGap City.c1 City.c2].
    pose proof (Nat.mod_upper_bound k 4 ltac:(lia)) as U.
    destruct (k mod 4)%nat as [|[|[|[|n]]]]; [| | | |lia];
      repeat split; vm_compute; try discriminate; reflexivity.
  - vm_compute. reflexivity.
  - exists l, r. split; [exact E | exact N].
Defined.
